(* ===== verification/_CoqProject ===== *)
-Q . S2P
Prelude.v
Platform.v
GoStrings.v
Events.v
Redis.v
Instances.v
Inventory.v
InventorySpec.v
InventoryInv.v
InventoryTrace.v
InventoryLive.v
InventoryRace.v
InventoryRuns.v
InventoryProps.v
InventorySweeper.v
Apierr.v
Payment.v
Order.v
OrderSpec.v
OrderProps.v
System.v
Kafka.v
Outbox.v
OutboxSpec.v
OutboxProps.v
OutboxRace.v
InventoryRaceProps.v
StressTest.v
Backlog.v
Consumer.v
ConsumerProps.v
Analytics.v
AnalyticsProps.v
Notification.v
NotificationProps.v
EndToEnd.v
RateLimit.v
Hub.v
HubProps.v
Authz.v
Auth.v
AuthProps.v
AuthRace.v
Http.v
Gateway.v
GatewayProps.v
Stream.v
Grpc.v
Process.v
Lifecycle.v
LifecycleProps.v
Site.v
