(* ===== verification/Prelude.v ===== *)
(** * TicketWave: a verification library for the ticket platform

    TicketWave sells seats.  The browser talks to the gateway, which calls auth-svc,
    inventory-svc, order-svc and analytics-svc over gRPC.  Buying is a saga in order-svc:
    reserve at inventory-svc, charge at payment-svc, confirm, and undo what was done when a
    step fails.  Every change of an order or a seat is written to an outbox table in the
    transaction that makes it; a relay publishes the outbox to Kafka; analytics-svc and
    notification-svc consume order events, and realtime-svc shows seat events live.

    ** How the code is modelled

    A handler is a [prog S A] ([Platform.v]): a function of the service's state and of an
    [ambient], the outside of one run: the fates of its external calls (performed, lost, or
    performed with the answer lost), the UUIDs drawn, Go's clock and Postgres' clock.  Theorems
    quantify over ambients, so over every combination of failures.  Errors are values
    ([res], [error]) that keep what the code inspects of them.  Tables are finite maps, SQL
    statements are functions on them with their constraints ([Prelude.v]: [sql_select],
    [sql_update], [sql_count]); a transaction works on a copy that its commit installs.
    int32 and int64 conversions wrap as in Go; a BIGINT out of range is Postgres' error.
    Strings are byte strings ([GoStrings.v]).

    Code outside the repository is a parameter with its documented behaviour as laws: the UUID
    library, Postgres' reading and ordering of values ([UuidLib], [PgOrder]), protojson
    ([ProtoJson]), Redis ([RedisLib]), the Kafka broker ([KafkaPublisher]), JWT, bcrypt, SHA-256
    ([JwtLib], [AuthLib]), scanning JSON text and parsing media types and addresses
    ([HttpLib]).  [Instances.v] and the witnesses instantiate them with functions that compute.

    ** Files (paths under src/)

    - [Prelude.v], [Platform.v], [GoStrings.v], [Redis.v], [Instances.v]: the foundations.
    - [Events.v]: pkg/events and the outbox row.  [Apierr.v]: pkg/apierr.
    - [Inventory.v]: services/inventory/internal/server, one definition per handler and
      statement.  [InventorySpec.v]: [db_step], what one committed transaction may do, and
      that every handler refines it.  [InventoryInv.v]: table invariants and the replay of the
      outbox.  [InventoryTrace.v]: handlers and sweeper split into the atomic actions other
      goroutines can come between.  [InventoryLive.v]: outcomes when nothing fails.
      [InventoryProps.v]: no seat is sold twice, the outbox tells the seat map, the seats'
      state machine, when reservations, confirmations and releases succeed, reads.
      [InventorySweeper.v]: the sweeper's loop over time among other handlers; holds end
      between 5:00 and 5:30 minutes after the reservation.
    - [InventoryRace.v]: the transactions of inventory-svc statement by statement, with row
      locks and READ COMMITTED snapshots, and that every interleaving commits steps of
      [db_step] only.  [InventoryRuns.v]: an undisturbed call of a handler is a run of these
      statements.  [InventoryRaceProps.v]: serialisability, no deadlock when rows are locked in
      one order (and the deadlock when they are not), and the interleaving after which the
      order of the outbox tells a subscriber the wrong state of a seat.  [StressTest.v]:
      scripts/stresstest on top of it: exactly one of the twenty goroutines wins.
    - [Payment.v]: services/payment/internal/server.
    - [Order.v], [OrderSpec.v], [OrderProps.v]: services/order/internal/server; other requests
      interfere between any two external calls.  The saga leaves order, outbox, answer and
      calls consistent; charging discipline; idempotent retries.
    - [System.v]: the peers of order-svc as a contract, the saga against it, and inventory-svc
      and payment-svc satisfying it.
    - [Kafka.v], [Consumer.v], [ConsumerProps.v]: pkg/kafka.  Restarts and crashes are
      repeated runs of [RunConsumer]; nothing below the committed offset is skipped.
    - [Outbox.v], [OutboxSpec.v], [OutboxProps.v]: pkg/outbox.  What relays may do, as a step
      relation; that [publishBatch] does no more; the outbox is drained.  [OutboxRace.v]:
      [publishBatch] cut at its statements, any number of replicas and writers between them:
      at least once, exactly once without failures.
      [Backlog.v]: the metrics that watch the outbox, and that they follow the publisher.
    - [Analytics.v], [AnalyticsProps.v]: services/analytics.  [Notification.v],
      [NotificationProps.v]: services/notification.  [EndToEnd.v]: order-svc's database,
      through outbox and Kafka, to the statistics and the emails.
    - [RateLimit.v]: pkg/ratelimit.  [Authz.v]: pkg/authz, pkg/jwt.  [Auth.v],
      [AuthProps.v]: services/auth/internal/server; calls one after another, each with its own
      failures: refresh tokens rotate, reported reuse ends the user's sessions, accounts work.
      [AuthRace.v]: the transactions of Refresh statement by statement, with row locks and
      READ COMMITTED snapshots; a token is exchanged once under every interleaving, and the
      interleaving in which reuse detection misses a session.
    - [Hub.v], [HubProps.v]: services/realtime/internal/hub and feed, pkg/kafka/tail.go;
      subscriptions are cells of a shared heap and sending on or closing a closed channel is a
      panic.  [Stream.v]: services/realtime/internal/stream, one connection among all others:
      faithful while it lives, and ended by a shutdown.
    - [Http.v], [Gateway.v], [GatewayProps.v]: services/gateway/internal/httpapi.  The
      services are the interface [Services]; the error of a handler's run is a panic.  Which
      calls may be made for which request, and what every response is like.
    - [Grpc.v]: pkg/observability, the interceptors of every gRPC server and client: panics,
      log levels, the request ID on its way through the services.
    - [Process.v], [Lifecycle.v], [LifecycleProps.v]: services/*/cmd and internal/config,
      pkg/config, pkg/postgres, pkg/redis, pkg/jwt/keys.go and the constructors of pkg/kafka
      and pkg/observability.  A process is a program that opens resources, defers their
      closing and starts goroutines, run against an oracle for the outside; its trace says
      what was closed, in which order, and who could still be using it.
    - [Site.v]: the gateway's interface implemented by the services above; what the answer to
      a purchase request says about the databases behind it.

    ** Bounds and fuel

    Loops of the code that run for ever have fuel, one unit per iteration: [RunConsumer]
    (safety theorems hold for every fuel, and the theorem that everything is committed says
    how much is enough), and the publisher's [Run] (likewise).  Retry loops are bounded by
    the code's own constants.  Everything else is structural.

    ** Not modelled

    - How environment variables become settings and which options are passed to drivers and
      exporters: libraries read them.  pkg/pgtest and scripts/genkeys are calls of
      Postgres, RSA and the file system in a row.
    - Log lines, except the access log of the gateway and the lines of the gRPC interceptors;
      the stack trace in the line of a panic.
    - Retries inside the client libraries: a Kafka write that kafka-go repeats on its own can
      store a message twice without a failure the relay sees.
    - Timing: how long a retry waits, request timeouts (a fate of the call) and histograms.
    - Generated protobuf code beyond the message types; the web front end (TypeScript).
    - Handlers run their transactions in one piece.  That concurrent ones are serialised by
      the row locks of the code is proved for inventory-svc ([InventoryRace.v]) and for the
      refreshes of auth-svc ([AuthRace.v]); order-svc, payment-svc and analytics-svc insert
      rows or update rows by primary key, and their other transactions interfere between the
      calls of a handler.  Postgres' own choice of a scan order is left open.
    - In [Process.v] a goroutine counts as running until something waits for its end, and the
      functions of an errgroup run one after another: only what they open, close and return
      is in the trace. *)

From stdpp Require Import base gmap list strings sorting numbers fin_maps.

(** ** Tactics *)

(** Split every conjunction and existential of the context. *)
Ltac destr_hyps :=
  repeat match goal with
  | H : _ /\ _ |- _ => destruct H
  | H : exists _, _ |- _ => destruct H
  | H : (_, _) = (_, _) |- _ => injection H as; subst
  end.

(** Symbolic execution: case on whatever blocks the evaluation of the goal. *)
Ltac step_match :=
  match goal with
  | |- context [match ?x with _ => _ end] => destruct x eqn:?; simplify_eq/=
  end.

Ltac step_match_in H :=
  match type of H with
  | context [match ?x with _ => _ end] => destruct x eqn:?; simplify_eq/=
  end.

Ltac exec_in H := repeat step_match_in H; simplify_eq/=.

(** Turn boolean decisions of the context into propositions. *)
Ltac reflect_bools :=
  repeat match goal with
  | H : bool_decide _ = true |- _ => apply bool_decide_eq_true in H
  | H : bool_decide _ = false |- _ => apply bool_decide_eq_false in H
  | H : Is_true _ |- _ => apply Is_true_eq_true in H
  | H : _ && _ = true |- _ => apply andb_true_iff in H; destruct H
  | H : _ || _ = false |- _ => apply orb_false_iff in H; destruct H
  | H : negb _ = true |- _ => apply negb_true_iff in H
  | H : negb _ = false |- _ => apply negb_false_iff in H
  | H : (_ =? _)%Z = true |- _ => apply Z.eqb_eq in H
  | H : (_ =? _)%Z = false |- _ => apply Z.eqb_neq in H
  | H : (_ <? _)%Z = true |- _ => apply Z.ltb_lt in H
  | H : (_ <? _)%Z = false |- _ => apply Z.ltb_ge in H
  | H : (_ <=? _)%Z = true |- _ => apply Z.leb_le in H
  | H : (_ <=? _)%Z = false |- _ => apply Z.leb_gt in H
  end.

(** ** Lists *)

Lemma NoDup_fst_filter {A B} (P : A * B -> Prop) `{!forall x, Decision (P x)}
    (l : list (A * B)) :
  NoDup l.*1 -> NoDup (filter P l).*1.
Proof.
  induction l as [|[a b] l IH]; [done|]. rewrite filter_cons. cbn.
  intros [Hni Hnd]%NoDup_cons. case_decide; cbn; [|by apply IH].
  apply NoDup_cons. split; [|by apply IH].
  intros Hin. apply Hni. apply list_elem_of_fmap in Hin as ([a' b'] & -> & Hin).
  apply list_elem_of_filter in Hin as [_ Hin]. apply list_elem_of_fmap. by exists (a', b').
Qed.

Lemma filter_none {A} (P : A -> Prop) `{!forall x, Decision (P x)} (l : list A) :
  (forall x, x ∈ l -> ~ P x) -> filter P l = [].
Proof.
  induction l as [|x l IH]; [done|]. intros Hn. rewrite filter_cons.
  rewrite decide_False by (apply Hn; by left). apply IH. intros y Hy. apply Hn. by right.
Qed.

Lemma existsb_false {A} (p : A -> bool) (l : list A) :
  existsb p l = false -> forall x, x ∈ l -> p x = false.
Proof.
  induction l as [|y l IH]; cbn; [by intros _ x ?%not_elem_of_nil|].
  intros [Hy Hl]%orb_false_iff x [->|Hx]%elem_of_cons; auto.
Qed.

(** The first [n] elements of a sorted list: a page, and what is left for later pages. *)
Lemma merge_sort_page {A} (R : relation A) `{!RelDecision R} (l : list A) (n : nat) :
  Transitive R -> Total R ->
  let page := take n (merge_sort R l) in let rest := drop n (merge_sort R l) in
  page ++ rest ≡ₚ l /\ length page = n `min` length l /\ StronglySorted R page /\
  forall x y, x ∈ page -> y ∈ rest -> R x y.
Proof.
  intros Htr Htot page rest.
  assert (Hs : StronglySorted R (page ++ rest)).
  { unfold page, rest. rewrite take_drop. by apply StronglySorted_merge_sort. }
  apply StronglySorted_app in Hs as (Hcross & Hpage & _). split_and!; [| |done|done].
  - unfold page, rest. rewrite take_drop. apply merge_sort_Permutation.
  - unfold page. by rewrite length_take, (Permutation_length (merge_sort_Permutation R l)).
Qed.

(** A triple is made of its components. *)
Lemma run_eta {A B C} (x : A * B * C) : x = (x.1.1, x.1.2, x.2).
Proof. by destruct x as [[??]?]. Qed.

(** ** Tables: the SQL fragment the services use

    A table keyed by its primary key is a [gmap]; [WHERE] clauses are boolean
    predicates on a key and its row. *)

Section Tables.
Context {K V : Type} `{Countable K}.
Implicit Types (m : gmap K V) (P : K -> V -> bool).

(** [SELECT ... WHERE P]. SQL leaves the order of the rows open; this is the
    enumeration order of the map. *)
Definition sql_select P m : list (K * V) :=
  filter (fun kv => P kv.1 kv.2 = true) (map_to_list m).

(** [UPDATE ... SET row = f row WHERE P]. *)
Definition sql_update P (f : V -> V) m : gmap K V :=
  map_imap (fun k v => Some (if P k v then f v else v)) m.

(** The number of rows a statement with this [WHERE] touches. *)
Definition sql_count P m : nat := length (sql_select P m).

Lemma lookup_sql_update P f m k :
  sql_update P f m !! k = (fun v => if P k v then f v else v) <$> m !! k.
Proof. unfold sql_update. rewrite map_lookup_imap. by destruct (m !! k). Qed.

Lemma dom_sql_update P f m : dom (sql_update P f m) = dom m.
Proof.
  apply set_eq. intros k. rewrite !elem_of_dom, lookup_sql_update.
  by rewrite fmap_is_Some.
Qed.

Lemma sql_update_none P f m :
  (forall k v, m !! k = Some v -> P k v = false) -> sql_update P f m = m.
Proof.
  intros HP. apply map_eq. intros k. rewrite lookup_sql_update.
  destruct (m !! k) as [v|] eqn:E; [|done]. simpl. by rewrite (HP k v E).
Qed.

Lemma elem_of_sql_select P m k v :
  (k, v) ∈ sql_select P m <-> m !! k = Some v /\ P k v = true.
Proof.
  unfold sql_select. rewrite list_elem_of_filter, elem_of_map_to_list. naive_solver.
Qed.

Lemma NoDup_fst_sql_select P m : NoDup (sql_select P m).*1.
Proof. apply NoDup_fst_filter, NoDup_fst_map_to_list. Qed.

Lemma elem_of_fst_sql_select P m k :
  k ∈ (sql_select P m).*1 <-> exists v, m !! k = Some v /\ P k v = true.
Proof.
  rewrite list_elem_of_fmap. split.
  - intros ([k' v] & -> & Hin). apply elem_of_sql_select in Hin. by exists v.
  - intros (v & Hin). exists (k, v). by rewrite elem_of_sql_select.
Qed.

(** A select restricted to the keys [ids] that returns as many rows as there are
    keys returned every key, and the keys were distinct. *)
Lemma sql_select_full P m (ids : list K) :
  (forall k v, P k v = true -> k ∈ ids) ->
  sql_count P m = length ids -> (sql_select P m).*1 ≡ₚ ids.
Proof.
  intros HP Hlen. apply submseteq_length_Permutation.
  - apply NoDup_submseteq; [apply NoDup_fst_sql_select|].
    intros k (v & _ & Hk)%elem_of_fst_sql_select. eauto.
  - rewrite length_fmap. unfold sql_count in Hlen. lia.
Qed.

Lemma sql_select_full_inv P m (ids : list K) :
  (forall k v, P k v = true -> k ∈ ids) ->
  sql_count P m = length ids ->
  NoDup ids /\ forall k, k ∈ ids -> exists v, m !! k = Some v /\ P k v = true.
Proof.
  intros HP Hlen. pose proof (sql_select_full P m ids HP Hlen) as HE. split.
  - rewrite <- HE. apply NoDup_fst_sql_select.
  - intros k. rewrite <- HE. apply elem_of_fst_sql_select.
Qed.

(** Exactly one row matches. *)
Lemma sql_select_one P m k v :
  m !! k = Some v -> P k v = true -> (forall k' v', m !! k' = Some v' -> P k' v' = true -> k' = k) ->
  sql_select P m = [(k, v)].
Proof.
  intros Hk HP Hone. apply Permutation_singleton_r, NoDup_Permutation.
  - apply (NoDup_fmap_1 fst), NoDup_fst_sql_select.
  - apply NoDup_singleton.
  - intros [k' v']. rewrite elem_of_sql_select, list_elem_of_singleton. split.
    + intros [Hk' HP']. assert (k' = k) as -> by eauto. congruence.
    + by intros [= -> ->].
Qed.

Lemma sql_select_nil P m : sql_select P m = [] -> forall k v, m !! k = Some v -> P k v = false.
Proof.
  intros E k v Hk. destruct (P k v) eqn:HP; [|done]. exfalso.
  apply (not_elem_of_nil (k, v)). rewrite <- E. by apply elem_of_sql_select.
Qed.

(** A count is determined by the set of keys that match. *)
Lemma sql_count_keys P m (ks : list K) :
  NoDup ks -> (forall k, k ∈ ks <-> exists v, m !! k = Some v /\ P k v = true) ->
  sql_count P m = length ks.
Proof.
  intros Hnd Hks. unfold sql_count. rewrite <- (length_fmap fst).
  apply Permutation_length, NoDup_Permutation; [apply NoDup_fst_sql_select|done|].
  intros k. by rewrite elem_of_fst_sql_select, Hks.
Qed.

Lemma sql_count_ext P Q m m' :
  (forall k, (exists v, m !! k = Some v /\ P k v = true) <->
             (exists v, m' !! k = Some v /\ Q k v = true)) ->
  sql_count P m = sql_count Q m'.
Proof.
  intros HPQ. rewrite (sql_count_keys P m (sql_select Q m').*1).
  - by rewrite length_fmap.
  - apply NoDup_fst_sql_select.
  - intros k. by rewrite elem_of_fst_sql_select, HPQ.
Qed.

Lemma sql_update_ext P Q f m :
  (forall k v, m !! k = Some v -> P k v = Q k v) -> sql_update P f m = sql_update Q f m.
Proof.
  intros HPQ. apply map_eq. intros k. rewrite !lookup_sql_update.
  destruct (m !! k) as [v|] eqn:E; [|done]. cbn. by rewrite (HPQ k v E).
Qed.
End Tables.
