(* ===== verification/Platform.v ===== *)
(** * The platform under the services

    What every service of the repository is written on top of: Go errors and
    gRPC status errors, the UUID library, calls to other processes that can fail
    before or after they took effect, and Postgres transactions.  Handlers are
    programs of the monad [prog]: they read an [ambient] (the fate of each
    external call, the UUIDs [uuid.New] yields, the clocks), update the state of
    their service, and return a value or a Go error. *)

From stdpp Require Import base gmap list strings numbers.
From S2P Require Import Prelude.

(** ** Errors *)

(** The status codes of gRPC ([google.golang.org/grpc/codes]). *)
Inductive code :=
  | OK | Canceled | Unknown | InvalidArgument | DeadlineExceeded | NotFound
  | AlreadyExists | PermissionDenied | ResourceExhausted | FailedPrecondition
  | Aborted | OutOfRange | Unimplemented | Internal | Unavailable | DataLoss
  | Unauthenticated.

#[global] Instance code_eq_dec : EqDecision code.
Proof. solve_decision. Defined.

(** A detail attached to a status: [errdetails.ErrorInfo], or a message of another type. *)
Inductive detail :=
  | ErrorInfo (reason domain : string)
  | OtherDetail.

#[global] Instance detail_eq_dec : EqDecision detail.
Proof. solve_decision. Defined.

(** Go error values, by what the code inspects of them. *)
Inductive error :=
  | EStatus (c : code) (msg : string) (ds : list detail)  (* status.Error *)
  | EPg (sqlstate constraint : string)                    (* *pgconn.PgError *)
  | ENoRows                                               (* pgx.ErrNoRows *)
  | EConn                                                 (* a connection or driver failure *)
  | EText (msg : string)                                  (* errors.New *)
  | EWrap (ctx : string) (e : error).                     (* fmt.Errorf("ctx: %w", e) *)

#[global] Instance error_eq_dec : EqDecision error.
Proof. solve_decision. Defined.

(** The outcome of a Go function that returns [(A, error)]. *)
Inductive res (A : Type) :=
  | Ok (x : A)
  | Err (e : error).
Arguments Ok {A} x.
Arguments Err {A} e.

#[global] Instance res_eq_dec {A} `{!EqDecision A} : EqDecision (res A).
Proof. solve_decision. Defined.

Definition is_ok {A} (r : res A) : bool := match r with Ok _ => true | Err _ => false end.

(** [codes.Code.String] *)
Definition code_string (c : code) : string :=
  match c with
  | OK => "OK" | Canceled => "Canceled" | Unknown => "Unknown" | InvalidArgument => "InvalidArgument"
  | DeadlineExceeded => "DeadlineExceeded" | NotFound => "NotFound" | AlreadyExists => "AlreadyExists"
  | PermissionDenied => "PermissionDenied" | ResourceExhausted => "ResourceExhausted"
  | FailedPrecondition => "FailedPrecondition" | Aborted => "Aborted" | OutOfRange => "OutOfRange"
  | Unimplemented => "Unimplemented" | Internal => "Internal" | Unavailable => "Unavailable"
  | DataLoss => "DataLoss" | Unauthenticated => "Unauthenticated"
  end.

(** [err.Error()]; the drivers' own texts are abbreviated. *)
Fixpoint error_string (e : error) : string :=
  match e with
  | EStatus c msg _ => "rpc error: code = " ++ code_string c ++ " desc = " ++ msg
  | EPg st _ => "ERROR (SQLSTATE " ++ st ++ ")"
  | ENoRows => "no rows in result set"
  | EConn => "connection failed"
  | EText msg => msg
  | EWrap ctx e => ctx ++ ": " ++ error_string e
  end.

(** [status.FromError]: a status error, also when it is wrapped (its message is
    then the whole error's text); [None] for an error that carries no status. *)
Fixpoint unwrap_status (e : error) : option (code * string * list detail) :=
  match e with
  | EStatus c msg ds => Some (c, msg, ds)
  | EWrap _ e' => unwrap_status e'
  | _ => None
  end.

Definition from_error (e : error) : option (code * string * list detail) :=
  match e with
  | EStatus c msg ds => Some (c, msg, ds)
  | _ => match unwrap_status e with
         | Some (c, _, ds) => Some (c, error_string e, ds)
         | None => None
         end
  end.

(** [status.Code] of a non-nil error. *)
Definition status_code (e : error) : code :=
  match from_error e with Some (c, _, _) => c | None => Unknown end.

(** What a gRPC client sees of an error a handler returned: an error without a
    status travels as [Unknown] with its text. *)
Definition over_the_wire (e : error) : error :=
  match from_error e with
  | Some (c, msg, ds) => EStatus c msg ds
  | None => EStatus Unknown (error_string e) []
  end.

(** [errors.As(err, *pgconn.PgError)]. *)
Fixpoint as_pg (e : error) : option (string * string) :=
  match e with
  | EPg st con => Some (st, con)
  | EWrap _ e' => as_pg e'
  | _ => None
  end.

Definition unique_violation : string := "23505".
Definition foreign_key_violation : string := "23503".
Definition check_violation : string := "23514".
Definition invalid_text : string := "22P02".
Definition out_of_range : string := "22003".

(** ** The UUID library ([github.com/google/uuid]) and Postgres' reading of a UUID

    [uuid_parse] is [uuid.Parse], [uuid_string] is [UUID.String], [pg_uuid] is
    how Postgres reads a text parameter of type [uuid]. *)
Class UuidLib : Type := {
  UUID : Type;
  UUID_eq_dec :: EqDecision UUID;
  UUID_countable :: Countable UUID;
  uuid_parse : string -> option UUID;
  uuid_string : UUID -> string;
  pg_uuid : string -> option UUID;
}.

(** The documented behaviour: printing is a right inverse of both readers, and
    a text both readers accept denotes the same UUID. *)
Class UuidLaws (U : UuidLib) : Prop := {
  uuid_parse_string : forall u, uuid_parse (uuid_string u) = Some u;
  pg_uuid_string : forall u, pg_uuid (uuid_string u) = Some u;
  pg_uuid_parse : forall s u v, uuid_parse s = Some u -> pg_uuid s = Some v -> u = v;
}.

#[global] Instance uuid_string_inj (U : UuidLib) `{!UuidLaws U} : Inj (=) (=) uuid_string.
Proof.
  intros u v E. apply (f_equal uuid_parse) in E.
  rewrite !uuid_parse_string in E. congruence.
Qed.

(** How Postgres orders text ([ORDER BY label] follows the database's collation)
    and UUIDs. *)
Class PgOrder (U : UuidLib) : Type := {
  text_le : relation string;
  text_le_dec :: RelDecision text_le;
  uuid_le : relation UUID;
  uuid_le_dec :: RelDecision uuid_le;
}.

(** ** External calls *)

(** The status a gRPC client reports when the transport failed. *)
Inductive transport := TUnavailable | TDeadlineExceeded | TCanceled.

Definition transport_code (t : transport) : code :=
  match t with
  | TUnavailable => Unavailable
  | TDeadlineExceeded => DeadlineExceeded
  | TCanceled => Canceled
  end.

(** What becomes of one call to another process: it is performed and answered, it
    is never performed, or it is performed and the answer is lost. *)
Inductive fate :=
  | Done
  | Lost (t : transport)
  | ReplyLost (t : transport).

Definition fate_ok (f : fate) : bool := match f with Done => true | _ => false end.

Section Programs.
Context `{U : UuidLib}.

(** What a handler run reads from outside: the fates of its external calls in
    order ([Done] once the list is used up), the UUIDs of [uuid.New], Go's
    [time.Now] and Postgres' [now()], both in nanoseconds. *)
Record ambient := Ambient {
  amb_fates : list fate;
  amb_uuid : nat -> UUID;
  amb_next : nat;
  amb_now : Z;
  amb_txnow : Z;
}.

Definition prog (S A : Type) : Type := ambient -> S -> res A * ambient * S.

#[global] Instance prog_ret S : MRet (prog S) := fun A x a s => (Ok x, a, s).
#[global] Instance prog_bind S : MBind (prog S) := fun A B k m a s =>
  match m a s with
  | (Ok x, a', s') => k x a' s'
  | (Err e, a', s') => (Err e, a', s')
  end.

Definition throw {S A} (e : error) : prog S A := fun a s => (Err e, a, s).

(** Run [m] and hand its outcome, error included, to the rest. *)
Definition attempt {S A} (m : prog S A) : prog S (res A) := fun a s =>
  match m a s with (r, a', s') => (Ok r, a', s') end.

Definition lift_res {S A} (r : res A) : prog S A :=
  match r with Ok x => mret x | Err e => throw e end.

Definition get_state {S} : prog S S := fun a s => (Ok s, a, s).
Definition modify {S} (f : S -> S) : prog S unit := fun a s => (Ok tt, a, f s).

Definition pop_fate (a : ambient) : fate * ambient :=
  match amb_fates a with
  | [] => (Done, a)
  | f :: fs => (f, Ambient fs (amb_uuid a) (amb_next a) (amb_now a) (amb_txnow a))
  end.

Definition next_fate {S} : prog S fate := fun a s =>
  let (f, a') := pop_fate a in (Ok f, a', s).

(** [uuid.New()] *)
Definition uuid_new {S} : prog S UUID := fun a s =>
  (Ok (amb_uuid a (amb_next a)),
   Ambient (amb_fates a) (amb_uuid a) (Datatypes.S (amb_next a)) (amb_now a) (amb_txnow a), s).

(** [time.Now()] and Postgres' [now()]. *)
Definition time_now {S} : prog S Z := fun a s => (Ok (amb_now a), a, s).
Definition tx_now {S} : prog S Z := fun a s => (Ok (amb_txnow a), a, s).

(** A statement inside a transaction, or a read: if it fails, nothing changed. *)
Definition pg_call {S} (wrap : error -> error) : prog S unit :=
  f ← next_fate; if fate_ok f then mret tt else throw (wrap EConn).

(** A text parameter Postgres reads as [uuid] (or [uuid[]]). *)
Definition pg_arg {S} (wrap : error -> error) (s : string) : prog S UUID :=
  match pg_uuid s with Some u => mret u | None => throw (wrap (EPg invalid_text "")) end.
Definition pg_args {S} (wrap : error -> error) (l : list string) : prog S (list UUID) :=
  match mapM pg_uuid l with Some us => mret us | None => throw (wrap (EPg invalid_text "")) end.

(** ** Postgres transactions *)

(** A service state [S] that holds a database [D]. *)
Class HasDb (S D : Type) := {
  db_get : S -> D;
  db_set : D -> S -> S;
}.

Class HasDbLaws (S D : Type) `{HasDb S D} : Prop := {
  db_get_set : forall d s, db_get (db_set d s) = d;
  db_set_get : forall s, db_set (db_get s) s = s;
  db_set_set : forall d d' s, db_set d (db_set d' s) = db_set d s;
}.

(** [COMMIT]: the changes take effect and the call returns, or they are lost, or
    they take effect and the answer is lost. *)
Definition tx_commit {S D} `{HasDb S D} (wrap : error -> error) (d : D) : prog S unit :=
  f ← next_fate;
  match f with
  | Done => modify (db_set d)
  | Lost _ => throw (wrap EConn)
  | ReplyLost _ => _ ← modify (db_set d); throw (wrap EConn)
  end.

(** [pool.Begin]: the transaction works on the database as it is now. *)
Definition tx_begin {S D} `{HasDb S D} (wrap : error -> error) : prog S D :=
  _ ← pg_call wrap; s ← get_state; mret (db_get s).

(** [pgx.BeginFunc]: commit when the body succeeds, roll back when it fails.
    The body gets the transaction's view and returns the changed one. *)
Definition begin_func {S D A} `{HasDb S D} (body : D -> prog S (A * D)) : prog S A :=
  tx ← tx_begin id;
  '(x, tx') ← body tx;
  _ ← tx_commit id tx';
  mret x.

(** A statement outside a transaction ([pool.Exec]): it is its own transaction.
    The statement itself can be refused by a constraint. *)
Definition pool_exec {S D A} `{HasDb S D} (wrap : error -> error)
    (stmt : D -> res (A * D)) : prog S A :=
  f ← next_fate;
  match f with
  | Lost _ => throw (wrap EConn)
  | _ => s ← get_state;
         match stmt (db_get s) with
         | Err e => throw (wrap e)
         | Ok (x, d) => _ ← modify (db_set d);
                        if fate_ok f then mret x else throw (wrap EConn)
         end
  end.

(** ** gRPC calls *)

(** A unary call of handler [h], seen from the client. *)
Definition rpc {S A} (h : prog S A) : prog S A :=
  f ← next_fate;
  match f with
  | Lost t => throw (EStatus (transport_code t) "transport failure" [])
  | Done => r ← attempt h;
            match r with Ok x => mret x | Err e => throw (over_the_wire e) end
  | ReplyLost t => _ ← attempt h;
                   throw (EStatus (transport_code t) "transport failure" [])
  end.
End Programs.

Arguments ambient {U}.
Arguments prog {U} S A.

(** ** Reasoning about programs *)

Section Wp.
Context `{U : UuidLib} {S : Type}.

(** The fate of the next external call, and the ambient after it. *)
Definition head_fate (a : ambient) : fate := (pop_fate a).1.
Definition drop_fate (a : ambient) : ambient := (pop_fate a).2.
Definition drop_uuid (a : ambient) : ambient :=
  Ambient (amb_fates a) (amb_uuid a) (Datatypes.S (amb_next a)) (amb_now a) (amb_txnow a).

(** No external call fails. *)
Definition no_faults (a : ambient) : Prop := amb_fates a = [].

(** The run of [m] from [a] and [s] ends in an outcome that satisfies [Q]. *)
Definition wp {A} (m : prog S A) (Q : res A -> ambient -> S -> Prop)
    (a : ambient) (s : S) : Prop :=
  let '(r, a', s') := m a s in Q r a' s'.

Implicit Types (a : ambient) (s : S).

Lemma wp_run {A} (m : prog S A) Q a s r a' s' :
  m a s = (r, a', s') -> wp m Q a s -> Q r a' s'.
Proof. unfold wp. by intros ->. Qed.

Lemma wp_elim {A} (m : prog S A) Q a s :
  wp m Q a s -> forall r a' s', m a s = (r, a', s') -> Q r a' s'.
Proof. unfold wp. intros Hw r a' s' E. by rewrite E in Hw. Qed.

Lemma wp_mono {A} (m : prog S A) (P Q : res A -> ambient -> S -> Prop) a s :
  wp m P a s -> (forall r a' s', P r a' s' -> Q r a' s') -> wp m Q a s.
Proof. unfold wp. destruct (m a s) as [[??]?]. auto. Qed.

Lemma wp_conj {A} (m : prog S A) (P Q : res A -> ambient -> S -> Prop) a s :
  wp m P a s -> wp m Q a s -> wp m (fun r a s => P r a s /\ Q r a s) a s.
Proof. unfold wp. destruct (m a s) as [[??]?]. auto. Qed.

Lemma wp_ret {A} (x : A) (Q : res A -> ambient -> S -> Prop) a s :
  Q (Ok x) a s -> wp (mret x) Q a s.
Proof. done. Qed.

Lemma wp_bind {A B} (m : prog S A) (k : A -> prog S B) Q a s :
  wp m (fun r a' s' => match r with Ok x => wp (k x) Q a' s' | Err e => Q (Err e) a' s' end) a s ->
  wp (m ≫= k) Q a s.
Proof. unfold wp, mbind, prog_bind. by destruct (m a s) as [[[x|e] a'] s']. Qed.

Lemma wp_throw {A} e (Q : res A -> ambient -> S -> Prop) a s : Q (Err e) a s -> wp (throw e) Q a s.
Proof. done. Qed.

Lemma wp_attempt {A} (m : prog S A) Q a s :
  wp m (fun r a' s' => Q (Ok r) a' s') a s -> wp (attempt m) Q a s.
Proof. unfold wp, attempt. by destruct (m a s) as [[??]?]. Qed.

Lemma wp_lift_res {A} (r : res A) (Q : res A -> ambient -> S -> Prop) a s :
  Q r a s -> wp (lift_res r) Q a s.
Proof. by destruct r. Qed.

Lemma wp_get_state (Q : res S -> ambient -> S -> Prop) a s : Q (Ok s) a s -> wp get_state Q a s.
Proof. done. Qed.

Lemma wp_modify f (Q : res unit -> ambient -> S -> Prop) a s : Q (Ok tt) a (f s) -> wp (modify f) Q a s.
Proof. done. Qed.

Lemma wp_next_fate (Q : res fate -> ambient -> S -> Prop) a s :
  Q (Ok (head_fate a)) (drop_fate a) s -> wp next_fate Q a s.
Proof. unfold wp, next_fate, head_fate, drop_fate. by destruct (pop_fate a). Qed.

Lemma wp_uuid_new (Q : res UUID -> ambient -> S -> Prop) a s :
  Q (Ok (amb_uuid a (amb_next a))) (drop_uuid a) s -> wp uuid_new Q a s.
Proof. done. Qed.

Lemma wp_time_now (Q : res Z -> ambient -> S -> Prop) a s : Q (Ok (amb_now a)) a s -> wp time_now Q a s.
Proof. done. Qed.

Lemma wp_tx_now (Q : res Z -> ambient -> S -> Prop) a s : Q (Ok (amb_txnow a)) a s -> wp tx_now Q a s.
Proof. done. Qed.

Lemma wp_pg_call w (Q : res unit -> ambient -> S -> Prop) a s :
  Q (Ok tt) (drop_fate a) s ->
  (head_fate a <> Done -> Q (Err (w EConn)) (drop_fate a) s) ->
  wp (pg_call w) Q a s.
Proof.
  intros H1 H2. apply wp_bind, wp_next_fate.
  destruct (head_fate a) eqn:E; [done| |]; by apply wp_throw, H2.
Qed.

Lemma wp_pg_arg w str (Q : res UUID -> ambient -> S -> Prop) a s :
  (forall u, pg_uuid str = Some u -> Q (Ok u) a s) ->
  (pg_uuid str = None -> Q (Err (w (EPg invalid_text ""))) a s) ->
  wp (pg_arg w str) Q a s.
Proof. unfold pg_arg. intros H1 H2. destruct (pg_uuid str); [apply wp_ret|apply wp_throw]; eauto. Qed.

Lemma wp_pg_args w l (Q : res (list UUID) -> ambient -> S -> Prop) a s :
  (forall us, mapM pg_uuid l = Some us -> Q (Ok us) a s) ->
  (mapM pg_uuid l = None -> Q (Err (w (EPg invalid_text ""))) a s) ->
  wp (pg_args w l) Q a s.
Proof. unfold pg_args. intros H1 H2. destruct (mapM pg_uuid l); [apply wp_ret|apply wp_throw]; eauto. Qed.

Lemma wp_tx_begin {D} `{!HasDb S D} w (Q : res D -> ambient -> S -> Prop) a s :
  Q (Ok (db_get s)) (drop_fate a) s ->
  (head_fate a <> Done -> Q (Err (w EConn)) (drop_fate a) s) ->
  wp (tx_begin w) Q a s.
Proof. intros H1 H2. apply wp_bind, wp_pg_call; done. Qed.

Lemma wp_tx_commit {D} `{!HasDb S D} w (d : D) (Q : res unit -> ambient -> S -> Prop) a s :
  Q (Ok tt) (drop_fate a) (db_set d s) ->
  (head_fate a <> Done ->
     Q (Err (w EConn)) (drop_fate a) (db_set d s) /\ Q (Err (w EConn)) (drop_fate a) s) ->
  wp (tx_commit w d) Q a s.
Proof.
  intros H1 H2. apply wp_bind, wp_next_fate.
  destruct (head_fate a) eqn:E; [done| |]; by apply wp_throw, H2.
Qed.

Lemma wp_begin_func {D A} `{!HasDb S D} (body : D -> prog S (A * D)) Q a s :
  (head_fate a <> Done -> Q (Err EConn) (drop_fate a) s) ->
  wp (body (db_get s)) (fun r a' s' =>
    match r with
    | Ok (x, d) => Q (Ok x) (drop_fate a') (db_set d s') /\
        (head_fate a' <> Done -> Q (Err EConn) (drop_fate a') (db_set d s') /\
                                 Q (Err EConn) (drop_fate a') s')
    | Err e => Q (Err e) a' s'
    end) (drop_fate a) s ->
  wp (begin_func body) Q a s.
Proof.
  intros H1 H2. apply wp_bind, wp_tx_begin; [|done].
  apply wp_bind. eapply wp_mono; [exact H2|]. intros [[x d]|e] a' s'; [|done].
  intros [H3 H4]. apply wp_bind, wp_tx_commit; done.
Qed.

Lemma wp_pool_exec {D A} `{!HasDb S D} w (stmt : D -> res (A * D)) Q a s :
  (head_fate a <> Done -> Q (Err (w EConn)) (drop_fate a) s) ->
  (match stmt (db_get s) with
   | Err e => Q (Err (w e)) (drop_fate a) s
   | Ok (x, d) => Q (Ok x) (drop_fate a) (db_set d s) /\
       (head_fate a <> Done -> Q (Err (w EConn)) (drop_fate a) (db_set d s))
   end) ->
  wp (pool_exec w stmt) Q a s.
Proof.
  intros H1 H2. apply wp_bind, wp_next_fate.
  destruct (head_fate a) eqn:E; [| by apply wp_throw, H1 |];
    apply wp_bind, wp_get_state; destruct (stmt (db_get s)) as [[x d]|e];
    [| by apply wp_throw | | by apply wp_throw]; apply wp_bind, wp_modify; cbn.
  - apply wp_ret, H2.
  - apply wp_throw. by apply H2.
Qed.

Lemma wp_rpc {A} (h : prog S A) Q a s :
  (head_fate a <> Done ->
   forall t, Q (Err (EStatus (transport_code t) "transport failure" [])) (drop_fate a) s) ->
  wp h (fun r a' s' =>
    Q (match r with Ok x => Ok x | Err e => Err (over_the_wire e) end) a' s' /\
    (head_fate a <> Done ->
     forall t, Q (Err (EStatus (transport_code t) "transport failure" [])) a' s')) (drop_fate a) s ->
  wp (rpc h) Q a s.
Proof.
  intros H1 H2. apply wp_bind, wp_next_fate.
  destruct (head_fate a) eqn:E; [| by apply wp_throw, H1 |]; apply wp_bind, wp_attempt;
    (eapply wp_mono; [exact H2|]); cbn; intros r a' s' [H3 H4].
  - destruct r; done.
  - by apply wp_throw, H4.
Qed.

(** *** The ambient along a run *)

Lemma drop_fate_now a : amb_now (drop_fate a) = amb_now a.
Proof. unfold drop_fate, pop_fate. by destruct (amb_fates a). Qed.
Lemma drop_fate_txnow a : amb_txnow (drop_fate a) = amb_txnow a.
Proof. unfold drop_fate, pop_fate. by destruct (amb_fates a). Qed.
Lemma drop_fate_uuid a : amb_uuid (drop_fate a) = amb_uuid a.
Proof. unfold drop_fate, pop_fate. by destruct (amb_fates a). Qed.
Lemma drop_fate_next a : amb_next (drop_fate a) = amb_next a.
Proof. unfold drop_fate, pop_fate. by destruct (amb_fates a). Qed.
Lemma drop_uuid_now a : amb_now (drop_uuid a) = amb_now a.
Proof. done. Qed.
Lemma drop_uuid_txnow a : amb_txnow (drop_uuid a) = amb_txnow a.
Proof. done. Qed.
Lemma drop_uuid_uuid a : amb_uuid (drop_uuid a) = amb_uuid a.
Proof. done. Qed.
Lemma drop_uuid_next a : amb_next (drop_uuid a) = Datatypes.S (amb_next a).
Proof. done. Qed.
Lemma head_fate_none a : no_faults a -> head_fate a = Done.
Proof. unfold no_faults, head_fate, pop_fate. by intros ->. Qed.
Lemma no_faults_drop a : no_faults a -> no_faults (drop_fate a).
Proof. unfold no_faults, drop_fate, pop_fate. intros E. by rewrite E. Qed.
Lemma no_faults_uuid a : no_faults a -> no_faults (drop_uuid a).
Proof. done. Qed.
Lemma drop_fate_none a : no_faults a -> drop_fate a = a.
Proof. unfold no_faults, drop_fate, pop_fate. by intros ->. Qed.

(** *** Runs without faults, as equations *)

Lemma bind_run {A B} (m : prog S A) (k : A -> prog S B) a s x a' s' :
  m a s = (Ok x, a', s') -> (m ≫= k) a s = k x a' s'.
Proof. unfold mbind, prog_bind. by intros ->. Qed.

Lemma attempt_run {A} (m : prog S A) a s r a' s' :
  m a s = (r, a', s') -> attempt m a s = (Ok r, a', s').
Proof. unfold attempt. by intros ->. Qed.

Lemma pg_call_run w a s : no_faults a -> pg_call w a s = (Ok tt, a, s).
Proof.
  intros Hnf. unfold pg_call, mbind, prog_bind, next_fate, pop_fate. rewrite Hnf. done.
Qed.

Lemma pool_exec_run {D A} `{!HasDb S D} w (stmt : D -> res (A * D)) a s x d :
  no_faults a -> stmt (db_get s) = Ok (x, d) -> pool_exec w stmt a s = (Ok x, a, db_set d s).
Proof.
  intros Hnf Hs. unfold pool_exec, mbind, prog_bind, next_fate, pop_fate, get_state. rewrite Hnf.
  by rewrite Hs.
Qed.
End Wp.

Create HintDb prog discriminated.
#[export] Hint Rewrite @drop_fate_now @drop_fate_txnow @drop_fate_uuid @drop_fate_next
  @drop_uuid_now @drop_uuid_txnow @drop_uuid_uuid @drop_uuid_next : prog.
#[export] Hint Resolve no_faults_drop no_faults_uuid head_fate_none : prog.

Arguments wp {U S A} m Q a s : simpl never.

(** One step of symbolic execution.  Loops and calls with a lemma of their own are
    left to the caller. *)
Ltac wp_step :=
  lazymatch goal with
  | |- wp (mret _) _ _ _ => apply wp_ret
  | |- wp (throw _) _ _ _ => apply wp_throw
  | |- wp (mbind _ _) _ _ _ => apply wp_bind
  | |- wp (lift_res _) _ _ _ => apply wp_lift_res
  | |- wp (attempt _) _ _ _ => apply wp_attempt
  | |- wp get_state _ _ _ => apply wp_get_state
  | |- wp (modify _) _ _ _ => apply wp_modify
  | |- wp next_fate _ _ _ => apply wp_next_fate
  | |- wp uuid_new _ _ _ => apply wp_uuid_new
  | |- wp time_now _ _ _ => apply wp_time_now
  | |- wp tx_now _ _ _ => apply wp_tx_now
  | |- wp (pg_call _) _ _ _ => apply wp_pg_call; [|intros ?]
  | |- wp (tx_begin _) _ _ _ => apply wp_tx_begin; [|intros ?]
  | |- wp (tx_commit _ _) _ _ _ => apply wp_tx_commit; [|intros ?; split]
  | |- wp (begin_func _) _ _ _ => apply wp_begin_func; [intros ?|]
  | |- wp (match ?x with _ => _ end) _ _ _ => destruct x eqn:?
  | |- wp (let _ := _ in _) _ _ _ => cbv zeta
  end.

Ltac wp_steps := repeat (wp_step; cbv beta iota).

(** Turn a goal about every outcome of a run into a [wp]. *)
Ltac wp_start := refine (wp_elim _ _ _ _ _).

(** Discharge the branch of a failed call in a run without faults. *)
Ltac no_fault :=
  match goal with
  | Hf : head_fate ?a <> Done |- _ =>
      exfalso; apply Hf, head_fate_none; auto with prog
  end.
