(* ===== verification/GoStrings.v ===== *)
(** * The parts of Go's standard library the services use on strings

    A Go string is a byte string.  [utf8] decodes it into runes, [strings.TrimSpace]
    cuts Unicode white space from both ends, and the two regular expressions of the
    repository are boolean tests on bytes. *)

From Stdlib Require Import Ascii String DecimalString DecimalPos DecimalZ.
From stdpp Require Import base list strings numbers.
From S2P Require Import Prelude.

(** ** UTF-8 ([unicode/utf8]) *)

Definition byte_z (b : ascii) : Z := Z.of_N (N_of_ascii b).
Definition between (lo hi x : Z) : bool := (lo <=? x)%Z && (x <=? hi)%Z.

(** [utf8.RuneError] *)
Definition rune_error : Z := 65533.

(** The range of the second byte a leading byte asks for, and the rune's width;
    [None] for a byte that starts no multi-byte rune. *)
Definition lead (b : Z) : option (nat * Z * Z) :=
  if between 194 223 b then Some (2, 128%Z, 191%Z)
  else if (b =? 224)%Z then Some (3, 160%Z, 191%Z)
  else if (b =? 237)%Z then Some (3, 128%Z, 159%Z)
  else if between 225 239 b then Some (3, 128%Z, 191%Z)
  else if (b =? 240)%Z then Some (4, 144%Z, 191%Z)
  else if between 241 243 b then Some (4, 128%Z, 191%Z)
  else if (b =? 244)%Z then Some (4, 128%Z, 143%Z)
  else None.

Definition cont (b : ascii) : bool := between 128 191 (byte_z b).
Definition low6 (b : ascii) : Z := Z.land (byte_z b) 63.

(** [utf8.DecodeRuneInString]: the first rune and its width in bytes. *)
Definition decode_rune (l : list ascii) : Z * nat :=
  match l with
  | [] => (rune_error, 0)
  | b0 :: l' =>
      let z := byte_z b0 in
      if (z <? 128)%Z then (z, 1) else
      match lead z, l' with
      | Some (2, lo, hi), b1 :: _ =>
          if between lo hi (byte_z b1)
          then (Z.lor (Z.shiftl (Z.land z 31) 6) (low6 b1), 2) else (rune_error, 1)
      | Some (3, lo, hi), b1 :: b2 :: _ =>
          if between lo hi (byte_z b1) && cont b2
          then (Z.lor (Z.shiftl (Z.land z 15) 12) (Z.lor (Z.shiftl (low6 b1) 6) (low6 b2)), 3)
          else (rune_error, 1)
      | Some (4, lo, hi), b1 :: b2 :: b3 :: _ =>
          if between lo hi (byte_z b1) && cont b2 && cont b3
          then (Z.lor (Z.shiftl (Z.land z 7) 18)
                 (Z.lor (Z.shiftl (low6 b1) 12) (Z.lor (Z.shiftl (low6 b2) 6) (low6 b3))), 4)
          else (rune_error, 1)
      | _, _ => (rune_error, 1)
      end
  end.

(** The runes of a byte string with the bytes each one takes. *)
Fixpoint segments (fuel : nat) (l : list ascii) : list (Z * list ascii) :=
  match fuel, l with
  | S n, _ :: _ => let (r, w) := decode_rune l in (r, take w l) :: segments n (drop w l)
  | _, _ => []
  end.

Definition runes (s : string) : list (Z * list ascii) :=
  let l := list_ascii_of_string s in segments (length l) l.

(** [utf8.RuneCountInString] *)
Definition rune_count (s : string) : Z := Z.of_nat (length (runes s)).

(** [unicode.IsSpace] *)
Definition is_space (r : Z) : bool :=
  between 9 13 r || (r =? 32)%Z || (r =? 133)%Z || (r =? 160)%Z || (r =? 5760)%Z
  || between 8192 8202 r || (r =? 8232)%Z || (r =? 8233)%Z || (r =? 8239)%Z
  || (r =? 8287)%Z || (r =? 12288)%Z.

Fixpoint drop_while {A} (p : A -> bool) (l : list A) : list A :=
  match l with
  | [] => []
  | x :: l' => if p x then drop_while p l' else l
  end.

Definition seg_space (x : Z * list ascii) : bool := is_space x.1.

(** [strings.TrimSpace] *)
Definition trim_space (s : string) : string :=
  let kept := reverse (drop_while seg_space (reverse (drop_while seg_space (runes s)))) in
  string_of_list_ascii (concat (map snd kept)).

(** ** Regular expressions *)

Definition is_digit (z : Z) : bool := between 48 57 z.
Definition is_upper (z : Z) : bool := between 65 90 z.
Definition is_lower (z : Z) : bool := between 97 122 z.

Definition token_byte (b : ascii) : bool :=
  let z := byte_z b in is_upper z || is_lower z || is_digit z || (z =? 95)%Z || (z =? 45)%Z.

(** [^[A-Za-z0-9_-]{1,64}$] *)
Definition match_token (s : string) : bool :=
  let l := list_ascii_of_string s in
  between 1 64 (Z.of_nat (length l)) && forallb token_byte l.

Definition ident_start (b : ascii) : bool :=
  let z := byte_z b in is_lower z || (z =? 95)%Z.
Definition ident_byte (b : ascii) : bool := ident_start b || is_digit (byte_z b).

(** [^[a-z_][a-z0-9_]{0,62}$] *)
Definition match_identifier (s : string) : bool :=
  match list_ascii_of_string s with
  | [] => false
  | b :: l => ident_start b && (Z.of_nat (length l) <=? 62)%Z && forallb ident_byte l
  end.

(** ** Numbers *)

(** [strconv.Itoa], [%d] *)
Definition itoa (z : Z) : string := NilZero.string_of_int (Z.to_int z).

(** The integer a decimal text denotes. *)
Definition atoi (s : string) : option Z := Z.of_int <$> NilZero.int_of_string s.

(** [int32(z)] and [int64(z)] *)
Definition to_int32 (z : Z) : Z := ((z + 2 ^ 31) mod 2 ^ 32 - 2 ^ 31)%Z.
Definition to_int64 (z : Z) : Z := ((z + 2 ^ 63) mod 2 ^ 64 - 2 ^ 63)%Z.
Definition int32 (z : Z) : Prop := (- 2 ^ 31 <= z < 2 ^ 31)%Z.
Definition int64 (z : Z) : Prop := (- 2 ^ 63 <= z < 2 ^ 63)%Z.
Definition int64_b (z : Z) : bool := between (- 2 ^ 63) (2 ^ 63 - 1) z.

(** ** Lemmas *)

Lemma decode_rune_width l : l <> [] -> 1 <= (decode_rune l).2.
Proof.
  destruct l as [|b l]; [done|]. intros _. unfold decode_rune.
  destruct (byte_z b <? 128)%Z; [cbn; lia|].
  repeat case_match; cbn; lia.
Qed.

Lemma segments_concat n l : length l <= n -> concat (map snd (segments n l)) = l.
Proof.
  revert l. induction n as [|n IH]; intros l Hl.
  { destruct l; [done|cbn in Hl; lia]. }
  destruct l as [|b l]; [done|]. cbn [segments].
  pose proof (decode_rune_width (b :: l) ltac:(done)) as Hw.
  destruct (decode_rune (b :: l)) as [r w] eqn:E. cbn [map concat snd].
  rewrite IH; [apply take_drop|]. rewrite length_drop. cbn in *. lia.
Qed.

(** Decoding loses no byte: the segments spell the string. *)
Lemma runes_concat s : string_of_list_ascii (concat (map snd (runes s))) = s.
Proof.
  unfold runes. rewrite segments_concat by done. apply string_of_list_ascii_of_string.
Qed.

Lemma to_int32_id z : int32 z -> to_int32 z = z.
Proof. unfold int32, to_int32. intros. rewrite Z.mod_small; lia. Qed.

Lemma to_int64_id z : int64 z -> to_int64 z = z.
Proof. unfold int64, to_int64. intros. rewrite Z.mod_small; lia. Qed.

Lemma int64_b_spec z : int64_b z = true <-> int64 z.
Proof. unfold int64_b, int64, between. rewrite andb_true_iff, !Z.leb_le. lia. Qed.

Lemma atoi_itoa z : atoi (itoa z) = Some z.
Proof.
  unfold atoi, itoa. rewrite NilZero.isi.
  - cbn. by rewrite DecimalZ.of_to.
  - destruct z as [|p|p]; cbn; [done| |done]. intros [= E]. by apply (DecimalPos.Unsigned.to_uint_nonnil p).
  - destruct z as [|p|p]; cbn; [done|done|]. intros [= E]. by apply (DecimalPos.Unsigned.to_uint_nonnil p).
Qed.

Lemma itoa_inj x y : itoa x = itoa y -> x = y.
Proof. intros E. apply (f_equal atoi) in E. rewrite !atoi_itoa in E. congruence. Qed.

Lemma append_inj_l s t u : (s ++ t)%string = (s ++ u)%string -> t = u.
Proof. apply (inj (String.append s)). Qed.
