(* ===== verification/Events.v ===== *)
(** * Events ([pkg/events], [gen/ticketwave/events/v1]) and the outbox row

    What producers and consumers of [order-events] and [seat-events] agree on:
    the messages, the names of their types and states, how they are encoded, and
    the row of an outbox table that carries one of them. *)

From stdpp Require Import base gmap list strings numbers.
From S2P Require Import Prelude Platform.

(** ** Messages

    Protobuf enums are open: a number outside the declared ones is kept. *)

Inductive OrderEventType :=
  | ORDER_EVENT_TYPE_UNSPECIFIED
  | ORDER_EVENT_TYPE_CREATED
  | ORDER_EVENT_TYPE_CONFIRMED
  | ORDER_EVENT_TYPE_FAILED
  | ORDER_EVENT_TYPE_UNKNOWN (n : Z).

Inductive OrderFailureReason :=
  | ORDER_FAILURE_REASON_UNSPECIFIED
  | ORDER_FAILURE_REASON_SEATS_UNAVAILABLE
  | ORDER_FAILURE_REASON_PAYMENT_DECLINED
  | ORDER_FAILURE_REASON_SERVICE_UNAVAILABLE
  | ORDER_FAILURE_REASON_UNKNOWN (n : Z).

Inductive SeatState :=
  | SEAT_STATE_UNSPECIFIED
  | SEAT_STATE_AVAILABLE
  | SEAT_STATE_HELD
  | SEAT_STATE_SOLD
  | SEAT_STATE_UNKNOWN (n : Z).

#[global] Instance OrderEventType_eq_dec : EqDecision OrderEventType.
Proof. solve_decision. Defined.
#[global] Instance OrderFailureReason_eq_dec : EqDecision OrderFailureReason.
Proof. solve_decision. Defined.
#[global] Instance SeatState_eq_dec : EqDecision SeatState.
Proof. solve_decision. Defined.

Record OrderEvent := {
  oe_MessageId : string;
  oe_OccurredAt : Z;
  oe_Type : OrderEventType;
  oe_OrderId : string;
  oe_UserId : string;
  oe_EventId : string;
  oe_SeatIds : list string;
  oe_AmountCents : Z;
  oe_FailureReason : OrderFailureReason;
}.

Record SeatEvent := {
  se_MessageId : string;
  se_OccurredAt : Z;
  se_EventId : string;
  se_SeatIds : list string;
  se_State : SeatState;
}.

#[global] Instance OrderEvent_eq_dec : EqDecision OrderEvent.
Proof. solve_decision. Defined.
#[global] Instance SeatEvent_eq_dec : EqDecision SeatEvent.
Proof. solve_decision. Defined.

(** ** Topics and headers *)

Definition TopicOrderEvents : string := "order-events".
Definition TopicOrderEventsDLQ : string := "order-events.dlq".
Definition TopicSeatEvents : string := "seat-events".
Definition HeaderMessageID : string := "message-id".
Definition HeaderEventType : string := "event-type".

(** ** Encoding

    [protojson] and Postgres' [JSONB] column are libraries: marshalling can be
    refused (a string that is not UTF-8), and the column stores its own spelling
    of the document. *)
Class ProtoJson : Type := {
  marshal_order : OrderEvent -> res string;
  unmarshal_order : string -> res OrderEvent;
  marshal_seat : SeatEvent -> res string;
  unmarshal_seat : string -> res SeatEvent;
  jsonb : string -> string;
}.

(** Unmarshalling what was marshalled, directly or after a trip through JSONB,
    gives the message back. *)
Class ProtoJsonLaws (J : ProtoJson) : Prop := {
  unmarshal_marshal_order : forall e b,
    marshal_order e = Ok b -> unmarshal_order (jsonb b) = Ok e;
  unmarshal_marshal_seat : forall e b,
    marshal_seat e = Ok b -> unmarshal_seat (jsonb b) = Ok e;
}.

Section Codec.
Context {J : ProtoJson}.

Definition EncodeOrderEvent (e : OrderEvent) : res string :=
  match marshal_order e with
  | Ok b => Ok b
  | Err err => Err (EWrap "encode order event" err)
  end.

Definition DecodeOrderEvent (b : string) : res OrderEvent :=
  match unmarshal_order b with
  | Ok e => Ok e
  | Err err => Err (EWrap "decode order event" err)
  end.

Definition EncodeSeatEvent (e : SeatEvent) : res string :=
  match marshal_seat e with
  | Ok b => Ok b
  | Err err => Err (EWrap "encode seat event" err)
  end.

Definition DecodeSeatEvent (b : string) : res SeatEvent :=
  match unmarshal_seat b with
  | Ok e => Ok e
  | Err err => Err (EWrap "decode seat event" err)
  end.
End Codec.

Definition EventTypeName (t : OrderEventType) : string :=
  match t with
  | ORDER_EVENT_TYPE_CREATED => "order.created"
  | ORDER_EVENT_TYPE_CONFIRMED => "order.confirmed"
  | ORDER_EVENT_TYPE_FAILED => "order.failed"
  | _ => "order.unknown"
  end.

Definition SeatStateName (s : SeatState) : string :=
  match s with
  | SEAT_STATE_AVAILABLE => "available"
  | SEAT_STATE_HELD => "held"
  | SEAT_STATE_SOLD => "sold"
  | _ => "unknown"
  end.

(** ** Outbox rows *)

Section OutboxRow.
Context `{U : UuidLib}.

(** A row of an outbox table: [ob_key] is the column that becomes the Kafka key
    ([event_id] for inventory, [order_id] for orders). *)
Record outbox_row := {
  ob_id : UUID;
  ob_key : UUID;
  ob_event_type : string;
  ob_payload : string;
  ob_published : bool;
  ob_published_at : option Z;
  ob_created_at : Z;
}.

#[global] Instance outbox_row_eq_dec : EqDecision outbox_row.
Proof. solve_decision. Defined.

(** [INSERT INTO outbox]: the primary key must be new and the key column must
    reference an existing row of the owning table ([keys]). *)
Definition outbox_insert (keys : UUID -> bool) (r : outbox_row) (t : list outbox_row)
    : res (list outbox_row) :=
  if bool_decide (ob_id r ∈ map ob_id t) then Err (EPg unique_violation "outbox_pkey")
  else if keys (ob_key r) then Ok (t ++ [r])
  else Err (EPg foreign_key_violation "outbox_key_fkey").
End OutboxRow.

(** ** Lemmas *)

Section CodecLemmas.
Context {J : ProtoJson} `{!ProtoJsonLaws J}.

Lemma decode_encode_order e b :
  EncodeOrderEvent e = Ok b -> DecodeOrderEvent (jsonb b) = Ok e.
Proof.
  unfold EncodeOrderEvent, DecodeOrderEvent. destruct (marshal_order e) eqn:E; [|done].
  intros [= <-]. by rewrite (unmarshal_marshal_order _ _ E).
Qed.

Lemma decode_encode_seat e b :
  EncodeSeatEvent e = Ok b -> DecodeSeatEvent (jsonb b) = Ok e.
Proof.
  unfold EncodeSeatEvent, DecodeSeatEvent. destruct (marshal_seat e) eqn:E; [|done].
  intros [= <-]. by rewrite (unmarshal_marshal_seat _ _ E).
Qed.
End CodecLemmas.

Lemma outbox_insert_inv `{U : UuidLib} keys (r : outbox_row) t t' :
  outbox_insert keys r t = Ok t' ->
  t' = t ++ [r] /\ ob_id r ∉ map ob_id t /\ keys (ob_key r) = true.
Proof.
  unfold outbox_insert. case_bool_decide; [done|]. destruct (keys _) eqn:E; [|done].
  intros [= <-]. done.
Qed.
