(* ===== verification/Redis.v ===== *)
(** * Redis

    The commands the services send, as an interface: the server is not part of the
    repository.  [redis_view] reads a key's stored value and its absolute expiry
    time in milliseconds; an entry past its expiry counts as absent. *)

From stdpp Require Import base gmap list strings numbers.
From S2P Require Import Prelude GoStrings.

Abbreviation entry := (string * option Z)%type.

(** Whether an entry is still there at time [t]. *)
Definition live (t : Z) (e : option entry) : bool :=
  match e with
  | None => false
  | Some (_, None) => true
  | Some (_, Some x) => (t <? x)%Z
  end.

Class RedisLib (R : Type) := {
  redis_view : R -> string -> option entry;
  (* SET key value PX ttl *)
  redis_set : Z -> string -> string -> Z -> R -> R;
  (* DEL key *)
  redis_del : Z -> string -> R -> R;
  (* EXISTS key *)
  redis_exists : Z -> string -> R -> bool;
  (* INCR key; None when the value is not an integer *)
  redis_incr : Z -> string -> R -> option (Z * R);
  (* PEXPIRE key ms *)
  redis_pexpire : Z -> string -> Z -> R -> R;
  (* PTTL key: -2 absent, -1 without expiry *)
  redis_pttl : Z -> string -> R -> Z;
}.

Class RedisLaws (R : Type) `{RedisLib R} : Prop := {
  redis_view_set : forall t k v ttl r k',
    redis_view (redis_set t k v ttl r) k' =
      if bool_decide (k' = k) then Some (v, Some (t + ttl)%Z) else redis_view r k';
  redis_view_del : forall t k r k',
    redis_view (redis_del t k r) k' = if bool_decide (k' = k) then None else redis_view r k';
  redis_exists_live : forall t k r, redis_exists t k r = live t (redis_view r k);
  redis_incr_absent : forall t k r, live t (redis_view r k) = false ->
    exists r', redis_incr t k r = Some (1%Z, r') /\
      redis_view r' k = Some (itoa 1, None) /\
      forall k', k' <> k -> redis_view r' k' = redis_view r k';
  redis_incr_present : forall t k r n x, live t (redis_view r k) = true ->
    redis_view r k = Some (itoa n, x) ->
    exists r', redis_incr t k r = Some ((n + 1)%Z, r') /\
      redis_view r' k = Some (itoa (n + 1)%Z, x) /\
      forall k', k' <> k -> redis_view r' k' = redis_view r k';
  redis_incr_other : forall t k r n r' k',
    redis_incr t k r = Some (n, r') -> k' <> k -> redis_view r' k' = redis_view r k';
  redis_pexpire_other : forall t k ttl r k',
    k' <> k -> redis_view (redis_pexpire t k ttl r) k' = redis_view r k';
  redis_view_pexpire : forall t k ttl r k',
    live t (redis_view r k) = true ->
    redis_view (redis_pexpire t k ttl r) k' =
      if bool_decide (k' = k) then (fun e => (e.1, Some (t + ttl)%Z)) <$> redis_view r k
      else redis_view r k';
  redis_pttl_view : forall t k r,
    redis_pttl t k r =
      if live t (redis_view r k)
      then match redis_view r k with Some (_, Some x) => (x - t)%Z | _ => (-1)%Z end
      else (-2)%Z;
}.
