(* ===== verification/Instances.v ===== *)
(** * Reference instances of the interfaces

    The UUID library, protojson and Redis are not part of the repository, and the
    components are verified for every implementation that satisfies the documented
    laws.  The instances below satisfy them and compute, so that a theorem's
    hypotheses can be checked on concrete inputs. *)

From Stdlib Require Import Ascii String.
From stdpp Require Import base gmap list strings numbers countable.
From S2P Require Import Prelude Platform GoStrings Events Redis.

(** ** UUIDs

    A UUID is an arbitrary name.  It has a canonical spelling [u<name>], a second
    spelling [U<name>] that both readers accept (as upper-case hexadecimal digits),
    and a third one, [n<name>], that only [uuid.Parse] accepts (as the URN form). *)

Definition ref_parse (s : string) : option string :=
  match s with
  | String "u" r | String "U" r | String "n" r => Some r
  | _ => None
  end.

Definition ref_pg (s : string) : option string :=
  match s with
  | String "u" r | String "U" r => Some r
  | _ => None
  end.

#[global] Instance ref_uuid : UuidLib := {|
  UUID := string;
  uuid_parse := ref_parse;
  uuid_string := String "u";
  pg_uuid := ref_pg;
|}.

#[global] Instance ref_uuid_laws : UuidLaws ref_uuid.
Proof.
  split; [done..|]. intros s u v. cbn. unfold ref_parse, ref_pg.
  intros Hp Hg. repeat case_match; simplify_eq; done.
Qed.

(** A total order on text and UUIDs: the one of their codes. *)
#[global] Instance code_order : PgOrder ref_uuid := {|
  text_le := fun x y => (encode x <= encode y)%positive;
  uuid_le := fun x y => (encode x <= encode y)%positive;
  text_le_dec := fun x y => decide (encode x <= encode y)%positive;
  uuid_le_dec := fun x y => decide (encode x <= encode y)%positive;
|}.

(** The ambient of a run with the given fates, UUID supply and clocks. *)
Definition amb0 (fates : list fate) (uuids : nat -> string) (now txnow : Z)
    : @ambient ref_uuid :=
  @Ambient ref_uuid fates uuids 0 now txnow.

(** A supply of names that start with [p]. *)
Definition names (p : string) (n : nat) : string := p +:+ itoa (Z.of_nat n).

Lemma names_inj p n m : names p n = names p m -> n = m.
Proof. unfold names. intros E%append_inj_l%itoa_inj. lia. Qed.

(** ** Event encoding: an event's code in [positive], spelled in binary *)

Fixpoint pos_bits (p : positive) : string :=
  match p with
  | xH => ""
  | xO p => String "0" (pos_bits p)
  | xI p => String "1" (pos_bits p)
  end.

Fixpoint bits_pos (s : string) : option positive :=
  match s with
  | "" => Some xH
  | String "0" s => xO <$> bits_pos s
  | String "1" s => xI <$> bits_pos s
  | _ => None
  end%string.

Lemma bits_pos_bits p : bits_pos (pos_bits p) = Some p.
Proof. induction p as [p IH|p IH|]; cbn; [by rewrite IH..|done]. Qed.

Definition type_num (t : OrderEventType) : Z + nat :=
  match t with
  | ORDER_EVENT_TYPE_UNSPECIFIED => inr 0
  | ORDER_EVENT_TYPE_CREATED => inr 1
  | ORDER_EVENT_TYPE_CONFIRMED => inr 2
  | ORDER_EVENT_TYPE_FAILED => inr 3
  | ORDER_EVENT_TYPE_UNKNOWN n => inl n
  end.

Definition num_type (x : Z + nat) : OrderEventType :=
  match x with
  | inl n => ORDER_EVENT_TYPE_UNKNOWN n
  | inr 1 => ORDER_EVENT_TYPE_CREATED
  | inr 2 => ORDER_EVENT_TYPE_CONFIRMED
  | inr 3 => ORDER_EVENT_TYPE_FAILED
  | inr _ => ORDER_EVENT_TYPE_UNSPECIFIED
  end.

Definition reason_num (t : OrderFailureReason) : Z + nat :=
  match t with
  | ORDER_FAILURE_REASON_UNSPECIFIED => inr 0
  | ORDER_FAILURE_REASON_SEATS_UNAVAILABLE => inr 1
  | ORDER_FAILURE_REASON_PAYMENT_DECLINED => inr 2
  | ORDER_FAILURE_REASON_SERVICE_UNAVAILABLE => inr 3
  | ORDER_FAILURE_REASON_UNKNOWN n => inl n
  end.

Definition num_reason (x : Z + nat) : OrderFailureReason :=
  match x with
  | inl n => ORDER_FAILURE_REASON_UNKNOWN n
  | inr 1 => ORDER_FAILURE_REASON_SEATS_UNAVAILABLE
  | inr 2 => ORDER_FAILURE_REASON_PAYMENT_DECLINED
  | inr 3 => ORDER_FAILURE_REASON_SERVICE_UNAVAILABLE
  | inr _ => ORDER_FAILURE_REASON_UNSPECIFIED
  end.

Definition state_num (t : SeatState) : Z + nat :=
  match t with
  | SEAT_STATE_UNSPECIFIED => inr 0
  | SEAT_STATE_AVAILABLE => inr 1
  | SEAT_STATE_HELD => inr 2
  | SEAT_STATE_SOLD => inr 3
  | SEAT_STATE_UNKNOWN n => inl n
  end.

Definition num_state (x : Z + nat) : SeatState :=
  match x with
  | inl n => SEAT_STATE_UNKNOWN n
  | inr 1 => SEAT_STATE_AVAILABLE
  | inr 2 => SEAT_STATE_HELD
  | inr 3 => SEAT_STATE_SOLD
  | inr _ => SEAT_STATE_UNSPECIFIED
  end.

#[global] Instance OrderEventType_countable : Countable OrderEventType.
Proof. refine (inj_countable' type_num num_type _). by intros []. Defined.
#[global] Instance OrderFailureReason_countable : Countable OrderFailureReason.
Proof. refine (inj_countable' reason_num num_reason _). by intros []. Defined.
#[global] Instance SeatState_countable : Countable SeatState.
Proof. refine (inj_countable' state_num num_state _). by intros []. Defined.

#[global] Instance OrderEvent_countable : Countable OrderEvent.
Proof.
  refine (inj_countable'
    (fun e => (oe_MessageId e, oe_OccurredAt e, oe_Type e, oe_OrderId e, oe_UserId e,
               oe_EventId e, oe_SeatIds e, oe_AmountCents e, oe_FailureReason e))
    (fun '(a, b, c, d, e, f, g, h, i) => Build_OrderEvent a b c d e f g h i) _).
  by intros [].
Defined.

#[global] Instance SeatEvent_countable : Countable SeatEvent.
Proof.
  refine (inj_countable'
    (fun e => (se_MessageId e, se_OccurredAt e, se_EventId e, se_SeatIds e, se_State e))
    (fun '(a, b, c, d, e) => Build_SeatEvent a b c d e) _).
  by intros [].
Defined.

Definition to_bits `{Countable A} (x : A) : string := pos_bits (encode x).

Definition of_bits `{Countable A} (s : string) : res A :=
  match p ← bits_pos s; decode p with
  | Some x => Ok x
  | None => Err (EText "syntax error")
  end.

Lemma of_to_bits `{Countable A} (x : A) : of_bits (to_bits x) = Ok x.
Proof. unfold of_bits, to_bits. rewrite bits_pos_bits. cbn. by rewrite decode_encode. Qed.

#[global] Instance ref_json : ProtoJson := {|
  marshal_order := fun e => Ok (to_bits e);
  unmarshal_order := of_bits;
  marshal_seat := fun e => Ok (to_bits e);
  unmarshal_seat := of_bits;
  jsonb := id;
|}.

#[global] Instance ref_json_laws : ProtoJsonLaws ref_json.
Proof. split; intros e b [= <-]; apply of_to_bits. Qed.

(** ** Redis: a map of entries *)

Definition store : Type := gmap string entry.

Definition ref_incr (t : Z) (k : string) (r : gmap string entry) : option (Z * gmap string entry) :=
  match r !! k with
  | Some (v, x) =>
      if live t (Some (v, x))
      then n ← atoi v; Some ((n + 1)%Z, <[k := (itoa (n + 1), x)]> r)
      else Some (1%Z, <[k := (itoa 1, None)]> r)
  | None => Some (1%Z, <[k := (itoa 1, None)]> r)
  end.

#[global] Instance ref_redis : RedisLib store := {|
  redis_view r k := (r : gmap string entry) !! k;
  redis_set t k v ttl r := <[k := (v, Some (t + ttl)%Z)]> (r : gmap string entry);
  redis_del t k r := delete k (r : gmap string entry);
  redis_exists t k r := live t ((r : gmap string entry) !! k);
  redis_incr := ref_incr;
  redis_pexpire t k ttl r :=
    alter (fun e : entry => (e.1, Some (t + ttl)%Z)) k (r : gmap string entry);
  redis_pttl t k r :=
    if live t ((r : gmap string entry) !! k)
    then match (r : gmap string entry) !! k with Some (_, Some x) => (x - t)%Z | _ => (-1)%Z end
    else (-2)%Z;
|}.

#[global] Instance ref_redis_laws : RedisLaws store.
Proof.
  split; cbn; unfold store; intros.
  - case_bool_decide; simplify_map_eq; done.
  - case_bool_decide; simplify_map_eq; done.
  - done.
  - unfold ref_incr. destruct (r !! k) as [[v x]|] eqn:E.
    + cbn in H |- *. rewrite H. eexists. split; [done|]. split; [by simplify_map_eq|].
      intros. by rewrite lookup_insert_ne.
    + eexists. split; [done|]. split; [by simplify_map_eq|].
      intros. by rewrite lookup_insert_ne.
  - unfold ref_incr. rewrite H0 in H |- *. cbn in H |- *. rewrite H, atoi_itoa. cbn.
    eexists. split; [done|]. split; [by simplify_map_eq|].
    intros. by rewrite lookup_insert_ne.
  - unfold ref_incr in H. destruct (r !! k) as [[v x]|]; [|injection H as <- <-; by rewrite lookup_insert_ne].
    destruct (live t (Some (v, x))); [|injection H as <- <-; by rewrite lookup_insert_ne].
    destruct (atoi v); [|done]. injection H as <- <-. by rewrite lookup_insert_ne.
  - by rewrite lookup_alter_ne.
  - rewrite lookup_alter. case_bool_decide; subst; case_decide; try done; congruence.
  - done.
Qed.
