(* ===== verification/Inventory.v ===== *)
(** * inventory-svc ([services/inventory/internal/server])

    Events and seats, the seat outbox, the holds in Redis and the sweeper.  One
    definition per handler, composed from the statements the handler runs. *)

From stdpp Require Import base gmap list strings numbers sorting.
From S2P Require Import Prelude Platform GoStrings Events Redis.

(** ** Messages ([gen/ticketwave/inventory/v1]) *)

Inductive SeatStatus :=
  | SEAT_STATUS_UNSPECIFIED
  | SEAT_STATUS_AVAILABLE
  | SEAT_STATUS_HELD
  | SEAT_STATUS_SOLD.

#[global] Instance SeatStatus_eq_dec : EqDecision SeatStatus.
Proof. solve_decision. Defined.

Record Seat := {
  seat_Id : string;
  seat_EventId : string;
  seat_Label : string;
  seat_Status : SeatStatus;
}.

Record Event := {
  event_Id : string;
  event_Name : string;
  event_TotalSeats : Z;
  event_AvailableSeats : Z;
  event_CreatedAt : Z;
}.

Record CreateEventRequest := { ce_Name : string; ce_SeatCount : Z }.
Record GetEventRequest := { ge_EventId : string }.
Record ListEventsRequest := { le_Limit : Z }.
Record ListSeatsRequest := { ls_EventId : string }.

(** [ReserveSeatsRequest], [ConfirmSeatsRequest] and [ReleaseSeatsRequest] have the
    same three fields. *)
Record SeatsRequest := {
  sr_EventId : string;
  sr_SeatIds : list string;
  sr_OrderId : string;
}.

#[global] Instance Seat_eq_dec : EqDecision Seat.
Proof. solve_decision. Defined.
#[global] Instance Event_eq_dec : EqDecision Event.
Proof. solve_decision. Defined.

(** ** Constants *)

Definition holdTTL : Z := 5 * 60 * 10 ^ 9.        (* 5 * time.Minute, in nanoseconds *)
Definition sweepInterval : Z := 30 * 10 ^ 9.
Definition defaultEventLimit : Z := 50.
Definition maxEventLimit : Z := 200.
Definition maxEventNameLen : Z := 100.
Definition maxSeatsPerEvent : Z := 500.
Definition maxSeatsPerOrder : Z := 10.

Definition holdKey (seatID : string) : string := "hold:seat:" +:+ seatID.

(** ** Validation ([validate.go]) *)

Definition invalid (msg : string) : error := EStatus InvalidArgument msg [].

Definition validateCreateEvent (req : CreateEventRequest) : res unit :=
  let name := trim_space (ce_Name req) in
  if bool_decide (name = "") || (maxEventNameLen <? rune_count name)%Z
  then Err (invalid "name must be 1 to 100 characters")
  else if (ce_SeatCount req <? 1)%Z || (maxSeatsPerEvent <? ce_SeatCount req)%Z
  then Err (invalid "seat_count must be between 1 and 500")
  else Ok tt.

Section Validate.
Context `{U : UuidLib}.

Definition validateEventID (id : string) : res unit :=
  match uuid_parse id with
  | Some _ => Ok tt
  | None => Err (invalid "event_id must be a UUID")
  end.

(** The loop over [seatIDs] with the set [seen] of parsed values. *)
Fixpoint check_seats (seen : gset UUID) (seatIDs : list string) : res unit :=
  match seatIDs with
  | [] => Ok tt
  | raw :: rest =>
      match uuid_parse raw with
      | None => Err (invalid "seat_ids must all be UUIDs")
      | Some id =>
          if bool_decide (id ∈ seen)
          then Err (invalid "seat_ids must not repeat a seat")
          else check_seats ({[id]} ∪ seen) rest
      end
  end.

Definition validateSeatRequest (eventID : string) (seatIDs : list string) (orderID : string)
    : res unit :=
  match validateEventID eventID with
  | Err e => Err e
  | Ok _ =>
      match uuid_parse orderID with
      | None => Err (invalid "order_id must be a UUID")
      | Some _ =>
          let n := Z.of_nat (length seatIDs) in
          if (n =? 0)%Z || (maxSeatsPerOrder <? n)%Z
          then Err (invalid "seat_ids must contain 1 to 10 seats")
          else check_seats ∅ seatIDs
      end
  end.
End Validate.

(** ** The database ([migrations/inventory]) and the service's state *)

Section Db.
Context `{U : UuidLib}.

Record event_row := { ev_name : string; ev_created_at : Z }.

Record seat_row := {
  st_event_id : UUID;
  st_label : string;
  st_status : string;
  st_held_by : option UUID;
  st_created_at : Z;
}.

#[global] Instance event_row_eq_dec : EqDecision event_row.
Proof. solve_decision. Defined.
#[global] Instance seat_row_eq_dec : EqDecision seat_row.
Proof. solve_decision. Defined.

Record inv_db := {
  tb_events : gmap UUID event_row;
  tb_seats : gmap UUID seat_row;
  tb_outbox : list outbox_row;
}.

(** [CHECK (status IN ('AVAILABLE', 'HELD', 'SOLD'))] *)
Definition status_ok (s : string) : bool :=
  bool_decide (s = "AVAILABLE") || bool_decide (s = "HELD") || bool_decide (s = "SOLD").

Definition set_seat (status : string) (held_by : option UUID) (r : seat_row) : seat_row :=
  {| st_event_id := st_event_id r; st_label := st_label r; st_status := status;
     st_held_by := held_by; st_created_at := st_created_at r |}.

(** [UPDATE seats SET status = .., held_by = .. WHERE P]: the new table and the
    number of rows affected, or the violated constraint. *)
Definition update_seats (P : UUID -> seat_row -> bool) (status : string)
    (held_by : option UUID) (d : inv_db) : res (nat * inv_db) :=
  let n := sql_count P (tb_seats d) in
  if status_ok status || bool_decide (n = 0) then
    Ok (n, {| tb_events := tb_events d;
              tb_seats := sql_update P (set_seat status held_by) (tb_seats d);
              tb_outbox := tb_outbox d |})
  else Err (EPg check_violation "seats_status_check").

(** [INSERT INTO events (id, name)] *)
Definition insert_event (id : UUID) (name : string) (now : Z) (d : inv_db) : res inv_db :=
  if bool_decide (is_Some (tb_events d !! id))
  then Err (EPg unique_violation "events_pkey")
  else Ok {| tb_events := <[id := {| ev_name := name; ev_created_at := now |}]> (tb_events d);
             tb_seats := tb_seats d; tb_outbox := tb_outbox d |}.

(** [INSERT INTO seats (id, event_id, label)]: the other columns get their
    defaults; the primary key, the foreign key and [UNIQUE (event_id, label)] are
    checked. *)
Definition insert_seat (id ev : UUID) (label : string) (now : Z) (d : inv_db) : res inv_db :=
  if bool_decide (is_Some (tb_seats d !! id)) then Err (EPg unique_violation "seats_pkey")
  else if bool_decide (sql_count (fun _ r => bool_decide (st_event_id r = ev)
                                 && bool_decide (st_label r = label)) (tb_seats d) = 0)
  then if bool_decide (is_Some (tb_events d !! ev)) then
         Ok {| tb_events := tb_events d;
               tb_seats := <[id := {| st_event_id := ev; st_label := label;
                                      st_status := "AVAILABLE"; st_held_by := None;
                                      st_created_at := now |}]> (tb_seats d);
               tb_outbox := tb_outbox d |}
       else Err (EPg foreign_key_violation "seats_event_id_fkey")
  else Err (EPg unique_violation "seats_event_id_label_key").

Definition set_outbox (o : list outbox_row) (d : inv_db) : inv_db :=
  {| tb_events := tb_events d; tb_seats := tb_seats d; tb_outbox := o |}.

(** The service: its database, Redis, and the counters of [metrics.go]. *)
Record inv_state (R : Type) := {
  is_db : inv_db;
  is_redis : R;
  is_reserved : Z;
  is_conflict : Z;
  is_expired : Z;
}.
End Db.

Arguments is_db {U R}.
Arguments is_redis {U R}.
Arguments is_reserved {U R}.
Arguments is_conflict {U R}.
Arguments is_expired {U R}.
Arguments Build_inv_state {U R}.

(** ** Handlers ([server.go], [events.go], [seat_events.go]) *)

Section Server.
Context `{U : UuidLib} {J : ProtoJson} {R : Type} `{RedisLib R}.

#[global] Instance inv_has_db : HasDb (inv_state R) inv_db := {|
  db_get := is_db;
  db_set := fun d s => Build_inv_state d (is_redis s) (is_reserved s) (is_conflict s) (is_expired s);
|}.

(** [reservations.WithLabelValues(conflict).Inc()] and the like. *)
Definition inc_conflict : prog (inv_state R) unit := modify (fun s =>
  Build_inv_state (is_db s) (is_redis s) (is_reserved s) (is_conflict s + 1)%Z (is_expired s)).
Definition inc_reserved : prog (inv_state R) unit := modify (fun s =>
  Build_inv_state (is_db s) (is_redis s) (is_reserved s + 1)%Z (is_conflict s) (is_expired s)).
Definition add_expired (n : Z) : prog (inv_state R) unit := modify (fun s =>
  Build_inv_state (is_db s) (is_redis s) (is_reserved s) (is_conflict s) (is_expired s + n)%Z).

(** A Redis write whose failure is only logged. Redis time is in milliseconds. *)
Definition redis_write (cmd : Z -> R -> R) : prog (inv_state R) unit :=
  f ← next_fate; now ← time_now;
  match f with
  | Lost _ => mret tt
  | _ => modify (fun s =>
           Build_inv_state (is_db s) (cmd (now / 10 ^ 6)%Z (is_redis s))
             (is_reserved s) (is_conflict s) (is_expired s))
  end.

(** Run an action on each element, in order. *)
Fixpoint for_each {A} (f : A -> prog (inv_state R) unit) (l : list A)
    : prog (inv_state R) unit :=
  match l with
  | [] => mret tt
  | x :: l' => _ ← f x; for_each f l'
  end.

Definition emitSeatEvent (tx : inv_db) (eventID : string) (seatIDs : list string)
    (state : SeatState) : prog (inv_state R) inv_db :=
  if bool_decide (length seatIDs = 0) then mret tx else
  id ← uuid_new;
  now ← time_now;
  payload ← lift_res (EncodeSeatEvent
    {| se_MessageId := uuid_string id; se_OccurredAt := now; se_EventId := eventID;
       se_SeatIds := seatIDs; se_State := state |});
  let wrap := EWrap "insert seat event into outbox" in
  _ ← pg_call wrap;
  key ← pg_arg wrap eventID;
  created ← tx_now;
  let row := {| ob_id := id; ob_key := key;
                ob_event_type := "seat." +:+ SeatStateName state;
                ob_payload := jsonb payload; ob_published := false;
                ob_published_at := None; ob_created_at := created |} in
  match outbox_insert (fun k => bool_decide (is_Some (tb_events tx !! k))) row (tb_outbox tx) with
  | Ok o => mret (set_outbox o tx)
  | Err e => throw (wrap e)
  end.

(** The batch of seat inserts of [CreateEvent]: [i] runs from [first] for [n] seats. *)
Fixpoint insert_seats (ev : UUID) (n : nat) (i : Z) (tx : inv_db) : prog (inv_state R) inv_db :=
  match n with
  | O => mret tx
  | S n' =>
      id ← uuid_new;
      created ← tx_now;
      match insert_seat id ev ("Seat " +:+ itoa i) created tx with
      | Ok tx' => insert_seats ev n' (i + 1)%Z tx'
      | Err e => throw (EWrap "execute seat batch" e)
      end
  end.

Definition CreateEvent (req : CreateEventRequest) : prog (inv_state R) string :=
  _ ← lift_res (validateCreateEvent req);
  tx ← tx_begin (EWrap "could not start transaction");
  eventID ← uuid_new;
  _ ← pg_call (EWrap "could not insert event");
  created ← tx_now;
  match insert_event eventID (trim_space (ce_Name req)) created tx with
  | Err e => throw (EWrap "could not insert event" e)
  | Ok tx =>
      _ ← pg_call (EWrap "execute seat batch");
      tx ← insert_seats eventID (Z.to_nat (ce_SeatCount req)) 1 tx;
      _ ← tx_commit (EWrap "could not commit transaction") tx;
      mret (uuid_string eventID)
  end.

Definition toProtoStatus (s : string) : SeatStatus :=
  if bool_decide (s = "AVAILABLE") then SEAT_STATUS_AVAILABLE
  else if bool_decide (s = "HELD") then SEAT_STATUS_HELD
  else if bool_decide (s = "SOLD") then SEAT_STATUS_SOLD
  else SEAT_STATUS_UNSPECIFIED.

(** [ORDER BY label] *)
Definition label_le `{!PgOrder U} (x y : UUID * seat_row) : Prop :=
  text_le (st_label x.2) (st_label y.2).

#[global] Instance label_le_dec `{!PgOrder U} : RelDecision label_le.
Proof. unfold label_le. intros x y. apply _. Defined.

Definition ListSeats `{!PgOrder U} (req : ListSeatsRequest) : prog (inv_state R) (list Seat) :=
  _ ← lift_res (validateEventID (ls_EventId req));
  _ ← pg_call (EWrap "could not execute query");
  ev ← pg_arg (EWrap "rows error") (ls_EventId req);
  s ← get_state;
  let rows := merge_sort label_le
    (sql_select (fun _ r => bool_decide (st_event_id r = ev)) (tb_seats (is_db s))) in
  _ ← pg_call (EWrap "rows error");
  mret (map (fun '(id, r) =>
    {| seat_Id := uuid_string id; seat_EventId := ls_EventId req;
       seat_Label := st_label r; seat_Status := toProtoStatus (st_status r) |}) rows).

(** [WHERE id = ANY(ids) AND event_id = ev] *)
Definition seats_of (ids : list UUID) (ev : UUID) (id : UUID) (r : seat_row) : bool :=
  bool_decide (id ∈ ids) && bool_decide (st_event_id r = ev).

Definition refused (msg : string) : error := EStatus FailedPrecondition msg [].

(** The part of [ReserveSeats] inside the transaction: the locked read, the two
    checks, the update and the outbox row. *)
Definition reserve_tx (req : SeatsRequest) : prog (inv_state R) (list (UUID * seat_row)) :=
  tx ← tx_begin (EWrap "could not start transaction");
  _ ← pg_call (EWrap "could not execute query");
  ids ← pg_args (EWrap "could not iterate row") (sr_SeatIds req);
  ev ← pg_arg (EWrap "could not iterate row") (sr_EventId req);
  _ ← pg_call (EWrap "could not iterate row");
  let seats := sql_select (seats_of ids ev) (tb_seats tx) in
  if bool_decide (length seats <> length (sr_SeatIds req)) then
    _ ← inc_conflict; throw (refused "one or more seats do not exist")
  else if existsb (fun x => bool_decide (st_status x.2 <> "AVAILABLE")) seats then
    _ ← inc_conflict; throw (refused "one or more seats are not available")
  else
    _ ← pg_call (EWrap "update seats to held");
    holder ← pg_arg (EWrap "update seats to held") (sr_OrderId req);
    match update_seats (fun id _ => bool_decide (id ∈ ids)) "HELD" (Some holder) tx with
    | Err e => throw (EWrap "update seats to held" e)
    | Ok (_, tx) =>
        tx ← emitSeatEvent tx (sr_EventId req) (sr_SeatIds req) SEAT_STATE_HELD;
        _ ← tx_commit (EWrap "could not commit transaction") tx;
        mret seats
    end.

Definition set_hold (orderID : string) (id : UUID) : prog (inv_state R) unit :=
  redis_write (fun now => redis_set now (holdKey (uuid_string id)) orderID (holdTTL / 10 ^ 6)%Z).

Definition ReserveSeats (req : SeatsRequest) : prog (inv_state R) (list Seat) :=
  _ ← lift_res (validateSeatRequest (sr_EventId req) (sr_SeatIds req) (sr_OrderId req));
  seats ← reserve_tx req;
  _ ← inc_reserved;
  _ ← for_each (fun x => set_hold (sr_OrderId req) x.1) seats;
  mret (map (fun x => {| seat_Id := uuid_string x.1; seat_EventId := sr_EventId req;
                         seat_Label := ""; seat_Status := SEAT_STATUS_HELD |}) seats).

(** [WHERE id = ANY(ids) AND event_id = ev AND held_by = o AND status = 'HELD'] *)
Definition held_seats_of (ids : list UUID) (ev o : UUID) (id : UUID) (r : seat_row) : bool :=
  seats_of ids ev id r && bool_decide (st_held_by r = Some o)
  && bool_decide (st_status r = "HELD").

Definition moveHeldSeats (eventID : string) (seatIDs : list string)
    (orderID newStatus : string) (state : SeatState) (failure : string)
    : prog (inv_state R) unit :=
  begin_func (fun tx =>
    let wrap := EWrap ("update seats to " +:+ newStatus) in
    _ ← pg_call wrap;
    ids ← pg_args wrap seatIDs;
    ev ← pg_arg wrap eventID;
    o ← pg_arg wrap orderID;
    match update_seats (held_seats_of ids ev o) newStatus None tx with
    | Err e => throw (wrap e)
    | Ok (n, tx) =>
        if bool_decide (n <> length seatIDs) then throw (refused failure)
        else tx ← emitSeatEvent tx eventID seatIDs state; mret (tt, tx)
    end).

Definition del_hold (id : string) : prog (inv_state R) unit :=
  redis_write (fun now => redis_del now (holdKey id)).

Definition seats_response (req : SeatsRequest) (st : SeatStatus) : list Seat :=
  map (fun id => {| seat_Id := id; seat_EventId := sr_EventId req;
                    seat_Label := ""; seat_Status := st |}) (sr_SeatIds req).

Definition ConfirmSeats (req : SeatsRequest) : prog (inv_state R) (list Seat) :=
  _ ← lift_res (validateSeatRequest (sr_EventId req) (sr_SeatIds req) (sr_OrderId req));
  _ ← moveHeldSeats (sr_EventId req) (sr_SeatIds req) (sr_OrderId req) "SOLD"
        SEAT_STATE_SOLD "one or more seats could not be confirmed";
  _ ← for_each del_hold (sr_SeatIds req);
  mret (seats_response req SEAT_STATUS_SOLD).

Definition ReleaseSeats (req : SeatsRequest) : prog (inv_state R) (list Seat) :=
  _ ← lift_res (validateSeatRequest (sr_EventId req) (sr_SeatIds req) (sr_OrderId req));
  _ ← moveHeldSeats (sr_EventId req) (sr_SeatIds req) (sr_OrderId req) "AVAILABLE"
        SEAT_STATE_AVAILABLE "one or more seats could not be released";
  _ ← for_each del_hold (sr_SeatIds req);
  mret (seats_response req SEAT_STATUS_AVAILABLE).

(** *** The sweeper *)

(** [SELECT id FROM seats WHERE status = 'HELD'] *)
Definition sweep_held : prog (inv_state R) (list UUID) :=
  _ ← pg_call (EWrap "sweep: query held seats");
  s ← get_state;
  _ ← pg_call (EWrap "sweep: iterate held seats");
  mret (sql_select (fun _ r => bool_decide (st_status r = "HELD")) (tb_seats (is_db s))).*1.

(** The seats of [heldIDs] whose hold key Redis reports as absent; a seat whose
    check fails is skipped. *)
Fixpoint sweep_expired (heldIDs : list UUID) : prog (inv_state R) (list UUID) :=
  match heldIDs with
  | [] => mret []
  | id :: rest =>
      f ← next_fate;
      now ← time_now;
      s ← get_state;
      let expired := fate_ok f &&
        negb (redis_exists (now / 10 ^ 6)%Z (holdKey (uuid_string id)) (is_redis s)) in
      more ← sweep_expired rest;
      mret (if expired then id :: more else more)
  end.

(** [byEvent[event] = append(byEvent[event], seat)] over the released rows. *)
Definition by_event (rows : list (UUID * seat_row)) : gmap string (list string) :=
  foldl (fun m '(id, r) =>
    let ev := uuid_string (st_event_id r) in
    <[ev := default [] (m !! ev) ++ [uuid_string id]]> m) ∅ rows.

Fixpoint emit_each (tx : inv_db) (groups : list (string * list string))
    : prog (inv_state R) inv_db :=
  match groups with
  | [] => mret tx
  | (ev, ids) :: rest =>
      tx ← emitSeatEvent tx ev ids SEAT_STATE_AVAILABLE;
      emit_each tx rest
  end.

(** Release the expired holds in one transaction; the number of released seats. *)
Definition sweep_release (expired : list UUID) : prog (inv_state R) nat :=
  begin_func (fun tx =>
    let wrap := EWrap "release expired holds" in
    _ ← pg_call wrap;
    let where_ := fun id r => bool_decide (id ∈ expired) && bool_decide (st_status r = "HELD") in
    let rows := sql_select where_ (tb_seats tx) in
    match update_seats where_ "AVAILABLE" None tx with
    | Err e => throw (wrap e)
    | Ok (_, tx) =>
        _ ← pg_call (EWrap "iterate released seats");
        tx ← emit_each tx (map_to_list (by_event rows));
        mret (length rows, tx)
    end).

(** Errors are logged and end the sweep, so the caller sees none. *)
Definition sweepExpiredHolds : prog (inv_state R) unit :=
  held ← attempt sweep_held;
  match held with
  | Err _ => mret tt
  | Ok heldIDs =>
      expired ← sweep_expired heldIDs;
      if bool_decide (length expired = 0) then mret tt else
      released ← attempt (sweep_release expired);
      match released with
      | Err _ => mret tt
      | Ok n => add_expired (Z.of_nat n)
      end
  end.

(** The goroutine of [StartHoldSweeper]: one sweep per tick, until the context is done.  Each
    sweep runs in an ambient of its own. *)
Inductive sweeper_event := Ticked (a : ambient) | ContextDone.

Fixpoint StartHoldSweeper (evs : list sweeper_event) (s : inv_state R) : inv_state R :=
  match evs with
  | [] | ContextDone :: _ => s
  | Ticked a :: evs' => StartHoldSweeper evs' (sweepExpiredHolds a s).2
  end.

(** *** Reading events *)

(** One row of [selectEvents]: the event with its seat totals. *)
Definition select_event (d : inv_db) (id : UUID) (e : event_row) : UUID * string * Z * Z * Z :=
  (id, ev_name e, ev_created_at e,
   Z.of_nat (sql_count (fun _ r => bool_decide (st_event_id r = id)) (tb_seats d)),
   Z.of_nat (sql_count (fun _ r => bool_decide (st_event_id r = id)
                          && bool_decide (st_status r = "AVAILABLE")) (tb_seats d))).

Definition scanEvent (row : UUID * string * Z * Z * Z) : Event :=
  let '(id, name, created, total, available) := row in
  {| event_Id := uuid_string id; event_Name := name; event_TotalSeats := to_int32 total;
     event_AvailableSeats := to_int32 available; event_CreatedAt := created |}.

Definition GetEvent (req : GetEventRequest) : prog (inv_state R) Event :=
  _ ← lift_res (validateEventID (ge_EventId req));
  match uuid_parse (ge_EventId req) with
  | None => throw (EText "panic: uuid.MustParse")
  | Some id =>
      _ ← pg_call (EWrap "query event");
      s ← get_state;
      match tb_events (is_db s) !! id with
      | None => throw (EStatus NotFound "event not found" [])
      | Some e => mret (scanEvent (select_event (is_db s) id e))
      end
  end.

Definition clampEventLimit (n : Z) : Z :=
  if (n <=? 0)%Z then defaultEventLimit
  else if (maxEventLimit <? n)%Z then maxEventLimit
  else n.

(** [ORDER BY e.created_at DESC, e.id] *)
Definition newest_first `{!PgOrder U} (x y : UUID * event_row) : Prop :=
  (ev_created_at y.2 < ev_created_at x.2)%Z \/
  (ev_created_at x.2 = ev_created_at y.2 /\ uuid_le x.1 y.1).

#[global] Instance newest_first_dec `{!PgOrder U} : RelDecision newest_first.
Proof. unfold newest_first. intros x y. apply _. Defined.

Definition ListEvents `{!PgOrder U} (req : ListEventsRequest) : prog (inv_state R) (list Event) :=
  _ ← pg_call (EWrap "query events");
  s ← get_state;
  let rows := take (Z.to_nat (clampEventLimit (le_Limit req)))
    (merge_sort newest_first (map_to_list (tb_events (is_db s)))) in
  _ ← pg_call (EWrap "iterate events");
  mret (map (fun '(id, e) => scanEvent (select_event (is_db s) id e)) rows).
End Server.
