(* ===== verification/InventorySpec.v ===== *)
(** * inventory-svc: the abstract specification and its refinement

    [db_step] says what one committed transaction of the service may do to the
    tables: hold free seats, sell or free the seats an order holds, free expired
    holds, create an event.  Every handler, under every pattern of failures, changes
    the database by at most one such step, and its answer tells which. *)

From stdpp Require Import base gmap list strings numbers sorting.
From S2P Require Import Prelude Platform GoStrings Events Redis Inventory.

(** ** The specification *)

Section Spec.
Context `{U : UuidLib} {J : ProtoJson}.

(** [row] announces that the seats [ids] of event [ev] entered state [st]. *)
Definition announces (ev : UUID) (ids : list UUID) (st : SeatState) (row : outbox_row) : Prop :=
  ob_key row = ev /\
  ob_event_type row = "seat." +:+ SeatStateName st /\
  ob_published row = false /\
  exists e, DecodeSeatEvent (ob_payload row) = Ok e /\
    se_MessageId e = uuid_string (ob_id row) /\
    pg_uuid (se_EventId e) = Some ev /\
    mapM pg_uuid (se_SeatIds e) = Some ids /\
    se_State e = st.

(** The rows [new] were appended to the outbox of [d]. *)
Record appended (d d' : inv_db) (new : list outbox_row) : Prop := {
  ap_outbox : tb_outbox d' = tb_outbox d ++ new;
  ap_fresh : forall row, row ∈ new -> ob_id row ∉ map ob_id (tb_outbox d);
  ap_nodup : NoDup (map ob_id new);
  ap_keys : forall row, row ∈ new -> is_Some (tb_events d !! ob_key row);
}.

(** The seats [ids] got a new status and holder; everything else is as before. *)
Record seats_set (ids : list UUID) (status : string) (holder : option UUID)
    (d d' : inv_db) : Prop := {
  ss_events : tb_events d' = tb_events d;
  ss_seats : tb_seats d' =
    sql_update (fun id _ => bool_decide (id ∈ ids)) (set_seat status holder) (tb_seats d);
}.

Inductive db_label :=
  | LReserve (ev o : UUID) (ids : list UUID)
  | LConfirm (ev o : UUID) (ids : list UUID)
  | LRelease (ev o : UUID) (ids : list UUID)
  | LSweep (ids : list UUID)
  | LCreate (ev : UUID) (n : nat).

(** Seats [ids] exist, belong to [ev], and are free. *)
Definition all_free (d : inv_db) (ev : UUID) (ids : list UUID) : Prop :=
  NoDup ids /\ forall id, id ∈ ids -> exists r, tb_seats d !! id = Some r /\
    st_event_id r = ev /\ st_status r = "AVAILABLE".

(** Seats [ids] exist, belong to [ev], and are held by [o]. *)
Definition all_held (d : inv_db) (ev o : UUID) (ids : list UUID) : Prop :=
  NoDup ids /\ forall id, id ∈ ids -> exists r, tb_seats d !! id = Some r /\
    st_event_id r = ev /\ st_status r = "HELD" /\ st_held_by r = Some o.

(** The rows a sweep writes: one per event, listing its freed seats. *)
Definition sweep_rows (d : inv_db) (ids : list UUID) (rows : list outbox_row) : Prop :=
  (forall row, row ∈ rows -> exists ev freed, announces ev freed SEAT_STATE_AVAILABLE row /\
     forall id, id ∈ freed -> id ∈ ids /\ exists r, tb_seats d !! id = Some r /\ st_event_id r = ev) /\
  (forall id, id ∈ ids -> exists row ev freed,
     row ∈ rows /\ announces ev freed SEAT_STATE_AVAILABLE row /\ id ∈ freed).

Inductive db_step : db_label -> inv_db -> inv_db -> Prop :=
  | step_reserve ev o ids row d d' :
      ids <> [] -> all_free d ev ids ->
      seats_set ids "HELD" (Some o) d d' -> appended d d' [row] ->
      announces ev ids SEAT_STATE_HELD row ->
      db_step (LReserve ev o ids) d d'
  | step_confirm ev o ids row d d' :
      ids <> [] -> all_held d ev o ids ->
      seats_set ids "SOLD" None d d' -> appended d d' [row] ->
      announces ev ids SEAT_STATE_SOLD row ->
      db_step (LConfirm ev o ids) d d'
  | step_release ev o ids row d d' :
      ids <> [] -> all_held d ev o ids ->
      seats_set ids "AVAILABLE" None d d' -> appended d d' [row] ->
      announces ev ids SEAT_STATE_AVAILABLE row ->
      db_step (LRelease ev o ids) d d'
  | step_sweep ids rows d d' :
      (forall id, id ∈ ids -> exists r, tb_seats d !! id = Some r /\ st_status r = "HELD") ->
      seats_set ids "AVAILABLE" None d d' -> appended d d' rows ->
      sweep_rows d ids rows ->
      db_step (LSweep ids) d d'
  | step_create ev n e news d d' :
      tb_events d !! ev = None ->
      tb_events d' = <[ev := e]> (tb_events d) ->
      tb_seats d' = list_to_map news ∪ tb_seats d ->
      NoDup news.*1 ->
      length news = n -> (Z.of_nat n <= maxSeatsPerEvent)%Z ->
      (forall id r, (id, r) ∈ news -> tb_seats d !! id = None /\ st_event_id r = ev /\
         st_status r = "AVAILABLE" /\ st_held_by r = None) ->
      map (fun x => st_label x.2) news =
        map (fun i => "Seat " +:+ itoa i) (seqZ 1 (Z.of_nat n)) ->
      tb_outbox d' = tb_outbox d ->
      db_step (LCreate ev n) d d'.

(** The database is untouched, or one step was committed. *)
Definition at_most (P : db_label -> Prop) (d d' : inv_db) : Prop :=
  d' = d \/ exists l, P l /\ db_step l d d'.
End Spec.

(** ** Refinement: what each transaction does *)

Section Refine.
Context `{U : UuidLib} {J : ProtoJson} {R : Type} `{RedisLib R}.
Context `{!UuidLaws U} `{!ProtoJsonLaws J}.

Implicit Types (s : inv_state R) (a : ambient).

(** Writing an outbox row: the transaction gains one row that announces the seats. *)
Lemma wp_emitSeatEvent tx eventID seatIDs st
    (Q : res inv_db -> ambient -> inv_state R -> Prop) a s :
  seatIDs <> [] ->
  (forall row ev a', pg_uuid eventID = Some ev ->
     ob_id row ∉ map ob_id (tb_outbox tx) -> is_Some (tb_events tx !! ev) ->
     ob_key row = ev -> ob_id row = amb_uuid a (amb_next a) -> ob_created_at row = amb_txnow a ->
     (forall ids, mapM pg_uuid seatIDs = Some ids -> announces ev ids st row) ->
     (no_faults a -> no_faults a') -> amb_now a' = amb_now a -> amb_txnow a' = amb_txnow a ->
     Q (Ok (set_outbox (tb_outbox tx ++ [row]) tx)) a' s) ->
  (forall e a', Q (Err e) a' s) ->
  wp (emitSeatEvent tx eventID seatIDs st) Q a s.
Proof.
  intros Hne HQ HE. unfold emitSeatEvent. rewrite bool_decide_eq_false_2 by (by destruct seatIDs).
  wp_steps. destruct (EncodeSeatEvent _) as [payload|e] eqn:Henc; [|apply HE].
  wp_steps; [|apply HE]. apply wp_pg_arg; [|intros _; apply HE]. intros ev Hev.
  wp_steps; [|apply HE].
  apply outbox_insert_inv in Heqr as (-> & Hfresh & Hkey). reflect_bools.
  eapply HQ; eauto; autorewrite with prog; try done.
  - intros ids Hids. split_and!; try done.
    eexists. split; [by apply decode_encode_seat|]. done.
  - intros Hnf. by apply no_faults_drop, no_faults_uuid.
Qed.

Lemma update_seats_inv P st holder d n d' :
  update_seats P st holder d = Ok (n, d') ->
  n = sql_count P (tb_seats d) /\ tb_events d' = tb_events d /\ tb_outbox d' = tb_outbox d /\
  tb_seats d' = sql_update P (set_seat st holder) (tb_seats d).
Proof. unfold update_seats. case_match; [|done]. by intros [= <- <-]. Qed.

Lemma mapM_pg_length l (us : list UUID) : mapM pg_uuid l = Some us -> length us = length l.
Proof. intros E%mapM_Some. symmetry. by eapply Forall2_length. Qed.

(** One announcing row appended to the outbox of the updated tables. *)
Lemma appended_one (d d1 : inv_db) row ev :
  tb_events d1 = tb_events d -> tb_outbox d1 = tb_outbox d ->
  ob_id row ∉ map ob_id (tb_outbox d1) -> is_Some (tb_events d1 !! ev) -> ob_key row = ev ->
  appended d (set_outbox (tb_outbox d1 ++ [row]) d1) [row].
Proof.
  intros He Ho Hf Hk Hkey. rewrite He, Ho in *.
  split; cbn; [done| | |]; try (intros r ->%list_elem_of_singleton; congruence).
  apply NoDup_singleton.
Qed.

(** What the transaction of [ReserveSeats] did when it committed. *)
Definition reserved (req : SeatsRequest) (d d' : inv_db) (rows : list (UUID * seat_row)) : Prop :=
  exists ev o ids, pg_uuid (sr_EventId req) = Some ev /\ pg_uuid (sr_OrderId req) = Some o /\
    mapM pg_uuid (sr_SeatIds req) = Some ids /\ rows.*1 ≡ₚ ids /\
    db_step (LReserve ev o ids) d d'.

Lemma seats_of_ids ids ev id r : seats_of ids ev id r = true -> id ∈ ids.
Proof. unfold seats_of. intros. by reflect_bools. Qed.

Lemma reserve_tx_spec req a s :
  sr_SeatIds req <> [] ->
  wp (reserve_tx req) (fun r _ s' => is_redis s' = is_redis s /\
    match r with
    | Ok rows => reserved req (is_db s) (is_db s') rows
    | Err e => is_db s' = is_db s \/
        (e = EWrap "could not commit transaction" EConn /\
         exists rows, reserved req (is_db s) (is_db s') rows)
    end) a s.
Proof.
  intros Hne. unfold reserve_tx. wp_steps; eauto.
  apply wp_pg_args; [|eauto]. intros ids Hids. wp_steps.
  apply wp_pg_arg; [|eauto]. intros ev Hev. wp_steps; eauto; unfold inc_conflict; wp_steps; eauto.
  apply wp_pg_arg; [|eauto]. intros o Ho. wp_steps; eauto.
  apply update_seats_inv in Heqr as (_ & He & Hout & Hseats).
  reflect_bools. apply dec_stable in Heqb. cbn in Heqb.
  apply wp_emitSeatEvent; [done| |eauto].
  intros row ev' a' Hev' Hfresh Hk Hkk _ _ Hann _ _ _. assert (ev' = ev) as -> by congruence.
  assert (Hres : reserved req (is_db s) (set_outbox (tb_outbox i ++ [row]) i)
                   (sql_select (seats_of ids ev) (tb_seats (is_db s)))).
  { pose proof (mapM_pg_length _ _ Hids) as Hlen.
    exists ev, o, ids. split_and!; try done.
    { apply sql_select_full; [apply seats_of_ids|]. unfold sql_count. congruence. }
    destruct (sql_select_full_inv (seats_of ids ev) (tb_seats (is_db s)) ids)
      as [Hnd Hall]; [apply seats_of_ids|unfold sql_count; congruence|].
    eapply step_reserve with (row := row).
    - intros ->. by destruct (sr_SeatIds req).
    - split; [done|]. intros id Hid. destruct (Hall id Hid) as (r & Hr & Hp).
      exists r. unfold seats_of in Hp. reflect_bools. split_and!; try done.
      eapply existsb_false in Heqb0; [|apply elem_of_sql_select; split; [exact Hr|]].
      + reflect_bools. by apply dec_stable in Heqb0.
      + unfold seats_of. by rewrite !bool_decide_eq_true_2.
    - split; cbn; done.
    - by eapply appended_one.
    - by apply Hann. }
  wp_steps; eauto.
Qed.

(** What [moveHeldSeats] did when it committed; [l] is the step's label. *)
Definition moved (l : UUID -> UUID -> list UUID -> db_label) (eventID : string)
    (seatIDs : list string) (orderID : string) (d d' : inv_db) : Prop :=
  exists ev o ids, pg_uuid eventID = Some ev /\ pg_uuid orderID = Some o /\
    mapM pg_uuid seatIDs = Some ids /\ db_step (l ev o ids) d d'.

(** The two moves the service makes, with the words it uses for them. *)
Inductive move_kind : string -> SeatState -> (UUID -> UUID -> list UUID -> db_label) -> Prop :=
  | move_sold : move_kind "SOLD" SEAT_STATE_SOLD LConfirm
  | move_free : move_kind "AVAILABLE" SEAT_STATE_AVAILABLE LRelease.

Lemma move_step st state l ev o ids row d d' :
  move_kind st state l -> ids <> [] -> all_held d ev o ids -> seats_set ids st None d d' ->
  appended d d' [row] -> announces ev ids state row -> db_step (l ev o ids) d d'.
Proof. intros []; econstructor; eauto. Qed.

Lemma held_seats_of_ids ids ev o id r : held_seats_of ids ev o id r = true -> id ∈ ids.
Proof. unfold held_seats_of, seats_of. intros. by reflect_bools. Qed.

(** When as many rows were updated as seats were named, exactly the named seats
    were, and all of them were held by the order. *)
Lemma held_update_full ids ev o (m : gmap UUID seat_row) st :
  sql_count (held_seats_of ids ev o) m = length ids ->
  (NoDup ids /\ forall id, id ∈ ids -> exists r, m !! id = Some r /\
     st_event_id r = ev /\ st_status r = "HELD" /\ st_held_by r = Some o) /\
  sql_update (held_seats_of ids ev o) (set_seat st None) m =
    sql_update (fun id _ => bool_decide (id ∈ ids)) (set_seat st None) m.
Proof.
  intros Hn. destruct (sql_select_full_inv (held_seats_of ids ev o) m ids)
    as [Hnd Hall]; [apply held_seats_of_ids|done|].
  split; [split; [done|]|].
  - intros id Hid. destruct (Hall id Hid) as (r & Hr & Hp). exists r.
    unfold held_seats_of, seats_of in Hp. by reflect_bools.
  - apply sql_update_ext. intros id r Hr. case_bool_decide as Hid.
    + destruct (Hall id Hid) as (r' & Hr' & Hp). congruence.
    + destruct (held_seats_of ids ev o id r) eqn:E; [|done].
      by apply held_seats_of_ids in E.
Qed.

Lemma moveHeldSeats_spec st state l eventID seatIDs orderID failure a s :
  move_kind st state l -> seatIDs <> [] ->
  wp (moveHeldSeats eventID seatIDs orderID st state failure) (fun r _ s' =>
    is_redis s' = is_redis s /\
    match r with
    | Ok _ => moved l eventID seatIDs orderID (is_db s) (is_db s')
    | Err e => is_db s' = is_db s \/
        (e = EConn /\ moved l eventID seatIDs orderID (is_db s) (is_db s'))
    end) a s.
Proof.
  intros Hk Hne. unfold moveHeldSeats. wp_steps; eauto.
  apply wp_pg_args; [|eauto]. intros ids Hids. wp_steps.
  apply wp_pg_arg; [|eauto]. intros ev Hev. wp_steps.
  apply wp_pg_arg; [|eauto]. intros o Ho. wp_steps; eauto.
  apply update_seats_inv in Heqr as (-> & He & Hout & Hseats).
  reflect_bools. apply dec_stable in Heqb. cbn in *.
  apply wp_emitSeatEvent; [done| |eauto].
  intros row ev' a' Hev' Hfresh Hkey Hkk _ _ Hann _ _ _. assert (ev' = ev) as -> by congruence.
  pose proof (mapM_pg_length _ _ Hids) as Hlen.
  destruct (held_update_full ids ev o (tb_seats (is_db s)) st) as [Hall Hupd]; [congruence|].
  assert (moved l eventID seatIDs orderID (is_db s) (set_outbox (tb_outbox i ++ [row]) i)).
  { exists ev, o, ids. split_and!; try done. eapply move_step; eauto.
    - intros ->. by destruct seatIDs.
    - split; cbn; [done|]. by rewrite Hseats.
    - eapply appended_one; [done..|]. by apply (Hann _ Hids). }
  wp_steps. cbn. split; [eauto|]. intros _. split; eauto.
Qed.

(** *** The sweeper's transaction *)

(** Grouping by event keeps every row, under its event. *)
Lemma by_event_lookup (rows : list (UUID * seat_row)) ev :
  by_event rows !! ev =
    match filter (fun x => uuid_string (st_event_id x.2) = ev) rows with
    | [] => None
    | l => Some (map (fun x => uuid_string x.1) l)
    end.
Proof.
  induction rows as [|[id r] rows IH] using rev_ind; [done|].
  unfold by_event in *. rewrite foldl_app, filter_app, filter_cons. cbn [foldl].
  case_decide as Hd; cbn in Hd; [subst ev|].
  - rewrite lookup_insert_eq, IH.
    destruct (filter _ rows) as [|y l]; cbn; [done|]. by rewrite map_app.
  - rewrite lookup_insert_ne by done. rewrite app_nil_r. apply IH.
Qed.

(** A group of [by_event]: the event it is about and the seats in it. *)
Lemma by_event_group rows name ids :
  by_event rows !! name = Some ids ->
  exists ev us, name = uuid_string ev /\ ids = map uuid_string us /\ us <> [] /\
    forall id, id ∈ us <-> exists r, (id, r) ∈ rows /\ st_event_id r = ev.
Proof.
  rewrite by_event_lookup. destruct (filter _ rows) as [|[id0 r0] l] eqn:E; [done|].
  intros [= <-].
  assert (H0 : (id0, r0) ∈ filter (fun x => uuid_string (st_event_id x.2) = name) rows)
    by (rewrite E; apply elem_of_cons; by left).
  apply list_elem_of_filter in H0 as [H0 _]. cbn in H0. subst name.
  exists (st_event_id r0), ((id0, r0) :: l).*1. split_and!; [done| |done|].
  { cbn. f_equal. rewrite map_map. done. }
  intros id. rewrite <- E, list_elem_of_fmap. split.
  - intros ([id' r] & -> & [Hev Hin]%list_elem_of_filter). cbn in *.
    exists r. split; [done|]. by apply (inj uuid_string).
  - intros (r & Hin & Hev). exists (id, r). split; [done|].
    apply list_elem_of_filter. cbn. by rewrite Hev.
Qed.

Lemma mapM_pg_string (us : list UUID) : mapM pg_uuid (map uuid_string us) = Some us.
Proof. induction us as [|u us IH]; cbn; [done|]. by rewrite pg_uuid_string, IH. Qed.

Lemma appended_cons (d d1 d' : inv_db) row rows :
  tb_events d1 = tb_events d ->
  appended d d1 [row] -> appended d1 d' rows -> appended d d' (row :: rows).
Proof.
  intros He [O1 F1 N1 K1] [O2 F2 N2 K2]. rewrite O1, map_app in F2. rewrite O1 in O2.
  split.
  - by rewrite O2, <- app_assoc.
  - intros x [->|Hx]%elem_of_cons; [apply F1; set_solver|].
    specialize (F2 x Hx). set_solver.
  - cbn. apply NoDup_cons. split; [|done].
    intros (x & Hx & Hin)%list_elem_of_fmap. specialize (F2 x Hin). set_solver.
  - intros x [->|Hx]%elem_of_cons; [apply K1; set_solver|]. rewrite <- He. by apply K2.
Qed.

Lemma emit_each_spec groups tx a s :
  (forall ev ids, (ev, ids) ∈ groups -> ids <> []) ->
  wp (emit_each tx groups) (fun r a' s' => s' = s /\ forall tx', r = Ok tx' ->
    exists rows, tx' = set_outbox (tb_outbox tx ++ rows) tx /\ appended tx tx' rows /\
      Forall2 (fun g row => exists ev, pg_uuid g.1 = Some ev /\
        forall us, mapM pg_uuid g.2 = Some us -> announces ev us SEAT_STATE_AVAILABLE row)
        groups rows) a s.
Proof.
  revert tx a. induction groups as [|[ev ids] groups IH]; intros tx a Hg; cbn [emit_each].
  { wp_steps. split; [done|]. intros tx' [= <-]. exists []. rewrite app_nil_r.
    destruct tx. split_and!; [done| |constructor].
    split; cbn; [by rewrite app_nil_r|set_solver|constructor|set_solver]. }
  apply wp_bind, wp_emitSeatEvent; [apply (Hg ev); set_solver| |done].
  intros row ev' a' Hev Hfresh Hkey Hkk _ _ Hann _ _ _.
  eapply wp_mono; [apply IH; set_solver|]. cbn. intros r a'' s' [-> Hr].
  split; [done|]. intros tx' ->. destruct (Hr tx' eq_refl) as (rows & -> & Happ & Hall).
  exists (row :: rows). rewrite <- app_assoc. split_and!; [done| |].
  - cbn in Happ. rewrite <- app_assoc in Happ.
    by eapply appended_cons; [|by eapply appended_one|exact Happ].
  - constructor; [|done]. by exists ev'.
Qed.

Definition is_held (id : UUID) (r : seat_row) : bool := bool_decide (st_status r = "HELD").

(** The seats of [expired] that are still held. *)
Definition to_free (d : inv_db) (expired : list UUID) : list UUID :=
  (sql_select (fun id r => bool_decide (id ∈ expired) && is_held id r) (tb_seats d)).*1.

Lemma elem_of_to_free d expired id :
  id ∈ to_free d expired <->
  id ∈ expired /\ exists r, tb_seats d !! id = Some r /\ st_status r = "HELD".
Proof.
  unfold to_free, is_held. rewrite elem_of_fst_sql_select. split.
  - intros (r & Hr & Hp). reflect_bools. eauto.
  - intros (Hid & r & Hr & Hs). exists r. by rewrite !bool_decide_eq_true_2.
Qed.

Lemma sweep_rows_grouped d rows out :
  (forall id r, (id, r) ∈ rows -> tb_seats d !! id = Some r) ->
  Forall2 (fun g row => exists ev, pg_uuid g.1 = Some ev /\
        forall us, mapM pg_uuid g.2 = Some us -> announces ev us SEAT_STATE_AVAILABLE row)
    (map_to_list (by_event rows)) out ->
  sweep_rows d rows.*1 out.
Proof.
  intros Hrows Hall. split.
  - intros row Hrow. apply list_elem_of_lookup in Hrow as [i Hi].
    destruct (Forall2_lookup_r _ _ _ _ _ Hall Hi) as ([name ids] & Hg & ev & Hev & Hann).
    apply list_elem_of_lookup_2, elem_of_map_to_list, by_event_group in Hg
      as (ev' & us & -> & -> & _ & Hus).
    cbn in *. rewrite pg_uuid_string in Hev. injection Hev as ->.
    exists ev, us. split; [apply Hann, mapM_pg_string|]. intros id Hid.
    apply Hus in Hid as (r & Hin & Hr). split; [|by eauto].
    apply list_elem_of_fmap. by exists (id, r).
  - intros id Hid. apply list_elem_of_fmap in Hid as ([id' r] & -> & Hin). cbn.
    destruct (by_event rows !! uuid_string (st_event_id r)) as [ids|] eqn:E.
    + pose proof E as E'. apply elem_of_map_to_list, list_elem_of_lookup in E as [i Hi].
      destruct (Forall2_lookup_l _ _ _ _ _ Hall Hi) as (row & Hrow & ev & Hev & Hann).
      apply by_event_group in E' as (ev' & us & Hn & -> & _ & Hus).
      apply (inj uuid_string) in Hn as <-.
      cbn in *. rewrite pg_uuid_string in Hev. injection Hev as <-.
      exists row, (st_event_id r), us. split_and!; [by eapply list_elem_of_lookup_2| |].
      * apply Hann, mapM_pg_string.
      * apply Hus. eauto.
    + exfalso. rewrite by_event_lookup in E.
      assert (Hf : (id', r) ∈ filter (fun x => uuid_string (st_event_id x.2)
                     = uuid_string (st_event_id r)) rows) by (by apply list_elem_of_filter).
      destruct (filter _ rows); [by apply not_elem_of_nil in Hf|done].
Qed.

Lemma sweep_release_spec expired a s :
  wp (sweep_release expired) (fun r _ s' => is_redis s' = is_redis s /\
    match r with
    | Ok n => n = length (to_free (is_db s) expired) /\
              db_step (LSweep (to_free (is_db s) expired)) (is_db s) (is_db s')
    | Err e => is_db s' = is_db s \/
               db_step (LSweep (to_free (is_db s) expired)) (is_db s) (is_db s')
    end) a s.
Proof.
  unfold sweep_release. wp_steps; eauto. cbn in *.
  apply update_seats_inv in Heqr as (_ & He & Hout & Hseats).
  eapply wp_mono; [apply emit_each_spec|].
  { intros ev ids Hin%elem_of_map_to_list.
    apply by_event_group in Hin as (? & us & _ & -> & Hne & _). by destruct us. }
  cbn. intros [tx'|e] a' s' [-> Hr]; [|eauto].
  destruct (Hr tx' eq_refl) as (rows & -> & Happ & Hall).
  assert (Hstep : db_step (LSweep (to_free (is_db s) expired)) (is_db s)
            (set_outbox (tb_outbox i ++ rows) i)).
  { eapply step_sweep with (rows := rows).
    - intros id [_ Hid]%elem_of_to_free. done.
    - split; [done|]. cbn. rewrite Hseats. apply sql_update_ext. intros id r Hr'.
      apply eq_bool_prop_intro. rewrite !Is_true_true. rewrite bool_decide_eq_true.
      rewrite andb_true_iff, !bool_decide_eq_true, elem_of_to_free. naive_solver.
    - destruct Happ as [A B C D]. rewrite Hout, ?He in *. by split.
    - apply sweep_rows_grouped; [|exact Hall].
      intros id r [Hr' _]%elem_of_sql_select. done. }
  wp_steps. cbn. split; [split; [done|]; split; [unfold to_free; by rewrite length_fmap|done]|].
  intros _. split; eauto.
Qed.

(** *** Creating an event *)

(** The seats the batch has inserted so far. *)
Lemma insert_seats_spec ev n i tx a s :
  wp (insert_seats ev n i tx) (fun r _ s' => s' = s /\ forall tx', r = Ok tx' ->
    exists news, tb_events tx' = tb_events tx /\ tb_outbox tx' = tb_outbox tx /\
      tb_seats tx' = list_to_map news ∪ tb_seats tx /\ NoDup news.*1 /\
      (forall id r, (id, r) ∈ news -> tb_seats tx !! id = None /\ st_event_id r = ev /\
         st_status r = "AVAILABLE" /\ st_held_by r = None) /\
      map (fun x => st_label x.2) news =
        map (fun j => "Seat " +:+ itoa j) (seqZ i (Z.of_nat n))) a s.
Proof.
  revert i tx a. induction n as [|n IH]; intros i tx a; cbn [insert_seats].
  { wp_steps. split; [done|]. intros tx' [= <-]. exists [].
    cbn. rewrite (left_id ∅ (∪)). split_and!; try done; [constructor|set_solver]. }
  wp_steps; [|done]. unfold insert_seat in Heqr.
  repeat case_bool_decide; simplify_eq.
  eapply wp_mono; [apply IH|]. cbn. intros r a' s' [-> Hr]. split; [done|].
  intros tx' ->. destruct (Hr tx' eq_refl) as (news & He & Ho & Hs & Hnd & Hnew & Hlab).
  assert (Hni : amb_uuid a (amb_next a) ∉ news.*1).
  { intros ([id r] & Heq & Hin)%list_elem_of_fmap. apply Hnew in Hin as [Hin _].
    cbn in Heq, Hin. by rewrite <- Heq, lookup_insert_eq in Hin. }
  eexists ((_, _) :: news). split_and!; try done; cbn.
  - rewrite Hs. cbn. rewrite <- insert_union_r; [by rewrite insert_union_l|].
    by apply not_elem_of_list_to_map_1.
  - by apply NoDup_cons.
  - intros id r [[= -> ->]|Hin]%elem_of_cons.
    + split_and!; try done. by apply eq_None_not_Some.
    + apply Hnew in Hin as (Hin & ? & ? & ?). split_and!; try done.
      by apply lookup_insert_None in Hin as [? _].
  - rewrite Nat2Z.inj_succ, seqZ_cons by lia. cbn. rewrite Hlab. do 3 f_equal; lia.
Qed.

Lemma CreateEvent_spec req a s :
  wp (CreateEvent req) (fun r _ s' => is_redis s' = is_redis s /\
    match r with
    | Ok name => exists ev, name = uuid_string ev /\
        db_step (LCreate ev (Z.to_nat (ce_SeatCount req))) (is_db s) (is_db s') /\
        tb_events (is_db s') !! ev =
          Some {| ev_name := trim_space (ce_Name req); ev_created_at := amb_txnow a |}
    | Err e => at_most (fun l => exists ev n, l = LCreate ev n) (is_db s) (is_db s')
    end) a s.
Proof.
  assert (Hsame : forall d : inv_db, at_most (fun l => exists ev n, l = LCreate ev n) d d) by (by left).
  unfold CreateEvent. wp_steps. destruct (validateCreateEvent req) as [u|e] eqn:Hv; [|eauto].
  wp_steps; eauto. unfold insert_event in Heqr. case_bool_decide as Hfresh; [done|].
  injection Heqr as <-. eapply wp_mono; [apply insert_seats_spec|].
  cbn. intros [tx'|e] a' s' [-> Hr]; [|eauto].
  destruct (Hr tx' eq_refl) as (news & He & Ho & Hs & Hnd & Hnew & Hlab). cbn in *.
  assert (Hlen : length news = Z.to_nat (ce_SeatCount req)).
  { apply (f_equal length) in Hlab. rewrite !length_map, length_seqZ in Hlab. lia. }
  unfold validateCreateEvent in Hv. repeat (case_match; [done|]). reflect_bools.
  assert (Hstep : db_step (LCreate (amb_uuid (drop_fate a) (amb_next (drop_fate a)))
                    (Z.to_nat (ce_SeatCount req))) (is_db s) tx').
  { eapply step_create; eauto; [by apply eq_None_not_Some|unfold maxSeatsPerEvent in *; lia]. }
  wp_steps; cbn; split; try done; try (by left); [|right; eauto].
  eexists. split_and!; [done..|]. rewrite He, lookup_insert_eq. by autorewrite with prog.
Qed.

(** *** Handlers *)

Lemma wp_redis_write cmd a s :
  wp (redis_write cmd) (fun r _ s' => r = Ok tt /\ is_db s' = is_db s) a s.
Proof. unfold redis_write. wp_steps; done. Qed.

Lemma wp_for_each {A} (f : A -> prog (inv_state R) unit) l a s :
  (forall x a s, wp (f x) (fun r _ s' => r = Ok tt /\ is_db s' = is_db s) a s) ->
  wp (for_each f l) (fun r _ s' => r = Ok tt /\ is_db s' = is_db s) a s.
Proof.
  intros Hf. revert a s. induction l as [|x l IH]; intros a s; cbn [for_each]; [done|].
  apply wp_bind. eapply wp_mono; [apply Hf|]. cbn. intros r a' s' [-> Hs].
  eapply wp_mono; [apply IH|]. cbn. by intros ? ? ? [-> ->].
Qed.

Lemma validateSeatRequest_nonempty ev ids o :
  validateSeatRequest ev ids o = Ok tt -> ids <> [].
Proof. unfold validateSeatRequest. repeat case_match; intros; try done. by intros ->. Qed.

(** [ReserveSeats]: on success the named seats were free and are now held by the
    order; on an error nothing happened, unless the answer to the commit was lost. *)
Lemma ReserveSeats_spec req a s :
  wp (ReserveSeats req) (fun r _ s' =>
    match r with
    | Ok seats => exists rows, reserved req (is_db s) (is_db s') rows /\
        map seat_Id seats = map uuid_string rows.*1 /\
        Forall (fun x => seat_Status x = SEAT_STATUS_HELD /\ seat_EventId x = sr_EventId req) seats
    | Err e => is_db s' = is_db s \/
        (e = EWrap "could not commit transaction" EConn /\
         exists rows, reserved req (is_db s) (is_db s') rows)
    end) a s.
Proof.
  unfold ReserveSeats. wp_steps. destruct (validateSeatRequest _ _ _) as [[]|e] eqn:Hv; [|by left].
  apply wp_bind. eapply wp_mono; [apply reserve_tx_spec; by eapply validateSeatRequest_nonempty|].
  cbn. intros [rows|e] a' s' [_ Hr]; [|done].
  apply wp_bind. unfold inc_reserved. wp_steps.
  eapply wp_mono; [apply wp_for_each; intros; apply wp_redis_write|].
  cbn. intros r a'' s'' [-> Hs]. wp_steps. exists rows. rewrite Hs. split_and!; [done| |].
  - rewrite map_map. cbn. by rewrite map_map.
  - apply Forall_map, Forall_true. done.
Qed.

Lemma ConfirmSeats_spec req a s :
  wp (ConfirmSeats req) (fun r _ s' =>
    match r with
    | Ok seats => moved LConfirm (sr_EventId req) (sr_SeatIds req) (sr_OrderId req) (is_db s) (is_db s')
        /\ seats = seats_response req SEAT_STATUS_SOLD
    | Err e => is_db s' = is_db s \/ (e = EConn /\
        moved LConfirm (sr_EventId req) (sr_SeatIds req) (sr_OrderId req) (is_db s) (is_db s'))
    end) a s.
Proof.
  unfold ConfirmSeats. wp_steps. destruct (validateSeatRequest _ _ _) as [[]|e] eqn:Hv; [|by left].
  apply wp_bind. eapply wp_mono;
    [apply moveHeldSeats_spec; [constructor|by eapply validateSeatRequest_nonempty]|].
  cbn. intros [[]|e] a' s' [_ Hr]; [|done].
  apply wp_bind. eapply wp_mono; [apply wp_for_each; intros; apply wp_redis_write|].
  cbn. intros r a'' s'' [-> Hs]. wp_steps. by rewrite Hs.
Qed.

Lemma ReleaseSeats_spec req a s :
  wp (ReleaseSeats req) (fun r _ s' =>
    match r with
    | Ok seats => moved LRelease (sr_EventId req) (sr_SeatIds req) (sr_OrderId req) (is_db s) (is_db s')
        /\ seats = seats_response req SEAT_STATUS_AVAILABLE
    | Err e => is_db s' = is_db s \/ (e = EConn /\
        moved LRelease (sr_EventId req) (sr_SeatIds req) (sr_OrderId req) (is_db s) (is_db s'))
    end) a s.
Proof.
  unfold ReleaseSeats. wp_steps. destruct (validateSeatRequest _ _ _) as [[]|e] eqn:Hv; [|by left].
  apply wp_bind. eapply wp_mono;
    [apply moveHeldSeats_spec; [constructor|by eapply validateSeatRequest_nonempty]|].
  cbn. intros [[]|e] a' s' [_ Hr]; [|done].
  apply wp_bind. eapply wp_mono; [apply wp_for_each; intros; apply wp_redis_write|].
  cbn. intros r a'' s'' [-> Hs]. wp_steps. by rewrite Hs.
Qed.

(** The sweep's reads change nothing. *)
Lemma wp_sweep_held a s :
  wp sweep_held (fun r a' s' => s' = s /\ amb_now a' = amb_now a /\
    (no_faults a -> a' = a /\ is_ok r = true) /\ forall ids, r = Ok ids ->
    forall id, id ∈ ids <-> exists x, tb_seats (is_db s) !! id = Some x /\ st_status x = "HELD") a s.
Proof.
  unfold sweep_held. wp_steps; autorewrite with prog; split_and!; try done.
  - intros Hn. by rewrite !drop_fate_none by auto with prog.
  - intros ids [= <-] id.
    rewrite elem_of_fst_sql_select. by setoid_rewrite bool_decide_eq_true.
  - intros Hn%no_faults_drop%head_fate_none. done.
  - intros Hn%head_fate_none. done.
Qed.

Lemma wp_sweep_expired ids a s :
  wp (sweep_expired ids) (fun r a' s' => s' = s /\ amb_now a' = amb_now a /\
    (no_faults a -> a' = a) /\ exists l, r = Ok l /\
    (forall id, id ∈ l -> id ∈ ids /\
       redis_exists (amb_now a / 10 ^ 6) (holdKey (uuid_string id)) (is_redis s) = false) /\
    (no_faults a -> forall id, id ∈ ids ->
       redis_exists (amb_now a / 10 ^ 6) (holdKey (uuid_string id)) (is_redis s) = false ->
       id ∈ l)) a s.
Proof.
  revert a. induction ids as [|id ids IH]; intros a; cbn [sweep_expired].
  { wp_steps. split_and!; try done. exists []. split_and!; [done|set_solver|set_solver]. }
  wp_steps. eapply wp_mono; [apply IH|]. autorewrite with prog.
  cbn. intros r a' s' (-> & Hnow & Hnf & l & -> & H1 & H2). apply wp_ret.
  split_and!; [done|done| |].
  { intros Hn. rewrite (drop_fate_none a Hn) in Hnf. auto. }
  eexists. split; [done|]. split.
  - assert (Hr : forall x, x ∈ l -> x ∈ id :: ids /\
      redis_exists (amb_now a / 10 ^ 6) (holdKey (uuid_string x)) (is_redis s) = false).
    { intros x [Hin Hx]%H1. split; [by apply elem_of_cons; right|done]. }
    intros x Hx. destruct (fate_ok (head_fate a) && _) eqn:E; [|auto].
    apply elem_of_cons in Hx as [->|Hx]; [|auto].
    reflect_bools. split; [by apply elem_of_cons; left|done].
  - intros Hn x Hx Hex. rewrite (head_fate_none a Hn). cbn.
    apply elem_of_cons in Hx as [->|Hx]; [rewrite Hex; by apply elem_of_cons; left|].
    specialize (H2 (no_faults_drop a Hn) x Hx Hex).
    case_match; [by apply elem_of_cons; right|done].
Qed.

(** A sweep frees only seats whose hold key Redis reported as absent, and never
    fails towards its caller. *)
Lemma sweepExpiredHolds_spec a s :
  wp sweepExpiredHolds (fun r _ s' => r = Ok tt /\ is_redis s' = is_redis s /\
    at_most (fun l => exists ids, l = LSweep ids /\ forall id, id ∈ ids ->
      redis_exists (amb_now a / 10 ^ 6) (holdKey (uuid_string id)) (is_redis s) = false)
      (is_db s) (is_db s')) a s.
Proof.
  unfold sweepExpiredHolds. wp_steps. eapply wp_mono; [apply wp_sweep_held|].
  cbn. intros [heldIDs|e] a1 s1 (-> & Hnow & _ & _); [|wp_steps; split_and!; [done|done|by left]].
  apply wp_bind. eapply wp_mono; [apply wp_sweep_expired|].
  cbn. intros r a2 s2 (-> & Hnow2 & _ & l & -> & Hl & _).
  wp_steps; [split_and!; [done|done|by left]|].
  eapply wp_mono; [apply sweep_release_spec|]. rewrite Hnow in Hl.
  assert (Hfree : forall id, id ∈ to_free (is_db s) l ->
    redis_exists (amb_now a / 10 ^ 6) (holdKey (uuid_string id)) (is_redis s) = false).
  { intros id [Hid _]%elem_of_to_free. by apply Hl. }
  cbn. intros [n|e] a3 s3 [Hred Hdb].
  - unfold add_expired. wp_steps. cbn. split_and!; [done|done|].
    right. destruct Hdb as [_ Hdb]. eauto.
  - wp_steps. split_and!; [done|done|]. destruct Hdb as [->|Hdb]; [by left|right]. eauto.
Qed.
End Refine.
