(* ===== verification/InventoryInv.v ===== *)
(** * inventory-svc: invariants and traces

    Relational integrity and the agreement of the outbox with the seat map are
    preserved by every committed step, a sold seat stays sold, and over any
    interleaving of the atomic actions of any number of handlers and sweepers a seat
    is sold at most once. *)

From stdpp Require Import base gmap list strings numbers sorting relations.
From S2P Require Import Prelude Platform GoStrings Events Redis Inventory InventorySpec.

(** ** Invariants *)

Section Invariants.
Context `{U : UuidLib} {J : ProtoJson}.

(** The status and the holder of a seat agree. *)
Definition seat_ok (r : seat_row) : Prop :=
  (st_status r = "AVAILABLE" /\ st_held_by r = None) \/
  (st_status r = "HELD" /\ is_Some (st_held_by r)) \/
  (st_status r = "SOLD" /\ st_held_by r = None).

Record wf_db (d : inv_db) : Prop := {
  wf_seat : forall id r, tb_seats d !! id = Some r -> seat_ok r;
  wf_event : forall id r, tb_seats d !! id = Some r -> is_Some (tb_events d !! st_event_id r);
  wf_label : forall id id' r r', tb_seats d !! id = Some r -> tb_seats d !! id' = Some r' ->
    st_event_id r = st_event_id r' -> st_label r = st_label r' -> id = id';
  wf_size : forall ev,
    (Z.of_nat (sql_count (fun _ r => bool_decide (st_event_id r = ev)) (tb_seats d))
       <= maxSeatsPerEvent)%Z;
  wf_outbox_ids : NoDup (map ob_id (tb_outbox d));
  wf_outbox_keys : forall row, row ∈ tb_outbox d -> is_Some (tb_events d !! ob_key row);
}.

(** *** The seat map the outbox describes *)

(** What a row says about a seat, as a word of the [status] column. *)
Definition state_status (st : SeatState) : string :=
  match st with
  | SEAT_STATE_AVAILABLE => "AVAILABLE"
  | SEAT_STATE_HELD => "HELD"
  | SEAT_STATE_SOLD => "SOLD"
  | _ => ""
  end.

Definition row_says (row : outbox_row) (id : UUID) : option string :=
  match DecodeSeatEvent (ob_payload row) with
  | Ok e => match mapM pg_uuid (se_SeatIds e) with
            | Some ids => if bool_decide (id ∈ ids) then Some (state_status (se_State e)) else None
            | None => None
            end
  | Err _ => None
  end.

(** The last word of the outbox on a seat; a seat nobody announced is free. *)
Definition replay (rows : list outbox_row) (id : UUID) : string :=
  foldl (fun st row => default st (row_says row id)) "AVAILABLE" rows.

Record announced (d : inv_db) : Prop := {
  an_known : forall row id, row ∈ tb_outbox d -> is_Some (row_says row id) ->
    is_Some (tb_seats d !! id);
  an_replay : forall id r, tb_seats d !! id = Some r -> replay (tb_outbox d) id = st_status r;
}.

(** *** Steps on one seat *)

Inductive seat_abs := Available | Held (o : UUID) | Sold.

Inductive seat_step : seat_abs -> seat_abs -> Prop :=
  | seat_hold o : seat_step Available (Held o)
  | seat_sell o : seat_step (Held o) Sold
  | seat_free o : seat_step (Held o) Available.

(** The abstract state of a row; [None] for a row that is not [seat_ok]. *)
Definition seat_of (r : seat_row) : option seat_abs :=
  if bool_decide (st_status r = "AVAILABLE") then Some Available
  else if bool_decide (st_status r = "SOLD") then Some Sold
  else if bool_decide (st_status r = "HELD") then Held <$> st_held_by r
  else None.
End Invariants.

(** ** Lemmas *)

Section Steps.
Context `{U : UuidLib} {J : ProtoJson}.
Implicit Types (d : inv_db) (r : seat_row).

Lemma seats_set_lookup ids st h d d' id :
  seats_set ids st h d d' ->
  tb_seats d' !! id = (fun r => if bool_decide (id ∈ ids) then set_seat st h r else r)
                        <$> tb_seats d !! id.
Proof. intros [_ ->]. by rewrite lookup_sql_update. Qed.

(** *** A step on seats, uniformly *)

(** The committed change gave the seats [ids] the state [st]; the rows it wrote are
    about these seats and cover them. *)
Record touch (ids : list UUID) (st : SeatState) (h : option UUID) (rows : list outbox_row)
    (d d' : inv_db) : Prop := {
  tc_set : seats_set ids (state_status st) h d d';
  tc_appended : appended d d' rows;
  tc_rows : forall row, row ∈ rows -> exists ev us,
    announces ev us st row /\ forall id, id ∈ us -> id ∈ ids;
  tc_cover : forall id, id ∈ ids -> exists row ev us,
    row ∈ rows /\ announces ev us st row /\ id ∈ us;
  tc_known : forall id, id ∈ ids -> exists r, tb_seats d !! id = Some r /\ st_status r <> "SOLD";
  tc_holder : (st = SEAT_STATE_HELD /\ is_Some h) \/
    ((st = SEAT_STATE_AVAILABLE \/ st = SEAT_STATE_SOLD) /\ h = None);
}.

Lemma touch_one ev ids st h row d d' :
  seats_set ids (state_status st) h d d' -> appended d d' [row] -> announces ev ids st row ->
  (forall id, id ∈ ids -> exists r, tb_seats d !! id = Some r /\ st_status r <> "SOLD") ->
  (st = SEAT_STATE_HELD /\ is_Some h) \/
    ((st = SEAT_STATE_AVAILABLE \/ st = SEAT_STATE_SOLD) /\ h = None) ->
  touch ids st h [row] d d'.
Proof.
  intros Hs Ha Han Hk Hh. split; try done.
  - intros r ->%list_elem_of_singleton. eauto.
  - intros id Hid. exists row, ev, ids. split; [by apply list_elem_of_singleton|done].
Qed.

Definition label_seats (l : db_label) : list UUID :=
  match l with
  | LReserve _ _ ids | LConfirm _ _ ids | LRelease _ _ ids | LSweep ids => ids
  | LCreate _ _ => []
  end.

Definition label_state (l : db_label) : SeatState :=
  match l with
  | LReserve _ _ _ => SEAT_STATE_HELD
  | LConfirm _ _ _ => SEAT_STATE_SOLD
  | _ => SEAT_STATE_AVAILABLE
  end.

Lemma db_step_cases l d d' :
  db_step l d d' ->
  (exists h rows, touch (label_seats l) (label_state l) h rows d d') \/
  exists ev n, l = LCreate ev n.
Proof.
  intros []; [left..|right; eauto].
  - exists (Some o), [row]. eapply touch_one; eauto.
    destruct H0 as [_ Hf]. intros id (r & ? & _ & Hs)%Hf. exists r. by rewrite Hs.
  - exists None, [row]. eapply touch_one; eauto.
    destruct H0 as [_ Hf]. intros id (r & ? & _ & Hs & _)%Hf. exists r. by rewrite Hs.
  - exists None, [row]. eapply touch_one; eauto.
    destruct H0 as [_ Hf]. intros id (r & ? & _ & Hs & _)%Hf. exists r. by rewrite Hs.
  - exists None, rows. destruct H2 as [Hr Hc]. split; cbn; [done|done| |done| |by right; eauto].
    + intros row (ev & freed & Hann & Hin)%Hr. exists ev, freed. split; [done|].
      by intros id (? & _)%Hin.
    + intros id (r & Hr' & Hs)%H. exists r. by rewrite Hs.
Qed.

(** *** Well-formedness *)

Lemma touch_lookup ids st h rows d d' id r' :
  touch ids st h rows d d' -> tb_seats d' !! id = Some r' ->
  exists r, tb_seats d !! id = Some r /\
    r' = if bool_decide (id ∈ ids) then set_seat (state_status st) h r else r.
Proof.
  intros Ht. rewrite (seats_set_lookup _ _ _ _ _ _ (tc_set _ _ _ _ _ _ Ht)).
  destruct (tb_seats d !! id) as [r|]; cbn; [|done]. intros [= <-]. eauto.
Qed.

Lemma set_seat_event st h r : st_event_id (set_seat st h r) = st_event_id r.
Proof. done. Qed.
Lemma set_seat_label st h r : st_label (set_seat st h r) = st_label r.
Proof. done. Qed.

Lemma touch_wf ids st h rows d d' :
  touch ids st h rows d d' -> wf_db d -> wf_db d'.
Proof.
  intros Ht [W1 W2 W3 W4 W5 W6]. pose proof Ht as [[He Hs] [Ho Hf Hnd Hk] _ _ _ Hh].
  assert (Hkeep : forall id r', tb_seats d' !! id = Some r' -> exists r, tb_seats d !! id = Some r /\
    st_event_id r' = st_event_id r /\ st_label r' = st_label r).
  { intros id r' Hr'. destruct (touch_lookup _ _ _ _ _ _ _ _ Ht Hr') as (r & Hr & ->).
    exists r. by case_bool_decide. }
  split.
  - intros id r' Hr'. destruct (touch_lookup _ _ _ _ _ _ _ _ Ht Hr') as (r & Hr & ->).
    case_bool_decide; [|by eauto]. unfold seat_ok. cbn.
    destruct Hh as [[-> ?]|[[->| ->] ->]]; cbn; auto.
  - intros id r' Hr'. destruct (Hkeep _ _ Hr') as (r & Hr & -> & _). rewrite He. eauto.
  - intros id1 id2 r1 r2 H1 H2. destruct (Hkeep _ _ H1) as (? & ? & -> & ->).
    destruct (Hkeep _ _ H2) as (? & ? & -> & ->). eauto.
  - intros ev. rewrite (sql_count_ext _ (fun _ r => bool_decide (st_event_id r = ev)) _ (tb_seats d));
      [apply W4|].
    intros k. rewrite Hs, lookup_sql_update. destruct (tb_seats d !! k) as [r|]; cbn.
    + split; intros (v & [= <-] & Hp); (eexists; split; [done|]);
        by destruct (bool_decide (k ∈ ids)).
    + split; by intros (v & ? & _).
  - rewrite Ho, map_app. apply NoDup_app. split_and!; [done| |done].
    intros x Hx (row & -> & Hin)%list_elem_of_fmap. by apply (Hf row).
  - intros row. rewrite Ho, He. intros [?|?]%elem_of_app; eauto.
Qed.

Lemma create_lookup (news : list (UUID * seat_row)) (m : gmap UUID seat_row) id r :
  NoDup (news.*1) -> (list_to_map news ∪ m) !! id = Some r ->
  (id, r) ∈ news \/ (~ (id ∈ news.*1) /\ m !! id = Some r).
Proof.
  intros Hnd [Hl|[Hl Hm]]%lookup_union_Some_raw; [left|right].
  - by apply elem_of_list_to_map in Hl.
  - split; [|done]. by apply not_elem_of_list_to_map_2 in Hl.
Qed.

Lemma labels_distinct (news : list (UUID * seat_row)) n x y :
  map (fun x => st_label x.2) news = map (fun i => ("Seat " +:+ itoa i)) (seqZ 1 n) ->
  x ∈ news -> y ∈ news -> st_label x.2 = st_label y.2 -> x = y.
Proof.
  intros Hm Hx Hy Hl. assert (Hnd : NoDup (map (fun x => st_label x.2) news)).
  { rewrite Hm. apply NoDup_fmap_2; [|apply NoDup_seqZ].
    intros i j E%append_inj_l. by apply itoa_inj. }
  apply list_elem_of_lookup in Hx as [i Hi], Hy as [j Hj].
  assert (i = j) as ->; [|congruence].
  eapply (NoDup_lookup _ i j (st_label x.2) Hnd); [|rewrite Hl]; rewrite list_lookup_fmap.
  - by rewrite Hi.
  - by rewrite Hj.
Qed.

Lemma create_wf ev n d d' : db_step (LCreate ev n) d d' -> wf_db d -> wf_db d'.
Proof.
  intros Hst [W1 W2 W3 W4 W5 W6]. inversion Hst as [| | | |ev' n' e news d0 d0' Hfresh He Hs Hnd Hlen Hmax Hnew Hlab Ho]; subst.
  assert (Hold : forall id r, tb_seats d !! id = Some r -> st_event_id r <> ev).
  { intros id r Hr Heq. destruct (W2 id r Hr) as [x Hx]. congruence. }
  split.
  - intros id r. rewrite Hs. intros [Hin|[_ Hr]]%(create_lookup _ _ _ _ Hnd); [|by eauto].
    apply Hnew in Hin as (_ & _ & ? & ?). by left.
  - intros id r. rewrite Hs, He. intros [Hin|[_ Hr]]%(create_lookup _ _ _ _ Hnd).
    + apply Hnew in Hin as (_ & -> & _). rewrite lookup_insert_eq. eauto.
    + rewrite lookup_insert_ne; [by eauto|]. intros Heq. by apply (Hold id r).
  - intros id1 id2 r1 r2. rewrite Hs.
    intros [Hin1|[_ Hr1]]%(create_lookup _ _ _ _ Hnd) [Hin2|[_ Hr2]]%(create_lookup _ _ _ _ Hnd).
    + intros _ Hl. eapply (f_equal fst (x := (id1, r1)) (y := (id2, r2))).
      by eapply labels_distinct.
    + apply Hnew in Hin1 as (_ & -> & _). intros E. by apply Hold in Hr2.
    + apply Hnew in Hin2 as (_ & -> & _). intros E. by apply Hold in Hr1.
    + by eauto.
  - intros ev0. destruct (decide (ev0 = ev)) as [->|Hne].
    + rewrite (sql_count_keys _ _ news.*1); [by rewrite length_fmap|done|].
      intros k. rewrite Hs, list_elem_of_fmap. split.
      * intros ([k' r] & -> & Hin). exists r. pose proof (Hnew _ _ Hin) as (_ & Hev & _).
        split; [|by rewrite bool_decide_eq_true]. apply lookup_union_Some_l.
        by apply elem_of_list_to_map.
      * intros (r & [Hin|[_ Hr]]%(create_lookup _ _ _ _ Hnd) & Hp); [by exists (k, r)|].
        reflect_bools. by apply Hold in Hr.
    + rewrite (sql_count_ext _ (fun _ r => bool_decide (st_event_id r = ev0)) _ (tb_seats d)); [done|].
      intros k. rewrite Hs. split.
      * intros (r & [Hin|[_ Hr]]%(create_lookup _ _ _ _ Hnd) & Hp); [|by eauto].
        apply Hnew in Hin as (_ & Hev & _). reflect_bools. congruence.
      * intros (r & Hr & Hp). exists r. split; [|done]. apply lookup_union_Some_raw.
        right. split; [|done]. apply not_elem_of_list_to_map_1.
        intros ([k' r'] & -> & Hin)%list_elem_of_fmap. apply Hnew in Hin as (? & _). cbn in *. congruence.
  - by rewrite Ho.
  - intros row. rewrite Ho, He. intros Hrow%W6. by apply lookup_insert_is_Some'; right.
Qed.

Lemma db_step_wf l d d' : db_step l d d' -> wf_db d -> wf_db d'.
Proof.
  intros Hst. destruct (db_step_cases _ _ _ Hst) as [(h & rows & Ht)|(ev & n & ->)].
  - by eapply touch_wf.
  - by eapply create_wf.
Qed.

(** *** The outbox tells the seat map *)

Lemma announces_says ev us st row id :
  announces ev us st row ->
  row_says row id = if bool_decide (id ∈ us) then Some (state_status st) else None.
Proof.
  intros (_ & _ & _ & e & He & _ & _ & Hus & <-). unfold row_says. by rewrite He, Hus.
Qed.

Lemma replay_app rows rows' id :
  replay (rows ++ rows') id = foldl (fun st row => default st (row_says row id)) (replay rows id) rows'.
Proof. unfold replay. by rewrite foldl_app. Qed.

(** Rows that agree on a seat: the last word is theirs if one of them speaks. *)
Lemma fold_says rows w st id :
  (forall row, row ∈ rows -> row_says row id = None \/ row_says row id = Some w) ->
  foldl (fun st row => default st (row_says row id)) st rows =
    if existsb (fun row => bool_decide (is_Some (row_says row id))) rows then w else st.
Proof.
  revert st. induction rows as [|row rows IH]; intros st Hr; [done|]. cbn.
  rewrite IH by (intros ? ?; apply Hr; by right).
  destruct (Hr row) as [E|E]; [by left|..]; rewrite E; cbn; [done|].
  by destruct (existsb _ rows).
Qed.

Lemma touch_says ids st h rows d d' row id :
  touch ids st h rows d d' -> row ∈ rows ->
  row_says row id = None \/ (row_says row id = Some (state_status st) /\ id ∈ ids).
Proof.
  intros Ht Hrow. destruct (tc_rows _ _ _ _ _ _ Ht row Hrow) as (ev & us & Hann & Hin).
  rewrite (announces_says _ _ _ _ id Hann). case_bool_decide; auto.
Qed.

Lemma touch_speaks ids st h rows d d' id :
  touch ids st h rows d d' ->
  existsb (fun row => bool_decide (is_Some (row_says row id))) rows = bool_decide (id ∈ ids).
Proof.
  intros Ht. apply eq_bool_prop_intro. rewrite !Is_true_true, bool_decide_eq_true, existsb_exists.
  split.
  - intros (row & Hrow%list_elem_of_In & Hs). reflect_bools.
    destruct (touch_says _ _ _ _ _ _ _ id Ht Hrow) as [E|[_ ?]]; [|done].
    rewrite E in Hs. by destruct Hs.
  - intros Hid. destruct (tc_cover _ _ _ _ _ _ Ht id Hid) as (row & ev & us & Hrow & Hann & Hus).
    exists row. split; [by apply list_elem_of_In|].
    rewrite (announces_says _ _ _ _ id Hann), (bool_decide_eq_true_2 (id ∈ us)) by done. done.
Qed.

Lemma touch_replay ids st h rows d d' id :
  touch ids st h rows d d' ->
  replay (tb_outbox d') id =
    if bool_decide (id ∈ ids) then state_status st else replay (tb_outbox d) id.
Proof.
  intros Ht. destruct (tc_appended _ _ _ _ _ _ Ht) as [-> _ _ _].
  rewrite replay_app, (fold_says _ (state_status st)), (touch_speaks _ _ _ _ _ _ id Ht); [done|].
  intros row Hrow. destruct (touch_says _ _ _ _ _ _ _ id Ht Hrow) as [?|[? _]]; auto.
Qed.

Lemma touch_announced ids st h rows d d' :
  touch ids st h rows d d' -> announced d -> announced d'.
Proof.
  intros Ht [A1 A2]. split.
  - intros row id Hrow Hs. apply elem_of_dom.
    destruct (tc_set _ _ _ _ _ _ Ht) as [_ ->]. rewrite dom_sql_update. apply elem_of_dom.
    destruct (tc_appended _ _ _ _ _ _ Ht) as [Ho _ _ _]. rewrite Ho in Hrow.
    apply elem_of_app in Hrow as [Hrow|Hrow]; [by eauto|].
    destruct (touch_says _ _ _ _ _ _ _ id Ht Hrow) as [E|[_ Hid]]; [rewrite E in Hs; by destruct Hs|].
    destruct (tc_known _ _ _ _ _ _ Ht id Hid) as (r & Hr & _). eauto.
  - intros id r' Hr'. rewrite (touch_replay _ _ _ _ _ _ id Ht).
    destruct (touch_lookup _ _ _ _ _ _ _ _ Ht Hr') as (r & Hr & ->).
    case_bool_decide; [done|by eauto].
Qed.

(** Rows that never mention a seat leave it free. *)
Lemma replay_silent rows id :
  (forall row, row ∈ rows -> row_says row id = None) -> replay rows id = "AVAILABLE".
Proof.
  intros Hr. unfold replay. rewrite (fold_says _ "AVAILABLE"); [by case_match|].
  intros row Hrow. left. by apply Hr.
Qed.

Lemma create_announced ev n d d' : db_step (LCreate ev n) d d' -> announced d -> announced d'.
Proof.
  intros Hst [A1 A2].
  inversion Hst as [| | | |ev' n' e news d0 d0' Hfresh He Hs Hnd Hlen Hmax Hnew Hlab Ho]; subst.
  split; rewrite Ho, Hs.
  - intros row id Hrow [r Hr]%(A1 _ _ Hrow). destruct ((list_to_map news : gmap UUID seat_row) !! id) as [r'|] eqn:E.
    + exists r'. by apply lookup_union_Some_l.
    + exists r. by rewrite lookup_union_r.
  - intros id r [Hin|[_ Hr]]%(create_lookup _ _ _ _ Hnd); [|by eauto].
    apply Hnew in Hin as (Hnone & _ & -> & _). apply replay_silent.
    intros row Hrow. apply eq_None_not_Some. intros [x Hx]%(A1 _ _ Hrow). congruence.
Qed.

Lemma db_step_announced l d d' : db_step l d d' -> announced d -> announced d'.
Proof.
  intros Hst. destruct (db_step_cases _ _ _ Hst) as [(h & rows & Ht)|(ev & n & ->)].
  - by eapply touch_announced.
  - by eapply create_announced.
Qed.

(** *** One seat *)

(** What a committed step leaves alone. *)
Lemma db_step_keeps l d d' id :
  db_step l d d' -> is_Some (tb_seats d !! id) -> id ∉ label_seats l -> tb_seats d' !! id = tb_seats d !! id.
Proof.
  intros Hst [r Hr] Hni. destruct (db_step_cases _ _ _ Hst) as [(h & rows & Ht)|(ev & n & ->)].
  - rewrite (seats_set_lookup _ _ _ _ _ id (tc_set _ _ _ _ _ _ Ht)), Hr. cbn. by rewrite bool_decide_eq_false_2.
  - inversion Hst as [| | | |ev' n' e news d0 d0' Hfresh He Hs Hnd Hlen Hmax Hnew Hlab Ho]; subst.
    rewrite Hs, lookup_union_r; [done|]. apply not_elem_of_list_to_map_1.
    intros ([k' r'] & -> & Hin)%list_elem_of_fmap. apply Hnew in Hin as (? & _). cbn in *. congruence.
Qed.

(** A committed step leaves a seat alone or moves it along [seat_step]. *)
Lemma db_step_seat l d d' id r :
  db_step l d d' -> wf_db d -> tb_seats d !! id = Some r ->
  exists r' x x', tb_seats d' !! id = Some r' /\ seat_of r = Some x /\ seat_of r' = Some x' /\
    (x' = x \/ seat_step x x').
Proof.
  intros Hst Hwf Hr.
  assert (Hx : exists x, seat_of r = Some x).
  { unfold seat_of. destruct (wf_seat _ Hwf id r Hr) as [[-> _]|[[-> [o ->]]|[-> _]]]; cbn; eauto. }
  destruct Hx as [x Hx].
  assert (Hsame : tb_seats d' !! id = Some r ->
    exists r' x x', tb_seats d' !! id = Some r' /\ seat_of r = Some x /\ seat_of r' = Some x' /\
      (x' = x \/ seat_step x x')) by (intros; exists r, x, x; auto).
  destruct (decide (id ∈ label_seats l)) as [Hin|Hni].
  - destruct Hst as [ev o ids row d d' _ [_ Hf] Hset _ _|ev o ids row d d' _ [_ Hf] Hset _ _
      |ev o ids row d d' _ [_ Hf] Hset _ _|ids rows d d' Hf Hset _ _|]; cbn in Hin;
      [..|by apply not_elem_of_nil in Hin];
      pose proof (seats_set_lookup _ _ _ _ _ id Hset) as Hl; rewrite Hr in Hl; cbn in Hl;
      rewrite bool_decide_eq_true_2 in Hl by done; (eexists; do 2 eexists; split_and!; [done..|]).
    + destruct (Hf id Hin) as (r' & Hr' & _ & Hs). assert (r' = r) as -> by congruence.
      unfold seat_of in Hx. rewrite Hs in Hx. injection Hx as <-. right. constructor.
    + destruct (Hf id Hin) as (r' & Hr' & _ & Hs & Hh). assert (r' = r) as -> by congruence.
      unfold seat_of in Hx. rewrite Hs, Hh in Hx. injection Hx as <-. right. constructor.
    + destruct (Hf id Hin) as (r' & Hr' & _ & Hs & Hh). assert (r' = r) as -> by congruence.
      unfold seat_of in Hx. rewrite Hs, Hh in Hx. injection Hx as <-. right. constructor.
    + destruct (Hf id Hin) as (r' & Hr' & Hs). assert (r' = r) as -> by congruence.
      unfold seat_of in Hx. rewrite Hs in Hx. cbn in Hx.
      destruct (st_held_by r); [|done]. injection Hx as <-. right. constructor.
  - apply Hsame. by rewrite (db_step_keeps _ _ _ id Hst (mk_is_Some _ _ Hr) Hni).
Qed.
End Steps.
