(* ===== verification/InventoryTrace.v ===== *)
(** * inventory-svc: interleavings

    The handlers and the sweeper are broken into the steps other goroutines can
    interleave with (one transaction, one Redis command), and executions are
    sequences of such steps in any order, with Redis losing keys at any time. *)

From stdpp Require Import base gmap list strings numbers sorting.
From S2P Require Import Prelude Platform GoStrings Events Redis Inventory InventorySpec InventoryInv.

(** ** Atomic actions and executions *)

Section Actions.
Context `{U : UuidLib} {J : ProtoJson} {R : Type} `{RedisLib R}.

Inductive action :=
  | ActCreate (req : CreateEventRequest)
  | ActReserve (req : SeatsRequest)
  | ActReserved
  | ActHold (orderID : string) (id : UUID)
  | ActConfirm (req : SeatsRequest)
  | ActRelease (req : SeatsRequest)
  | ActUnhold (id : string)
  | ActSweep (expired : list UUID)
  | ActExpired (n : Z)
  | ActRedis (r : R).                  (* Redis evicts keys or restarts *)

Definition checked {A} (req : SeatsRequest) (m : prog (inv_state R) A) : prog (inv_state R) unit :=
  _ ← lift_res (validateSeatRequest (sr_EventId req) (sr_SeatIds req) (sr_OrderId req));
  _ ← m; mret tt.

Definition run_action (act : action) : prog (inv_state R) unit :=
  match act with
  | ActCreate req => _ ← CreateEvent req; mret tt
  | ActReserve req => checked req (reserve_tx req)
  | ActReserved => inc_reserved
  | ActHold o id => set_hold o id
  | ActConfirm req => checked req (moveHeldSeats (sr_EventId req) (sr_SeatIds req)
      (sr_OrderId req) "SOLD" SEAT_STATE_SOLD "one or more seats could not be confirmed")
  | ActRelease req => checked req (moveHeldSeats (sr_EventId req) (sr_SeatIds req)
      (sr_OrderId req) "AVAILABLE" SEAT_STATE_AVAILABLE "one or more seats could not be released")
  | ActUnhold id => del_hold id
  | ActSweep expired => _ ← sweep_release expired; mret tt
  | ActExpired n => add_expired n
  | ActRedis r => modify (fun s =>
      Build_inv_state (is_db s) r (is_reserved s) (is_conflict s) (is_expired s))
  end.

(** Each action runs in an ambient of its own: any faults, any clock. *)
Inductive exec : list (action * res unit) -> inv_state R -> inv_state R -> Prop :=
  | exec_nil s : exec [] s s
  | exec_cons act r tr a a' s s1 s2 :
      run_action act a s = (r, a', s1) -> exec tr s1 s2 -> exec ((act, r) :: tr) s s2.

(** The seats the successful [ConfirmSeats] of a trace sold, in order. *)
Definition sold_by (x : action * res unit) : list UUID :=
  match x with
  | (ActConfirm req, Ok _) => default [] (mapM pg_uuid (sr_SeatIds req))
  | _ => []
  end.

Definition sold (tr : list (action * res unit)) : list UUID := flat_map sold_by tr.

(** Requests to the service, and one run of the sweeper. *)
Inductive call :=
  | CallCreate (req : CreateEventRequest)
  | CallReserve (req : SeatsRequest)
  | CallConfirm (req : SeatsRequest)
  | CallRelease (req : SeatsRequest)
  | CallSweep.

Definition run_call (c : call) : prog (inv_state R) unit :=
  match c with
  | CallCreate req => _ ← CreateEvent req; mret tt
  | CallReserve req => _ ← ReserveSeats req; mret tt
  | CallConfirm req => _ ← ConfirmSeats req; mret tt
  | CallRelease req => _ ← ReleaseSeats req; mret tt
  | CallSweep => sweepExpiredHolds
  end.

(** The answer of a call is the answer of its transaction. *)
Definition main_action (c : call) : action -> Prop :=
  match c with
  | CallCreate req => eq (ActCreate req)
  | CallReserve req => eq (ActReserve req)
  | CallConfirm req => eq (ActConfirm req)
  | CallRelease req => eq (ActRelease req)
  | CallSweep => fun act => exists ids, act = ActSweep ids
  end.
End Actions.

(** ** Lemmas *)

Section Traces.
Context `{U : UuidLib} {J : ProtoJson} {R : Type} `{RedisLib R}.
Context `{!UuidLaws U} `{!ProtoJsonLaws J}.

Lemma exec_app tr1 tr2 (s1 s2 s3 : inv_state R) :
  exec tr1 s1 s2 -> exec tr2 s2 s3 -> exec (tr1 ++ tr2) s1 s3.
Proof. intros H1 H2. induction H1; cbn; [done|]. econstructor; eauto. Qed.

Lemma exec_one act r a a' (s s' : inv_state R) :
  run_action act a s = (r, a', s') -> exec [(act, r)] s s'.
Proof. intros. econstructor; [done|constructor]. Qed.

Lemma run_checked {A} req (m : prog (inv_state R) A) Q a s :
  (forall e, Q (Err e) s) ->
  (sr_SeatIds req <> [] -> wp m (fun r _ s' =>
     match r with Ok _ => Q (Ok tt) s' | Err e => Q (Err e) s' end) a s) ->
  wp (checked req m) (fun r _ s' => Q r s') a s.
Proof.
  intros HE HQ. unfold checked. wp_steps.
  destruct (validateSeatRequest _ _ _) as [[]|e] eqn:Hv; [|by apply HE].
  apply wp_bind. eapply wp_mono; [apply HQ; by eapply validateSeatRequest_nonempty|].
  by intros [] ??.
Qed.

Lemma moved_at_most l ev ids o (d d' : inv_db) :
  moved l ev ids o d d' -> at_most (fun _ => True) d d'.
Proof. intros (? & ? & ? & _ & _ & _ & ?). right. eauto. Qed.

(** What an action does to the database: at most one step of the specification,
    and a successful confirm is a [LConfirm] step of the seats it names. *)
Definition action_effect (act : action (R := R)) (d : inv_db) (r : res unit) (d' : inv_db) : Prop :=
  at_most (fun _ => True) d d' /\
  forall req, act = ActConfirm req -> is_ok r = true ->
    moved LConfirm (sr_EventId req) (sr_SeatIds req) (sr_OrderId req) d d'.

Lemma effect_none act r (d : inv_db) :
  (forall req, act <> ActConfirm req) \/ is_ok r = false -> action_effect act d r d.
Proof. intros Hc. split; [by left|]. intros req -> Hr. destruct Hc as [Hc|Hc]; [by destruct (Hc req)|congruence]. Qed.

Lemma effect_step act r (d d' : inv_db) :
  (forall req, act <> ActConfirm req) -> at_most (fun _ => True) d d' -> action_effect act d r d'.
Proof. intros Hc Hd. split; [done|]. intros req ->. by destruct (Hc req). Qed.

Lemma wp_action act a s :
  wp (run_action act) (fun r _ s' => action_effect act (is_db s) r (is_db s')) a s.
Proof.
  destruct act; cbn [run_action].
  - apply wp_bind. eapply wp_mono; [apply CreateEvent_spec|]. cbn.
    intros [name|e] a' s' [_ Hr]; wp_steps; apply effect_step; try done.
    + destruct Hr as (ev & _ & Hst & _). right; eauto.
    + destruct Hr as [->|(l & _ & Hst)]; [by left|right; eauto].
  - apply (run_checked _ _ (fun r s' => action_effect (ActReserve req) (is_db s) r (is_db s')));
      [intros; apply effect_none; auto|]. intros Hne.
    eapply wp_mono; [by apply reserve_tx_spec|]. cbn.
    intros [rows|e] a' s' [_ Hr]; apply effect_step; try done.
    + destruct Hr as (? & ? & ? & _ & _ & _ & _ & ?). right; eauto.
    + destruct Hr as [->|(_ & rows & ? & ? & ? & _ & _ & _ & _ & ?)]; [by left|right; eauto].
  - unfold inc_reserved. wp_steps. apply effect_none; auto.
  - eapply wp_mono; [apply wp_redis_write|]. cbn. intros ??? [-> ->]. apply effect_none; auto.
  - apply (run_checked _ _ (fun r s' => action_effect (ActConfirm req) (is_db s) r (is_db s')));
      [intros; apply effect_none; auto|]. intros Hne.
    eapply wp_mono; [apply moveHeldSeats_spec; [constructor|done]|]. cbn.
    intros [[]|e] a' s' [_ Hr].
    + split; [by eapply moved_at_most|]. by intros ? [= <-].
    + split; [|done]. destruct Hr as [->|[_ Hr]]; [by left|by eapply moved_at_most].
  - apply (run_checked _ _ (fun r s' => action_effect (ActRelease req) (is_db s) r (is_db s')));
      [intros; apply effect_none; auto|]. intros Hne.
    eapply wp_mono; [apply moveHeldSeats_spec; [constructor|done]|]. cbn.
    intros [[]|e] a' s' [_ Hr]; apply effect_step; try done.
    + by eapply moved_at_most.
    + destruct Hr as [->|[_ Hr]]; [by left|by eapply moved_at_most].
  - eapply wp_mono; [apply wp_redis_write|]. cbn. intros ??? [-> ->]. apply effect_none; auto.
  - apply wp_bind. eapply wp_mono; [apply sweep_release_spec|]. cbn.
    intros [n|e] a' s' [_ Hr]; wp_steps; apply effect_step; try done.
    + destruct Hr as [_ ?]. right; eauto.
    + destruct Hr as [->|?]; [by left|right; eauto].
  - unfold add_expired. wp_steps. apply effect_none; auto.
  - wp_steps. apply effect_none; auto.
Qed.

Lemma run_action_effect act a s r a' s' :
  run_action act a s = (r, a', s') -> action_effect act (is_db s) r (is_db s').
Proof. intros E. exact (wp_run _ _ _ _ _ _ _ E (wp_action act a s)). Qed.

(** Invariants of single steps hold along executions. *)
Lemma exec_invariant (I : inv_db -> Prop) tr s s' :
  (forall l d d', db_step l d d' -> I d -> I d') ->
  exec tr s s' -> I (is_db s) -> I (is_db s').
Proof.
  intros HI. induction 1 as [|act r tr a a' s s1 s2 Hrun _ IH]; [done|]. intros Hs. apply IH.
  destruct (run_action_effect _ _ _ _ _ _ Hrun) as [[->|(l & _ & Hst)] _]; eauto.
Qed.

(** *** Sold seats *)

Definition is_sold (d : inv_db) (id : UUID) : Prop :=
  exists r, tb_seats d !! id = Some r /\ st_status r = "SOLD".

Lemma is_sold_step l d d' id : db_step l d d' -> is_sold d id -> is_sold d' id.
Proof.
  intros Hst (r & Hr & Hs). destruct (db_step_cases _ _ _ Hst) as [(h & rows & Ht)|(ev & n & ->)].
  - exists r. split; [|done]. rewrite (seats_set_lookup _ _ _ _ _ id (tc_set _ _ _ _ _ _ Ht)), Hr. cbn.
    rewrite bool_decide_eq_false_2; [done|]. intros Hin.
    destruct (tc_known _ _ _ _ _ _ Ht id Hin) as (r' & Hr' & Hns). congruence.
  - exists r. split; [|done].
    rewrite (db_step_keeps _ _ _ id Hst); [done|by eauto|apply not_elem_of_nil].
Qed.

Lemma confirm_sells ev o ids d d' :
  db_step (LConfirm ev o ids) d d' ->
  NoDup ids /\ (forall id, id ∈ ids -> ~ is_sold d id /\ is_sold d' id).
Proof.
  inversion 1 as [|? ? ? row ? ? _ [Hnd Hf] Hset _ _| | |]; subst. split; [done|].
  intros id Hid. destruct (Hf id Hid) as (r & Hr & _ & Hs & _). split.
  - intros (r' & Hr' & Hs'). congruence.
  - eexists. rewrite (seats_set_lookup _ _ _ _ _ id Hset), Hr. cbn.
    rewrite bool_decide_eq_true_2 by done. by split.
Qed.

Lemma sold_by_effect act r d d' :
  action_effect act d r d' ->
  NoDup (sold_by (act, r)) /\
  (forall id, id ∈ sold_by (act, r) -> ~ is_sold d id /\ is_sold d' id) /\
  (forall id, is_sold d id -> is_sold d' id).
Proof.
  intros [Hat Hc]. split_and!.
  1,2: destruct act as [| | | |req| | | | |]; cbn;
    try (by constructor); try (by intros ? ?%not_elem_of_nil);
    destruct r as [[]|]; cbn; try (by constructor); try (by intros ? ?%not_elem_of_nil);
    destruct (Hc req eq_refl eq_refl) as (ev & o & ids & _ & _ & -> & Hst);
    cbn; by eapply confirm_sells.
  intros id Hid. destruct Hat as [->|(l & _ & Hst)]; [done|]. by eapply is_sold_step.
Qed.

Lemma sold_fresh tr s s' :
  exec tr s s' -> NoDup (sold tr) /\ (forall id, id ∈ sold tr -> ~ is_sold (is_db s) id).
Proof.
  induction 1 as [|act r tr a a' s s1 s2 Hrun _ [IHn IHs]].
  { split; [constructor|]. by intros ? ?%not_elem_of_nil. }
  destruct (sold_by_effect _ _ _ _ (run_action_effect _ _ _ _ _ _ Hrun)) as (Hnd & Hnew & Hkeep).
  unfold sold in *. cbn [flat_map]. split.
  - apply NoDup_app. split_and!; [done| |done]. intros id [_ Hid]%Hnew Hin.
    by apply (IHs id).
  - intros id [Hid|Hid]%elem_of_app; [by apply Hnew|]. intros Hs. by apply (IHs id Hid), Hkeep.
Qed.

(** *** Handlers as sequences of actions *)

Lemma wp_as_action {A} act (m : prog (inv_state R) A) a s :
  (forall r, match m a s with (r', a', s') => r = match r' with Ok _ => Ok tt | Err e => Err e end ->
     run_action act a s = (r, a', s') end) ->
  wp m (fun r _ s' => exec [(act, match r with Ok _ => Ok tt | Err e => Err e end)] s s') a s.
Proof.
  unfold wp. destruct (m a s) as [[r a'] s']. intros Hm. eapply exec_one. by apply Hm.
Qed.

Lemma wp_for_each_exec {A} (f : A -> prog (inv_state R) unit) (g : A -> action) l a s :
  (forall x, run_action (g x) = f x) ->
  wp (for_each f l) (fun r _ s' => exists tr, exec tr s s' /\ map fst tr = take (length tr) (map g l)) a s.
Proof.
  intros Hg. revert a s. induction l as [|x l IH]; intros a s; cbn [for_each].
  { exists []. split; [constructor|done]. }
  apply wp_bind. eapply wp_mono; [apply (wp_as_action (g x))|].
  { intros r. rewrite Hg. destruct (f x a s) as [[[[]|e] a'] s']; by intros ->. }
  cbn. intros [[]|e] a' s' Hex; [|by exists [(g x, Err e)]].
  eapply wp_mono; [apply IH|]. cbn. intros r a'' s'' (tr & Htr & Hm).
  exists ((g x, Ok tt) :: tr). split; [|cbn; by rewrite Hm].
  by apply (exec_app [_] tr s s' s'').
Qed.

(** A checked transaction followed by Redis writes. *)
Lemma wp_checked_exec {A B} act req (m : prog (inv_state R) A) (k : A -> prog (inv_state R) B) a s :
  run_action act = checked req m ->
  (forall x a s, wp (k x) (fun r _ s' => is_ok r = true /\ exists tr, exec tr s s') a s) ->
  wp (_ ← lift_res (validateSeatRequest (sr_EventId req) (sr_SeatIds req) (sr_OrderId req));
      x ← m; k x)
    (fun r _ s' => exists r1 tr, exec ((act, r1) :: tr) s s' /\ is_ok r = is_ok r1) a s.
Proof.
  intros Hact Hk.
  assert (Hrun : forall r a' s', checked req m a s = (r, a', s') -> exec [(act, r)] s s').
  { intros r a' s' E. eapply exec_one. by rewrite Hact. }
  unfold checked, wp, mbind, prog_bind, mret, prog_ret in *.
  destruct (lift_res _ a s) as [[[[]|e] a0] s0]; [|exists (Err e), []; split; [by eapply Hrun|done]].
  destruct (m a0 s0) as [[[x|e] a1] s1]; [|exists (Err e), []; split; [by eapply Hrun|done]].
  specialize (Hk x a1 s1). specialize (Hrun _ _ _ eq_refl). unfold wp in Hk.
  destruct (k x a1 s1) as [[r a2] s2].
  destruct Hk as [Hok [tr Htr]]. exists (Ok tt), tr. split; [by apply (exec_app [_] tr s s1 s2)|done].
Qed.

Lemma redis_action_ok {A} (f : A -> prog (inv_state R) unit) (g : A -> action) l a s :
  (forall x, run_action (g x) = f x) -> (forall x a s, wp (f x) (fun r _ _ => r = Ok tt) a s) ->
  wp (for_each f l) (fun r _ s' => r = Ok tt /\ exists tr, exec tr s s') a s.
Proof.
  intros Hg Hf. apply wp_conj.
  - clear Hg. revert a s. induction l as [|x l IH]; intros a s; cbn [for_each]; [done|].
    apply wp_bind. eapply wp_mono; [apply Hf|]. cbn. intros r a' s' ->. apply IH.
  - eapply wp_mono; [by apply (wp_for_each_exec f g)|]. cbn. intros ??? (tr & ? & _). eauto.
Qed.

Lemma wp_redis_ok cmd a (s : inv_state R) : wp (redis_write cmd) (fun r _ _ => r = Ok tt) a s.
Proof. eapply wp_mono; [apply wp_redis_write|]. by intros ??? [-> _]. Qed.

Lemma wp_ReserveSeats_exec req a (s : inv_state R) :
  wp (ReserveSeats req) (fun r _ s' => exists r1 tr,
    exec ((ActReserve req, r1) :: tr) s s' /\ is_ok r = is_ok r1) a s.
Proof.
  unfold ReserveSeats. apply wp_checked_exec; [done|]. intros rows a1 s1.
  apply wp_bind. eapply wp_mono; [apply (wp_as_action ActReserved)|]; [by intros r ->|].
  cbn. intros [[]|e] a2 s2 Hex.
  2: { by inversion Hex as [|? ? ? ? ? ? ? ? Hrun]. }
  apply wp_bind. eapply wp_mono.
  { apply (redis_action_ok _ (fun x => ActHold (sr_OrderId req) x.1)); [done|].
    intros; apply wp_redis_ok. }
  cbn. intros r a3 s3 [-> [tr Htr]]. wp_steps. split; [done|].
  eexists. by eapply exec_app.
Qed.

Lemma wp_ConfirmSeats_exec req a (s : inv_state R) :
  wp (ConfirmSeats req) (fun r _ s' => exists r1 tr,
    exec ((ActConfirm req, r1) :: tr) s s' /\ is_ok r = is_ok r1) a s.
Proof.
  unfold ConfirmSeats. apply wp_checked_exec; [done|]. intros [] a1 s1.
  apply wp_bind. eapply wp_mono.
  { apply (redis_action_ok _ ActUnhold); [done|]. intros; apply wp_redis_ok. }
  cbn. intros r a3 s3 [-> Htr]. by wp_steps.
Qed.

Lemma wp_ReleaseSeats_exec req a (s : inv_state R) :
  wp (ReleaseSeats req) (fun r _ s' => exists r1 tr,
    exec ((ActRelease req, r1) :: tr) s s' /\ is_ok r = is_ok r1) a s.
Proof.
  unfold ReleaseSeats. apply wp_checked_exec; [done|]. intros [] a1 s1.
  apply wp_bind. eapply wp_mono.
  { apply (redis_action_ok _ ActUnhold); [done|]. intros; apply wp_redis_ok. }
  cbn. intros r a3 s3 [-> Htr]. by wp_steps.
Qed.

Lemma wp_sweep_exec a (s : inv_state R) :
  wp sweepExpiredHolds (fun r _ s' => r = Ok tt /\ (s' = s \/
    exists ids r1 tr, exec ((ActSweep ids, r1) :: tr) s s')) a s.
Proof.
  unfold sweepExpiredHolds. wp_steps. eapply wp_mono; [apply wp_sweep_held|].
  cbn. intros [heldIDs|e] a1 s1 (-> & _); [|wp_steps; auto].
  apply wp_bind. eapply wp_mono; [apply wp_sweep_expired|].
  cbn. intros r a2 s2 (-> & _ & _ & l & -> & _). wp_steps; [auto|].
  eapply wp_mono; [apply (wp_as_action (ActSweep l))|].
  { intros r. cbn. unfold mbind, prog_bind, mret, prog_ret.
    destruct (sweep_release l a2 s) as [[[n|e] a'] s']; by intros ->. }
  cbn. intros [n|e] a3 s3 Hex; unfold add_expired; wp_steps; (split; [done|]); right;
    exists l; eexists; [|exists []; exact Hex].
  exists [(ActExpired (Z.of_nat n), Ok tt)]. eapply (exec_app [_] [_]); [exact Hex|].
  by eapply (exec_one _ _ a3).
Qed.
End Traces.
