(* ===== verification/InventoryLive.v ===== *)
(** * inventory-svc: outcomes when nothing fails

    The specification of [InventorySpec] bounds what a handler may have done; here is
    what it does do when no external call fails: a request is granted exactly when
    the seats are in the right state, and a sweep frees exactly the expired holds. *)

From stdpp Require Import base gmap list strings numbers sorting.
From S2P Require Import Prelude Platform GoStrings Events Redis Inventory InventorySpec InventoryInv.
From S2P Require Import InventoryTrace.

Section Live.
Context `{U : UuidLib} {J : ProtoJson} {R : Type} `{RedisLib R}.
Context `{!UuidLaws U} `{!ProtoJsonLaws J}.

Implicit Types (s : inv_state R) (a : ambient).

(** The outbox row of a change can be written: the message's id is new and its
    fields are encodable. *)
Definition can_emit (a : ambient) (d : inv_db) (eventID : string) (seatIDs : list string)
    (st : SeatState) : Prop :=
  ~ (amb_uuid a (amb_next a) ∈ map ob_id (tb_outbox d)) /\
  forall id now, is_ok (EncodeSeatEvent
    {| se_MessageId := uuid_string id; se_OccurredAt := now; se_EventId := eventID;
       se_SeatIds := seatIDs; se_State := st |}) = true.

Lemma wp_emit_ok tx eventID seatIDs st ev a s :
  no_faults a -> can_emit a tx eventID seatIDs st ->
  pg_uuid eventID = Some ev -> is_Some (tb_events tx !! ev) ->
  wp (emitSeatEvent tx eventID seatIDs st) (fun r a' s' =>
    s' = s /\ no_faults a' /\ amb_now a' = amb_now a /\ is_ok r = true) a s.
Proof.
  intros Hnf [Hfresh Henc] Hev Hex. unfold emitSeatEvent. wp_steps; [done|].
  specialize (Henc (amb_uuid a (amb_next a)) (amb_now (drop_uuid a))).
  destruct (EncodeSeatEvent _) as [payload|]; [|done]. wp_steps; [|no_fault].
  unfold pg_arg. rewrite Hev. wp_steps; autorewrite with prog; [auto with prog|].
  unfold outbox_insert in Heqr. cbn in Heqr. rewrite bool_decide_eq_false_2 in Heqr by done.
  by rewrite bool_decide_eq_true_2 in Heqr.
Qed.

Lemma all_free_count d ev ids :
  all_free d ev ids -> sql_count (seats_of ids ev) (tb_seats d) = length ids.
Proof.
  intros [Hnd Hall]. apply sql_count_keys; [done|]. intros id. split.
  - intros Hid. destruct (Hall id Hid) as (r & Hr & He & _). exists r. split; [done|]. unfold seats_of.
    by rewrite He, !bool_decide_eq_true_2.
  - intros (r & _ & Hp). by eapply seats_of_ids.
Qed.

Lemma all_held_count d ev o ids :
  all_held d ev o ids -> sql_count (held_seats_of ids ev o) (tb_seats d) = length ids.
Proof.
  intros [Hnd Hall]. apply sql_count_keys; [done|]. intros id. split.
  - intros Hid. destruct (Hall id Hid) as (r & Hr & He & Hs & Hh). exists r. split; [done|]. unfold held_seats_of, seats_of.
    by rewrite He, Hs, Hh, !bool_decide_eq_true_2.
  - intros (r & _ & Hp). by eapply held_seats_of_ids.
Qed.

(** The event of a seat that exists, exists. *)
Lemma seat_event_exists d id r ev :
  wf_db d -> tb_seats d !! id = Some r -> st_event_id r = ev -> is_Some (tb_events d !! ev).
Proof. intros Hwf Hr <-. by eapply wf_event. Qed.

(** [uuid.New] does not repeat itself nor an id the outbox has. *)
Definition fresh_supply (a : ambient) (d : inv_db) : Prop :=
  forall n, amb_next a <= n ->
    ~ (amb_uuid a n ∈ map ob_id (tb_outbox d)) /\
    forall m, amb_next a <= m -> amb_uuid a n = amb_uuid a m -> n = m.

Definition encodable (st : SeatState) : Prop :=
  forall id now ev us, is_ok (EncodeSeatEvent
    {| se_MessageId := uuid_string id; se_OccurredAt := now; se_EventId := uuid_string ev;
       se_SeatIds := map uuid_string us; se_State := st |}) = true.

Lemma wp_emit_fresh tx ev us st a s :
  no_faults a -> fresh_supply a tx -> encodable st -> us <> [] -> is_Some (tb_events tx !! ev) ->
  wp (emitSeatEvent tx (uuid_string ev) (map uuid_string us) st) (fun r a' s' =>
    s' = s /\ no_faults a' /\ exists tx', r = Ok tx' /\ fresh_supply a' tx' /\
      tb_events tx' = tb_events tx) a s.
Proof.
  intros Hnf Hfs Henc Hne Hex.
  assert (Hf : ~ (amb_uuid a (amb_next a) ∈ map ob_id (tb_outbox tx))) by (by apply Hfs).
  unfold emitSeatEvent. wp_steps; [by destruct us|].
  specialize (Henc (amb_uuid a (amb_next a)) (amb_now (drop_uuid a)) ev us).
  destruct (EncodeSeatEvent _) as [payload|]; [|done]. wp_steps; [|no_fault].
  unfold pg_arg. rewrite pg_uuid_string. wp_steps; autorewrite with prog.
  - apply outbox_insert_inv in Heqr as (-> & _). split_and!; [done|auto with prog|].
    eexists. split; [done|]. split; [|done]. intros n. autorewrite with prog. cbn. intros Hn.
    split; [|intros m Hm; apply Hfs; lia]. rewrite map_app, elem_of_app. cbn.
    intros [Hin|E%list_elem_of_singleton]; [apply (Hfs n); [lia|done]|].
    apply Hfs in E; lia.
  - unfold outbox_insert in Heqr. cbn in Heqr. rewrite bool_decide_eq_false_2 in Heqr by done.
    by rewrite bool_decide_eq_true_2 in Heqr.
Qed.

Lemma emit_each_live groups tx a s :
  no_faults a -> fresh_supply a tx -> encodable SEAT_STATE_AVAILABLE ->
  (forall name ids, (name, ids) ∈ groups -> exists ev us, name = uuid_string ev /\
     ids = map uuid_string us /\ us <> [] /\ is_Some (tb_events tx !! ev)) ->
  wp (emit_each tx groups) (fun r a' s' => s' = s /\ no_faults a' /\ is_ok r = true) a s.
Proof.
  revert tx a. induction groups as [|[name ids] groups IH]; intros tx a Hnf Hfs Henc Hg;
    cbn [emit_each]; [done|].
  destruct (Hg name ids) as (ev & us & -> & -> & Hne & Hex); [by left|].
  apply wp_bind. eapply wp_mono; [by apply wp_emit_fresh|]. cbn.
  intros r a' s' (-> & Hnf' & tx' & -> & Hfs' & He). apply IH; try done.
  rewrite He. intros ? ? Hin. apply Hg. by right.
Qed.

Lemma sweep_release_live expired a s :
  no_faults a -> wf_db (is_db s) -> fresh_supply a (is_db s) -> encodable SEAT_STATE_AVAILABLE ->
  wp (sweep_release expired) (fun r a' _ => no_faults a' /\ is_ok r = true) a s.
Proof.
  intros Hnf Hwf Hfs Henc. unfold sweep_release. wp_steps; try no_fault; cbn in *.
  2: { unfold update_seats in Heqr. done. }
  apply update_seats_inv in Heqr as (_ & He & Hout & Hseats).
  eapply wp_mono; [apply emit_each_live|]; auto with prog.
  { unfold fresh_supply. rewrite Hout. autorewrite with prog. apply Hfs. }
  { intros name ids Hin%elem_of_map_to_list. apply by_event_group in Hin as (ev & us & -> & -> & Hne & Hus).
    exists ev, us. split_and!; try done. rewrite He. destruct us as [|id us]; [done|].
    destruct (proj1 (Hus id) (list_elem_of_here _ _)) as (r & [Hr _]%elem_of_sql_select & Hre).
    by eapply seat_event_exists. }
  cbn. intros [tx|] a' s' (-> & Hnf' & Hok); [|done]. wp_steps. cbn. split; [auto with prog|].
  intros ?; no_fault.
Qed.

(** Without faults a sweep frees exactly the held seats whose key is absent. *)
Lemma sweepExpiredHolds_live a s :
  no_faults a -> wf_db (is_db s) -> fresh_supply a (is_db s) -> encodable SEAT_STATE_AVAILABLE ->
  wp sweepExpiredHolds (fun r _ s' => r = Ok tt /\ exists ids,
    (is_db s' = is_db s /\ ids = [] \/ db_step (LSweep ids) (is_db s) (is_db s')) /\
    forall id, id ∈ ids <->
      (exists x, tb_seats (is_db s) !! id = Some x /\ st_status x = "HELD") /\
      redis_exists (amb_now a / 10 ^ 6) (holdKey (uuid_string id)) (is_redis s) = false) a s.
Proof.
  intros Hnf Hwf Hfs Henc. unfold sweepExpiredHolds. wp_steps.
  eapply wp_mono; [apply wp_sweep_held|]. cbn.
  intros r a1 s1 (-> & _ & Hr & Hheld). destruct (Hr Hnf) as [-> Hok].
  destruct r as [heldIDs|]; [clear Hok Hr|done]. specialize (Hheld _ eq_refl).
  apply wp_bind. eapply wp_mono; [apply wp_sweep_expired|]. cbn.
  intros r a2 s2 (-> & _ & Ha & l & -> & Hl1 & Hl2). rewrite (Ha Hnf). specialize (Hl2 Hnf).
  assert (Hl : forall id, id ∈ to_free (is_db s) l <->
    (exists x, tb_seats (is_db s) !! id = Some x /\ st_status x = "HELD") /\
    redis_exists (amb_now a / 10 ^ 6) (holdKey (uuid_string id)) (is_redis s) = false).
  { intros id. rewrite elem_of_to_free. split.
    - intros [Hid Hx]. split; [done|]. by apply Hl1.
    - intros [Hx Hex]. split; [|done]. apply Hl2; [by apply Hheld|done]. }
  wp_steps.
  { split; [done|]. exists []. split; [by left|]. intros id. rewrite <- Hl.
    reflect_bools. destruct l; [|done]. rewrite elem_of_to_free, !elem_of_nil. tauto. }
  eapply wp_mono; [apply wp_conj; [by apply sweep_release_live|apply sweep_release_spec]|].
  cbn. intros [n|e] a3 s3 [[_ Hok] [_ Hst]]; [|done]. destruct Hst as [_ Hst].
  unfold add_expired. wp_steps. split; [done|]. exists (to_free (is_db s) l). cbn. eauto.
Qed.

(** The two checks of [ReserveSeats] pass exactly when all seats are free. *)
Lemma free_check d ev ids :
  (sql_count (seats_of ids ev) (tb_seats d) = length ids /\
   existsb (fun x => bool_decide (st_status x.2 <> "AVAILABLE"))
     (sql_select (seats_of ids ev) (tb_seats d)) = false) <-> all_free d ev ids.
Proof.
  split.
  - intros [Hc Hb]. destruct (sql_select_full_inv _ _ ids (fun k v => seats_of_ids ids ev k v) Hc)
      as [Hnd Hall].
    split; [done|]. intros id Hid. destruct (Hall id Hid) as (r & Hr & Hp). exists r.
    assert (Hin : (id, r) ∈ sql_select (seats_of ids ev) (tb_seats d))
      by (by apply elem_of_sql_select).
    pose proof (existsb_false _ _ Hb _ Hin) as Hs. cbn in Hs. unfold seats_of in Hp. reflect_bools.
    apply dec_stable in Hs. done.
  - intros Hf. split; [by apply all_free_count|]. destruct (existsb _ _) eqn:E; [|done].
    apply existsb_exists in E as ([id r] & Hin%list_elem_of_In & Hp). cbn in Hp.
    apply elem_of_sql_select in Hin as [Hr Hs]. reflect_bools. cbn in Hp.
    destruct Hf as [_ Hall]. destruct (Hall id) as (r' & Hr' & _ & ?);
      [by eapply seats_of_ids|]. congruence.
Qed.

Lemma reserve_tx_live req ev o ids a s :
  no_faults a -> wf_db (is_db s) -> sr_SeatIds req <> [] ->
  pg_uuid (sr_EventId req) = Some ev -> pg_uuid (sr_OrderId req) = Some o ->
  mapM pg_uuid (sr_SeatIds req) = Some ids ->
  can_emit a (is_db s) (sr_EventId req) (sr_SeatIds req) SEAT_STATE_HELD ->
  wp (reserve_tx req) (fun r a' s' => no_faults a' /\ amb_now a' = amb_now a /\
    (all_free (is_db s) ev ids -> is_ok r = true) /\
    (~ all_free (is_db s) ev ids -> (exists msg, r = Err (refused msg)) /\
       is_db s' = is_db s /\ is_redis s' = is_redis s /\ is_conflict s' = (is_conflict s + 1)%Z)) a s.
Proof.
  intros Hnf Hwf Hne Hev Ho Hids Hemit. pose proof (mapM_pg_length _ _ Hids) as Hlen.
  unfold reserve_tx, pg_args, pg_arg. rewrite Hids, Hev, Ho. wp_steps; try no_fault;
    unfold inc_conflict; wp_steps; cbn in *; reflect_bools; autorewrite with prog.
  1,2: split_and!; [auto with prog|done| |by eauto].
  1,2: intros [Hc Hb]%free_check; unfold sql_count in Hc; congruence.
  all: apply dec_stable in Heqb.
  all: assert (Hf : all_free (is_db s) ev ids)
    by (apply free_check; split; [unfold sql_count; congruence|done]).
  2: { unfold update_seats in Heqr. done. }
  apply update_seats_inv in Heqr as (_ & He & Hout & Hseats).
  eapply wp_mono; [apply (wp_emit_ok i (sr_EventId req) (sr_SeatIds req) SEAT_STATE_HELD ev)|].
  { auto with prog. }
  { destruct Hemit as [Hfresh Henc]. rewrite <- Hout in Hfresh. split; [|done].
    by autorewrite with prog. }
  { done. }
  { rewrite He. destruct Hf as [_ Hall]. destruct ids as [|id ids]; [by destruct (sr_SeatIds req)|].
    destruct (Hall id) as (r & Hr & Hre & _); [by left|]. by eapply seat_event_exists. }
  cbn. intros [tx|] a' s' (-> & Hnf' & Hnow & Hok); [|done].
  autorewrite with prog in Hnow.
  wp_steps; try no_fault; autorewrite with prog; split_and!; auto with prog; done.
Qed.

Lemma moveHeldSeats_live st state l eventID seatIDs orderID failure ev o ids a s :
  move_kind st state l -> no_faults a -> wf_db (is_db s) -> seatIDs <> [] ->
  pg_uuid eventID = Some ev -> pg_uuid orderID = Some o -> mapM pg_uuid seatIDs = Some ids ->
  can_emit a (is_db s) eventID seatIDs state ->
  wp (moveHeldSeats eventID seatIDs orderID st state failure) (fun r a' s' =>
    no_faults a' /\ amb_now a' = amb_now a /\
    (all_held (is_db s) ev o ids -> is_ok r = true) /\
    (~ all_held (is_db s) ev o ids -> r = Err (refused failure) /\ s' = s)) a s.
Proof.
  intros Hk Hnf Hwf Hne Hev Ho Hids Hemit. pose proof (mapM_pg_length _ _ Hids) as Hlen.
  unfold moveHeldSeats, pg_args, pg_arg. rewrite Hids, Hev, Ho. wp_steps; try no_fault; cbn in *;
    reflect_bools; autorewrite with prog.
  3: { unfold update_seats in Heqr. by destruct Hk. }
  all: apply update_seats_inv in Heqr as (-> & He & Hout & Hseats).
  { split_and!; [auto with prog|done| |done]. intros Hc%all_held_count. congruence. }
  apply dec_stable in Heqb.
  destruct (held_update_full ids ev o (tb_seats (is_db s)) st) as [Hall _]; [congruence|].
  eapply wp_mono; [apply (wp_emit_ok i eventID seatIDs state ev)|].
  { auto with prog. }
  { destruct Hemit as [Hfresh Henc]. rewrite <- Hout in Hfresh. split; [|done].
    by autorewrite with prog. }
  { done. }
  { rewrite He. destruct Hall as [_ Hall]. destruct ids as [|id ids]; [by destruct seatIDs|].
    destruct (Hall id) as (r & Hr & Hre & _); [by left|]. by eapply seat_event_exists. }
  cbn. intros [tx|] a' s' (-> & Hnf' & Hnow & Hok); [|done]. autorewrite with prog in Hnow.
  wp_steps. cbn. split; [|intros ?; no_fault]. autorewrite with prog.
  split_and!; auto with prog; done.
Qed.
End Live.
