(* ===== verification/InventoryRace.v ===== *)
(** * inventory-svc: concurrent transactions

    The transactions of [ReserveSeats], [ConfirmSeats], [ReleaseSeats] and of the sweeper
    statement by statement, as Postgres runs them at READ COMMITTED.  [SELECT .. FOR UPDATE]
    and [UPDATE] look for their rows in what was committed when they began; they lock these
    rows one after the other, in whatever order the scan meets them, wait for a row that
    another transaction has locked, and check and return the version they find once they have
    the lock.  Locks last until the transaction ends, and its writes appear when it commits.
    The rows of [CreateEvent] are new, so nothing can happen between its statements that
    another transaction could see: it is one step. *)

From stdpp Require Import base gmap list strings numbers sorting.
From S2P Require Import Prelude Platform GoStrings Events Redis Inventory InventorySpec InventoryInv InventoryTrace.

(** ** The service, statement by statement *)

Section Race.
Context `{U : UuidLib} {J : ProtoJson}.

Inductive kind := KReserve | KConfirm | KRelease.

(** The arguments of a handler that has validated its request, as Postgres reads them. *)
Record seats_args := {
  sa_req : SeatsRequest;
  sa_ev : UUID;
  sa_order : UUID;
  sa_ids : list UUID;
}.

Inductive job :=
  | JSeats (k : kind) (g : seats_args)
  | JSweep (expired : list UUID).

Definition read_args (req : SeatsRequest) : option seats_args :=
  match validateSeatRequest (sr_EventId req) (sr_SeatIds req) (sr_OrderId req) with
  | Err _ => None
  | Ok _ =>
      ev ← pg_uuid (sr_EventId req);
      o ← pg_uuid (sr_OrderId req);
      ids ← mapM pg_uuid (sr_SeatIds req);
      Some {| sa_req := req; sa_ev := ev; sa_order := o; sa_ids := ids |}
  end.

(** The WHERE clause of the first statement: the locked read of a reservation, the update of
    [moveHeldSeats] or of the sweeper. *)
Definition scans (j : job) : UUID -> seat_row -> bool :=
  match j with
  | JSeats KReserve g => seats_of (sa_ids g) (sa_ev g)
  | JSeats _ g => held_seats_of (sa_ids g) (sa_ev g) (sa_order g)
  | JSweep expired => fun id r => bool_decide (id ∈ expired) && is_held id r
  end.

(** What the job makes of its seats. *)
Definition job_state (j : job) : SeatState :=
  match j with
  | JSeats KReserve _ => SEAT_STATE_HELD
  | JSeats KConfirm _ => SEAT_STATE_SOLD
  | _ => SEAT_STATE_AVAILABLE
  end.

Definition job_holder (j : job) : option UUID :=
  match j with JSeats KReserve g => Some (sa_order g) | _ => None end.

(** The checks on the rows the first statement returned (or affected). *)
Definition accepts (j : job) (rows : list (UUID * seat_row)) : bool :=
  match j with
  | JSeats KReserve g => bool_decide (length rows = length (sr_SeatIds (sa_req g)))
      && forallb (fun x => bool_decide (st_status x.2 = "AVAILABLE")) rows
  | JSeats _ g => bool_decide (length rows = length (sr_SeatIds (sa_req g)))
  | JSweep _ => true
  end.

(** The seat events to be written: the event's id and its seats, as the code spells them. *)
Definition groups_of (j : job) (rows : list (UUID * seat_row)) : list (string * list string) :=
  match j with
  | JSeats _ g => [(sr_EventId (sa_req g), sr_SeatIds (sa_req g))]
  | JSweep _ => map_to_list (by_event rows)
  end.

(** How far a transaction is: [got] are the rows its first statement has locked, in this order
    and as they were then; [wr] those it has updated; [out] the outbox rows it has inserted. *)
Inductive stage :=
  | Begun
  | Scanning (todo : gset UUID) (got : list (UUID * seat_row))
  | Returned (got : list (UUID * seat_row))
  | Emitting (got wr : list (UUID * seat_row)) (groups : list (string * list string))
      (out : list outbox_row).

Record seat_tx := { tx_job : job; tx_start : Z; tx_stage : stage }.

(** The committed database, the open transactions, and the transactions committed so far. *)
Record seat_race := {
  cs_db : inv_db;
  cs_txs : gmap nat seat_tx;
  cs_log : list db_label;
}.

(** The rows a transaction has locked. *)
Definition got_of (st : stage) : list (UUID * seat_row) :=
  match st with
  | Begun => []
  | Scanning _ got | Returned got => got
  | Emitting got wr _ _ => got ++ wr
  end.

Definition staged (st : stage) : list outbox_row :=
  match st with Emitting _ _ _ out => out | _ => [] end.

(** No transaction but [i] has locked the seat. *)
Definition unlocked (i : nat) (id : UUID) (c : seat_race) : bool :=
  bool_decide (map_Forall (fun j tx => i = j \/ id ∉ (got_of (tx_stage tx)).*1) (cs_txs c)).

(** No outbox row has the id yet, committed or not. *)
Definition new_id (mid : UUID) (c : seat_race) : bool :=
  bool_decide (mid ∉ map ob_id (tb_outbox (cs_db c))) &&
  bool_decide (map_Forall (fun _ tx => mid ∉ map ob_id (staged (tx_stage tx))) (cs_txs c)).

Definition with_stage (tx : seat_tx) (st : stage) : seat_tx :=
  {| tx_job := tx_job tx; tx_start := tx_start tx; tx_stage := st |}.

Definition set_tx (i : nat) (tx : seat_tx) (c : seat_race) : seat_race :=
  {| cs_db := cs_db c; cs_txs := <[i := tx]> (cs_txs c); cs_log := cs_log c |}.

Definition end_tx (i : nat) (c : seat_race) : seat_race :=
  {| cs_db := cs_db c; cs_txs := delete i (cs_txs c); cs_log := cs_log c |}.

(** The row [emitSeatEvent] inserts, unless the event cannot be encoded. *)
Definition emitted_row (mid : UUID) (now created : Z) (eventID : string) (seatIDs : list string)
    (st : SeatState) : option outbox_row :=
  match EncodeSeatEvent {| se_MessageId := uuid_string mid; se_OccurredAt := now;
          se_EventId := eventID; se_SeatIds := seatIDs; se_State := st |}, pg_uuid eventID with
  | Ok payload, Some key =>
      Some {| ob_id := mid; ob_key := key; ob_event_type := "seat." +:+ SeatStateName st;
              ob_payload := jsonb payload; ob_published := false; ob_published_at := None;
              ob_created_at := created |}
  | _, _ => None
  end.

Definition apply_job (j : job) (ids : list UUID) (out : list outbox_row) (d : inv_db) : inv_db :=
  {| tb_events := tb_events d;
     tb_seats := sql_update (fun id _ => bool_decide (id ∈ ids))
                   (set_seat (state_status (job_state j)) (job_holder j)) (tb_seats d);
     tb_outbox := tb_outbox d ++ out |}.

Definition job_label (j : job) (ids : list UUID) : db_label :=
  match j with
  | JSeats KReserve g => LReserve (sa_ev g) (sa_order g) (sa_ids g)
  | JSeats KConfirm g => LConfirm (sa_ev g) (sa_order g) (sa_ids g)
  | JSeats KRelease g => LRelease (sa_ev g) (sa_order g) (sa_ids g)
  | JSweep _ => LSweep ids
  end.

Definition commit_tx (i : nat) (j : job) (ids : list UUID) (out : list outbox_row) (c : seat_race) : seat_race :=
  {| cs_db := apply_job j ids out (cs_db c); cs_txs := delete i (cs_txs c);
     cs_log := cs_log c ++ [job_label j ids] |}.

(** [CreateEvent]: the event, then its seats in the order of their numbers. *)
Fixpoint create_seats (ev : UUID) (ids : list UUID) (i now : Z) (d : inv_db) : option inv_db :=
  match ids with
  | [] => Some d
  | id :: ids' =>
      match insert_seat id ev ("Seat " +:+ itoa i) now d with
      | Ok d' => create_seats ev ids' (i + 1) now d'
      | Err _ => None
      end
  end.

Definition create_rows (req : CreateEventRequest) (ev : UUID) (ids : list UUID) (now : Z) (d : inv_db)
    : option inv_db :=
  match validateCreateEvent req, insert_event ev (trim_space (ce_Name req)) now d with
  | Ok _, Ok d' => if bool_decide (length ids = Z.to_nat (ce_SeatCount req))
                   then create_seats ev ids 1 now d' else None
  | _, _ => None
  end.

Inductive action :=
  | ABegin (i : nat) (k : kind) (req : SeatsRequest) (start : Z)
  | ASweep (i : nat) (expired : list UUID) (start : Z)
  | AScan (i : nat)
  | ALock (i : nat) (id : UUID)
  | AReturn (i : nat)
  | ARefuse (i : nat)
  | AUpdate (i : nat)
  | AEmit (i : nat) (mid : UUID) (now : Z)
  | ACommit (i : nat)
  | AAbort (i : nat)
  | ACreate (req : CreateEventRequest) (ev : UUID) (ids : list UUID) (now : Z).

Definition begin_tx (i : nat) (j : job) (start : Z) (c : seat_race) : option seat_race :=
  match cs_txs c !! i with
  | Some _ => None
  | None => Some (set_tx i {| tx_job := j; tx_start := start; tx_stage := Begun |} c)
  end.

(** The locked rows that still satisfy the WHERE clause: what the statement returns. *)
Definition matching (j : job) (got : list (UUID * seat_row)) : list (UUID * seat_row) :=
  filter (fun x => scans j x.1 x.2 = true) got.

(** The rows the job updates: those its first statement affected, or for a reservation those
    of [UPDATE seats .. WHERE id = ANY($2)]. *)
Definition updated_rows (j : job) (got : list (UUID * seat_row)) (d : inv_db) : list (UUID * seat_row) :=
  match j with
  | JSeats KReserve g => sql_select (fun id _ => bool_decide (id ∈ sa_ids g)) (tb_seats d)
  | _ => matching j got
  end.

(** One step; [None] when it cannot happen now: the statement before has not returned, waits
    for a lock, or fails (then the transaction aborts). *)
Definition step (act : action) (c : seat_race) : option seat_race :=
  match act with
  | ABegin i k req start => g ← read_args req; begin_tx i (JSeats k g) start c
  | ASweep i expired start => begin_tx i (JSweep expired) start c
  | AScan i =>
      tx ← cs_txs c !! i;
      match tx_stage tx with
      | Begun => Some (set_tx i (with_stage tx
          (Scanning (list_to_set (sql_select (scans (tx_job tx)) (tb_seats (cs_db c))).*1) [])) c)
      | _ => None
      end
  | ALock i id =>
      tx ← cs_txs c !! i;
      match tx_stage tx, tb_seats (cs_db c) !! id with
      | Scanning todo got, Some r =>
          if bool_decide (id ∈ todo) && unlocked i id c
          then Some (set_tx i (with_stage tx (Scanning (todo ∖ {[id]}) (got ++ [(id, r)]))) c) else None
      | _, _ => None
      end
  | AReturn i =>
      tx ← cs_txs c !! i;
      match tx_stage tx with
      | Scanning todo got => if bool_decide (todo = ∅) then Some (set_tx i (with_stage tx (Returned got)) c) else None
      | _ => None
      end
  | ARefuse i =>
      tx ← cs_txs c !! i;
      match tx_stage tx with
      | Returned got => if accepts (tx_job tx) (matching (tx_job tx) got) then None else Some (end_tx i c)
      | _ => None
      end
  | AUpdate i =>
      tx ← cs_txs c !! i;
      match tx_stage tx with
      | Returned got =>
          let wr := updated_rows (tx_job tx) got (cs_db c) in
          if accepts (tx_job tx) (matching (tx_job tx) got) && forallb (fun x => unlocked i x.1 c) wr
          then Some (set_tx i (with_stage tx
                 (Emitting got wr (groups_of (tx_job tx) wr) [])) c)
          else None
      | _ => None
      end
  | AEmit i mid now =>
      tx ← cs_txs c !! i;
      match tx_stage tx with
      | Emitting got wr ((eventID, seatIDs) :: groups) out =>
          row ← emitted_row mid now (tx_start tx) eventID seatIDs (job_state (tx_job tx));
          if new_id mid c && bool_decide (is_Some (tb_events (cs_db c) !! ob_key row))
          then Some (set_tx i (with_stage tx (Emitting got wr groups (out ++ [row]))) c) else None
      | _ => None
      end
  | ACommit i =>
      tx ← cs_txs c !! i;
      match tx_stage tx with
      | Emitting got wr [] out => Some (commit_tx i (tx_job tx) wr.*1 out c)
      | _ => None
      end
  | AAbort i => _ ← cs_txs c !! i; Some (end_tx i c)
  | ACreate req ev ids now =>
      d ← create_rows req ev ids now (cs_db c);
      Some {| cs_db := d; cs_txs := cs_txs c; cs_log := cs_log c ++ [LCreate ev (length ids)] |}
  end.

Fixpoint run (acts : list action) (c : seat_race) : option seat_race :=
  match acts with
  | [] => Some c
  | act :: acts' => c' ← step act c; run acts' c'
  end.

(** The service between calls. *)
Definition idle (d : inv_db) : seat_race := {| cs_db := d; cs_txs := ∅; cs_log := [] |}.
End Race.

(** ** The invariant of the concurrent service *)

Section Invariant.
Context `{U : UuidLib} {J : ProtoJson}.
Implicit Types (d : inv_db) (tx : seat_tx) (c : seat_race).

(** The request of a job, read by Postgres. *)
Definition job_ok (j : job) : Prop :=
  match j with
  | JSeats _ g => pg_uuid (sr_EventId (sa_req g)) = Some (sa_ev g) /\
      pg_uuid (sr_OrderId (sa_req g)) = Some (sa_order g) /\
      mapM pg_uuid (sr_SeatIds (sa_req g)) = Some (sa_ids g) /\ sa_ids g <> []
  | JSweep _ => True
  end.

(** The step of the specification is possible, and [ids] are the seats it concerns. *)
Definition ready (j : job) d (ids : list UUID) : Prop :=
  match j with
  | JSeats KReserve g => all_free d (sa_ev g) (sa_ids g) /\ forall id, id ∈ ids <-> id ∈ sa_ids g
  | JSeats _ g => all_held d (sa_ev g) (sa_order g) (sa_ids g) /\ forall id, id ∈ ids <-> id ∈ sa_ids g
  | JSweep _ => forall id, id ∈ ids -> exists r, tb_seats d !! id = Some r /\ st_status r = "HELD"
  end.

(** The outbox row tells what the group says. *)
Definition tells (st : SeatState) (g : string * list string) (row : outbox_row) : Prop :=
  exists ev, pg_uuid g.1 = Some ev /\ forall us, mapM pg_uuid g.2 = Some us -> announces ev us st row.

Definition insertable d (rows : list outbox_row) : Prop :=
  (forall row, row ∈ rows -> ob_id row ∉ map ob_id (tb_outbox d)) /\
  NoDup (map ob_id rows) /\ (forall row, row ∈ rows -> is_Some (tb_events d !! ob_key row)).

(** What a transaction knows of its rows stays true while it holds their locks. *)
Definition tx_ok d tx : Prop :=
  job_ok (tx_job tx) /\
  (forall id r, (id, r) ∈ got_of (tx_stage tx) -> tb_seats d !! id = Some r) /\
  match tx_stage tx with
  | Begun => True
  | Scanning todo got => NoDup got.*1 /\ forall id, id ∈ got.*1 -> id ∉ todo
  | Returned got => NoDup got.*1
  | Emitting got wr groups out => ready (tx_job tx) d wr.*1 /\ insertable d out /\
      exists sent, groups_of (tx_job tx) wr = sent ++ groups /\ Forall2 (tells (job_state (tx_job tx))) sent out
  end.

(** Two transactions have no lock and no outbox id in common. *)
Definition apart tx tx' : Prop :=
  (forall id, id ∈ (got_of (tx_stage tx)).*1 -> id ∉ (got_of (tx_stage tx')).*1) /\
  (forall row, row ∈ staged (tx_stage tx) -> ob_id row ∉ map ob_id (staged (tx_stage tx'))).

Record race_ok c : Prop := {
  ro_txs : forall i tx, cs_txs c !! i = Some tx -> tx_ok (cs_db c) tx;
  ro_apart : forall i j tx tx', cs_txs c !! i = Some tx -> cs_txs c !! j = Some tx' -> i <> j -> apart tx tx';
}.

Lemma apart_sym tx tx' : apart tx tx' -> apart tx' tx.
Proof.
  intros [Hl Hr]. split.
  - intros id Hid Hid'. by apply (Hl id).
  - intros row Hrow (row' & E & Hrow')%list_elem_of_fmap. apply (Hr row' Hrow'). rewrite <- E.
    by apply list_elem_of_fmap_2.
Qed.

Lemma unlocked_spec i id c j tx :
  unlocked i id c = true -> cs_txs c !! j = Some tx -> i <> j -> id ∉ (got_of (tx_stage tx)).*1.
Proof. intros Hf%bool_decide_eq_true Hj Hne. by destruct (Hf j tx Hj). Qed.

(** *** Changes of the database *)

Lemma ready_rows j d d' ids :
  (forall id, id ∈ ids -> tb_seats d' !! id = tb_seats d !! id) -> ready j d ids -> ready j d' ids.
Proof.
  intros Hk. destruct j as [k g|expired]; cbn.
  - assert (Hg : forall (P : seat_row -> Prop), (forall id, id ∈ ids <-> id ∈ sa_ids g) ->
      (forall id, id ∈ sa_ids g -> exists r, tb_seats d !! id = Some r /\ P r) ->
      forall id, id ∈ sa_ids g -> exists r, tb_seats d' !! id = Some r /\ P r).
    { intros P Hids HP id Hid. rewrite Hk by (by apply Hids). by apply HP. }
    destruct k; intros [[Hnd Hall] Hids]; (split; [split; [done|by apply Hg]|done]).
  - intros Hr id Hid. rewrite Hk by done. by apply Hr.
Qed.

(** Rows the transaction has not locked may change, events may come, and outbox rows that are
    not its own. *)
Lemma seat_tx_ok_db d d' tx :
  (forall id, id ∈ (got_of (tx_stage tx)).*1 -> tb_seats d' !! id = tb_seats d !! id) ->
  (forall ev, is_Some (tb_events d !! ev) -> is_Some (tb_events d' !! ev)) ->
  (forall row, row ∈ staged (tx_stage tx) -> ob_id row ∉ map ob_id (tb_outbox d) ->
     ob_id row ∉ map ob_id (tb_outbox d')) ->
  tx_ok d tx -> tx_ok d' tx.
Proof.
  intros Hs He Ho (Hj & Hgot & Hst). split_and!; [done|..].
  - intros id r Hr. rewrite Hs by (by apply (list_elem_of_fmap_2 fst) in Hr). auto.
  - destruct (tx_stage tx) as [| | |got wr groups out]; try done. cbn in *.
    destruct Hst as (Hready & (Hf & Hnd & Hk) & Hsent). split_and!; try done.
    + revert Hready. apply ready_rows. intros id Hid. apply Hs. rewrite fmap_app. apply elem_of_app. by right.
    + split_and!; auto.
Qed.

(** *** Steps that change one transaction *)

Lemma seat_set_tx_ok i tx c :
  race_ok c -> tx_ok (cs_db c) tx ->
  (forall j tx', cs_txs c !! j = Some tx' -> i <> j -> apart tx tx') -> race_ok (set_tx i tx c).
Proof.
  intros [Ht Ha] Hok Hap. split; cbn.
  - intros j tx' [[<- <-]|[_ Hj]]%lookup_insert_Some; [done|by eapply Ht].
  - intros j k tx1 tx2 [[<- <-]|[Hj1 Hj]]%lookup_insert_Some [[<- <-]|[Hk1 Hk]]%lookup_insert_Some Hne; try done.
    + by eapply Hap.
    + apply apart_sym. by eapply Hap.
    + by eapply Ha.
Qed.

Lemma seat_end_tx_ok i c : race_ok c -> race_ok (end_tx i c).
Proof.
  intros [Ht Ha]. split; cbn.
  - intros j tx [_ Hj]%lookup_delete_Some. eauto.
  - intros j k tx tx' [_ Hj]%lookup_delete_Some [_ Hk]%lookup_delete_Some. eauto.
Qed.

(** The stage changes; rows it locks in addition are locked by nobody else. *)
Lemma stage_ok i tx st c :
  race_ok c -> cs_txs c !! i = Some tx -> tx_ok (cs_db c) (with_stage tx st) ->
  (forall id, id ∈ (got_of st).*1 -> id ∈ (got_of (tx_stage tx)).*1 \/ unlocked i id c = true) ->
  (forall row, row ∈ staged st -> row ∈ staged (tx_stage tx) \/ new_id (ob_id row) c = true) ->
  race_ok (set_tx i (with_stage tx st) c).
Proof.
  intros Hok Hi Htx Hlock Hrow. apply seat_set_tx_ok; [done|done|]. intros j tx' Hj Hne.
  destruct (ro_apart _ Hok i j tx tx' Hi Hj Hne) as [Hl Hr]. split; cbn.
  - intros id [Hid|Hu]%Hlock; [by apply Hl|by eapply unlocked_spec].
  - intros row [Hin|Hn]%Hrow; [by apply Hr|].
    apply andb_true_iff in Hn as [_ Hn%bool_decide_eq_true]. by apply (Hn j tx').
Qed.
End Invariant.

(** ** Every commit is a step of the specification *)

Section Serial.
Context `{U : UuidLib} {J : ProtoJson} `{!UuidLaws U} `{!ProtoJsonLaws J}.
Implicit Types (d : inv_db) (tx : seat_tx) (c : seat_race).

Lemma read_args_ok req g k : read_args req = Some g -> job_ok (JSeats k g).
Proof.
  unfold read_args. destruct (validateSeatRequest _ _ _) as [[]|] eqn:Hv; [|done].
  apply validateSeatRequest_nonempty in Hv.
  destruct (pg_uuid (sr_EventId req)) eqn:?, (pg_uuid (sr_OrderId req)) eqn:?, (mapM _ _) as [ids|] eqn:Hm; cbn; try done.
  intros [= <-]. cbn. split_and!; try done. intros ->.
  apply Hv, length_zero_iff_nil. by rewrite <- (mapM_pg_length _ _ Hm).
Qed.

Lemma emitted_row_tells mid now created ev ids st row :
  emitted_row mid now created ev ids st = Some row -> tells st (ev, ids) row /\ ob_id row = mid.
Proof.
  unfold emitted_row. destruct (EncodeSeatEvent _) as [payload|] eqn:He; [|done].
  destruct (pg_uuid ev) as [key|] eqn:Hk; [|done]. intros [= <-]. split; [|done].
  exists key. split; [done|]. intros us Hus. split_and!; try done.
  eexists. split; [by apply decode_encode_seat|done].
Qed.

(** As many rows as ids, all of them named: they are exactly the ids. *)
Lemma rows_full (rows : list (UUID * seat_row)) ids :
  NoDup rows.*1 -> (forall id, id ∈ rows.*1 -> id ∈ ids) -> length rows = length ids ->
  NoDup ids /\ (forall id, id ∈ rows.*1 <-> id ∈ ids).
Proof.
  intros Hnd Hin Hlen. assert (HE : rows.*1 ≡ₚ ids).
  { apply submseteq_length_Permutation; [by apply NoDup_submseteq|]. rewrite length_fmap. lia. }
  split; [by rewrite <- HE|]. intros id. by rewrite HE.
Qed.

(** The rows an accepted job updates are locked, and the step is possible. *)
Lemma updated_rows_ready j got d :
  job_ok j -> (forall id r, (id, r) ∈ got -> tb_seats d !! id = Some r) -> NoDup got.*1 ->
  accepts j (matching j got) = true ->
  ready j d (updated_rows j got d).*1 /\ (forall id, id ∈ (updated_rows j got d).*1 -> id ∈ got.*1) /\
  (forall id r, (id, r) ∈ updated_rows j got d -> tb_seats d !! id = Some r).
Proof.
  intros Hj Hgot Hnd Hacc.
  assert (Hsel : forall id r, (id, r) ∈ matching j got -> (id, r) ∈ got /\ scans j id r = true)
    by (intros id r [??]%list_elem_of_filter; done).
  assert (Hlock : forall id, id ∈ (matching j got).*1 -> exists r, (id, r) ∈ got /\ scans j id r = true).
  { intros id ([id' r] & -> & Hin)%list_elem_of_fmap. eauto. }
  assert (Hnd' : NoDup (matching j got).*1).
  { eapply sublist_NoDup; [exact Hnd|]. apply fmap_sublist, sublist_filter. }
  assert (Hfull : forall k g, j = JSeats k g -> length (matching j got) = length (sr_SeatIds (sa_req g)) ->
    NoDup (sa_ids g) /\ forall id, id ∈ (matching j got).*1 <-> id ∈ sa_ids g).
  { intros k g -> Hlen. destruct Hj as (_ & _ & Hm & _). rewrite <- (mapM_pg_length _ _ Hm) in Hlen.
    apply rows_full; [done| |done]. intros id (r & _ & Hp)%Hlock.
    destruct k; cbn in Hp; [by eapply seats_of_ids|by eapply held_seats_of_ids..]. }
  assert (Hrest : (forall id, id ∈ (matching j got).*1 -> id ∈ got.*1) /\
    (forall id r, (id, r) ∈ matching j got -> tb_seats d !! id = Some r)).
  { split; [|intros id r [Hr _]%Hsel; auto]. intros id (r & Hr & _)%Hlock. by apply (list_elem_of_fmap_2 fst) in Hr. }
  destruct j as [k g|expired].
  - assert (Hheld : k <> KReserve -> length (matching (JSeats k g) got) = length (sr_SeatIds (sa_req g)) ->
      all_held d (sa_ev g) (sa_order g) (sa_ids g)).
    { intros Hk Hlen. destruct (Hfull k g eq_refl Hlen) as [Hn Hids]. split; [done|].
      intros id (r & Hr & Hp)%Hids%Hlock. exists r. destruct k; [done|..]; cbn in Hp;
        unfold held_seats_of, seats_of in Hp; reflect_bools; auto. }
    destruct k; cbn in Hacc; reflect_bools.
    + destruct (Hfull KReserve g eq_refl ltac:(done)) as [Hn Hids]. cbn [updated_rows ready].
      assert (Hin : forall id, id ∈ (sql_select (fun id _ => bool_decide (id ∈ sa_ids g)) (tb_seats d)).*1 <-> id ∈ sa_ids g).
      { intros id. rewrite elem_of_fst_sql_select. split; [intros (r & _ & ?); by reflect_bools|].
        intros Hid. destruct (Hlock id) as (r & Hr & _); [by apply Hids|]. exists r. rewrite bool_decide_eq_true. auto. }
      split_and!; [split; [done|]|done|..].
      * intros id Hid%Hids. apply list_elem_of_fmap in Hid as ([id' r] & -> & Hin'). exists r.
        match goal with H : forallb _ _ = true |- _ => rewrite forallb_forall in H; specialize (H (id', r)); rename H into Hav end.
        rewrite <- list_elem_of_In in Hav. specialize (Hav Hin'). apply Hsel in Hin' as [Hr Hp].
        cbn in Hp. unfold seats_of in Hp. reflect_bools. auto.
      * intros id Hid. by apply Hrest, Hids, Hin.
      * intros id r [Hr _]%elem_of_sql_select. done.
    + split; [|done]. split; [by apply Hheld|by apply (Hfull KConfirm g)].
    + split; [|done]. split; [by apply Hheld|by apply (Hfull KRelease g)].
  - split; [|done]. intros id (r & Hr & Hp)%Hlock. cbn in Hp. unfold is_held in Hp. reflect_bools. eauto.
Qed.

(** *** The commit *)

Lemma job_touches j d ids :
  ready j d ids -> job_ok j ->
  forall k g, j = JSeats k g ->
  seats_set (sa_ids g) (state_status (job_state j)) (job_holder j) d (apply_job j ids [] d) /\ sa_ids g <> [].
Proof.
  intros Hr Hj k g ->. cbn in Hj. split; [|apply Hj]. split; cbn [apply_job tb_events tb_seats]; [done|].
  apply sql_update_ext. intros id r _. apply bool_decide_ext.
  destruct k; destruct Hr as [_ Hids]; apply Hids.
Qed.

Lemma commit_step d tx got wr out :
  tx_stage tx = Emitting got wr [] out -> tx_ok d tx ->
  db_step (job_label (tx_job tx) wr.*1) d (apply_job (tx_job tx) wr.*1 out d).
Proof.
  destruct tx as [j start st]. cbn [tx_job tx_stage]. intros ->.
  intros (Hj & Hgot & Hready & (Hf & Hnd & Hk) & sent & Hsent & Hout).
  cbn [tx_job tx_stage got_of] in *. rewrite app_nil_r in Hsent.
  assert (Happ : appended d (apply_job j wr.*1 out d) out) by (split; done).
  destruct j as [k g|expired].
  - destruct (job_touches _ _ _ Hready Hj k g eq_refl) as [[He Hs] Hne]. cbn in Hj.
    destruct Hj as (Hev & _ & Hm & _). cbn in Hsent. rewrite <- Hsent in Hout.
    inversion Hout as [|? row ? ? Hrow Hnil]; subst. inversion Hnil; subst.
    destruct Hrow as (ev & Hev' & Hann). cbn in Hev', Hann. assert (ev = sa_ev g) as -> by congruence.
    specialize (Hann _ Hm). destruct k; destruct Hready as [Hall _]; econstructor; eauto; by split.
  - cbn in Hsent. rewrite <- Hsent in Hout. eapply step_sweep; [exact Hready|by split|exact Happ|].
    apply sweep_rows_grouped; [|exact Hout]. intros id r Hin. apply Hgot. apply elem_of_app. by right.
Qed.

(** *** Creating an event *)

Lemma create_seats_rows ev ids i now d d' :
  create_seats ev ids i now d = Some d' ->
  exists news, tb_events d' = tb_events d /\ tb_outbox d' = tb_outbox d /\
    tb_seats d' = list_to_map news ∪ tb_seats d /\ news.*1 = ids /\ NoDup ids /\
    (forall id r, (id, r) ∈ news -> tb_seats d !! id = None /\ st_event_id r = ev /\
       st_status r = "AVAILABLE" /\ st_held_by r = None) /\
    map (fun x => st_label x.2) news = map (fun j => "Seat " +:+ itoa j) (seqZ i (Z.of_nat (length ids))).
Proof.
  revert i d. induction ids as [|id ids IH]; intros i d; cbn [create_seats].
  { intros [= <-]. exists []. cbn. rewrite (left_id ∅ (∪)). split_and!; try done; [constructor|set_solver]. }
  destruct (insert_seat _ _ _ _ _) as [d1|] eqn:Hi; [|done]. unfold insert_seat in Hi.
  repeat case_bool_decide; simplify_eq. intros (news & He & Ho & Hs & Hids & Hnd & Hnew & Hlab)%IH. cbn in He, Ho, Hs.
  assert (Hni : id ∉ ids).
  { rewrite <- Hids. intros ([id' r] & -> & Hin)%list_elem_of_fmap. apply Hnew in Hin as [Hin _].
    cbn in Hin. by rewrite lookup_insert_eq in Hin. }
  eexists ((id, _) :: news). split_and!; [done|done| |cbn; by f_equal|by constructor|..].
  - rewrite Hs. cbn. rewrite <- insert_union_r; [by rewrite insert_union_l|].
    apply not_elem_of_list_to_map_1. by rewrite Hids.
  - intros id' r [[= -> ->]|Hin]%elem_of_cons.
    + split_and!; try done. by apply eq_None_not_Some.
    + apply Hnew in Hin as (Hin & ? & ? & ?). cbn in Hin. split_and!; try done. by apply lookup_insert_None in Hin as [? _].
  - cbn [length]. rewrite Nat2Z.inj_succ, seqZ_cons by lia. cbn. rewrite Hlab. do 3 f_equal; lia.
Qed.

Lemma create_rows_step req ev ids now d d' :
  create_rows req ev ids now d = Some d' -> db_step (LCreate ev (length ids)) d d'.
Proof.
  unfold create_rows. destruct (validateCreateEvent req) as [u|] eqn:Hv; [|done].
  destruct (insert_event _ _ _ _) as [d1|] eqn:Hi; [|done]. case_bool_decide as Hlen; [|done].
  unfold insert_event in Hi. case_bool_decide as Hfresh; [done|]. injection Hi as <-.
  intros (news & He & Ho & Hs & Hids & Hnd & Hnew & Hlab)%create_seats_rows. cbn in He, Ho, Hs.
  unfold validateCreateEvent in Hv. repeat (case_match; [done|]). reflect_bools.
  eapply step_create; eauto.
  - by apply eq_None_not_Some.
  - by rewrite Hids.
  - by rewrite <- Hids, length_fmap.
  - unfold maxSeatsPerEvent in *. lia.
Qed.

Lemma db_step_events l d d' ev : db_step l d d' -> is_Some (tb_events d !! ev) -> is_Some (tb_events d' !! ev).
Proof.
  intros Hst Hev. destruct (db_step_cases _ _ _ Hst) as [(h & rows & Ht)|(ev' & n & ->)].
  - by destruct (tc_set _ _ _ _ _ _ Ht) as [-> _].
  - inversion Hst as [| | | |? ? e news d0 d0' Hfresh He]; subst. rewrite He.
    apply lookup_insert_is_Some'. by right.
Qed.

(** *** Every step keeps the invariant *)

(** Transactions may end; the seats and outbox ids of those that go on are not touched. *)
Lemma seat_db_change_ok l d' txs log c :
  race_ok c -> db_step l (cs_db c) d' ->
  (forall j tx, txs !! j = Some tx -> cs_txs c !! j = Some tx /\
     (forall id, id ∈ (got_of (tx_stage tx)).*1 -> id ∉ label_seats l) /\
     (forall row, row ∈ staged (tx_stage tx) -> ob_id row ∉ map ob_id (tb_outbox (cs_db c)) ->
        ob_id row ∉ map ob_id (tb_outbox d'))) ->
  race_ok {| cs_db := d'; cs_txs := txs; cs_log := log |}.
Proof.
  intros [Ht Ha] Hst Hkeep. split; cbn.
  - intros j tx Hj. destruct (Hkeep j tx Hj) as (Hj' & Hl & Ho). pose proof (Ht j tx Hj') as Hok.
    apply (seat_tx_ok_db (cs_db c)); [| |done|done].
    + intros id Hid. eapply db_step_keeps; [done| |by apply Hl].
      apply list_elem_of_fmap in Hid as ([id' r] & -> & Hr). exists r. by apply Hok.
    + intros ev. by apply (db_step_events l).
  - intros j k tx tx' Hj Hk. apply Ha; [by apply Hkeep|by apply Hkeep].
Qed.

Lemma label_seats_job j d ids id : ready j d ids -> id ∈ label_seats (job_label j ids) -> id ∈ ids.
Proof. destruct j as [[] g|expired]; cbn; [intros [_ Hids]; apply Hids..|done]. Qed.

Lemma commit_ok i tx got wr out c :
  race_ok c -> cs_txs c !! i = Some tx -> tx_stage tx = Emitting got wr [] out ->
  race_ok (commit_tx i (tx_job tx) wr.*1 out c).
Proof.
  intros Hok Hi Hst. pose proof (ro_txs _ Hok i tx Hi) as Htx.
  apply (seat_db_change_ok (job_label (tx_job tx) wr.*1) _ _ _ c); [done|by eapply commit_step|].
  destruct Htx as (_ & _ & Hrest). rewrite Hst in Hrest. destruct Hrest as (Hready & _).
  intros j tx' [Hne Hj]%lookup_delete_Some. split; [done|].
  destruct (ro_apart _ Hok i j tx tx' Hi Hj Hne) as [Hl Hr]. rewrite Hst in Hl, Hr. cbn in Hl, Hr. split.
  - intros id Hid Hin%(label_seats_job _ _ _ _ Hready). apply (Hl id); [|done].
    rewrite fmap_app. apply elem_of_app. by right.
  - intros row Hrow Hn. cbn. rewrite map_app. intros [Hin|Hin]%elem_of_app; [done|].
    apply list_elem_of_fmap in Hin as (row' & E & Hin). apply (Hr row' Hin). rewrite <- E.
    by apply list_elem_of_fmap_2.
Qed.

Lemma update_ok i tx got c :
  race_ok c -> cs_txs c !! i = Some tx -> tx_stage tx = Returned got ->
  accepts (tx_job tx) (matching (tx_job tx) got) = true ->
  race_ok (set_tx i (with_stage tx (let wr := updated_rows (tx_job tx) got (cs_db c) in
    Emitting got wr (groups_of (tx_job tx) wr) [])) c).
Proof.
  intros Hok Hi Hst Hacc. destruct (ro_txs _ Hok i tx Hi) as (Hj & Hgot & Hnd). rewrite Hst in Hgot, Hnd. cbn in Hgot.
  destruct (updated_rows_ready _ _ _ Hj Hgot Hnd Hacc) as (Hready & Hlock & Hrows). cbn.
  apply stage_ok; [done|done| | |by intros row ?%elem_of_nil].
  - split_and!; cbn; [done| |].
    + intros id r [?|?]%elem_of_app; eauto.
    + split_and!; [done|split_and!; [|constructor|]; by intros row ?%elem_of_nil|by exists []].
  - rewrite Hst. cbn. intros id. rewrite fmap_app. intros [?|?]%elem_of_app; left; auto.
Qed.

Lemma emit_ok i tx got wr ev ids groups out mid now row c :
  race_ok c -> cs_txs c !! i = Some tx -> tx_stage tx = Emitting got wr ((ev, ids) :: groups) out ->
  emitted_row mid now (tx_start tx) ev ids (job_state (tx_job tx)) = Some row ->
  new_id mid c = true -> is_Some (tb_events (cs_db c) !! ob_key row) ->
  race_ok (set_tx i (with_stage tx (Emitting got wr groups (out ++ [row]))) c).
Proof.
  intros Hok Hi Hst Hrow Hnew Hkey. apply emitted_row_tells in Hrow as [Htells <-].
  destruct (ro_txs _ Hok i tx Hi) as (Hj & Hgot & Hrest). rewrite Hst in Hgot, Hrest. cbn in Hgot.
  destruct Hrest as (Hready & (Hf & Hnd & Hk) & sent & Hsent & Hout).
  pose proof Hnew as [Hn1%bool_decide_eq_true Hn2%bool_decide_eq_true]%andb_true_iff.
  specialize (Hn2 i tx Hi). cbn beta in Hn2. rewrite Hst in Hn2. cbn in Hn2.
  apply stage_ok; [done|done| |by rewrite Hst; left|].
  - split_and!; cbn; [done|done|]. split_and!; [done| |].
    + split_and!.
      * intros x [Hx| ->%list_elem_of_singleton]%elem_of_app; auto.
      * rewrite map_app. apply NoDup_app. split_and!; [done| |apply NoDup_singleton].
        intros x Hx ->%list_elem_of_singleton. done.
      * intros x [Hx| ->%list_elem_of_singleton]%elem_of_app; auto.
    + exists (sent ++ [(ev, ids)]). split; [by rewrite Hsent, <- app_assoc|].
      apply Forall2_app; [done|]. by constructor.
  - rewrite Hst. cbn. intros x [Hx| ->%list_elem_of_singleton]%elem_of_app; auto.
Qed.

(** Nothing is committed, or one step of the specification is. *)
Definition commits c c' : Prop :=
  (cs_db c' = cs_db c /\ cs_log c' = cs_log c) \/
  exists l, cs_log c' = cs_log c ++ [l] /\ db_step l (cs_db c) (cs_db c').

Lemma begin_ok i j start c c' : race_ok c -> job_ok j -> begin_tx i j start c = Some c' -> race_ok c' /\ commits c c'.
Proof.
  intros Hok Hj. unfold begin_tx. destruct (cs_txs c !! i) eqn:Hi; [done|]. intros [= <-]. split; [|by left].
  apply seat_set_tx_ok; [done| |].
  - split_and!; [done|by intros id r ?%elem_of_nil|done].
  - intros k tx' _ _. split; by intros x ?%elem_of_nil.
Qed.

Lemma seat_step_ok act c c' : race_ok c -> step act c = Some c' -> race_ok c' /\ commits c c'.
Proof.
  intros Hok Hs. destruct act as [i k req start|i expired start|i|i id|i|i|i|i mid now|i|i|req ev ids now];
    cbn [step] in Hs; try (destruct (cs_txs c !! i) as [tx|] eqn:Hi; [|done]; cbn [mbind option_bind] in Hs).
  - destruct (read_args req) as [g|] eqn:Hg; [|done]. eapply begin_ok; [done| |exact Hs]. by eapply read_args_ok.
  - by eapply begin_ok; [done| |exact Hs].
  - destruct (tx_stage tx) eqn:Hst; try done. injection Hs as <-. split; [|by left].
    apply stage_ok; [done|done| |by intros id ?%elem_of_nil|by intros row ?%elem_of_nil].
    split_and!; [apply (ro_txs _ Hok i tx Hi)|by intros id r ?%elem_of_nil|].
    split; [constructor|by intros id ?%elem_of_nil].
  - destruct (tx_stage tx) as [|todo got| |] eqn:Hst; try done. destruct (tb_seats _ !! id) as [r|] eqn:Hr; [|done].
    destruct (bool_decide _ && _) eqn:Hb; [|done]. injection Hs as <-. split; [|by left].
    apply andb_true_iff in Hb as [Hin%bool_decide_eq_true Hu].
    destruct (ro_txs _ Hok i tx Hi) as (Hj & Hgot & Hnd). rewrite Hst in Hgot, Hnd. destruct Hnd as [Hnd Htodo].
    apply stage_ok; [done|done| | |by intros row ?%elem_of_nil]; rewrite ?Hst; cbn.
    + split_and!; [done| |split; [rewrite fmap_app|]].
      * cbn. intros id' r' [?|[= -> ->]%list_elem_of_singleton]%elem_of_app; auto.
      * apply NoDup_app. split_and!; [done| |apply NoDup_singleton].
        intros id' Hid' ->%list_elem_of_singleton. by apply (Htodo id).
      * intros id'. rewrite fmap_app. intros [?%Htodo| ->%list_elem_of_singleton]%elem_of_app; set_solver.
    + intros id'. rewrite fmap_app. intros [?| ->%list_elem_of_singleton]%elem_of_app; [by left|by right].
  - destruct (tx_stage tx) as [|todo got| |] eqn:Hst; try done. case_bool_decide; [|done]. injection Hs as <-.
    split; [|by left]. destruct (ro_txs _ Hok i tx Hi) as (Hj & Hgot & Hnd). rewrite Hst in Hgot, Hnd.
    apply stage_ok; [done|done|by split_and!; [..|apply Hnd]|by rewrite Hst; left|by intros row ?%elem_of_nil].
  - destruct (tx_stage tx) as [| |got|]; try done. destruct (accepts _ _); [done|]. injection Hs as <-.
    split; [by apply seat_end_tx_ok|by left].
  - destruct (tx_stage tx) as [| |got|] eqn:Hst; try done. destruct (accepts _ _) eqn:Hacc; [|done].
    cbn [andb] in Hs. case_match; [|done]. injection Hs as <-. split; [|by left]. by apply update_ok.
  - destruct (tx_stage tx) as [| | |got wr [|[ev ids] groups] out] eqn:Hst; try done.
    destruct (emitted_row _ _ _ _ _ _) as [row|] eqn:Hrow; [|done]. cbn [mbind option_bind] in Hs.
    destruct (new_id mid c) eqn:Hn; [|done]. cbn [andb] in Hs. case_bool_decide; [|done]. injection Hs as <-.
    split; [|by left]. by eapply emit_ok.
  - destruct (tx_stage tx) as [| | |got wr [|] out] eqn:Hst; try done. injection Hs as <-. split; [by eapply commit_ok|].
    right. eexists. split; [done|]. eapply commit_step; [done|]. by eapply ro_txs.
  - injection Hs as <-. split; [by apply seat_end_tx_ok|by left].
  - destruct (create_rows _ _ _ _ _) as [d|] eqn:Hc; [|done]. injection Hs as <-. apply create_rows_step in Hc.
    split; [|by right; eexists].
    apply (seat_db_change_ok _ _ _ _ c Hok Hc). intros j tx Hj. split_and!; [done|by intros ? _ ?%elem_of_nil|].
    by inversion Hc as [| | | |? ? ? ? ? ? ? ? ? ? ? ? ? ? Ho]; subst; rewrite Ho.
Qed.

(** ** Serialisability *)

(** The steps of the specification, in order. *)
Inductive db_steps : list db_label -> inv_db -> inv_db -> Prop :=
  | steps_nil d : db_steps [] d d
  | steps_cons l ls d d1 d2 : db_step l d d1 -> db_steps ls d1 d2 -> db_steps (l :: ls) d d2.

Lemma seat_run_ok acts c c' :
  race_ok c -> run acts c = Some c' ->
  race_ok c' /\ exists ls, cs_log c' = cs_log c ++ ls /\ db_steps ls (cs_db c) (cs_db c').
Proof.
  revert c. induction acts as [|act acts IH]; intros c Hok; cbn.
  { intros [= <-]. split; [done|]. exists []. rewrite app_nil_r. split; [done|constructor]. }
  destruct (step act c) as [c1|] eqn:E; cbn; [|done]. intros Hrun.
  destruct (seat_step_ok act c c1 Hok E) as [Hok1 Hc].
  destruct (IH c1 Hok1 Hrun) as (Hok' & ls & Hlog & Hsteps). split; [done|].
  destruct Hc as [[Hd Hl]|(l & Hl & Hst)]; rewrite Hl in Hlog.
  - rewrite Hd in Hsteps. eauto.
  - exists (l :: ls). split; [by rewrite Hlog, <- app_assoc|]. by econstructor.
Qed.

Lemma seat_idle_ok d : race_ok (idle d).
Proof. split; cbn; by intros *; rewrite lookup_empty. Qed.

(** The seats the committed confirmations sold. *)
Definition sells (l : db_label) : list UUID :=
  match l with LConfirm _ _ ids => ids | _ => [] end.

Lemma steps_invariant (I : inv_db -> Prop) ls d d' :
  (forall l d d', db_step l d d' -> I d -> I d') -> db_steps ls d d' -> I d -> I d'.
Proof. intros HI. induction 1; eauto. Qed.

Lemma steps_sell_once ls d d' :
  db_steps ls d d' -> NoDup (flat_map sells ls) /\ forall id, id ∈ flat_map sells ls -> ~ is_sold d id.
Proof.
  induction 1 as [d|l ls d d1 d2 Hst _ [IHn IHs]]; cbn; [split; [constructor|by intros id ?%elem_of_nil]|].
  assert (Hl : NoDup (sells l) /\ forall id, id ∈ sells l -> ~ is_sold d id /\ is_sold d1 id).
  { destruct l; cbn; try (split; [constructor|by intros id ?%elem_of_nil]). by eapply confirm_sells. }
  destruct Hl as [Hnd Hs]. split.
  - apply NoDup_app. split_and!; [done| |done]. intros id Hid Hin. apply (IHs id Hin). by apply Hs.
  - intros id [Hid|Hin]%elem_of_app; [by apply Hs|]. intros Hsold. apply (IHs id Hin). by eapply is_sold_step.
Qed.

(** Along committed steps each seat moves along its state machine. *)
Lemma steps_seat ls d d' id r :
  db_steps ls d d' -> wf_db d -> tb_seats d !! id = Some r ->
  exists r' x x', tb_seats d' !! id = Some r' /\ seat_of r = Some x /\ seat_of r' = Some x' /\ rtc seat_step x x'.
Proof.
  intros Hs. revert r. induction Hs as [d|l ls d d1 d2 Hst _ IH]; intros r Hwf Hr.
  - destruct (wf_seat _ Hwf id r Hr) as [[E _]|[[E [o Eo]]|[E _]]];
      exists r; unfold seat_of; rewrite E, ?Eo; cbn; eauto 10 using rtc_refl.
  - destruct (db_step_seat _ _ _ _ _ Hst Hwf Hr) as (r1 & x & x1 & Hr1 & Hx & Hx1 & Hstep).
    destruct (IH r1 (db_step_wf _ _ _ Hst Hwf) Hr1) as (r2 & y & y2 & Hr2 & Hy & Hy2 & Hrtc).
    assert (y = x1) as -> by congruence. exists r2, x, y2. split_and!; [done..|].
    destruct Hstep as [->|Hstep]; [done|]. by eapply rtc_l.
Qed.
End Serial.
