(* ===== verification/InventoryRuns.v ===== *)
(** * inventory-svc: the handlers as transactions

    A call of a handler that nobody disturbs has the effect and the answer of a run of the
    statements of [InventoryRace.v]: the rows it locks, updated_rows and inserts are the same. *)

From stdpp Require Import base gmap list strings numbers sorting.
From S2P Require Import Prelude Platform GoStrings Events Redis Inventory InventorySpec InventoryInv InventoryTrace InventoryRace.

(** ** The handlers are such transactions *)

Section Handlers.
Context `{U : UuidLib} {J : ProtoJson} {R : Type} `{RedisLib R}.
Context `{!UuidLaws U} `{!ProtoJsonLaws J}.
Implicit Types (d : inv_db) (s : inv_state R) (a : ambient).

(** One transaction and no other. *)
Definition alone (tx : seat_tx) d : seat_race := {| cs_db := d; cs_txs := {[0 := tx]}; cs_log := [] |}.

Lemma seat_run_app acts acts' c : run acts c ≫= run acts' = run (acts ++ acts') c.
Proof. revert c. induction acts as [|act acts IH]; intros c; cbn; [done|]. destruct (step act c); cbn; [apply IH|done]. Qed.

Lemma seat_set_tx_alone tx tx' d : set_tx 0 tx' (alone tx d) = alone tx' d.
Proof. unfold set_tx, alone. cbn. by rewrite insert_singleton_eq. Qed.

Lemma unlocked_alone tx d id : unlocked 0 id (alone tx d) = true.
Proof. apply bool_decide_eq_true_2. cbn. intros j tx' [<- <-]%lookup_singleton_Some. by left. Qed.

Lemma seat_begin_alone i_act j start d :
  step i_act (idle d) = begin_tx 0 j start (idle d) ->
  step i_act (idle d) = Some (alone {| tx_job := j; tx_start := start; tx_stage := Begun |} d).
Proof. intros ->. done. Qed.

(** A step of the only transaction. *)
Lemma step_alone act tx d c' acts :
  step act (alone tx d) = Some c' -> run (act :: acts) (alone tx d) = run acts c'.
Proof. intros E. cbn [run]. by rewrite E. Qed.

Lemma seat_lock_alone j start d l got :
  NoDup l.*1 -> (forall id r, (id, r) ∈ l -> tb_seats d !! id = Some r) ->
  run (ALock 0 <$> l.*1) (alone {| tx_job := j; tx_start := start; tx_stage := Scanning (list_to_set l.*1) got |} d) =
  Some (alone {| tx_job := j; tx_start := start; tx_stage := Scanning ∅ (got ++ l) |} d).
Proof.
  revert got. induction l as [|[id r] l IH]; intros got Hnd Hl; [by rewrite app_nil_r|].
  cbn in Hnd. apply NoDup_cons in Hnd as [Hx Hnd].
  cbn [fmap list_fmap fst]. erewrite step_alone.
  2: { cbn [step cs_txs alone]. rewrite lookup_singleton_eq. cbn [mbind option_bind tx_stage cs_db alone].
       rewrite (Hl id r) by (by left). rewrite bool_decide_eq_true_2 by set_solver. rewrite unlocked_alone. cbn [andb].
       by rewrite seat_set_tx_alone. }
  unfold with_stage. cbn [tx_job tx_start fst].
  replace ((list_to_set (id :: l.*1) : gset UUID) ∖ {[id]}) with (list_to_set l.*1 : gset UUID) by (cbn; set_solver).
  rewrite IH; [by rewrite <- app_assoc|done|]. intros id' r' Hin. apply Hl. by right.
Qed.

(** The first statement of the only transaction. *)
Lemma scan_alone j start d :
  exists acts, run acts (alone {| tx_job := j; tx_start := start; tx_stage := Begun |} d) =
    Some (alone {| tx_job := j; tx_start := start; tx_stage := Returned (sql_select (scans j) (tb_seats d)) |} d).
Proof.
  set (rows := sql_select (scans j) (tb_seats d)).
  exists (AScan 0 :: (ALock 0 <$> rows.*1) ++ [AReturn 0]).
  erewrite step_alone.
  2: { cbn [step cs_txs alone]. rewrite lookup_singleton_eq. cbn [mbind option_bind tx_stage]. by rewrite seat_set_tx_alone. }
  unfold with_stage. cbn [tx_job tx_start cs_db alone]. fold rows. rewrite <- seat_run_app, seat_lock_alone.
  - cbn [app mbind option_bind]. erewrite step_alone; [done|].
    cbn [step cs_txs alone]. rewrite lookup_singleton_eq. cbn [mbind option_bind tx_stage].
    rewrite bool_decide_eq_true_2 by done. by rewrite seat_set_tx_alone.
  - apply NoDup_fst_sql_select.
  - by intros id r [Hr _]%elem_of_sql_select.
Qed.

Lemma matching_select j (m : gmap UUID seat_row) : matching j (sql_select (scans j) m) = sql_select (scans j) m.
Proof.
  apply list_filter_filter_r. by intros [id r].
Qed.

(** The outbox rows [out] are those [emitSeatEvent] writes for the groups. *)
Definition written (start : Z) (st : SeatState) (groups : list (string * list string)) (out : list outbox_row) : Prop :=
  Forall2 (fun g row => exists mid now, emitted_row mid now start g.1 g.2 st = Some row) groups out.

Lemma emit_alone j start d got wr groups out0 out :
  written start (job_state j) groups out -> insertable d (out0 ++ out) ->
  exists acts, run acts (alone {| tx_job := j; tx_start := start; tx_stage := Emitting got wr groups out0 |} d) =
    Some (alone {| tx_job := j; tx_start := start; tx_stage := Emitting got wr [] (out0 ++ out) |} d).
Proof.
  intros Hout. revert out0. induction Hout as [|[ev ids] row groups out (mid & now & Hrow) _ IH]; intros out0 Hins.
  { exists []. by rewrite app_nil_r. }
  destruct (IH (out0 ++ [row])) as [acts Hacts]; [by rewrite <- app_assoc|]. exists (AEmit 0 mid now :: acts).
  assert (Hid : ob_id row = mid).
  { cbn in Hrow. unfold emitted_row in Hrow. repeat case_match; by simplify_eq. }
  destruct Hins as (Hf & Hnd & Hk). assert (Hin : row ∈ out0 ++ row :: out) by set_solver.
  erewrite step_alone; [rewrite Hacts; by rewrite <- app_assoc|].
  cbn [step cs_txs alone]. rewrite lookup_singleton_eq. cbn [mbind option_bind tx_stage tx_start tx_job].
  cbn [fst snd] in Hrow. rewrite Hrow. cbn [mbind option_bind]. rewrite seat_set_tx_alone.
  rewrite (bool_decide_eq_true_2 (is_Some _)) by (by apply Hk).
  assert (Hn : new_id mid (alone {| tx_job := j; tx_start := start; tx_stage := Emitting got wr ((ev, ids) :: groups) out0 |} d) = true).
  { unfold new_id. rewrite !bool_decide_eq_true_2; [done| |].
    - cbn. intros k tx' [<- <-]%lookup_singleton_Some. cbn. rewrite <- Hid. rewrite map_app in Hnd.
      apply NoDup_app in Hnd as (_ & Hnd & _). intros Hx. apply (Hnd _ Hx). by left.
    - cbn. rewrite <- Hid. by apply Hf. }
  by rewrite Hn.
Qed.

(** A transaction that nobody disturbs commits when its checks pass, and otherwise refuses. *)
Lemma commit_alone act j start d out :
  step act (idle d) = begin_tx 0 j start (idle d) ->
  let rows := sql_select (scans j) (tb_seats d) in
  accepts j rows = true -> written start (job_state j) (groups_of j (updated_rows j rows d)) out -> insertable d out ->
  exists acts, run acts (idle d) = Some {| cs_db := apply_job j (updated_rows j rows d).*1 out d; cs_txs := ∅;
    cs_log := [job_label j (updated_rows j rows d).*1] |}.
Proof.
  intros Hbegin rows Hacc Hout Hins. destruct (scan_alone j start d) as [acts1 H1]. fold rows in H1.
  destruct (emit_alone j start d rows (updated_rows j rows d) _ [] out Hout Hins) as [acts2 H2].
  exists (act :: acts1 ++ AUpdate 0 :: acts2 ++ [ACommit 0]). cbn [run]. rewrite (seat_begin_alone _ _ _ _ Hbegin).
  cbn [mbind option_bind]. rewrite <- seat_run_app, H1. cbn [mbind option_bind]. erewrite step_alone.
  2: { cbn [step cs_txs alone]. rewrite lookup_singleton_eq. cbn [mbind option_bind tx_stage tx_job cs_db alone].
       unfold rows at 1. rewrite matching_select. fold rows. rewrite Hacc.
       rewrite (proj2 (forallb_forall _ _)) by (intros x _; apply unlocked_alone). cbn [andb].
       by rewrite seat_set_tx_alone. }
  unfold with_stage. cbn [tx_job tx_start]. rewrite <- seat_run_app, H2. cbn [mbind option_bind app]. erewrite step_alone.
  2: { cbn [step cs_txs alone]. rewrite lookup_singleton_eq. done. }
  cbn [run]. unfold commit_tx. cbn. by rewrite delete_singleton_eq.
Qed.

Lemma refuse_alone act j start d :
  step act (idle d) = begin_tx 0 j start (idle d) -> accepts j (sql_select (scans j) (tb_seats d)) = false ->
  exists acts, run (acts ++ [ARefuse 0]) (idle d) = Some (idle d).
Proof.
  intros Hbegin Hacc. destruct (scan_alone j start d) as [acts1 H1]. exists (act :: acts1).
  cbn [app run]. rewrite (seat_begin_alone _ _ _ _ Hbegin). cbn [mbind option_bind]. rewrite <- seat_run_app, H1.
  cbn [mbind option_bind]. erewrite step_alone; [done|].
  cbn [step cs_txs alone]. rewrite lookup_singleton_eq. cbn [mbind option_bind tx_stage tx_job].
  rewrite matching_select, Hacc. unfold end_tx, idle. cbn. by rewrite delete_singleton_eq.
Qed.

(** *** What the statements of a handler write *)

Definition refusal (e : error) : Prop := exists msg, e = refused msg.

Lemma wp_emit_row tx eventID seatIDs st (Q : res inv_db -> ambient -> inv_state R -> Prop) a s :
  seatIDs <> [] ->
  (forall row a', emitted_row (amb_uuid a (amb_next a)) (amb_now a) (amb_txnow a) eventID seatIDs st = Some row ->
     ob_id row ∉ map ob_id (tb_outbox tx) -> is_Some (tb_events tx !! ob_key row) -> amb_txnow a' = amb_txnow a ->
     Q (Ok (set_outbox (tb_outbox tx ++ [row]) tx)) a' s) ->
  (forall e a', ~ refusal e -> Q (Err e) a' s) ->
  wp (emitSeatEvent tx eventID seatIDs st) Q a s.
Proof.
  assert (Hw : forall w e, ~ refusal (EWrap w e)) by (by intros w e [msg ?]).
  intros Hne HQ HE. unfold emitSeatEvent. rewrite bool_decide_eq_false_2 by (by destruct seatIDs).
  wp_steps. destruct (EncodeSeatEvent _) as [payload|e] eqn:Henc.
  2: { apply HE. unfold EncodeSeatEvent in Henc. case_match; simplify_eq. apply Hw. }
  wp_steps; [|by apply HE, Hw]. apply wp_pg_arg; [|intros _; by apply HE, Hw]. intros ev Hev.
  wp_steps; [|by apply HE, Hw].
  apply outbox_insert_inv in Heqr as (-> & Hfresh & Hkey). reflect_bools.
  eapply HQ; autorewrite with prog; try done.
  unfold emitted_row. autorewrite with prog in Henc |- *. rewrite Henc, Hev. done.
Qed.

Lemma insertable_app d rows row :
  insertable d rows -> ob_id row ∉ map ob_id (tb_outbox d ++ rows) -> is_Some (tb_events d !! ob_key row) ->
  insertable d (rows ++ [row]).
Proof.
  intros (Hf & Hnd & Hk) Hn Hkey. rewrite map_app in Hn. apply not_elem_of_app in Hn as [Hn1 Hn2]. split_and!.
  - intros x [Hx| ->%list_elem_of_singleton]%elem_of_app; auto.
  - rewrite map_app. apply NoDup_app. split_and!; [done| |apply NoDup_singleton].
    by intros x Hx ->%list_elem_of_singleton.
  - intros x [Hx| ->%list_elem_of_singleton]%elem_of_app; auto.
Qed.

(** The outbox rows of the sweeper's transaction. *)
Lemma emit_each_rows groups d rows0 a s :
  (forall ev ids, (ev, ids) ∈ groups -> ids <> []) -> insertable d rows0 ->
  forall tx, tb_events tx = tb_events d -> tb_outbox tx = tb_outbox d ++ rows0 ->
  wp (emit_each tx groups) (fun r _ s' => s' = s /\ (forall e, r = Err e -> ~ refusal e) /\ forall tx', r = Ok tx' ->
    exists rows, tx' = set_outbox (tb_outbox d ++ rows0 ++ rows) tx /\ insertable d (rows0 ++ rows) /\
      written (amb_txnow a) SEAT_STATE_AVAILABLE groups rows) a s.
Proof.
  revert rows0 a. induction groups as [|[ev ids] groups IH]; intros rows0 a Hg Hins tx He Ho; cbn [emit_each].
  { wp_steps. split_and!; [done..|]. intros tx' [= <-]. exists []. rewrite app_nil_r. split_and!; [|done|constructor].
    rewrite <- Ho. by destruct tx. }
  apply wp_bind, wp_emit_row; [apply (Hg ev); by left| |intros e a' Hne; split_and!; [done|by intros ? [= <-]|done]].
  intros row a' Hrow Hfresh Hkey Htx. rewrite Ho in Hfresh. rewrite He in Hkey.
  eapply wp_mono; [apply (IH (rows0 ++ [row]) a')|]; cbn.
  - intros ev' ids' Hin. apply (Hg ev'). by right.
  - by apply insertable_app.
  - done.
  - by rewrite Ho, app_assoc.
  - intros r a'' s' (-> & Hne & Hr). split_and!; [done..|]. intros tx' ->. destruct (Hr tx' eq_refl) as (rows & -> & Hins' & Hw).
    exists (row :: rows). rewrite Htx in Hw. rewrite <- app_assoc in Hins' |- *. split_and!; [done|done|].
    constructor; [by do 2 eexists|done].
Qed.

(** *** Transactions of the code as runs *)

(** An undisturbed run of the statements has the effect of the call: one commit with a label
    in [P] when it answered, and when it failed no commit, unless the answer to the commit was
    lost; a refusal is a refusal, provided Postgres can read the request ([readable]). *)
Definition ran {A} (readable : Prop) (P : db_label -> Prop) d (r : res A) d' : Prop :=
  exists acts c, run acts (idle d) = Some c /\ cs_txs c = ∅ /\ cs_db c = d' /\
    match r with
    | Ok _ => exists l, cs_log c = [l] /\ P l
    | Err e => (cs_log c = [] \/ exists l, cs_log c = [l] /\ P l /\
                  (e = EConn \/ e = EWrap "could not commit transaction" EConn)) /\
               (refusal e -> readable -> last acts = Some (ARefuse 0))
    end.

Lemma ran_nothing {A} ok P d e : ~ refusal e \/ ~ ok -> ran (A := A) ok P d (Err e) d.
Proof. intros He. exists [], (idle d). cbn. split_and!; auto. tauto. Qed.

Lemma ran_refused {A} ok P d e act j start :
  step act (idle d) = begin_tx 0 j start (idle d) -> accepts j (sql_select (scans j) (tb_seats d)) = false ->
  ran (A := A) ok P d (Err e) d.
Proof.
  intros Hb Hacc. destruct (refuse_alone act j start d Hb Hacc) as [acts Hrun].
  eexists _, _. split; [exact Hrun|]. cbn. split_and!; auto. intros _ _. by rewrite last_snoc.
Qed.

(** A transaction that ran to its commit: the answer, and a lost answer. *)
Lemma ran_commit {A} ok (P : db_label -> Prop) d d' act j start out :
  step act (idle d) = begin_tx 0 j start (idle d) ->
  let rows := sql_select (scans j) (tb_seats d) in
  accepts j rows = true -> written start (job_state j) (groups_of j (updated_rows j rows d)) out -> insertable d out ->
  P (job_label j (updated_rows j rows d).*1) -> d' = apply_job j (updated_rows j rows d).*1 out d ->
  (forall x : A, ran ok P d (Ok x) d') /\
  (forall e, e = EConn \/ e = EWrap "could not commit transaction" EConn -> ran (A := A) ok P d (Err e) d').
Proof.
  intros Hb rows Hacc Hout Hins HP ->. destruct (commit_alone act j start d out Hb Hacc Hout Hins) as [acts Hrun].
  split.
  - intros x. eexists _, _. split; [exact Hrun|]. cbn. eauto.
  - intros e He. eexists _, _. split; [exact Hrun|]. cbn. split_and!; eauto.
    intros [msg ->]. by destruct He.
Qed.

(** Updating the selected rows. *)
Lemma sql_update_selected (P : UUID -> seat_row -> bool) f (m : gmap UUID seat_row) :
  sql_update P f m = sql_update (fun id _ => bool_decide (id ∈ (sql_select P m).*1)) f m.
Proof.
  apply sql_update_ext. intros id r Hr. case_bool_decide as Hid.
  - apply elem_of_fst_sql_select in Hid as (r' & Hr' & Hp). congruence.
  - destruct (P id r) eqn:E; [|done]. exfalso. apply Hid, elem_of_fst_sql_select. eauto.
Qed.

(** The database a handler commits is the one the run leaves. *)
Lemma apply_job_written j (P : UUID -> seat_row -> bool) d d1 n out :
  update_seats P (state_status (job_state j)) (job_holder j) d = Ok (n, d1) ->
  updated_rows j (sql_select (scans j) (tb_seats d)) d = sql_select P (tb_seats d) ->
  set_outbox (tb_outbox d1 ++ out) d1 =
    apply_job j (updated_rows j (sql_select (scans j) (tb_seats d)) d).*1 out d.
Proof.
  intros (_ & He & Ho & Hs)%update_seats_inv ->. unfold set_outbox, apply_job.
  by rewrite He, Ho, Hs, <- sql_update_selected.
Qed.

Lemma read_args_eq req ev o ids :
  validateSeatRequest (sr_EventId req) (sr_SeatIds req) (sr_OrderId req) = Ok tt ->
  pg_uuid (sr_EventId req) = Some ev -> pg_uuid (sr_OrderId req) = Some o -> mapM pg_uuid (sr_SeatIds req) = Some ids ->
  read_args req = Some {| sa_req := req; sa_ev := ev; sa_order := o; sa_ids := ids |}.
Proof. unfold read_args. by intros -> -> -> ->. Qed.

(** The label of a call. *)
Definition labelled (k : kind) (req : SeatsRequest) (l : db_label) : Prop :=
  exists g, read_args req = Some g /\ l = job_label (JSeats k g) [].

Lemma written_one start st ev ids mid now row :
  emitted_row mid now start ev ids st = Some row -> written start st [(ev, ids)] [row].
Proof. intros Hrow. constructor; [by do 2 eexists|constructor]. Qed.

Lemma insertable_one d row :
  ob_id row ∉ map ob_id (tb_outbox d) -> is_Some (tb_events d !! ob_key row) -> insertable d [row].
Proof.
  intros Hf Hk. apply (insertable_app d []); [|by rewrite app_nil_r|done].
  split_and!; [by intros ? ?%elem_of_nil|constructor|by intros ? ?%elem_of_nil].
Qed.

Definition readable (req : SeatsRequest) : Prop := is_Some (read_args req).

Lemma reserve_tx_runs req a s :
  validateSeatRequest (sr_EventId req) (sr_SeatIds req) (sr_OrderId req) = Ok tt ->
  wp (reserve_tx req) (fun r _ s' => ran (readable req) (labelled KReserve req) (is_db s) r (is_db s')) a s.
Proof.
  intros Hv. assert (Hw : forall w e, ~ refusal (EWrap w e)) by (by intros w e [msg ?]).
  assert (Hno : forall w e ok P, ran (A := list (UUID * seat_row)) ok P (is_db s) (Err (EWrap w e)) (is_db s))
    by (intros; apply ran_nothing; left; apply Hw).
  unfold reserve_tx. wp_steps; [|done..]. apply wp_pg_args; [|intros; apply Hno]. intros ids Hids. wp_steps.
  apply wp_pg_arg; [|intros; apply Hno]. intros ev Hev. wp_steps; [..|done|done].
  all: try (unfold inc_conflict; wp_steps; cbn [is_db];
    destruct (pg_uuid (sr_OrderId req)) as [o|] eqn:Ho;
    [|apply ran_nothing; right; unfold readable, read_args; rewrite Hv, Hev, Ho; cbn; by intros [??]];
    apply (ran_refused _ _ _ _ (ABegin 0 KReserve req 0)
      (JSeats KReserve {| sa_req := req; sa_ev := ev; sa_order := o; sa_ids := ids |}) 0);
    [cbn [step]; by rewrite (read_args_eq _ _ _ _ Hv Hev Ho Hids)|]).
  - cbn. reflect_bools. by rewrite bool_decide_eq_false_2.
  - cbn. rewrite andb_false_iff. right. rewrite <- not_true_iff_false, forallb_forall.
    apply existsb_exists in Heqb0 as (x & Hx & Hs). intros Hall. specialize (Hall x Hx). by reflect_bools.
  - apply wp_pg_arg; [|intros; apply Hno]. intros o Ho. wp_steps; [|apply Hno]. reflect_bools. cbn in Heqb, Heqb0, Heqr.
    pose proof Heqr as (_ & He & Hout & _)%update_seats_inv.
    apply wp_emit_row; [by eapply validateSeatRequest_nonempty| |intros e a' Hne; by apply ran_nothing; left].
    intros row a' Hrow Hfresh Hkey _. autorewrite with prog in Hrow. rewrite He in Hkey. rewrite Hout in Hfresh.
    set (g := {| sa_req := req; sa_ev := ev; sa_order := o; sa_ids := ids |}).
    destruct (ran_commit (A := list (UUID * seat_row)) (readable req) (labelled KReserve req) (is_db s)
      (set_outbox (tb_outbox i ++ [row]) i) (ABegin 0 KReserve req (amb_txnow a)) (JSeats KReserve g) (amb_txnow a) [row]
      ltac:(cbn [step]; by rewrite (read_args_eq _ _ _ _ Hv Hev Ho Hids)))
      as [Hok Herr].
    + cbn. rewrite bool_decide_eq_true_2 by (by apply dec_stable in Heqb). cbn [andb].
      apply forallb_forall. intros y Hy. eapply existsb_false in Heqb0; [|by apply list_elem_of_In].
      reflect_bools. rewrite bool_decide_eq_true. by apply dec_stable in Heqb0.
    + by eapply written_one.
    + by apply insertable_one.
    + by exists g; rewrite (read_args_eq _ _ _ _ Hv Hev Ho Hids).
    + by eapply (apply_job_written (JSeats KReserve g)).
    + wp_steps; eauto.
Qed.

(** The two kinds of [moveHeldSeats]. *)
Inductive moves : kind -> string -> SeatState -> Prop :=
  | moves_sold : moves KConfirm "SOLD" SEAT_STATE_SOLD
  | moves_free : moves KRelease "AVAILABLE" SEAT_STATE_AVAILABLE.

Lemma moves_job k st state g :
  moves k st state -> state_status (job_state (JSeats k g)) = st /\ job_holder (JSeats k g) = None /\
    job_state (JSeats k g) = state /\ scans (JSeats k g) = held_seats_of (sa_ids g) (sa_ev g) (sa_order g) /\
    (forall got d, updated_rows (JSeats k g) got d = matching (JSeats k g) got) /\
    (forall rows, accepts (JSeats k g) rows = bool_decide (length rows = length (sr_SeatIds (sa_req g)))).
Proof. by intros []. Qed.

Lemma moveHeldSeats_runs k st state failure req a s :
  moves k st state -> validateSeatRequest (sr_EventId req) (sr_SeatIds req) (sr_OrderId req) = Ok tt ->
  wp (moveHeldSeats (sr_EventId req) (sr_SeatIds req) (sr_OrderId req) st state failure)
    (fun r _ s' => ran (readable req) (labelled k req) (is_db s) r (is_db s')) a s.
Proof.
  intros Hk Hv. assert (Hw : forall w e, ~ refusal (EWrap w e)) by (by intros w e [msg ?]).
  assert (Hno : forall w e, ran (A := unit) (readable req) (labelled k req) (is_db s) (Err (EWrap w e)) (is_db s))
    by (intros; apply ran_nothing; left; apply Hw).
  assert (Hconn : ran (A := unit) (readable req) (labelled k req) (is_db s) (Err EConn) (is_db s))
    by (apply ran_nothing; left; by intros [msg ?]).
  unfold moveHeldSeats. wp_steps; try done. apply wp_pg_args; [|intros; apply Hno]. intros ids Hids. wp_steps.
  apply wp_pg_arg; [|intros; apply Hno]. intros ev Hev. wp_steps. apply wp_pg_arg; [|intros; apply Hno]. intros o Ho.
  set (g := {| sa_req := req; sa_ev := ev; sa_order := o; sa_ids := ids |}).
  destruct (moves_job k st state g Hk) as (Hst & Hh & Hstate & Hscan & Hupd & Hacc).
  assert (Hb : forall start, step (ABegin 0 k req start) (idle (is_db s)) = begin_tx 0 (JSeats k g) start (idle (is_db s)))
    by (intros start; cbn [step]; by rewrite (read_args_eq _ _ _ _ Hv Hev Ho Hids)).
  wp_steps; [..|apply Hno]; cbn in Heqr; pose proof Heqr as (-> & He & Hout & _)%update_seats_inv; reflect_bools.
  - apply (ran_refused _ _ _ _ _ _ 0%Z (Hb 0%Z)). rewrite Hacc, Hscan. apply bool_decide_eq_false_2, Heqb.
  - apply dec_stable in Heqb.
    apply wp_emit_row; [by eapply validateSeatRequest_nonempty| |intros e a' Hne; by apply ran_nothing; left].
    intros row a' Hrow Hfresh Hkey _. autorewrite with prog in Hrow. rewrite He in Hkey. rewrite Hout in Hfresh.
    destruct (ran_commit (A := unit) (readable req) (labelled k req) (is_db s)
      (set_outbox (tb_outbox i ++ [row]) i) _ _ (amb_txnow a) [row] (Hb (amb_txnow a))) as [Hok Herr].
    + rewrite Hacc, Hscan. by apply bool_decide_eq_true_2.
    + rewrite Hstate. by eapply written_one.
    + by apply insertable_one.
    + exists g. rewrite (read_args_eq _ _ _ _ Hv Hev Ho Hids). split; [done|]. by destruct Hk.
    + rewrite <- Hst, <- Hh in Heqr. eapply apply_job_written; [exact Heqr|]. by rewrite Hupd, matching_select, Hscan.
    + wp_steps. cbn. split; [apply Hok|]. intros _. split; [by apply Herr; left|done].
Qed.

Lemma sweep_release_runs expired a s :
  wp (sweep_release expired) (fun r _ s' =>
    ran True (fun l => exists ids, l = LSweep ids) (is_db s) r (is_db s')) a s.
Proof.
  assert (Hno : forall e, ~ refusal e ->
    ran (A := nat) True (fun l => exists ids, l = LSweep ids) (is_db s) (Err e) (is_db s)) by (intros; apply ran_nothing; by left).
  assert (Hw : forall w e, ~ refusal (EWrap w e)) by (by intros w e [msg ?]).
  unfold sweep_release. wp_steps; try (by apply Hno); try (by apply Hno; intros [msg ?]). cbn in *.
  pose proof Heqr as (_ & He & Hout & _)%update_seats_inv.
  set (rows := sql_select _ (tb_seats (is_db s))). 
  eapply wp_mono; [apply (emit_each_rows _ (is_db s) []); [| |done|by rewrite app_nil_r]|].
  - intros ev ids Hin%elem_of_map_to_list.
    apply by_event_group in Hin as (? & us & _ & -> & Hne & _). by destruct us.
  - split_and!; [by intros ? ?%elem_of_nil|constructor|by intros ? ?%elem_of_nil].
  - cbn. intros [tx'|e] a' s' (-> & Hne & Hr).
    + destruct (Hr tx' eq_refl) as (out & -> & Hins & Hwr). autorewrite with prog in Hwr.
      destruct (ran_commit (A := nat) True (fun l => exists ids, l = LSweep ids) (is_db s)
        (set_outbox (tb_outbox (is_db s) ++ out) i) (ASweep 0 expired (amb_txnow a)) (JSweep expired) (amb_txnow a) out eq_refl eq_refl)
        as [Hok Herr].
      * cbn [updated_rows groups_of]. rewrite matching_select. exact Hwr.
      * done.
      * cbn. eauto.
      * rewrite <- Hout. eapply apply_job_written; [exact Heqr|]. cbn [updated_rows]. by rewrite matching_select.
      * wp_steps. cbn. split; [apply Hok|]. intros _. split; [by apply Herr; left|by apply Hno; intros [msg ?]].
    + by apply Hno, Hne.
Qed.

Lemma insert_seats_runs ev n i tx a s :
  wp (insert_seats ev n i tx) (fun r a' s' => s' = s /\ (forall e, r = Err e -> exists w e', e = EWrap w e') /\
    forall tx', r = Ok tx' -> exists ids, length ids = n /\ create_seats ev ids i (amb_txnow a) tx = Some tx') a s.
Proof.
  revert i tx a. induction n as [|n IH]; intros i tx a; cbn [insert_seats].
  { wp_steps. split_and!; [done..|]. intros tx' [= <-]. by exists []. }
  wp_steps; [|split_and!; [done|intros e0 [= <-]; eauto|done]].
  eapply wp_mono; [apply IH|]. cbn. intros r a' s' (-> & Hne & Hr). split_and!; [done..|]. intros tx' ->.
  destruct (Hr tx' eq_refl) as (ids & <- & Hc). eexists (_ :: ids). split; [done|]. cbn [create_seats].
  autorewrite with prog in *. rewrite Heqr. exact Hc.
Qed.

Lemma CreateEvent_runs req a s :
  wp (CreateEvent req) (fun r _ s' =>
    ran True (fun l => exists ev n, l = LCreate ev n) (is_db s) r (is_db s')) a s.
Proof.
  assert (Hno : forall e, ~ refusal e ->
    ran (A := string) True (fun l => exists ev n, l = LCreate ev n) (is_db s) (Err e) (is_db s)) by (intros; apply ran_nothing; by left).
  assert (Hw : forall w e, ~ refusal (EWrap w e)) by (by intros w e [msg ?]).
  unfold CreateEvent. wp_steps. destruct (validateCreateEvent req) as [u|e] eqn:Hv.
  2: { apply Hno. intros [msg ->]. unfold validateCreateEvent in Hv. by repeat case_match. }
  wp_steps; try (by apply Hno). eapply wp_mono; [apply insert_seats_runs|].
  cbn. intros [tx'|e] a' s' (-> & Hne & Hr).
  - destruct (Hr tx' eq_refl) as (ids & Hlen & Hc). autorewrite with prog in Hc, Heqr.
    set (ev := amb_uuid a (amb_next a)) in *.
    assert (Hrun : run [ACreate req ev ids (amb_txnow a)] (idle (is_db s)) =
      Some {| cs_db := tx'; cs_txs := ∅; cs_log := [LCreate ev (length ids)] |}).
    { cbn [run step cs_db idle]. unfold create_rows. rewrite Hv. cbn [db_get inv_has_db] in Heqr. rewrite Heqr.
      rewrite bool_decide_eq_true_2 by done. by rewrite Hc. }
    wp_steps; try (by apply Hno); (eexists _, _; split; [exact Hrun|]); cbn; split_and!; eauto 10.
    by intros [msg ?].
  - destruct (Hne e eq_refl) as (w & e' & ->). by apply Hno.
Qed.

(** *** Calls *)

Definition call_readable (cl : call) : Prop :=
  match cl with
  | CallReserve req | CallConfirm req | CallRelease req => readable req
  | _ => True
  end.

Definition call_label (cl : call) (l : db_label) : Prop :=
  match cl with
  | CallCreate _ => exists ev n, l = LCreate ev n
  | CallReserve req => labelled KReserve req l
  | CallConfirm req => labelled KConfirm req l
  | CallRelease req => labelled KRelease req l
  | CallSweep => exists ids, l = LSweep ids
  end.

(** A malformed request is not refused but invalid. *)
Lemma check_seats_no_refusal ids seen e : check_seats seen ids = Err e -> ~ refusal e.
Proof.
  revert seen. induction ids as [|raw ids IH]; intros seen; cbn; [done|].
  repeat case_match; try (intros [= <-]; by intros [msg ?]). apply IH.
Qed.

Lemma validate_no_refusal ev ids o e : validateSeatRequest ev ids o = Err e -> ~ refusal e.
Proof.
  unfold validateSeatRequest, validateEventID. repeat case_match; simplify_eq; try (intros [= <-]; by intros [msg ?]).
  apply check_seats_no_refusal.
Qed.

(** A handler validates, runs its transaction, and goes on with Redis. *)
Lemma wp_handler_runs {A B} (req : SeatsRequest) (m : prog (inv_state R) A) (k : A -> prog (inv_state R) B) ok P a s :
  (validateSeatRequest (sr_EventId req) (sr_SeatIds req) (sr_OrderId req) = Ok tt ->
     wp m (fun r _ s' => ran ok P (is_db s) r (is_db s')) a s) ->
  (forall x a s, wp (k x) (fun r _ s' => is_ok r = true /\ is_db s' = is_db s) a s) ->
  wp (x ← (_ ← lift_res (validateSeatRequest (sr_EventId req) (sr_SeatIds req) (sr_OrderId req)); x ← m; k x); mret tt)
    (fun r _ s' => ran ok P (is_db s) r (is_db s')) a s.
Proof.
  intros Hm Hk. wp_steps. destruct (validateSeatRequest _ _ _) as [[]|e] eqn:Hv.
  2: { apply ran_nothing. left. by eapply validate_no_refusal. }
  apply wp_bind. eapply wp_mono; [by apply Hm|]. cbn. intros [z|e] a' s'; [|done]. intros Hran.
  eapply wp_mono; [apply Hk|]. cbn. intros [y|e] a'' s'' [Hok Hs]; [|done]. wp_steps. by rewrite Hs.
Qed.

Lemma wp_for_each_ok {A} (f : A -> prog (inv_state R) unit) l a s :
  (forall x a s, wp (f x) (fun r _ s' => r = Ok tt /\ is_db s' = is_db s) a s) ->
  wp (for_each f l) (fun r _ s' => is_ok r = true /\ is_db s' = is_db s) a s.
Proof. intros Hf. eapply wp_mono; [by apply wp_for_each|]. cbn. by intros r ? ? [-> ?]. Qed.

Lemma sweep_runs a s :
  wp sweepExpiredHolds (fun r _ s' => r = Ok tt /\ exists acts c, run acts (idle (is_db s)) = Some c /\
    cs_txs c = ∅ /\ cs_db c = is_db s' /\ (cs_log c = [] \/ exists l, cs_log c = [l] /\ exists ids, l = LSweep ids)) a s.
Proof.
  assert (Hsame : exists acts c, run acts (idle (is_db s)) = Some c /\ cs_txs c = ∅ /\ cs_db c = is_db s /\
    (cs_log c = [] \/ exists l, cs_log c = [l] /\ exists ids, l = LSweep ids))
    by (exists [], (idle (is_db s)); cbn; split_and!; auto).
  unfold sweepExpiredHolds. wp_steps. eapply wp_mono; [apply wp_sweep_held|].
  cbn. intros [heldIDs|e] a1 s1 (-> & _); [|by wp_steps].
  apply wp_bind. eapply wp_mono; [apply wp_sweep_expired|]. cbn. intros r a2 s2 (-> & _ & _ & l & -> & _).
  wp_steps; [done|]. eapply wp_mono; [apply sweep_release_runs|].
  cbn. intros [n|e] a3 s3 (acts & c & Hrun & Htx & Hdb & Hr); unfold add_expired; wp_steps; (split; [done|]);
    exists acts, c; split_and!; auto. destruct Hr as [[?|(y & ? & ? & _)] _]; eauto.
Qed.

(** The effect and the answer of a call are those of an undisturbed run of its statements. *)
Definition as_transaction {A} (cl : call) d (r : res A) d' : Prop :=
  exists acts c, run acts (idle d) = Some c /\ cs_txs c = ∅ /\ cs_db c = d' /\
    match r with
    | Ok _ => (cl = CallSweep /\ cs_log c = []) \/ exists l, cs_log c = [l] /\ call_label cl l
    | Err e => (cs_log c = [] \/ exists l, cs_log c = [l] /\ call_label cl l /\
                  (e = EConn \/ e = EWrap "could not commit transaction" EConn)) /\
               (refusal e -> call_readable cl -> last acts = Some (ARefuse 0))
    end.

Lemma ran_as_transaction {A} cl d (r : res A) d' :
  ran (call_readable cl) (call_label cl) d r d' -> as_transaction cl d r d'.
Proof. destruct r; intros (acts & c & ? & ? & ? & ?); exists acts, c; auto. Qed.
End Handlers.
