(* ===== verification/InventoryProps.v ===== *)
(** * inventory-svc: the properties

    What the rest of the system relies on: seats are sold once, the outbox tells the
    seat map, requests are granted exactly when they should be, holds last five
    minutes, and what the service answers about events is what it stored. *)

From stdpp Require Import base gmap list strings numbers sorting relations.
From S2P Require Import Prelude Platform GoStrings Events Redis Instances Inventory InventorySpec.
From S2P Require Import InventoryInv InventoryTrace InventoryLive.

(** ** Lemmas *)

Section Lemmas.
Context `{U : UuidLib} {J : ProtoJson} {R : Type} `{RedisLib R}.
Context `{!UuidLaws U} `{!ProtoJsonLaws J}.

Implicit Types (s : inv_state R) (a : ambient).

(** *** Validation *)

Lemma check_seats_spec (seen : gset UUID) ids :
  check_seats seen ids = Ok tt <->
  exists us, mapM uuid_parse ids = Some us /\ NoDup us /\ forall u, u ∈ us -> u ∉ seen.
Proof.
  revert seen. induction ids as [|raw ids IH]; intros seen; cbn.
  { split; [|done]. intros _. exists []. split_and!; [done|constructor|by intros ? ?%not_elem_of_nil]. }
  destruct (uuid_parse raw) as [u|]; cbn; [|split; [done|by intros (? & ? & _)]].
  case_bool_decide as Hu.
  { split; [done|]. intros (us & E & _ & Hs). apply bind_Some in E as (us' & E & [= <-]).
    by destruct (Hs u (list_elem_of_here _ _)). }
  rewrite IH. split.
  - intros (us & -> & Hnd & Hs). exists (u :: us). split_and!; [done| |].
    + apply NoDup_cons. split; [|done]. intros Hin. apply (Hs u Hin). by apply elem_of_union_l, elem_of_singleton.
    + intros v [->|Hv]%elem_of_cons; [done|]. intros Hin. apply (Hs v Hv). by apply elem_of_union_r.
  - intros (us & E & Hnd & Hs). apply bind_Some in E as (us' & E & [= <-]).
    apply NoDup_cons in Hnd as [Hni Hnd]. exists us'. split_and!; try done.
    intros v Hv. rewrite elem_of_union, elem_of_singleton. intros [->|Hin]; [done|].
    by apply (Hs v); [right|].
Qed.

Lemma validate_ok ev ids o :
  validateSeatRequest ev ids o = Ok tt <->
  is_Some (uuid_parse ev) /\ is_Some (uuid_parse o) /\
  (1 <= Z.of_nat (length ids) <= maxSeatsPerOrder)%Z /\
  exists us, mapM uuid_parse ids = Some us /\ NoDup us.
Proof.
  unfold validateSeatRequest, validateEventID.
  destruct (uuid_parse ev) as [e|]; [|split; [done|by intros ([? ?] & _)]].
  destruct (uuid_parse o) as [u|]; [|split; [done|by intros (_ & [? ?] & _)]].
  destruct (_ || _) eqn:E.
  { split; [done|]. intros (_ & _ & Hl & _). unfold maxSeatsPerOrder in *.
    apply orb_true_iff in E as [E|E]; reflect_bools; lia. }
  reflect_bools. rewrite check_seats_spec. split.
  - intros (us & Hus & Hnd & _). split; [done|]. split; [done|]. split; [lia|]. by exists us.
  - intros (_ & _ & _ & us & Hus & Hnd). by exists us.
Qed.

(** *** Redis holds *)

Lemma holdKey_inj (x y : UUID) : holdKey (uuid_string x) = holdKey (uuid_string y) -> x = y.
Proof. intros E%append_inj_l. by apply (inj uuid_string). Qed.

Lemma set_holds_view `{!RedisLaws R} o (ids : list (UUID * seat_row)) a s :
  no_faults a ->
  wp (for_each (fun x => set_hold o x.1) ids) (fun r a' s' => r = Ok tt /\ a' = a /\
    is_db s' = is_db s /\
    forall id, redis_view (is_redis s') (holdKey (uuid_string id)) =
      if bool_decide (id ∈ ids.*1)
      then Some (o, Some (amb_now a / 10 ^ 6 + holdTTL / 10 ^ 6)%Z)
      else redis_view (is_redis s) (holdKey (uuid_string id))) a s.
Proof.
  intros Hnf. revert s. induction ids as [|[id0 r0] ids IH]; intros s; cbn [for_each].
  { wp_steps. split_and!; try done. }
  apply wp_bind. unfold set_hold, redis_write. wp_steps;
    rewrite (head_fate_none a Hnf) in *; try done.
  rewrite (drop_fate_none a Hnf) in *. eapply wp_mono; [apply IH|].
  cbn. intros r a' s' (-> & -> & Hdb & Hv). split_and!; [done|done|done|].
  intros id. rewrite Hv, redis_view_set. destruct (decide (id = id0)) as [->|Hne].
  - rewrite (bool_decide_eq_true_2 (_ = _)) by done.
    rewrite (bool_decide_eq_true_2 (id0 ∈ _ :: _)) by (by left). by case_bool_decide.
  - rewrite (bool_decide_eq_false_2 (_ = _)) by (by intros E%holdKey_inj).
    rewrite (bool_decide_ext (id ∈ id0 :: ids.*1) (id ∈ ids.*1)); [done|].
    rewrite elem_of_cons. tauto.
Qed.

(** The clock stands still during a handler's run, and faults do not appear. *)
Lemma reserve_tx_quiet req a s :
  no_faults a ->
  wp (reserve_tx req) (fun r a' _ => is_ok r = true -> no_faults a' /\ amb_now a' = amb_now a) a s.
Proof.
  intros Hnf. unfold reserve_tx, emitSeatEvent, pg_args, pg_arg, inc_conflict.
  wp_steps; try done; autorewrite with prog; auto 20 with prog.
  destruct (EncodeSeatEvent _) as [payload|]; [|done].
  wp_steps; try done; autorewrite with prog; auto 20 with prog.
Qed.

(** A reservation without faults leaves the seats held and their keys set. *)
Lemma ReserveSeats_holds `{!RedisLaws R} req a s :
  no_faults a ->
  wp (ReserveSeats req) (fun r _ s' => forall seats, r = Ok seats ->
    exists ev o ids, mapM pg_uuid (sr_SeatIds req) = Some ids /\ pg_uuid (sr_OrderId req) = Some o /\
      db_step (LReserve ev o ids) (is_db s) (is_db s') /\
      forall id, id ∈ ids -> redis_view (is_redis s') (holdKey (uuid_string id)) =
        Some (sr_OrderId req, Some (amb_now a / 10 ^ 6 + holdTTL / 10 ^ 6)%Z)) a s.
Proof.
  intros Hnf. unfold ReserveSeats. wp_steps.
  destruct (validateSeatRequest _ _ _) as [[]|e] eqn:Hv; [|done].
  apply wp_bind. eapply wp_mono.
  { apply wp_conj; [apply reserve_tx_spec; by eapply validateSeatRequest_nonempty|].
    apply reserve_tx_quiet. exact Hnf. }
  cbn. intros [rows|e] a' s' [[_ Hr] Hq]; [|done]. destruct (Hq eq_refl) as [Hnf' Hnow].
  apply wp_bind. unfold inc_reserved. wp_steps.
  eapply wp_mono; [by apply set_holds_view|]. cbn.
  intros r a2 s2 (-> & -> & Hdb & Hview). wp_steps. intros seats _.
  destruct Hr as (ev & o & ids & _ & Ho & Hids & Hp & Hst).
  exists ev, o, ids. rewrite Hdb. split_and!; [done|done|done|].
  intros id Hid. rewrite Hview, Hnow, bool_decide_eq_true_2; [done|]. by rewrite Hp.
Qed.

(** The transaction of a confirm or release and the Redis writes after it. *)
Lemma move_outcome st state l failure status req ev o ids a s :
  move_kind st state l ->
  pg_uuid (sr_EventId req) = Some ev -> pg_uuid (sr_OrderId req) = Some o ->
  mapM pg_uuid (sr_SeatIds req) = Some ids -> sr_SeatIds req <> [] ->
  no_faults a -> wf_db (is_db s) ->
  can_emit a (is_db s) (sr_EventId req) (sr_SeatIds req) state ->
  wp (_ ← moveHeldSeats (sr_EventId req) (sr_SeatIds req) (sr_OrderId req) st state failure;
      _ ← for_each del_hold (sr_SeatIds req); mret (seats_response req status))
    (fun r _ s' => (all_held (is_db s) ev o ids ->
       r = Ok (seats_response req status) /\ db_step (l ev o ids) (is_db s) (is_db s')) /\
     (~ all_held (is_db s) ev o ids -> r = Err (refused failure) /\ s' = s)) a s.
Proof.
  intros Hk Hev Ho Hids Hne Hnf Hwf He. apply wp_bind. eapply wp_mono.
  { apply wp_conj; [by eapply (moveHeldSeats_spec st state l)|by eapply (moveHeldSeats_live st state l)]. }
  cbn. intros [[]|e] a1 s1 [[_ Hr] (_ & _ & Hh & Hnh)].
  2: { split; [by intros Hall%Hh|]. intros Hnall. by destruct (Hnh Hnall) as [[= ->] ->]. }
  apply wp_bind. eapply wp_mono; [apply wp_for_each; intros; apply wp_redis_write|].
  cbn. intros x a2 s2 [-> Hs]. wp_steps. split.
  - intros _. split; [done|]. rewrite Hs. destruct Hr as (ev' & o' & ids' & ? & ? & ? & Hst).
    by simplify_eq.
  - intros Hnall. by destruct (Hnh Hnall) as [[=] _].
Qed.

(** *** Sweeping held seats *)

Lemma reserve_step_held ev o ids d d' id :
  db_step (LReserve ev o ids) d d' -> id ∈ ids ->
  exists x, tb_seats d' !! id = Some x /\ st_status x = "HELD" /\ st_held_by x = Some o.
Proof.
  inversion 1 as [? ? ? row ? ? _ [_ Hf] Hset _ _| | | |]; subst. intros Hid.
  destruct (Hf id Hid) as (x & Hx & _). eexists.
  rewrite (seats_set_lookup _ _ _ _ _ id Hset), Hx, bool_decide_eq_true_2 by done. by split_and!.
Qed.

Lemma wp_reserve_action req a s :
  wp (run_action (ActReserve req)) (fun r _ s' => r = Ok tt ->
    exists ev o ids, mapM pg_uuid (sr_SeatIds req) = Some ids /\ ids <> [] /\
      db_step (LReserve ev o ids) (is_db s) (is_db s')) a s.
Proof.
  apply (run_checked _ _ (fun r s' => r = Ok tt -> exists ev o ids, mapM pg_uuid (sr_SeatIds req) = Some ids
    /\ ids <> [] /\ db_step (LReserve ev o ids) (is_db s) (is_db s'))); [done|]. intros Hne.
  eapply wp_mono; [by apply reserve_tx_spec|]. cbn.
  intros [rows|e] a' s' [_ Hr]; [intros _|done].
  destruct Hr as (ev & o & ids & _ & _ & Hids & _ & Hst). exists ev, o, ids. split_and!; [done| |done].
  by inversion Hst.
Qed.

Lemma sweep_frees a s r a' s' id :
  no_faults a -> wf_db (is_db s) -> fresh_supply a (is_db s) -> encodable SEAT_STATE_AVAILABLE ->
  sweepExpiredHolds a s = (r, a', s') ->
  (exists x, tb_seats (is_db s) !! id = Some x /\ st_status x = "HELD") ->
  redis_exists (amb_now a / 10 ^ 6) (holdKey (uuid_string id)) (is_redis s) = false ->
  exists x, tb_seats (is_db s') !! id = Some x /\ st_status x = "AVAILABLE" /\ st_held_by x = None.
Proof.
  intros Hnf Hwf Hfs Henc Hsw Hheld Hkey.
  destruct (wp_run _ _ _ _ _ _ _ Hsw (sweepExpiredHolds_live a s Hnf Hwf Hfs Henc))
    as (_ & ids' & Hdb & Hin).
  assert (Hid' : id ∈ ids') by (by apply Hin).
  destruct Hdb as [[_ ->]|Hsweep]; [by apply not_elem_of_nil in Hid'|].
  inversion Hsweep as [| | |? rows ? ? _ Hset _ _|]; subst.
  destruct Hheld as (x & Hx & _). eexists.
  rewrite (seats_set_lookup _ _ _ _ _ id Hset), Hx, bool_decide_eq_true_2 by done. by split_and!.
Qed.

(** A sweep leaves a seat whose hold key is there as it is, and touches no key. *)
Lemma sweep_spares a s r a' s' id :
  sweepExpiredHolds a s = (r, a', s') ->
  redis_exists (amb_now a / 10 ^ 6) (holdKey (uuid_string id)) (is_redis s) = true ->
  tb_seats (is_db s') !! id = tb_seats (is_db s) !! id.
Proof.
  intros Hsw Hkey. destruct (wp_run _ _ _ _ _ _ _ Hsw (sweepExpiredHolds_spec a s)) as (_ & _ & Hat).
  destruct Hat as [->|(l & (ids' & -> & Hexp) & Hsweep)]; [done|].
  inversion Hsweep as [| | |? rows ? ? _ Hset _ _|]; subst.
  rewrite (seats_set_lookup _ _ _ _ _ id Hset), bool_decide_eq_false_2.
  - by destruct (tb_seats (is_db s) !! id).
  - intros Hin%Hexp. congruence.
Qed.

(** A sweep keeps the tables well formed and Redis as it is. *)
Lemma sweep_keeps a s r a' s' :
  sweepExpiredHolds a s = (r, a', s') -> is_redis s' = is_redis s /\ (wf_db (is_db s) -> wf_db (is_db s')).
Proof.
  intros Hsw. destruct (wp_run _ _ _ _ _ _ _ Hsw (sweepExpiredHolds_spec a s)) as (_ & -> & Hat). split; [done|].
  destruct Hat as [->|(l & _ & Hst)]; [done|]. by eapply db_step_wf.
Qed.

(** *** Creating and reading events *)

(** The seats of a new event are the ones it was created with, all of them free. *)
Lemma create_counts ev n d d' :
  db_step (LCreate ev n) d d' -> wf_db d ->
  sql_count (fun _ r => bool_decide (st_event_id r = ev)) (tb_seats d') = n /\
  sql_count (fun _ r => bool_decide (st_event_id r = ev) && bool_decide (st_status r = "AVAILABLE"))
    (tb_seats d') = n.
Proof.
  intros Hst Hwf.
  inversion Hst as [| | | |ev' n' e news d0 d0' Hfresh He Hs Hnd Hlen Hmax Hnew Hlab Ho]; subst.
  assert (Hold : forall id r, tb_seats d !! id = Some r -> st_event_id r <> ev).
  { intros id r Hr Heq. destruct (wf_event _ Hwf id r Hr) as [x Hx]. congruence. }
  assert (Hin : forall k, k ∈ news.*1 -> exists v, tb_seats d' !! k = Some v /\
    st_event_id v = ev /\ st_status v = "AVAILABLE").
  { intros k ([k' v] & -> & Hin)%list_elem_of_fmap. exists v. rewrite Hs.
    pose proof (Hnew _ _ Hin) as (_ & ? & ? & _). split_and!; [|done..].
    apply lookup_union_Some_l. by apply elem_of_list_to_map. }
  assert (Hback : forall k v, tb_seats d' !! k = Some v -> st_event_id v = ev -> k ∈ news.*1).
  { intros k v. rewrite Hs. intros [Hk|[_ Hk]]%(create_lookup _ _ _ _ Hnd) Hv; [|by apply Hold in Hk].
    apply list_elem_of_fmap. by exists (k, v). }
  rewrite <- (length_fmap fst news). split; apply sql_count_keys; try done; intros k; split.
  - intros (v & ? & ? & _)%Hin. exists v. by rewrite bool_decide_eq_true.
  - intros (v & ? & ?). reflect_bools. eauto.
  - intros (v & ? & E & E')%Hin. exists v. by rewrite E, E', !bool_decide_eq_true_2.
  - intros (v & ? & ?). reflect_bools. eauto.
Qed.

(** [uuid.New] yields new ids for events and seats. *)
Definition fresh_ids (a : ambient) (d : inv_db) : Prop :=
  forall n, amb_next a <= n ->
    tb_events d !! amb_uuid a n = None /\ tb_seats d !! amb_uuid a n = None /\
    forall m, amb_next a <= m -> amb_uuid a n = amb_uuid a m -> n = m.

Lemma insert_seats_live ev n i tx a s :
  is_Some (tb_events tx !! ev) ->
  (forall k, amb_next a <= k -> tb_seats tx !! amb_uuid a k = None /\
     forall m, amb_next a <= m -> amb_uuid a k = amb_uuid a m -> k = m) ->
  (forall id r, tb_seats tx !! id = Some r -> st_event_id r = ev ->
     exists j, (j < i)%Z /\ st_label r = "Seat " +:+ itoa j) ->
  no_faults a ->
  wp (insert_seats ev n i tx) (fun r a' _ => is_ok r = true /\ no_faults a') a s.
Proof.
  revert i tx a. induction n as [|n IH]; intros i tx a Hev Hfresh Hlab Hnf; cbn [insert_seats]; [done|].
  destruct (Hfresh (amb_next a) (Nat.le_refl _)) as [Hnone _].
  wp_steps; unfold insert_seat in Heqr.
  - repeat case_bool_decide; simplify_eq. apply IH; cbn; [done| | |done].
    + intros k Hk. split; [|intros m Hm; apply Hfresh; lia].
      rewrite lookup_insert_ne; [apply Hfresh; lia|]. intros E. apply Hfresh in E; lia.
    + intros id r. destruct (decide (id = amb_uuid a (amb_next a))) as [->|Hne].
      * rewrite lookup_insert_eq. intros [= <-] _. exists i. split; [lia|done].
      * rewrite lookup_insert_ne by done. intros Hr He. destruct (Hlab id r Hr He) as (j & ? & ?).
        exists j. split; [lia|done].
  - exfalso. rewrite bool_decide_eq_false_2 in Heqr by (rewrite Hnone; by intros []).
    rewrite (bool_decide_eq_true_2 (is_Some (tb_events tx !! ev))) in Heqr by done.
    case_bool_decide as Hc; [done|]. apply Hc, (sql_count_keys _ _ []); [constructor|].
    intros k. split; [by intros ?%not_elem_of_nil|]. intros (v & Hv & Hp). reflect_bools.
    destruct (Hlab k v) as (j & Hj & E); [done..|]. exfalso.
    match goal with E' : st_label v = _ |- _ =>
      rewrite E in E'; apply append_inj_l, itoa_inj in E'; lia end.
Qed.

Lemma CreateEvent_live req a s :
  validateCreateEvent req = Ok tt -> no_faults a -> wf_db (is_db s) -> fresh_ids a (is_db s) ->
  wp (CreateEvent req) (fun r _ _ => is_ok r = true) a s.
Proof.
  intros Hv Hnf Hwf Hfresh. unfold CreateEvent. rewrite Hv. wp_steps; try no_fault; cbn in *.
  2: { unfold insert_event in Heqr. autorewrite with prog in Heqr.
    rewrite bool_decide_eq_false_2 in Heqr; [done|].
    destruct (Hfresh (amb_next a) (Nat.le_refl _)) as [-> _]. by intros []. }
  unfold insert_event in Heqr. case_bool_decide as Hnone; [done|]. injection Heqr as <-.
  eapply wp_mono; [apply insert_seats_live|]; cbn; autorewrite with prog in *; cbn.
  - rewrite lookup_insert_eq. eauto.
  - intros k Hk. split; [apply Hfresh; lia|]. intros m Hm. apply Hfresh; lia.
  - intros id r Hr He. destruct (wf_event _ Hwf id r Hr) as [x Hx]. exfalso. apply Hnone. rewrite <- He. eauto.
  - auto with prog.
  - intros [tx|] a' s' [Hok Hnf']; [|done]. wp_steps; try no_fault. done.
Qed.

(** [GetEvent] of an event that exists. *)
Lemma GetEvent_run id e a s :
  no_faults a -> tb_events (is_db s) !! id = Some e ->
  GetEvent {| ge_EventId := uuid_string id |} a s =
    (Ok (scanEvent (select_event (is_db s) id e)), a, s).
Proof.
  intros Hnf He. unfold GetEvent, validateEventID. cbn. rewrite uuid_parse_string.
  unfold mbind, prog_bind, pg_call, mbind, prog_bind, next_fate, pop_fate, get_state. cbn.
  rewrite Hnf. cbn. by rewrite He.
Qed.
End Lemmas.

(** ** Properties *)

Section Properties.
Context `{U : UuidLib} {J : ProtoJson} {R : Type} `{RedisLib R}.
Context `{!UuidLaws U} `{!ProtoJsonLaws J}.

Implicit Types (s : inv_state R) (a : ambient).

(** C1: over any interleaving of the transactions and Redis commands of any number
    of handlers and sweepers, with calls failing and answers lost at any point and
    Redis losing keys, the successful confirmations never sell a seat twice. *)
Theorem seat_sells_once tr s s' :
  exec tr s s' -> NoDup (sold tr).
Proof. intros Hex. by destruct (sold_fresh tr s s' Hex). Qed.

(** C14: along any such execution the tables stay well formed (a held seat has a
    holder, a free or sold one has none; labels are unique within an event; no event
    has more than 500 seats; outbox rows have distinct ids and belong to an event)
    and replaying the outbox gives exactly the seat map. *)
Theorem outbox_tells_seat_map tr s s' :
  exec tr s s' -> wf_db (is_db s) -> announced (is_db s) ->
  wf_db (is_db s') /\ announced (is_db s').
Proof.
  intros Hex Hwf Han. split.
  - eapply exec_invariant; eauto using db_step_wf.
  - eapply exec_invariant; eauto using db_step_announced.
Qed.

(** Every handler run and every sweep is a sequence of the atomic actions,
    starting with its transaction, and it reports success exactly when that
    transaction did; a sweep that finds nothing does nothing. *)
Lemma calls_are_actions c a s r a' s' :
  run_call c a s = (r, a', s') ->
  (c = CallSweep /\ s' = s) \/
  exists act r1 tr, main_action c act /\ exec ((act, r1) :: tr) s s' /\
    (c <> CallSweep -> is_ok r = is_ok r1).
Proof.
  intros Hrun. revert Hrun. destruct c as [req|req|req|req|]; intros Hrun;
    [right|right|right|right|].
  - exists (ActCreate req), r, []. split_and!; [done| |done]. by eapply exec_one.
  - pose proof (wp_ReserveSeats_exec req a s) as Hw. unfold wp in Hw. cbn in Hrun.
    unfold mbind, prog_bind in Hrun.
    destruct (ReserveSeats req a s) as [[[x|e] a1] s1]; destruct Hw as (r1 & tr & Hex & Hok);
      injection Hrun as <- <- <-; by exists (ActReserve req), r1, tr.
  - pose proof (wp_ConfirmSeats_exec req a s) as Hw. unfold wp in Hw. cbn in Hrun.
    unfold mbind, prog_bind in Hrun.
    destruct (ConfirmSeats req a s) as [[[x|e] a1] s1]; destruct Hw as (r1 & tr & Hex & Hok);
      injection Hrun as <- <- <-; by exists (ActConfirm req), r1, tr.
  - pose proof (wp_ReleaseSeats_exec req a s) as Hw. unfold wp in Hw. cbn in Hrun.
    unfold mbind, prog_bind in Hrun.
    destruct (ReleaseSeats req a s) as [[[x|e] a1] s1]; destruct Hw as (r1 & tr & Hex & Hok);
      injection Hrun as <- <- <-; by exists (ActRelease req), r1, tr.
  - pose proof (wp_sweep_exec a s) as Hw. unfold wp in Hw. cbn in Hrun. rewrite Hrun in Hw.
    destruct Hw as [_ [->|(ids & r1 & tr & Hex)]]; [by left|right].
    exists (ActSweep ids), r1, tr. split_and!; [by exists ids|done|by intros []].
Qed.

(** Along any execution, each seat moves only along the seat state machine:
    free to held by an order, held to sold, held to free; sold is final. *)
Lemma seats_follow_state_machine tr s s' id r :
  exec tr s s' -> wf_db (is_db s) -> tb_seats (is_db s) !! id = Some r ->
  exists r' x x', tb_seats (is_db s') !! id = Some r' /\ seat_of r = Some x /\
    seat_of r' = Some x' /\ rtc seat_step x x' /\ (x = Sold -> x' = Sold).
Proof.
  intros Hex. revert r. induction Hex as [s|act o tr a a' s s1 s2 Hrun _ IH]; intros r Hwf Hr.
  { destruct (wf_seat _ Hwf id r Hr) as [[E _]|[[E [o Eo]]|[E _]]];
      exists r; unfold seat_of; rewrite E, ?Eo; cbn; eauto 10 using rtc_refl. }
  destruct (run_action_effect _ _ _ _ _ _ Hrun) as [Hat _].
  assert (exists r1 x x1, tb_seats (is_db s1) !! id = Some r1 /\ seat_of r = Some x /\
    seat_of r1 = Some x1 /\ (x1 = x \/ seat_step x x1)) as (r1 & x & x1 & Hr1 & Hx & Hx1 & Hstep).
  { destruct Hat as [E|(l & _ & Hst)]; [|by eapply db_step_seat].
    exists r. rewrite E. destruct (wf_seat _ Hwf id r Hr) as [[E' _]|[[E' [h Eo]]|[E' _]]];
      unfold seat_of; rewrite E', ?Eo; cbn; eauto 10. }
  assert (Hwf1 : wf_db (is_db s1)).
  { destruct Hat as [->|(l & _ & Hst)]; [done|by eapply db_step_wf]. }
  destruct (IH r1 Hwf1 Hr1) as (r2 & y & y2 & Hr2 & Hy & Hy2 & Hrtc & Hsold).
  assert (y = x1) as -> by congruence. exists r2, x, y2.
  split_and!; [done..| |]; destruct Hstep as [->|Hstep]; try done.
  - by eapply rtc_l.
  - intros ->. by inversion Hstep.
Qed.

(** [validateSeatRequest] accepts exactly the requests whose event and order ids
    are UUIDs and whose one to ten seat ids are UUIDs that denote distinct seats. *)
Lemma seat_request_valid_iff ev ids o :
  validateSeatRequest ev ids o = Ok tt <->
  is_Some (uuid_parse ev) /\ is_Some (uuid_parse o) /\
  (1 <= Z.of_nat (length ids) <= 10)%Z /\
  exists us, mapM uuid_parse ids = Some us /\ NoDup us.
Proof. apply validate_ok. Qed.

(** C15: when nothing fails, [ReserveSeats] on a valid request answers with success and
    holds exactly the named seats for the order when all of them exist, belong to the
    event and are free; otherwise it refuses with [FailedPrecondition], changes
    neither tables nor Redis, and counts a conflict. *)
Theorem reserve_grants_iff_free req ev o ids a s r a' s' :
  validateSeatRequest (sr_EventId req) (sr_SeatIds req) (sr_OrderId req) = Ok tt ->
  pg_uuid (sr_EventId req) = Some ev -> pg_uuid (sr_OrderId req) = Some o ->
  mapM pg_uuid (sr_SeatIds req) = Some ids ->
  no_faults a -> wf_db (is_db s) ->
  can_emit a (is_db s) (sr_EventId req) (sr_SeatIds req) SEAT_STATE_HELD ->
  ReserveSeats req a s = (r, a', s') ->
  (all_free (is_db s) ev ids -> is_ok r = true /\ db_step (LReserve ev o ids) (is_db s) (is_db s')) /\
  (~ all_free (is_db s) ev ids -> (exists msg, r = Err (refused msg)) /\ is_db s' = is_db s /\
     is_redis s' = is_redis s /\ is_conflict s' = (is_conflict s + 1)%Z).
Proof.
  intros Hv Hev Ho Hids Hnf Hwf Hemit. revert r a' s'. wp_start. unfold ReserveSeats.
  pose proof (validateSeatRequest_nonempty _ _ _ Hv) as Hne.
  rewrite Hv. wp_steps. eapply wp_mono.
  { apply wp_conj; [by apply reserve_tx_spec|by eapply reserve_tx_live]. }
  cbn. intros [rows|e] a1 s1 [[_ Hr] (_ & _ & Hf & Hnf')].
  2: { split; [by intros Hall%Hf|]. intros Hnall. destruct (Hnf' Hnall) as ([msg [= ->]] & ? & ? & ?). eauto. }
  apply wp_bind. unfold inc_reserved. wp_steps.
  eapply wp_mono; [apply wp_for_each; intros; apply wp_redis_write|].
  cbn. intros x a2 s2 [-> Hs]. wp_steps. split.
  - intros _. split; [done|]. rewrite Hs. destruct Hr as (ev' & o' & ids' & ? & ? & ? & _ & Hst).
    by simplify_eq.
  - intros Hnall. by destruct (Hnf' Hnall) as ([msg [=]] & _).
Qed.

(** C16: when nothing fails, [ConfirmSeats] sells and [ReleaseSeats] frees exactly the
    named seats when the order holds all of them; otherwise they refuse with
    [FailedPrecondition] and change nothing, neither tables nor Redis. *)
Theorem confirm_and_release_iff_held req ev o ids a s :
  validateSeatRequest (sr_EventId req) (sr_SeatIds req) (sr_OrderId req) = Ok tt ->
  pg_uuid (sr_EventId req) = Some ev -> pg_uuid (sr_OrderId req) = Some o ->
  mapM pg_uuid (sr_SeatIds req) = Some ids ->
  no_faults a -> wf_db (is_db s) ->
  can_emit a (is_db s) (sr_EventId req) (sr_SeatIds req) SEAT_STATE_SOLD ->
  can_emit a (is_db s) (sr_EventId req) (sr_SeatIds req) SEAT_STATE_AVAILABLE ->
  let ok (l : UUID -> UUID -> list UUID -> db_label) st failure (out : res (list Seat) * ambient * inv_state R) :=
    let '(r, a', s') := out in
    (all_held (is_db s) ev o ids ->
       r = Ok (seats_response req st) /\ db_step (l ev o ids) (is_db s) (is_db s')) /\
    (~ all_held (is_db s) ev o ids -> r = Err (refused failure) /\ s' = s) in
  ok LConfirm SEAT_STATUS_SOLD "one or more seats could not be confirmed" (ConfirmSeats req a s) /\
  ok LRelease SEAT_STATUS_AVAILABLE "one or more seats could not be released" (ReleaseSeats req a s).
Proof.
  intros Hv Hev Ho Hids Hnf Hwf He1 He2 ok. subst ok.
  pose proof (validateSeatRequest_nonempty _ _ _ Hv) as Hne.
  unfold ConfirmSeats, ReleaseSeats. rewrite Hv. split;
    [apply (move_outcome _ _ _ _ _ _ _ _ _ _ _ move_sold)|
     apply (move_outcome _ _ _ _ _ _ _ _ _ _ _ move_free)]; done.
Qed.

(** The hold key is written after the transaction that holds the seats has
    committed.  A sweep that runs in between frees the seats at once, whatever the
    clock says: a seat reserved a moment ago is free again, and the confirmation of
    the order that reserved it is refused. *)
Lemma sweep_before_hold_key_frees_seats req a s a1 s1 a2 r2 a3 s2 ids :
  wf_db (is_db s) -> run_action (ActReserve req) a s = (Ok tt, a1, s1) ->
  mapM pg_uuid (sr_SeatIds req) = Some ids ->
  (forall id, id ∈ ids -> redis_exists (amb_now a2 / 10 ^ 6) (holdKey (uuid_string id)) (is_redis s1) = false) ->
  no_faults a2 -> fresh_supply a2 (is_db s1) -> encodable SEAT_STATE_AVAILABLE ->
  sweepExpiredHolds a2 s1 = (r2, a3, s2) ->
  (forall id, id ∈ ids -> exists r, tb_seats (is_db s2) !! id = Some r /\
     st_status r = "AVAILABLE" /\ st_held_by r = None) /\
  forall a4, is_ok (ConfirmSeats req a4 s2).1.1 = false.
Proof.
  intros Hwf Hrun Hids Hkeys Hnf Hfs Henc Hsw.
  destruct (wp_run _ _ _ _ _ _ _ Hrun (wp_reserve_action req a s) eq_refl) as (ev & o & ids' & Hids' & Hne & Hst).
  assert (ids' = ids) as -> by congruence.
  assert (Hfreed : forall id, id ∈ ids -> exists r, tb_seats (is_db s2) !! id = Some r /\
     st_status r = "AVAILABLE" /\ st_held_by r = None).
  { intros id Hid. eapply (sweep_frees a2 s1); eauto using db_step_wf.
    destruct (reserve_step_held _ _ _ _ _ _ Hst Hid) as (x & ? & ? & _). eauto. }
  split; [done|]. intros a4. pose proof (ConfirmSeats_spec req a4 s2) as Hc. unfold wp in Hc.
  destruct (ConfirmSeats req a4 s2) as [[[x|e] a5] s5]; [exfalso|done].
  destruct Hc as [(ev' & o' & ids' & _ & _ & Hi & Hst') _]. assert (ids' = ids) as -> by congruence.
  inversion Hst' as [|? ? ? row ? ? _ [_ Hh] _ _ _| | |]; subst.
  destruct ids as [|id ids]; [done|]. destruct (Hh id) as (x1 & Hx1 & _ & Hs1 & _); [by left|].
  destruct (Hfreed id) as (x2 & Hx2 & Hs2 & _); [by left|]. congruence.
Qed.

(** A valid [CreateEvent] without faults succeeds, and [GetEvent] of the id it
    returned gives back the trimmed name, and the requested number of seats as both
    the total and the available count, unchanged by the narrowing to 32 bits. *)
Lemma created_event_reads_back req a s r a1 s1 a2 :
  validateCreateEvent req = Ok tt -> no_faults a -> wf_db (is_db s) -> fresh_ids a (is_db s) ->
  CreateEvent req a s = (r, a1, s1) -> no_faults a2 ->
  exists name, r = Ok name /\
    GetEvent {| ge_EventId := name |} a2 s1 =
      (Ok {| event_Id := name; event_Name := trim_space (ce_Name req);
             event_TotalSeats := ce_SeatCount req; event_AvailableSeats := ce_SeatCount req;
             event_CreatedAt := amb_txnow a |}, a2, s1).
Proof.
  intros Hv Hnf Hwf Hfresh Hrun Hnf2.
  pose proof (wp_run _ _ _ _ _ _ _ Hrun (CreateEvent_live req a s Hv Hnf Hwf Hfresh)) as Hok.
  pose proof (wp_run _ _ _ _ _ _ _ Hrun (CreateEvent_spec req a s)) as [_ Hspec].
  cbn in Hok. destruct r as [name|]; [|done]. exists name. split; [done|].
  destruct Hspec as (ev & -> & Hst & Hev). rewrite (GetEvent_run _ _ _ _ Hnf2 Hev).
  destruct (create_counts _ _ _ _ Hst Hwf) as [H1 H2].
  unfold validateCreateEvent in Hv. repeat (case_match; [done|]). reflect_bools.
  unfold select_event, scanEvent, maxSeatsPerEvent in *. rewrite H1, H2.
  rewrite !to_int32_id by (unfold int32; lia). by rewrite !Z2Nat.id by lia.
Qed.

(** Without faults, [ListEvents] returns the newest events: as many as the clamped
    limit (between 1 and 200) and the table allow, newest first, each with its seat
    counts, and no event left out comes before a listed one. *)
Lemma list_events_newest_page `{!PgOrder U} req a s :
  Transitive uuid_le -> Total uuid_le -> no_faults a ->
  exists page rest,
    ListEvents req a s =
      (Ok (map (fun '(id, e) => scanEvent (select_event (is_db s) id e)) page), a, s) /\
    page ++ rest ≡ₚ map_to_list (tb_events (is_db s)) /\
    (1 <= clampEventLimit (le_Limit req) <= 200)%Z /\
    Z.of_nat (length page) = Z.min (clampEventLimit (le_Limit req)) (Z.of_nat (size (tb_events (is_db s)))) /\
    StronglySorted newest_first page /\
    forall x y, x ∈ page -> y ∈ rest -> newest_first x y.
Proof.
  intros Htr Htot Hnf.
  assert (Hclamp : (1 <= clampEventLimit (le_Limit req) <= 200)%Z).
  { unfold clampEventLimit, defaultEventLimit, maxEventLimit. repeat case_match; reflect_bools; lia. }
  destruct (merge_sort_page newest_first (map_to_list (tb_events (is_db s)))
              (Z.to_nat (clampEventLimit (le_Limit req)))) as (Hperm & Hlen & Hsort & Hcross).
  - intros x y z [?|[? ?]] [?|[? ?]]; unfold newest_first; try (left; lia). right. split; [lia|by etrans].
  - intros x y. unfold newest_first.
    destruct (Z.lt_trichotomy (ev_created_at x.2) (ev_created_at y.2)) as [?|[?|?]]; auto.
    destruct (Htot x.1 y.1); auto.
  - do 2 eexists. split; [|split_and!; [exact Hperm|lia|lia| |exact Hsort|exact Hcross]].
    + unfold ListEvents, mbind, prog_bind, pg_call, mbind, prog_bind, next_fate, pop_fate, get_state. cbn.
      rewrite Hnf. cbn. by rewrite Hnf.
    + rewrite Hlen, length_map_to_list. lia.
Qed.
End Properties.

(** ** Witnesses *)

Section Examples.
Definition no_db : inv_db (U := ref_uuid) :=
  {| tb_events := ∅; tb_seats := ∅; tb_outbox := [] |}.

Definition no_state : inv_state store := Build_inv_state no_db ∅ 0 0 0.

(** An event [x0] with the seats [x1] and [x2]. *)
Definition gig : CreateEventRequest := {| ce_Name := "Gig"; ce_SeatCount := 2 |}.

Definition gig_state : inv_state store :=
  (CreateEvent gig (amb0 [] (names "x") 0 0) no_state).2.

Definition gig_req : SeatsRequest :=
  {| sr_EventId := "ux0"; sr_SeatIds := ["ux1"; "Ux2"]; sr_OrderId := "uo" |}.

Definition gig_trace : list (action (R := store) * res unit) :=
  [(ActReserve gig_req, Ok tt); (ActRedis ∅, Ok tt); (ActConfirm gig_req, Ok tt);
   (ActConfirm gig_req, Err (refused "one or more seats could not be confirmed"))].

Definition gig_sold : inv_state store :=
  (run_action (ActConfirm gig_req) (amb0 [] (names "z") 1 1)
     (run_action (ActReserve gig_req) (amb0 [] (names "y") 1 1) gig_state).2).2.

Lemma gig_exec : exec gig_trace gig_state gig_sold.
Proof.
  unfold gig_trace.
  eapply (exec_cons _ _ _ (amb0 [] (names "y") 1 1)); [vm_compute; reflexivity|].
  eapply (exec_cons _ _ _ (amb0 [] (names "y") 1 1)); [vm_compute; reflexivity|].
  eapply (exec_cons _ _ _ (amb0 [] (names "z") 1 1)); [vm_compute; reflexivity|].
  eapply (exec_cons _ _ _ (amb0 [] (names "z") 1 1)); [vm_compute; reflexivity|].
  constructor.
Qed.

Lemma seat_sells_once_witness : NoDup (sold gig_trace) /\ sold gig_trace = ["x1"; "x2"].
Proof.
  split; [|vm_compute; reflexivity].
  apply (seat_sells_once gig_trace gig_state gig_sold). exact gig_exec.
Defined.

Lemma no_db_wf : wf_db no_db /\ announced no_db.
Proof.
  split; split; cbn; intros *; rewrite ?lookup_empty, ?elem_of_nil; try done.
  constructor.
Qed.

Lemma gig_created : exec [(ActCreate gig, Ok tt)] no_state gig_state.
Proof. eapply (exec_one _ _ (amb0 [] (names "x") 0 0)). vm_compute. reflexivity. Qed.

Lemma gig_wf : wf_db (is_db gig_state) /\ announced (is_db gig_state).
Proof.
  destruct no_db_wf. split.
  - by eapply (exec_invariant wf_db); [exact db_step_wf|exact gig_created|].
  - by eapply (exec_invariant announced); [exact db_step_announced|exact gig_created|].
Qed.

Lemma outbox_tells_seat_map_witness :
  wf_db (is_db gig_sold) /\ announced (is_db gig_sold) /\
  replay (tb_outbox (is_db gig_sold)) "x1" = "SOLD".
Proof.
  destruct (outbox_tells_seat_map gig_trace gig_state gig_sold gig_exec
    (proj1 gig_wf) (proj2 gig_wf)) as [H1 H2].
  split_and!; [exact H1|exact H2|vm_compute; reflexivity].
Defined.

Definition gig_held : res unit * ambient * inv_state store :=
  run_call (CallReserve gig_req) (amb0 [] (names "y") 1 1) gig_state.

Lemma calls_are_actions_witness :
  exists act r1 tr, main_action (R := store) (CallReserve gig_req) act /\
    exec ((act, r1) :: tr) gig_state gig_held.2 /\ is_ok r1 = true.
Proof.
  destruct (calls_are_actions (CallReserve gig_req) (amb0 [] (names "y") 1 1) gig_state
    _ _ _ (run_eta gig_held)) as [[? _]|(act & r1 & tr & H1 & H2 & H3)]; [done|].
  exists act, r1, tr. split_and!; [exact H1|exact H2|].
  rewrite <- H3 by done. vm_compute. reflexivity.
Defined.

Lemma gig_seat_lookup :
  exists r, tb_seats (is_db gig_state) !! ("x1" : UUID) = Some r /\ seat_of r = Some Available.
Proof. eexists. split; vm_compute; reflexivity. Qed.

Lemma seats_follow_state_machine_witness :
  exists r' x', tb_seats (is_db gig_sold) !! ("x1" : UUID) = Some r' /\ seat_of r' = Some x' /\
    rtc seat_step Available x'.
Proof.
  destruct gig_seat_lookup as (r & Hr & Hx).
  destruct (seats_follow_state_machine (U := ref_uuid) gig_trace gig_state gig_sold "x1" r gig_exec (proj1 gig_wf) Hr)
    as (r' & x & x' & H1 & H2 & H3 & H4 & _).
  exists r', x'. split_and!; [exact H1|exact H3|]. congruence.
Defined.

Lemma gig_can_emit st : can_emit (amb0 [] (names "y") 1 1) (is_db gig_state)
  (sr_EventId gig_req) (sr_SeatIds gig_req) st.
Proof. split; [vm_compute; by intros ?%not_elem_of_nil|done]. Qed.

Lemma gig_free : all_free (U := ref_uuid) (is_db gig_state) ("x0" : UUID) ["x1"; "x2"].
Proof.
  split; [by apply (bool_decide_unpack _); vm_compute|].
  intros id [->|[->|[]%elem_of_nil]%elem_of_cons]%elem_of_cons;
    (eexists; split_and!; vm_compute; reflexivity).
Qed.

Lemma reserve_grants_iff_free_witness :
  is_ok (ReserveSeats gig_req (amb0 [] (names "y") 1 1) gig_state).1.1 = true.
Proof.
  destruct (reserve_grants_iff_free (U := ref_uuid) gig_req "x0" "o" ["x1"; "x2"] (amb0 [] (names "y") 1 1) gig_state
    _ _ _ eq_refl eq_refl eq_refl eq_refl eq_refl (proj1 gig_wf) (gig_can_emit _) (run_eta _)) as [Hok _].
  exact (proj1 (Hok gig_free)).
Defined.

Lemma gig_not_held : ~ all_held (U := ref_uuid) (is_db gig_state) ("x0" : UUID) "o" ["x1"; "x2"].
Proof.
  intros [_ Hh]. destruct (Hh "x1") as (r & Hr & _ & Hs & _); [by left|].
  vm_compute in Hr. injection Hr as <-. done.
Qed.

Lemma confirm_and_release_iff_held_witness :
  (ConfirmSeats gig_req (amb0 [] (names "y") 1 1) gig_state).1.1 =
    Err (refused "one or more seats could not be confirmed") /\
  is_ok (ConfirmSeats gig_req (amb0 [] (names "z") 2 2) gig_held.2).1.1 = true.
Proof.
  split; [|vm_compute; reflexivity].
  pose proof (confirm_and_release_iff_held (U := ref_uuid) gig_req "x0" "o" ["x1"; "x2"] (amb0 [] (names "y") 1 1)
    gig_state eq_refl eq_refl eq_refl eq_refl eq_refl (proj1 gig_wf) (gig_can_emit _) (gig_can_emit _))
    as [Hc _].
  destruct (ConfirmSeats gig_req (amb0 [] (names "y") 1 1) gig_state) as [[r a'] s'].
  exact (proj1 (proj2 Hc gig_not_held)).
Defined.

(** Names with another first letter are new to the gig's outbox. *)
Lemma gig_fresh now txnow : fresh_supply (amb0 [] (names "q") now txnow) (is_db gig_held.2).
Proof.
  intros n _. split; [|intros m _; apply names_inj].
  vm_compute (map ob_id _). by intros [[=]|[]%elem_of_nil]%elem_of_cons.
Qed.

Definition gig_reserved : res (list Seat) * ambient * inv_state store :=
  ReserveSeats gig_req (amb0 [] (names "y") 1 1) gig_state.

Definition gig_seats : list Seat :=
  seats_response {| sr_EventId := "ux0"; sr_SeatIds := ["ux1"; "ux2"]; sr_OrderId := "uo" |}
    SEAT_STATUS_HELD.

Lemma gig_reserved_ok : gig_reserved = (Ok gig_seats, gig_reserved.1.2, gig_held.2).
Proof. vm_compute. reflexivity. Qed.

Definition gig_tx : res unit * ambient * inv_state store :=
  run_action (ActReserve gig_req) (amb0 [] (names "y") 1 1) gig_state.

Lemma sweep_before_hold_key_frees_seats_witness :
  is_ok (ConfirmSeats gig_req (amb0 [] (names "z") 3 3)
    (sweepExpiredHolds (amb0 [] (names "q") 2 2) gig_tx.2).2).1.1 = false.
Proof.
  refine (proj2 (sweep_before_hold_key_frees_seats (U := ref_uuid) gig_req
    (amb0 [] (names "y") 1 1) gig_state gig_tx.1.2 gig_tx.2 (amb0 [] (names "q") 2 2) _ _ _ ["x1"; "x2"]
    (proj1 gig_wf) _ eq_refl _ eq_refl _ _ (run_eta _)) _).
  - vm_compute. reflexivity.
  - intros id [->|[->|[]%elem_of_nil]%elem_of_cons]%elem_of_cons; vm_compute; reflexivity.
  - intros n _. split; [|intros m _; apply names_inj].
    vm_compute (map ob_id _). by intros [[=]|[]%elem_of_nil]%elem_of_cons.
  - done.
Defined.

Lemma created_event_reads_back_witness :
  GetEvent {| ge_EventId := "ux0" |} (amb0 [] (names "z") 3 3) gig_state =
    (Ok {| event_Id := "ux0"; event_Name := "Gig"; event_TotalSeats := 2;
           event_AvailableSeats := 2; event_CreatedAt := 0 |}, amb0 [] (names "z") 3 3, gig_state).
Proof.
  destruct (created_event_reads_back (U := ref_uuid) gig (amb0 [] (names "x") 0 0) no_state _ _ gig_state
    (amb0 [] (names "z") 3 3) eq_refl eq_refl (proj1 no_db_wf)
    ltac:(by intros n _; split_and!; [..|intros m _; apply names_inj])
    (run_eta (CreateEvent gig (amb0 [] (names "x") 0 0) no_state)) eq_refl) as (name & Hname & Hget).
  vm_compute in Hname. injection Hname as <-. exact Hget.
Defined.

(** An order for texts and UUIDs: by their codes. *)
Lemma list_events_newest_page_witness :
  exists page rest,
    ListEvents {| le_Limit := 0 |} (amb0 [] (names "z") 3 3) gig_state =
      (Ok (map (fun '(id, e) => scanEvent (select_event (is_db gig_state) id e)) page),
       amb0 [] (names "z") 3 3, gig_state) /\
    page ++ rest ≡ₚ map_to_list (tb_events (is_db gig_state)) /\ length page = 1.
Proof.
  destruct (list_events_newest_page (U := ref_uuid) {| le_Limit := 0 |} (amb0 [] (names "z") 3 3)
    gig_state) as (page & rest & H1 & H2 & _ & H4 & _).
  - intros x y z. cbn. lia.
  - intros x y. cbn. lia.
  - done.
  - exists page, rest. split_and!; [exact H1|exact H2|]. vm_compute (Z.min _ _) in H4. lia.
Defined.
End Examples.
