(* ===== verification/InventorySweeper.v ===== *)
(** * inventory-svc: the sweeper over time

    The loop of [StartHoldSweeper] among the calls of the service: between two ticks any number
    of handlers run, with any failures, and the sweepers of other replicas.  A hold is safe from
    all of them until its key expires; only its own order ends it earlier. *)

From stdpp Require Import base gmap list strings numbers sorting.
From S2P Require Import Prelude Platform GoStrings Events Redis Instances Inventory InventorySpec InventoryInv InventoryTrace InventoryLive InventoryProps.

Section Sweeper.
Context `{U : UuidLib} {J : ProtoJson} {R : Type} `{RedisLib R}.
Context `{!UuidLaws U} `{!ProtoJsonLaws J} `{!RedisLaws R}.
Implicit Types (s : inv_state R) (a : ambient) (ids : list UUID).

(** A call that does not end the hold of order [o]: anything but a confirmation or a release
    for that order, and no sweep after [until]. *)
Definition spares_order (o : UUID) (until : Z) (c : call) (a : ambient) : Prop :=
  match c with
  | CallConfirm req | CallRelease req => pg_uuid (sr_OrderId req) <> Some o
  | CallSweep => (amb_now a <= until)%Z
  | CallCreate _ | CallReserve _ => True
  end.

(** The sweeps at the given ticks, with such calls in between. *)
Inductive swept o until : list ambient -> inv_state R -> inv_state R -> Prop :=
  | swept_nil s : swept o until [] s s
  | swept_tick a l s s' : swept o until l (sweepExpiredHolds a s).2 s' -> swept o until (a :: l) s s'
  | swept_call c a l s s' : spares_order o until c a ->
      swept o until l (run_call c a s).2 s' -> swept o until l s s'.

(** The loop alone, until the context is done, is such a sequence. *)
Lemma sweeper_swept o until l evs s :
  evs = [] \/ (exists evs', evs = ContextDone :: evs') ->
  swept o until l s (StartHoldSweeper (map Ticked l ++ evs) s).
Proof.
  intros He. revert s. induction l as [|a l IH]; intros s; cbn; [|constructor; apply IH].
  destruct He as [->|[evs' ->]]; constructor.
Qed.

(** Order [o] holds the seats, and their keys say so until [expiry]. *)
Record on_hold ids (o : UUID) (v : string) (expiry : Z) s : Prop := {
  oh_seats : forall id, id ∈ ids -> exists r, tb_seats (is_db s) !! id = Some r /\
    st_status r = "HELD" /\ st_held_by r = Some o;
  oh_keys : forall id, id ∈ ids -> redis_view (is_redis s) (holdKey (uuid_string id)) = Some (v, Some expiry);
  oh_wf : wf_db (is_db s);
}.

(** A transaction that does not touch the seats, and writes to other keys. *)
Lemma on_hold_step ids o v expiry s s' l :
  on_hold ids o v expiry s -> is_db s' = is_db s \/ db_step l (is_db s) (is_db s') ->
  (forall id, id ∈ ids -> id ∉ label_seats l) ->
  (forall id, id ∈ ids -> redis_view (is_redis s') (holdKey (uuid_string id)) =
     redis_view (is_redis s) (holdKey (uuid_string id))) ->
  on_hold ids o v expiry s'.
Proof.
  intros [Hs Hk Hwf] Hst Hl Hr. split.
  - intros id Hid. destruct (Hs id Hid) as (r & Hr' & Hx). exists r. split; [|done].
    destruct Hst as [->|Hst]; [done|]. rewrite (db_step_keeps _ _ _ id Hst); [done|by eauto|by apply Hl].
  - intros id Hid. rewrite Hr by done. by apply Hk.
  - destruct Hst as [->|Hst]; [done|by eapply db_step_wf].
Qed.

(** Seats that others reserve were free, and seats that others confirm or release were theirs. *)
Lemma others_seats l ids o v expiry s s' :
  on_hold ids o v expiry s -> db_step l (is_db s) (is_db s') ->
  match l with
  | LReserve _ _ _ | LCreate _ _ => True
  | LConfirm _ o' _ | LRelease _ o' _ => o' <> o
  | LSweep _ => False
  end ->
  forall id, id ∈ ids -> id ∉ label_seats l.
Proof.
  intros [Hs _ _] Hst Hl id Hid Hin. destruct (Hs id Hid) as (r & Hr & Hst' & Hb).
  destruct Hst as [ev o' ids' row d d' _ [_ Hf] _ _ _|ev o' ids' row d d' _ [_ Hf] _ _ _
    |ev o' ids' row d d' _ [_ Hf] _ _ _|ids' rows d d' _ _ _ _|]; cbn in Hin; try done.
  1-3: destruct (Hf id Hin) as (r' & Hr' & ?); assert (r' = r) as -> by congruence; destr_hyps; congruence.
  by apply not_elem_of_nil in Hin.
Qed.

(** Redis writes to keys other than those of [ids]. *)
Definition keys_kept ids s s' : Prop :=
  is_db s' = is_db s /\ forall id, id ∈ ids ->
    redis_view (is_redis s') (holdKey (uuid_string id)) = redis_view (is_redis s) (holdKey (uuid_string id)).

Lemma keys_kept_hold ids o v expiry s s' : on_hold ids o v expiry s -> keys_kept ids s s' -> on_hold ids o v expiry s'.
Proof. intros [H1 H2 H3] [Hd Hk]. split; rewrite ?Hd; [done| |done]. intros id Hid. rewrite Hk; auto. Qed.

Lemma write_keeps ids k cmd a s :
  (forall id, id ∈ ids -> holdKey (uuid_string id) <> k) ->
  (forall t k' r, k' <> k -> redis_view (cmd t r) k' = redis_view r k') ->
  wp (redis_write cmd) (fun r _ s' => r = Ok tt /\ keys_kept ids s s') a s.
Proof.
  intros Hne Hcmd. unfold redis_write. wp_steps; cbn; (split; [done|]); split; try done;
    intros id Hid; by apply Hcmd, Hne.
Qed.

Lemma for_each_keeps {A} ids (f : A -> prog (inv_state R) unit) l a s :
  (forall x, x ∈ l -> forall a s, wp (f x) (fun r _ s' => r = Ok tt /\ keys_kept ids s s') a s) ->
  wp (for_each f l) (fun r _ s' => r = Ok tt /\ keys_kept ids s s') a s.
Proof.
  intros Hf. revert a s. induction l as [|x l IH]; intros a s; cbn [for_each]; [done|].
  apply wp_bind. eapply wp_mono; [apply Hf; by left|]. cbn. intros r a' s' (-> & Hd & Hk).
  eapply wp_mono; [apply IH; intros y Hy; apply Hf; by right|]. cbn. intros r2 a2 s2 (-> & Hd2 & Hk2).
  split; [done|]. split; [congruence|]. intros id Hid. by rewrite Hk2, Hk.
Qed.

(** The hold survives a reservation of other seats, *)
Lemma hold_survives_reserve ids o v expiry req a s :
  on_hold ids o v expiry s -> wp (ReserveSeats req) (fun _ _ s' => on_hold ids o v expiry s') a s.
Proof.
  intros Hh. unfold ReserveSeats. wp_steps. destruct (validateSeatRequest _ _ _) as [[]|e] eqn:Hv; [|done].
  apply wp_bind. eapply wp_mono; [apply reserve_tx_spec; by eapply validateSeatRequest_nonempty|].
  cbn. intros r a1 s1 [Hred Hr].
  assert (Hs1 : forall rows, reserved req (is_db s) (is_db s1) rows ->
    on_hold ids o v expiry s1 /\ forall id, id ∈ ids -> id ∉ rows.*1).
  { intros rows (ev & o' & ids' & _ & _ & _ & Hp & Hst).
    pose proof (others_seats _ _ _ _ _ _ _ Hh Hst I) as Hout. split.
    - apply (on_hold_step _ _ _ _ _ _ _ Hh (or_intror Hst)); [done|]. by rewrite Hred.
    - intros id Hid. rewrite Hp. by apply Hout. }
  destruct r as [rows|e].
  - destruct (Hs1 rows Hr) as [Hh1 Hout]. apply wp_bind. unfold inc_reserved. wp_steps.
    eapply wp_mono; [apply (for_each_keeps ids)|].
    + intros [id' r'] Hin a2 s2. apply (write_keeps ids (holdKey (uuid_string id'))).
      * intros id Hid <-%holdKey_inj. apply (Hout id Hid). apply list_elem_of_fmap. by exists (id, r').
      * intros t k' r0 Hne. by rewrite redis_view_set, bool_decide_eq_false_2.
    + cbn. intros r2 a2 s2 [-> Hk]. wp_steps. eapply keys_kept_hold; [|exact Hk].
      destruct Hh1 as [H1 H2 H3]. by split.
  - destruct Hr as [E|(_ & rows & Hr)]; [|by apply Hs1 in Hr as [? _]].
    eapply (keys_kept_hold _ _ _ _ _ _ Hh). split; [done|]. by rewrite Hred.
Qed.

(** and a confirmation or release for another order. *)
Lemma hold_survives_move ids o v expiry st state l failure status req a s :
  move_kind st state l -> pg_uuid (sr_OrderId req) <> Some o -> sr_SeatIds req <> [] ->
  on_hold ids o v expiry s ->
  wp (_ ← moveHeldSeats (sr_EventId req) (sr_SeatIds req) (sr_OrderId req) st state failure;
      _ ← for_each del_hold (sr_SeatIds req); mret (seats_response req status))
    (fun _ _ s' => on_hold ids o v expiry s') a s.
Proof.
  intros Hk Ho Hne Hh. apply wp_bind. eapply wp_mono; [by apply moveHeldSeats_spec|].
  cbn. intros r a1 s1 [Hred Hr].
  assert (Hs1 : moved l (sr_EventId req) (sr_SeatIds req) (sr_OrderId req) (is_db s) (is_db s1) ->
    on_hold ids o v expiry s1 /\ forall id raw, id ∈ ids -> raw ∈ sr_SeatIds req -> raw <> uuid_string id).
  { intros (ev & o' & ids' & _ & Ho' & Hids & Hst).
    assert (Hout : forall id, id ∈ ids -> id ∉ label_seats (l ev o' ids')).
    { apply (others_seats _ _ _ _ _ _ _ Hh Hst). destruct Hk; congruence. }
    split; [apply (on_hold_step _ _ _ _ _ _ _ Hh (or_intror Hst)); [done|]; by rewrite Hred|].
    intros id raw Hid Hraw ->. apply (Hout id Hid).
    assert (id ∈ ids'); [|by destruct Hk]. apply list_elem_of_lookup in Hraw as [n Hn].
    apply mapM_Some_1 in Hids. destruct (Forall2_lookup_l _ _ _ _ _ Hids Hn) as (u & Hu & Eu).
    rewrite pg_uuid_string in Eu. injection Eu as <-. by apply list_elem_of_lookup_2 in Hu. }
  destruct r as [[]|e].
  - destruct (Hs1 Hr) as [Hh1 Hout]. apply wp_bind.
    eapply wp_mono; [apply (for_each_keeps ids)|].
    + intros raw Hin a2 s2. apply (write_keeps ids (holdKey raw)).
      * intros id Hid E%append_inj_l. by apply (Hout id raw).
      * intros t k' r0 Hne'. by rewrite redis_view_del, bool_decide_eq_false_2.
    + cbn. intros r2 a2 s2 [-> Hkk]. wp_steps. by eapply keys_kept_hold.
  - destruct Hr as [E|[_ Hr]]; [|by apply Hs1 in Hr as [? _]].
    eapply (keys_kept_hold _ _ _ _ _ _ Hh). split; [done|]. by rewrite Hred.
Qed.

(** A sweep before the keys expire leaves the hold alone. *)
Lemma hold_survives_sweep ids o v expiry a s :
  on_hold ids o v expiry s -> (amb_now a / 10 ^ 6 < expiry)%Z -> on_hold ids o v expiry (sweepExpiredHolds a s).2.
Proof.
  intros Hh Ht. destruct (sweepExpiredHolds a s) as [[r a'] s1] eqn:Hsw. cbn.
  destruct (sweep_keeps _ _ _ _ _ Hsw) as [Hred Hwf]. destruct Hh as [H1 H2 H3]. split; [|by rewrite Hred|auto].
  intros id Hid. rewrite (sweep_spares _ _ _ _ _ id Hsw); [by apply H1|].
  rewrite redis_exists_live, H2 by done. by apply Z.ltb_lt.
Qed.

Lemma hold_survives_call ids o v expiry until c a s :
  on_hold ids o v expiry s -> spares_order o until c a -> (until / 10 ^ 6 < expiry)%Z ->
  on_hold ids o v expiry (run_call c a s).2.
Proof.
  intros Hh Hsp Hu.
  assert (Hw : forall A (m : prog (inv_state R) A), wp m (fun _ _ s' => on_hold ids o v expiry s') a s ->
    on_hold ids o v expiry ((_ ← m; mret tt) a s).2).
  { intros A m. unfold wp, mbind, prog_bind. by destruct (m a s) as [[[x|e] a'] s']. }
  destruct c as [req|req|req|req|]; cbn [run_call spares_order] in *.
  - apply Hw. eapply wp_mono; [apply CreateEvent_spec|]. cbn. intros r a' s' [Hred Hr].
    assert (Hat : at_most (fun l => exists ev n, l = LCreate ev n) (is_db s) (is_db s')).
    { destruct r as [name|e]; [|done]. destruct Hr as (ev & _ & Hst & _). right. eauto. }
    destruct Hat as [E|(l & (ev & n & ->) & Hst)].
    + eapply (keys_kept_hold _ _ _ _ _ _ Hh). split; [done|]. by rewrite Hred.
    + apply (on_hold_step _ _ _ _ _ _ _ Hh (or_intror Hst)); [intros; apply not_elem_of_nil|by rewrite Hred].
  - apply Hw. by apply hold_survives_reserve.
  - apply Hw. unfold ConfirmSeats. wp_steps. destruct (validateSeatRequest _ _ _) as [[]|e] eqn:Hv; [|done].
    eapply hold_survives_move; eauto using move_sold, validateSeatRequest_nonempty.
  - apply Hw. unfold ReleaseSeats. wp_steps. destruct (validateSeatRequest _ _ _) as [[]|e] eqn:Hv; [|done].
    eapply hold_survives_move; eauto using move_free, validateSeatRequest_nonempty.
  - apply hold_survives_sweep; [done|]. eapply Z.le_lt_trans; [|exact Hu]. by apply Z.div_le_mono.
Qed.

Lemma hold_survives ids o v expiry until l s s' :
  swept o until l s s' -> on_hold ids o v expiry s -> (until / 10 ^ 6 < expiry)%Z ->
  (forall a, a ∈ l -> amb_now a / 10 ^ 6 < expiry)%Z -> on_hold ids o v expiry s'.
Proof.
  induction 1 as [s|a l s s' _ IH|c a l s s' Hsp _ IH]; intros Hh Hu Htimes; [done|..].
  - apply IH; [|done|intros b Hb; apply Htimes; by right]. apply hold_survives_sweep; [done|].
    apply Htimes. by left.
  - apply IH; [by eapply hold_survives_call|done|done].
Qed.

(** The first tick of a ticker at or after a moment. *)
Lemma first_tick (p period t : Z) :
  (0 < period)%Z -> exists k, (t <= p + Z.of_nat k * period)%Z /\
    (forall j : nat, (j < k)%nat -> p + Z.of_nat j * period < t)%Z /\ (p + Z.of_nat k * period < Z.max (t + period) (p + 1))%Z.
Proof.
  intros Hp. destruct (Z.le_gt_cases t p) as [Hle|Hgt].
  { exists 0. split_and!; [lia|intros j Hj; lia|lia]. }
  pose proof (Z.div_mod (t - p + period - 1) period ltac:(lia)) as Hd.
  pose proof (Z.mod_pos_bound (t - p + period - 1) period Hp) as Hm.
  set (q := ((t - p + period - 1) / period)%Z) in *. assert (0 < q)%Z by nia.
  exists (Z.to_nat q). rewrite Z2Nat.id by lia. split_and!; [nia| |nia]. intros j Hj.
  assert (Z.of_nat j <= q - 1)%Z by lia. nia.
Qed.

(** C25: holds end on time.  Once a reservation has run without faults and undisturbed, its
    seats stay held by its order until their five minutes are over, whatever handlers run for
    other orders and whatever earlier sweeps of this or another replica meet with; the ticker
    has a tick less than one sweep interval after those five minutes, and the sweep at that
    tick, unless something fails during it, frees all of the seats.  Handlers and sweeps run
    one after another here, and Redis keeps its keys. *)
Theorem holds_end_on_time req a s seats a1 s1 p (tick : nat -> ambient) :
  no_faults a -> ReserveSeats req a s = (Ok seats, a1, s1) -> wf_db (is_db s) -> encodable SEAT_STATE_AVAILABLE ->
  (forall k, amb_now (tick k) = p + Z.of_nat k * sweepInterval)%Z -> (p <= amb_now a + sweepInterval)%Z ->
  exists ids o k, mapM pg_uuid (sr_SeatIds req) = Some ids /\ pg_uuid (sr_OrderId req) = Some o /\
    (amb_now a + holdTTL - 10 ^ 6 < amb_now (tick k) < amb_now a + holdTTL + sweepInterval)%Z /\
    forall s2, swept o (amb_now a + holdTTL - 10 ^ 6) (map tick (seq 0 k)) s1 s2 ->
      (forall id, id ∈ ids -> exists r, tb_seats (is_db s2) !! id = Some r /\
         st_status r = "HELD" /\ st_held_by r = Some o) /\
      (no_faults (tick k) -> fresh_supply (tick k) (is_db s2) -> forall id, id ∈ ids ->
         exists r, tb_seats (is_db (sweepExpiredHolds (tick k) s2).2) !! id = Some r /\
           st_status r = "AVAILABLE" /\ st_held_by r = None).
Proof.
  intros Hnf Hres Hwf Henc Htick Hp.
  destruct (wp_run _ _ _ _ _ _ _ Hres (ReserveSeats_holds req a s Hnf) seats eq_refl)
    as (ev & o & ids & Hids & Ho & Hst & Hkeys).
  set (expiry := (amb_now a / 10 ^ 6 + 300000)%Z) in *.
  destruct (first_tick p sweepInterval (expiry * 10 ^ 6)%Z ltac:(done)) as (k & Hge & Hlt & Hmax).
  assert (Hms : (amb_now a - 10 ^ 6 < amb_now a / 10 ^ 6 * 10 ^ 6 <= amb_now a)%Z).
  { pose proof (Z.div_mod (amb_now a) (10 ^ 6) ltac:(done)). pose proof (Z.mod_pos_bound (amb_now a) (10 ^ 6) ltac:(done)). lia. }
  assert (Hh : on_hold ids o (sr_OrderId req) expiry s1).
  { split; [|done|by eapply db_step_wf]. intros id Hid. by eapply reserve_step_held. }
  assert (He : expiry = (amb_now a / 10 ^ 6 + 300000)%Z) by done. clearbody expiry. clear Hkeys.
  unfold sweepInterval, holdTTL in *. exists ids, o, k. split_and!; [done|done|rewrite Htick; lia..|].
  intros s2 Hsw.
  assert (Hh2 : on_hold ids o (sr_OrderId req) expiry s2).
  { apply (hold_survives _ _ _ _ _ _ _ _ Hsw Hh).
    - apply Z.div_lt_upper_bound; [done|]. lia.
    - intros b (j & -> & Hj%elem_of_seq)%list_elem_of_fmap. rewrite Htick. apply Z.div_lt_upper_bound; [done|].
      specialize (Hlt j ltac:(lia)). lia. }
  split; [apply Hh2|]. intros Hnf2 Hfs id Hid.
  destruct (sweepExpiredHolds (tick k) s2) as [[r a2] s3] eqn:Hlast.
  destruct (oh_seats _ _ _ _ _ Hh2 id Hid) as (x & Hx & Hs & _).
  eapply (sweep_frees (tick k) s2); eauto.
  - apply Hh2.
  - rewrite redis_exists_live, (oh_keys _ _ _ _ _ Hh2 id Hid). apply Z.ltb_ge.
    rewrite Htick. apply Z.div_le_lower_bound; [done|]. lia.
Qed.
End Sweeper.

Section Examples.
(** The ticker of a sweeper that was started ten seconds before the reservation. *)
Definition gig_tick (k : nat) : ambient := amb0 [] (names "q") (20 * 10 ^ 9 + Z.of_nat k * sweepInterval) 0.

(** Another order tries to buy the held seats, then the sweeper ticks ten times. *)
Definition gig_rival : SeatsRequest :=
  {| sr_EventId := sr_EventId gig_req; sr_SeatIds := sr_SeatIds gig_req; sr_OrderId := "rival" |}.

Definition gig_rivalled : inv_state store :=
  (run_call (CallConfirm gig_rival) (amb0 [] (names "r") 2 2) gig_held.2).2.

Definition gig_before : inv_state store :=
  StartHoldSweeper (map Ticked (map gig_tick (seq 0 10)) ++ [ContextDone]) gig_rivalled.

Lemma holds_end_on_time_witness :
  exists r, tb_seats (is_db (sweepExpiredHolds (gig_tick 10) gig_before).2) !! ("x1" : @UUID ref_uuid) = Some r /\
    st_status r = "AVAILABLE".
Proof.
  destruct (holds_end_on_time (U := ref_uuid) gig_req (amb0 [] (names "y") 1 1) gig_state gig_seats _ gig_held.2
    (20 * 10 ^ 9) gig_tick eq_refl gig_reserved_ok (proj1 gig_wf) ltac:(done) (fun _ => eq_refl) ltac:(done))
    as (ids & o & k & Hids & Ho & Hk & Hrun).
  assert (k = 10) as -> by (cbn in Hk; unfold holdTTL, sweepInterval in Hk; lia).
  vm_compute in Hids, Ho. injection Hids as <-. injection Ho as <-.
  destruct (Hrun gig_before) as [_ Hfree].
  { apply (swept_call _ _ (CallConfirm gig_rival) (amb0 [] (names "r") 2 2)); [by vm_compute|].
    apply sweeper_swept. right. by exists []. }
  destruct (Hfree eq_refl ltac:(
    intros n _; split; [|intros m _; apply names_inj];
    vm_compute (map ob_id _); by intros [[=]|[]%elem_of_nil]%elem_of_cons) "x1") as (r & Hr & Hs & _); [by left|].
  exists r. split; [exact Hr|exact Hs].
Defined.
End Examples.
