(* ===== verification/Apierr.v ===== *)
(** * Machine-readable failures ([pkg/apierr])

    A status error can carry a reason, and the reader finds the reason again. *)

From stdpp Require Import base list strings numbers.
From S2P Require Import Prelude Platform.

Definition Domain : string := "ticketwave".

Definition ReasonSeatsUnavailable : string := "SEATS_UNAVAILABLE".
Definition ReasonPaymentDeclined : string := "PAYMENT_DECLINED".
Definition ReasonServiceUnavailable : string := "SERVICE_UNAVAILABLE".
Definition ReasonRequestInProgress : string := "REQUEST_IN_PROGRESS".
Definition ReasonIdempotencyKeyReused : string := "IDEMPOTENCY_KEY_REUSED".

(** [status.WithDetails] refuses to attach details to the code [OK]. *)
Definition with_details (c : code) (ds : list detail) : option (list detail) :=
  if bool_decide (c = OK) then None else Some ds.

(** [apierr.New].  [Status.Err] of the code [OK] is the nil error: no error at all. *)
Definition New (c : code) (reason message : string) : option error :=
  if bool_decide (c = OK) then None else
  match with_details c [ErrorInfo reason Domain] with
  | None => Some (EStatus c message [])
  | Some ds => Some (EStatus c message ds)
  end.

(** The first [ErrorInfo] of this domain. *)
Fixpoint find_reason (ds : list detail) : string :=
  match ds with
  | [] => ""
  | ErrorInfo reason domain :: rest =>
      if bool_decide (domain = Domain) then reason else find_reason rest
  | OtherDetail :: rest => find_reason rest
  end.

(** [apierr.Reason]; the nil error has the code [OK] and no details. *)
Definition Reason (err : option error) : string :=
  match err with
  | None => ""
  | Some e => match from_error e with
              | None => ""
              | Some (_, _, ds) => find_reason ds
              end
  end.

Definition Is (err : option error) (reason : string) : bool :=
  match err with
  | None => false
  | Some _ => bool_decide (Reason err = reason)
  end.

(** Wrapping keeps the details. *)
Lemma reason_wrap ctx e : Reason (Some (EWrap ctx e)) = Reason (Some e).
Proof.
  cbn. destruct e; cbn; try done.
  by destruct (unwrap_status e) as [[[??]?]|].
Qed.

(** Crossing the wire keeps them too. *)
Lemma reason_wire e : Reason (Some (over_the_wire e)) = Reason (Some e).
Proof. unfold over_the_wire. cbn. destruct (from_error e) as [[[??]?]|] eqn:E; cbn; by rewrite ?E. Qed.

(** The errors of this module that are certainly errors. *)
Definition api_error (c : code) (reason message : string) : error :=
  EStatus c message [ErrorInfo reason Domain].

Lemma New_api_error c reason message :
  c <> OK -> New c reason message = Some (api_error c reason message).
Proof. intros Hc. unfold New, with_details. by rewrite !bool_decide_eq_false_2. Qed.

(** A reason attached by [New] is the reason [Reason] and [Is] find, also after the
    error was wrapped any number of times with [%w] and after it travelled to a client
    as a gRPC status. *)
Lemma reason_survives c reason message ctxs :
  c <> OK ->
  exists e, New c reason message = Some e /\
    let wrapped := foldr EWrap e ctxs in
    Reason (Some wrapped) = reason /\ Reason (Some (over_the_wire wrapped)) = reason /\
    Is (Some (over_the_wire wrapped)) reason = true.
Proof.
  intros Hc. eexists. split; [by apply New_api_error|]. cbv zeta.
  assert (Hr : Reason (Some (foldr EWrap (api_error c reason message) ctxs)) = reason).
  { induction ctxs as [|ctx ctxs IH]; [done|]. cbn [foldr]. by rewrite reason_wrap. }
  split; [done|]. rewrite reason_wire. split; [done|].
  unfold Is. rewrite reason_wire, Hr. by rewrite bool_decide_eq_true_2.
Qed.

Lemma reason_survives_witness :
  Reason (Some (over_the_wire (EWrap "order" (api_error Aborted "R" "m")))) = "R".
Proof.
  destruct (reason_survives Aborted "R" "m" ["order"] ltac:(done)) as (e & He & _ & Hw & _).
  rewrite (New_api_error Aborted "R" "m" ltac:(done)) in He. injection He as <-. exact Hw.
Defined.
