(* ===== verification/Payment.v ===== *)
(** * payment-svc ([services/payment/internal/server])

    The fake payment provider: it records every attempt and declines amounts that are
    a multiple of seven. *)

From stdpp Require Import base gmap list strings numbers.
From S2P Require Import Prelude Platform GoStrings.

Record ChargeRequest := { ch_OrderId : string; ch_AmountCents : Z }.

Section Payment.
Context `{U : UuidLib}.

Record payment_row := {
  pm_order_id : UUID;
  pm_amount_cents : Z;
  pm_status : string;
}.

#[global] Instance payment_row_eq_dec : EqDecision payment_row.
Proof. solve_decision. Defined.

Abbreviation pay_db := (gmap UUID payment_row).

(** The service's state is its database. *)
#[global] Instance pay_has_db : HasDb pay_db pay_db := {| db_get := id; db_set := fun d _ => d |}.

(** [INSERT INTO payments]; the order id is text Postgres reads as [uuid]. *)
Definition insert_payment (id : UUID) (orderID : string) (amount : Z) (status : string)
    (d : pay_db) : res (unit * pay_db) :=
  match pg_uuid orderID with
  | None => Err (EPg invalid_text "")
  | Some o =>
      if bool_decide (is_Some (d !! id)) then Err (EPg unique_violation "payments_pkey")
      else if bool_decide (status = "SUCCEEDED") || bool_decide (status = "FAILED")
      then Ok (tt, <[id := {| pm_order_id := o; pm_amount_cents := amount; pm_status := status |}]> d)
      else Err (EPg check_violation "payments_status_check")
  end.

(** Go's [%] truncates towards zero. *)
Definition Charge (req : ChargeRequest) : prog pay_db string :=
  paymentID ← uuid_new;
  if (Z.rem (ch_AmountCents req) 7 =? 0)%Z then
    _ ← pool_exec (EWrap "record failed payment")
          (insert_payment paymentID (ch_OrderId req) (ch_AmountCents req) "FAILED");
    throw (EStatus FailedPrecondition "payment declined" [])
  else
    _ ← pool_exec (EWrap "record successful payment")
          (insert_payment paymentID (ch_OrderId req) (ch_AmountCents req) "SUCCEEDED");
    mret (uuid_string paymentID).

(** The payments recorded for an order with a given status. *)
Definition payments_of (o : UUID) (status : string) (d : pay_db) : nat :=
  sql_count (fun _ r => bool_decide (pm_order_id r = o) && bool_decide (pm_status r = status)) d.

(** What one charge may have done: nothing, or one attempt recorded. *)
Definition charged (req : ChargeRequest) (status : string) (d d' : pay_db) : Prop :=
  exists id o, pg_uuid (ch_OrderId req) = Some o /\ d !! id = None /\
    d' = <[id := {| pm_order_id := o; pm_amount_cents := ch_AmountCents req; pm_status := status |}]> d.

Lemma insert_payment_inv id req status d x d' :
  insert_payment id (ch_OrderId req) (ch_AmountCents req) status d = Ok (x, d') ->
  charged req status d d'.
Proof.
  unfold insert_payment. destruct (pg_uuid _) as [o|] eqn:Ho; [|done].
  case_bool_decide as Hf; [done|]. case_match; [|done]. intros [= <- <-].
  exists id, o. split_and!; [done|by apply eq_None_not_Some|done].
Qed.

(** The answer tells what was recorded: success and the accepted amount, a decline
    and the declined amount; any other error means that at most the verdict's row
    was recorded, never a success for a declined amount. *)
Lemma Charge_spec req a d :
  wp (Charge req) (fun r _ d' =>
    let verdict := if (Z.rem (ch_AmountCents req) 7 =? 0)%Z then "FAILED" else "SUCCEEDED" in
    match r with
    | Ok _ => verdict = "SUCCEEDED" /\ charged req "SUCCEEDED" d d'
    | Err e => if bool_decide (status_code e = FailedPrecondition)
               then verdict = "FAILED" /\ charged req "FAILED" d d'
               else d' = d \/ charged req verdict d d'
    end) a d.
Proof.
  unfold Charge. wp_steps.
  - apply wp_pool_exec; [intros _; by left|]. cbn.
    destruct (insert_payment _ _ _ _ _) as [[x d']|e] eqn:E; cbn.
    + apply insert_payment_inv in E. split; [done|]. intros _. by right.
    + unfold insert_payment in E. repeat case_match; simplify_eq; by left.
  - apply wp_pool_exec; [intros _; by left|]. cbn.
    destruct (insert_payment _ _ _ _ _) as [[x d']|e] eqn:E; cbn.
    + apply insert_payment_inv in E. split; [done|]. intros _. by right.
    + unfold insert_payment in E. repeat case_match; simplify_eq; by left.
Qed.

(** Without faults and with a fresh payment id, a charge is decided by its amount. *)
Lemma Charge_live req o a d :
  no_faults a -> pg_uuid (ch_OrderId req) = Some o -> d !! amb_uuid a (amb_next a) = None ->
  wp (Charge req) (fun r a' _ => no_faults a' /\
    if (Z.rem (ch_AmountCents req) 7 =? 0)%Z
    then r = Err (EStatus FailedPrecondition "payment declined" []) else is_ok r = true) a d.
Proof.
  intros Hnf Ho Hfresh. unfold Charge. wp_steps;
    (apply wp_pool_exec; [intros Hf; by rewrite (head_fate_none _ (no_faults_uuid _ Hnf)) in Hf|]);
    cbn; unfold insert_payment; rewrite Ho, bool_decide_eq_false_2 by (rewrite Hfresh; by intros []);
    cbn; (split; [wp_step; split; auto with prog; by rewrite Heqb|]);
    intros Hf; by rewrite (head_fate_none _ (no_faults_uuid _ Hnf)) in Hf.
Qed.
End Payment.
