(* ===== verification/Order.v ===== *)
(** * order-svc ([services/order/internal/server])

    The saga that buys seats: the order row and its outbox, idempotency keys, and the
    calls to inventory-svc and payment-svc.  The two peers are an interface
    ([Backends]); what other requests do between two external calls of this one is an
    explicit list of state changes, consumed by [interfere]. *)

From Stdlib Require Import String.
From stdpp Require Import base gmap list strings numbers sorting.
From S2P Require Import Prelude Platform GoStrings Events Apierr Inventory Payment.

(** ** Messages ([gen/ticketwave/order/v1]) *)

Inductive OrderStatus :=
  | ORDER_STATUS_UNSPECIFIED
  | ORDER_STATUS_PENDING
  | ORDER_STATUS_CONFIRMED
  | ORDER_STATUS_FAILED.

#[global] Instance OrderStatus_eq_dec : EqDecision OrderStatus.
Proof. solve_decision. Defined.

Record CreateOrderRequest := {
  co_UserId : string;
  co_EventId : string;
  co_SeatIds : list string;
  co_AmountCents : Z;
  co_IdempotencyKey : string;
}.

Record CreateOrderResponse := { cr_OrderId : string; cr_Status : OrderStatus }.

Record GetOrderRequest := { go_OrderId : string }.

Record GetOrderResponse := {
  gr_OrderId : string;
  gr_UserId : string;
  gr_EventId : string;
  gr_SeatIds : list string;
  gr_AmountCents : Z;
  gr_Status : OrderStatus;
}.

#[global] Instance CreateOrderResponse_eq_dec : EqDecision CreateOrderResponse.
Proof. solve_decision. Defined.

(** ** Validation ([validate.go]) *)

Definition maxAmountCents : Z := 100000000.

(** The empty key means "not idempotent". *)
Definition validIdempotencyKey (k : string) : bool := bool_decide (k = "") || match_token k.

Definition validateCreateOrder `{U : UuidLib} (req : CreateOrderRequest) : res unit :=
  match uuid_parse (co_UserId req) with
  | None => Err (invalid "user_id must be a UUID")
  | Some _ =>
  match uuid_parse (co_EventId req) with
  | None => Err (invalid "event_id must be a UUID")
  | Some _ =>
    let n := Z.of_nat (length (co_SeatIds req)) in
    if (n =? 0)%Z || (maxSeatsPerOrder <? n)%Z
    then Err (invalid "an order must contain 1 to 10 seats")
    else match check_seats ∅ (co_SeatIds req) with
    | Err e => Err e
    | Ok _ =>
        if (co_AmountCents req <=? 0)%Z || (maxAmountCents <? co_AmountCents req)%Z
        then Err (invalid "amount_cents must be positive")
        else if validIdempotencyKey (co_IdempotencyKey req) then Ok tt
        else Err (invalid "idempotency_key must be 1 to 64 letters, digits, dashes or underscores")
    end
  end end.

(** ** Errors ([idempotency.go]) *)

Definition idempotencyIndex : string := "orders_idempotency_idx".

Definition errSeatsUnavailable : error :=
  api_error FailedPrecondition ReasonSeatsUnavailable "unable to reserve seats".
Definition errPaymentDeclined : error :=
  api_error FailedPrecondition ReasonPaymentDeclined "payment failed".
Definition errServiceUnavailable : error :=
  api_error Unavailable ReasonServiceUnavailable "service temporarily unavailable, please try again".

Definition isDuplicateKey (e : error) : bool :=
  match as_pg e with
  | Some (code, constraint) =>
      bool_decide (code = unique_violation) && bool_decide (constraint = idempotencyIndex)
  | None => false
  end.

Definition nullIfEmpty (s : string) : option string := if bool_decide (s = "") then None else Some s.

Definition isRefusal (e : error) : bool := bool_decide (status_code e = FailedPrecondition).

Definition failureFor (reason : option string) : error :=
  match reason with
  | None => errServiceUnavailable
  | Some r =>
      if bool_decide (r = "seats_unavailable") then errSeatsUnavailable
      else if bool_decide (r = "payment_declined") then errPaymentDeclined
      else errServiceUnavailable
  end.

Definition reasonLabel (r : OrderFailureReason) : string :=
  match r with
  | ORDER_FAILURE_REASON_SEATS_UNAVAILABLE => "seats_unavailable"
  | ORDER_FAILURE_REASON_PAYMENT_DECLINED => "payment_declined"
  | ORDER_FAILURE_REASON_SERVICE_UNAVAILABLE => "service_unavailable"
  | _ => "unspecified"
  end.

Definition toOrderStatus (s : string) : OrderStatus :=
  if bool_decide (s = "PENDING") then ORDER_STATUS_PENDING
  else if bool_decide (s = "CONFIRMED") then ORDER_STATUS_CONFIRMED
  else if bool_decide (s = "FAILED") then ORDER_STATUS_FAILED
  else ORDER_STATUS_UNSPECIFIED.

(** ** The database ([migrations/order]) *)

Section Db.
Context `{U : UuidLib}.

Record order_row := {
  od_user_id : UUID;
  od_event_id : UUID;
  od_seat_ids : list UUID;
  od_amount_cents : Z;
  od_status : string;
  od_idempotency_key : option string;
  od_failure_reason : option string;
}.

#[global] Instance order_row_eq_dec : EqDecision order_row.
Proof. solve_decision. Defined.

Record ord_db := {
  tb_orders : gmap UUID order_row;
  tb_order_outbox : list outbox_row;
}.

(** [CHECK (status IN ('PENDING', 'CONFIRMED', 'FAILED'))] *)
Definition order_status_ok (s : string) : bool :=
  bool_decide (s = "PENDING") || bool_decide (s = "CONFIRMED") || bool_decide (s = "FAILED").

(** Rows of one user with one key: what [orders_idempotency_idx] indexes. *)
Definition has_key (user : UUID) (key : string) (_ : UUID) (r : order_row) : bool :=
  bool_decide (od_user_id r = user) && bool_decide (od_idempotency_key r = Some key).

(** [INSERT INTO orders]: the primary key and the partial unique index. *)
Definition insert_order (id : UUID) (r : order_row) (d : ord_db) : res ord_db :=
  if bool_decide (is_Some (tb_orders d !! id)) then Err (EPg unique_violation "orders_pkey")
  else if match od_idempotency_key r with
          | None => false
          | Some k => bool_decide (sql_count (has_key (od_user_id r) k) (tb_orders d) <> 0)
          end
  then Err (EPg unique_violation idempotencyIndex)
  else Ok {| tb_orders := <[id := r]> (tb_orders d); tb_order_outbox := tb_order_outbox d |}.

Definition set_status (status : string) (reason : option string) (r : order_row) : order_row :=
  {| od_user_id := od_user_id r; od_event_id := od_event_id r; od_seat_ids := od_seat_ids r;
     od_amount_cents := od_amount_cents r; od_status := status;
     od_idempotency_key := od_idempotency_key r; od_failure_reason := reason |}.

(** [UPDATE orders SET status, failure_reason WHERE id]: no row is no error. *)
Definition update_order (id : UUID) (status : string) (reason : option string) (d : ord_db)
    : res ord_db :=
  let P := fun k (_ : order_row) => bool_decide (k = id) in
  if order_status_ok status || bool_decide (sql_count P (tb_orders d) = 0) then
    Ok {| tb_orders := sql_update P (set_status status reason) (tb_orders d);
          tb_order_outbox := tb_order_outbox d |}
  else Err (EPg check_violation "orders_status_check").

Definition set_order_outbox (o : list outbox_row) (d : ord_db) : ord_db :=
  {| tb_orders := tb_orders d; tb_order_outbox := o |}.

Record orderSnapshot := {
  o_ID : UUID;
  o_UserID : string;
  o_EventID : string;
  o_SeatIDs : list string;
  o_AmountCents : Z;
}.

(** What a replay reads back; UUID columns come back in their canonical spelling. *)
Record storedOrder := {
  so_ID : UUID;
  so_EventID : string;
  so_SeatIDs : list string;
  so_AmountCents : Z;
  so_Status : string;
  so_FailureReason : option string;
}.

(** [slices.Sort] on strings *)
Definition string_le (x y : string) : Prop := String.leb x y = true.

#[global] Instance string_le_dec : RelDecision string_le.
Proof. intros x y. unfold string_le. apply _. Defined.

Definition slices_sort (l : list string) : list string := merge_sort string_le l.

Definition sameRequest (o : storedOrder) (req : CreateOrderRequest) : bool :=
  if bool_decide (so_EventID o <> co_EventId req)
     || bool_decide (so_AmountCents o <> co_AmountCents req) then false
  else bool_decide (slices_sort (so_SeatIDs o) = slices_sort (co_SeatIds req)).
End Db.

(** ** The peers *)

(** inventory-svc and payment-svc as their clients see them: handlers on a shared
    world [W]. *)
Class Backends `{U : UuidLib} (W : Type) := {
  peer_ReserveSeats : SeatsRequest -> prog W (list Seat);
  peer_ConfirmSeats : SeatsRequest -> prog W (list Seat);
  peer_ReleaseSeats : SeatsRequest -> prog W (list Seat);
  peer_Charge : ChargeRequest -> prog W string;
}.

Inductive peer_call := PReserve | PCharge | PConfirm | PRelease.

#[global] Instance peer_call_eq_dec : EqDecision peer_call.
Proof. solve_decision. Defined.

Section State.
Context `{U : UuidLib}.

(** The service's database, the world of its peers, the counter
    [ticketwave_orders_total] (its increments in order), the calls the peers really
    performed for each order and whether they succeeded, and what other requests do
    at the coming points of interference. *)
Record ord_state (W : Type) := {
  os_db : ord_db;
  os_world : W;
  os_outcomes : list (string * string);
  os_calls : list (UUID * peer_call * bool);
  os_env : list (ord_db -> W -> ord_db * W);
}.
End State.

Arguments os_db {U W}.
Arguments os_world {U W}.
Arguments os_outcomes {U W}.
Arguments os_calls {U W}.
Arguments os_env {U W}.
Arguments Build_ord_state {U W}.

(** ** Handlers ([server.go], [idempotency.go], [outbox_events.go], [metrics.go]) *)

Section Server.
Context `{U : UuidLib} {J : ProtoJson} {W : Type} {B : Backends W}.

#[global] Instance ord_has_db : HasDb (ord_state W) ord_db := {|
  db_get := os_db;
  db_set := fun d s => Build_ord_state d (os_world s) (os_outcomes s) (os_calls s) (os_env s);
|}.

(** Other requests run here. *)
Definition interfere : prog (ord_state W) unit := modify (fun s =>
  match os_env s with
  | [] => s
  | f :: fs => let '(d, w) := f (os_db s) (os_world s) in
               Build_ord_state d w (os_outcomes s) (os_calls s) fs
  end).

(** A peer's handler on the world, with its outcome noted. *)
Definition at_peer {A} (id : UUID) (c : peer_call) (h : prog W A) : prog (ord_state W) A :=
  fun a s =>
    match h a (os_world s) with
    | (r, a', w) => (r, a', Build_ord_state (os_db s) w (os_outcomes s)
                              (os_calls s ++ [(id, c, is_ok r)]) (os_env s))
    end.

Definition call_peer {A} (id : UUID) (c : peer_call) (h : prog W A) : prog (ord_state W) A :=
  _ ← interfere; rpc (at_peer id c h).

Definition recordOutcome (typ : OrderEventType) (reason : OrderFailureReason)
    : prog (ord_state W) unit :=
  let inc := fun l => modify (fun s =>
    Build_ord_state (os_db s) (os_world s) (os_outcomes s ++ [l]) (os_calls s) (os_env s)) in
  match typ with
  | ORDER_EVENT_TYPE_CONFIRMED => inc ("confirmed", "none")
  | ORDER_EVENT_TYPE_FAILED => inc ("failed", reasonLabel reason)
  | _ => mret tt
  end.

Definition buildOrderEvent (o : orderSnapshot) (typ : OrderEventType)
    (reason : OrderFailureReason) (now : Z) : prog (ord_state W) (UUID * string) :=
  id ← uuid_new;
  payload ← lift_res (EncodeOrderEvent
    {| oe_MessageId := uuid_string id; oe_OccurredAt := now; oe_Type := typ;
       oe_OrderId := uuid_string (o_ID o); oe_UserId := o_UserID o; oe_EventId := o_EventID o;
       oe_SeatIds := o_SeatIDs o; oe_AmountCents := o_AmountCents o;
       oe_FailureReason := reason |});
  mret (id, payload).

Definition insertOutbox (tx : ord_db) (o : orderSnapshot) (typ : OrderEventType)
    (reason : OrderFailureReason) : prog (ord_state W) ord_db :=
  now ← time_now;
  '(id, payload) ← buildOrderEvent o typ reason now;
  let wrap := EWrap "insert outbox row" in
  _ ← pg_call wrap;
  created ← tx_now;
  let row := {| ob_id := id; ob_key := o_ID o; ob_event_type := EventTypeName typ;
                ob_payload := jsonb payload; ob_published := false;
                ob_published_at := None; ob_created_at := created |} in
  match outbox_insert (fun k => bool_decide (is_Some (tb_orders tx !! k))) row (tb_order_outbox tx) with
  | Ok t => mret (set_order_outbox t tx)
  | Err e => throw (wrap e)
  end.

Definition createOrder (o : orderSnapshot) (idempotencyKey : string) : prog (ord_state W) unit :=
  _ ← interfere;
  begin_func (fun tx =>
    let wrap := EWrap "insert order" in
    _ ← pg_call wrap;
    user ← pg_arg wrap (o_UserID o);
    event ← pg_arg wrap (o_EventID o);
    seats ← pg_args wrap (o_SeatIDs o);
    match insert_order (o_ID o)
            {| od_user_id := user; od_event_id := event; od_seat_ids := seats;
               od_amount_cents := o_AmountCents o; od_status := "PENDING";
               od_idempotency_key := nullIfEmpty idempotencyKey; od_failure_reason := None |} tx with
    | Err e => throw (wrap e)
    | Ok tx => tx ← insertOutbox tx o ORDER_EVENT_TYPE_CREATED ORDER_FAILURE_REASON_UNSPECIFIED;
               mret (tt, tx)
    end).

Definition transition (o : orderSnapshot) (newStatus : string) (typ : OrderEventType)
    (reason : OrderFailureReason) : prog (ord_state W) unit :=
  _ ← interfere;
  _ ← begin_func (fun tx =>
    let failureReason :=
      if bool_decide (typ = ORDER_EVENT_TYPE_FAILED) then Some (reasonLabel reason) else None in
    _ ← pg_call (EWrap "update order status");
    match update_order (o_ID o) newStatus failureReason tx with
    | Err e => throw (EWrap "update order status" e)
    | Ok tx => tx ← insertOutbox tx o typ reason; mret (tt, tx)
    end);
  recordOutcome typ reason.

Definition fail (o : orderSnapshot) (reason : OrderFailureReason) : prog (ord_state W) unit :=
  _ ← attempt (transition o "FAILED" ORDER_EVENT_TYPE_FAILED reason); mret tt.

Definition seats_request (o : orderSnapshot) : SeatsRequest :=
  {| sr_EventId := o_EventID o; sr_SeatIds := o_SeatIDs o; sr_OrderId := uuid_string (o_ID o) |}.

Definition releaseSeats (o : orderSnapshot) : prog (ord_state W) unit :=
  _ ← attempt (call_peer (o_ID o) PRelease (peer_ReleaseSeats (seats_request o))); mret tt.

Definition findByKey (userID key : string) : prog (ord_state W) storedOrder :=
  _ ← interfere;
  _ ← pg_call id;
  user ← pg_arg id userID;
  s ← get_state;
  match sql_select (has_key user key) (tb_orders (os_db s)) with
  | [] => throw ENoRows
  | (oid, r) :: _ => mret
      {| so_ID := oid; so_EventID := uuid_string (od_event_id r);
         so_SeatIDs := map uuid_string (od_seat_ids r); so_AmountCents := od_amount_cents r;
         so_Status := od_status r; so_FailureReason := od_failure_reason r |}
  end.

Definition replay (req : CreateOrderRequest) : prog (ord_state W) CreateOrderResponse :=
  found ← attempt (findByKey (co_UserId req) (co_IdempotencyKey req));
  match found with
  | Err e => throw (EWrap "look up the order this key belongs to" e)
  | Ok o =>
      if negb (sameRequest o req) then
        throw (api_error InvalidArgument ReasonIdempotencyKeyReused
                 "this idempotency key was already used for a different request")
      else if bool_decide (so_Status o = "CONFIRMED") then
        mret {| cr_OrderId := uuid_string (so_ID o); cr_Status := ORDER_STATUS_CONFIRMED |}
      else if bool_decide (so_Status o = "FAILED") then throw (failureFor (so_FailureReason o))
      else throw (api_error Aborted ReasonRequestInProgress
                    "a request with this idempotency key is still being processed")
  end.

(** The saga after the order row exists. *)
Definition run_saga (order : orderSnapshot) : prog (ord_state W) CreateOrderResponse :=
  reserved ← attempt (call_peer (o_ID order) PReserve (peer_ReserveSeats (seats_request order)));
  match reserved with
  | Err e =>
      if isRefusal e then
        _ ← fail order ORDER_FAILURE_REASON_SEATS_UNAVAILABLE;
        throw errSeatsUnavailable
      else
        _ ← releaseSeats order;
        _ ← fail order ORDER_FAILURE_REASON_SERVICE_UNAVAILABLE;
        throw errServiceUnavailable
  | Ok _ =>
  charged ← attempt (call_peer (o_ID order) PCharge
    (peer_Charge {| ch_OrderId := uuid_string (o_ID order); ch_AmountCents := o_AmountCents order |}));
  match charged with
  | Err e =>
      _ ← releaseSeats order;
      if isRefusal e then
        _ ← fail order ORDER_FAILURE_REASON_PAYMENT_DECLINED;
        throw errPaymentDeclined
      else
        _ ← fail order ORDER_FAILURE_REASON_SERVICE_UNAVAILABLE;
        throw errServiceUnavailable
  | Ok _ =>
  confirmed ← attempt (call_peer (o_ID order) PConfirm (peer_ConfirmSeats (seats_request order)));
  match confirmed with
  | Err _ => throw (EStatus Internal "order could not be finalized, contact support" [])
  | Ok _ =>
  marked ← attempt (transition order "CONFIRMED" ORDER_EVENT_TYPE_CONFIRMED
                      ORDER_FAILURE_REASON_UNSPECIFIED);
  match marked with
  | Err e => throw (EWrap "mark order confirmed" e)
  | Ok _ => mret {| cr_OrderId := uuid_string (o_ID order); cr_Status := ORDER_STATUS_CONFIRMED |}
  end end end end.

Definition snapshot (id : UUID) (req : CreateOrderRequest) : orderSnapshot :=
  {| o_ID := id; o_UserID := co_UserId req; o_EventID := co_EventId req;
     o_SeatIDs := co_SeatIds req; o_AmountCents := co_AmountCents req |}.

Definition CreateOrder (req : CreateOrderRequest) : prog (ord_state W) CreateOrderResponse :=
  _ ← lift_res (validateCreateOrder req);
  id ← uuid_new;
  let order := snapshot id req in
  created ← attempt (createOrder order (co_IdempotencyKey req));
  match created with
  | Err e => if isDuplicateKey e then replay req else throw e
  | Ok _ => run_saga order
  end.

Definition GetOrder (req : GetOrderRequest) : prog (ord_state W) GetOrderResponse :=
  match uuid_parse (go_OrderId req) with
  | None => throw (invalid "order_id must be a UUID")
  | Some _ =>
      _ ← pg_call (EWrap "query order");
      oid ← pg_arg (EWrap "query order") (go_OrderId req);
      s ← get_state;
      match tb_orders (os_db s) !! oid with
      | None => throw (EStatus NotFound "order not found" [])
      | Some r => mret
          {| gr_OrderId := go_OrderId req; gr_UserId := uuid_string (od_user_id r);
             gr_EventId := uuid_string (od_event_id r);
             gr_SeatIds := map uuid_string (od_seat_ids r);
             gr_AmountCents := od_amount_cents r; gr_Status := toOrderStatus (od_status r) |}
      end
  end.
End Server.
