(* ===== verification/OrderSpec.v ===== *)
(** * order-svc: the saga's specification

    What the rows of one order say ([story]), the invariant of the whole database
    ([wf_ord]), what a request relies on from the others and what it guarantees to
    them, and the possible outcomes of one saga ([saga_outcome]): which answer goes
    with which recorded state and with which calls performed by the peers. *)

From stdpp Require Import base gmap list strings numbers sorting.
From S2P Require Import Prelude Platform GoStrings Events Apierr Inventory Payment Order.

(** ** The specification *)

Section Spec.
Context `{U : UuidLib} {J : ProtoJson}.

(** [row] is the event [typ] with reason [reason] of order [id] with row [r]. *)
Definition says (id : UUID) (r : order_row) (typ : OrderEventType) (reason : OrderFailureReason)
    (row : outbox_row) : Prop :=
  ob_key row = id /\ ob_event_type row = EventTypeName typ /\
  exists e, DecodeOrderEvent (ob_payload row) = Ok e /\
    oe_MessageId e = uuid_string (ob_id row) /\ oe_Type e = typ /\ oe_FailureReason e = reason /\
    oe_OrderId e = uuid_string id /\ pg_uuid (oe_UserId e) = Some (od_user_id r) /\
    pg_uuid (oe_EventId e) = Some (od_event_id r) /\
    mapM pg_uuid (oe_SeatIds e) = Some (od_seat_ids r) /\ oe_AmountCents e = od_amount_cents r.

(** The events an order with this row has in the outbox: created, and how it ended. *)
Inductive story (id : UUID) (r : order_row) : list outbox_row -> Prop :=
  | story_pending c :
      od_status r = "PENDING" -> od_failure_reason r = None ->
      says id r ORDER_EVENT_TYPE_CREATED ORDER_FAILURE_REASON_UNSPECIFIED c ->
      story id r [c]
  | story_confirmed c f :
      od_status r = "CONFIRMED" -> od_failure_reason r = None ->
      says id r ORDER_EVENT_TYPE_CREATED ORDER_FAILURE_REASON_UNSPECIFIED c ->
      says id r ORDER_EVENT_TYPE_CONFIRMED ORDER_FAILURE_REASON_UNSPECIFIED f ->
      story id r [c; f]
  | story_failed c f reason :
      od_status r = "FAILED" -> od_failure_reason r = Some (reasonLabel reason) ->
      says id r ORDER_EVENT_TYPE_CREATED ORDER_FAILURE_REASON_UNSPECIFIED c ->
      says id r ORDER_EVENT_TYPE_FAILED reason f ->
      story id r [c; f].

(** The outbox rows of one order, in order. *)
Definition rows_of (id : UUID) (d : ord_db) : list outbox_row :=
  filter (fun row => ob_key row = id) (tb_order_outbox d).

Record wf_ord (d : ord_db) : Prop := {
  wo_story : forall id r, tb_orders d !! id = Some r -> story id r (rows_of id d);
  wo_keys : forall row, row ∈ tb_order_outbox d -> is_Some (tb_orders d !! ob_key row);
  wo_ids : NoDup (map ob_id (tb_order_outbox d));
  wo_unique : forall id id' r r' k, tb_orders d !! id = Some r -> tb_orders d !! id' = Some r' ->
    od_user_id r = od_user_id r' -> od_idempotency_key r = Some k ->
    od_idempotency_key r' = Some k -> id = id';
}.

(** What a request about order [id] needs from the others: they leave the order and
    its rows alone. *)
Definition rely (id : UUID) (d d' : ord_db) : Prop :=
  tb_orders d' !! id = tb_orders d !! id /\ rows_of id d' = rows_of id d.

(** The rely of every other request: what a request guarantees. *)
Definition guarantee (id : UUID) (d d' : ord_db) : Prop := forall id', id' <> id -> rely id' d d'.

(** Other requests, while order [id] is being processed. *)
Definition env_ok {W} (id : UUID) (f : ord_db -> W -> ord_db * W) : Prop :=
  forall d w, rely id d (f d w).1 /\ (wf_ord d -> wf_ord (f d w).1).

Definition order_data (o : orderSnapshot) (key : string) (r : order_row) : Prop :=
  pg_uuid (o_UserID o) = Some (od_user_id r) /\ pg_uuid (o_EventID o) = Some (od_event_id r) /\
  mapM pg_uuid (o_SeatIDs o) = Some (od_seat_ids r) /\ od_amount_cents r = o_AmountCents o /\
  od_idempotency_key r = nullIfEmpty key.

(** The log entries of calls performed for order [id]. *)
Definition entries (id : UUID) (l : list (peer_call * bool)) : list (UUID * peer_call * bool) :=
  map (fun x => (id, x.1, x.2)) l.

(** How a request can end: its answer, the state of its order ([None]: no row), and
    the calls the peers performed for it, with their success. *)
Inductive saga_outcome (id : UUID) :
    res CreateOrderResponse -> option (string * option string) -> list (peer_call * bool) -> Prop :=
  | saga_confirmed :
      saga_outcome id (Ok {| cr_OrderId := uuid_string id; cr_Status := ORDER_STATUS_CONFIRMED |})
        (Some ("CONFIRMED", None)) [(PReserve, true); (PCharge, true); (PConfirm, true)]
  | saga_seats st :
      st = ("FAILED", Some "seats_unavailable") \/ st = ("PENDING", None) ->
      saga_outcome id (Err errSeatsUnavailable) (Some st) [(PReserve, false)]
  | saga_declined st rel :
      st = ("FAILED", Some "payment_declined") \/ st = ("PENDING", None) ->
      rel = [] \/ (exists b, rel = [(PRelease, b)]) ->
      saga_outcome id (Err errPaymentDeclined) (Some st) ([(PReserve, true); (PCharge, false)] ++ rel)
  | saga_unavailable st calls rel :
      st = ("FAILED", Some "service_unavailable") \/ st = ("PENDING", None) ->
      calls = [] \/ (exists b, calls = [(PReserve, b)]) \/
        calls = [(PReserve, true)] \/ (exists b, calls = [(PReserve, true); (PCharge, b)]) ->
      rel = [] \/ (exists b, rel = [(PRelease, b)]) ->
      saga_outcome id (Err errServiceUnavailable) (Some st) (calls ++ rel)
  | saga_unconfirmed conf :
      conf = [] \/ (exists b, conf = [(PConfirm, b)]) ->
      saga_outcome id (Err (EStatus Internal "order could not be finalized, contact support" []))
        (Some ("PENDING", None)) ([(PReserve, true); (PCharge, true)] ++ conf)
  | saga_unmarked e st :
      st = ("CONFIRMED", None) \/ st = ("PENDING", None) ->
      saga_outcome id (Err (EWrap "mark order confirmed" e)) (Some st)
        [(PReserve, true); (PCharge, true); (PConfirm, true)]
  | saga_not_created e st :
      isDuplicateKey e = false -> st = None \/ st = Some ("PENDING", None) ->
      saga_outcome id (Err e) st []
  | saga_replayed r : saga_outcome id r None [].
End Spec.

(** ** Lemmas *)

Section Refine.
Context `{U : UuidLib} {J : ProtoJson} {W : Type} {B : Backends W}.
Context `{!UuidLaws U} `{!ProtoJsonLaws J}.

Implicit Types (s : ord_state W) (a : ambient) (d : ord_db).

Lemma rely_refl id d : rely id d d.
Proof. done. Qed.
Lemma rely_trans id d1 d2 d3 : rely id d1 d2 -> rely id d2 d3 -> rely id d1 d3.
Proof. intros [A1 B1] [A2 B2]. split; congruence. Qed.

(** *** Interference *)

Definition steady (id : UUID) (s : ord_state W) : Prop :=
  Forall (env_ok id) (os_env s) /\ wf_ord (os_db s).

(** Order [o] is stored with this status and failure reason. *)
Definition at_status (o : orderSnapshot) (key st : string) (reason : option string)
    (s : ord_state W) : Prop :=
  exists r, tb_orders (os_db s) !! o_ID o = Some r /\ order_data o key r /\
    od_status r = st /\ od_failure_reason r = reason.

Lemma at_status_rely o key st reason s s' :
  rely (o_ID o) (os_db s) (os_db s') -> at_status o key st reason s -> at_status o key st reason s'.
Proof. intros [E _] (r & Hr & H). exists r. by rewrite E. Qed.

Lemma wp_interfere id (Q : res unit -> ambient -> ord_state W -> Prop) a s :
  steady id s ->
  (forall s', steady id s' -> rely id (os_db s) (os_db s') -> os_calls s' = os_calls s ->
     Q (Ok tt) a s') ->
  wp interfere Q a s.
Proof.
  intros [He Hwf] HQ. unfold interfere. wp_steps. destruct (os_env s) as [|f fs] eqn:E.
  { apply HQ; [split; [by rewrite E|done]|done|done]. }
  apply Forall_cons_1 in He as [Hf Hfs]. specialize (Hf (os_db s) (os_world s)) as [Hr Hk].
  destruct (f (os_db s) (os_world s)) as [d w]. apply HQ; [split; [done|by apply Hk]|done|done].
Qed.

(** *** Writing the outbox *)

Lemma wp_insertOutbox tx o typ reason (Q : res ord_db -> ambient -> ord_state W -> Prop) a s :
  (forall row a', ~ (ob_id row ∈ map ob_id (tb_order_outbox tx)) ->
     is_Some (tb_orders tx !! o_ID o) ->
     (forall r key, order_data o key r -> says (o_ID o) r typ reason row) ->
     ob_key row = o_ID o ->
     Q (Ok (set_order_outbox (tb_order_outbox tx ++ [row]) tx)) a' s) ->
  (forall e a', Q (Err e) a' s) ->
  wp (insertOutbox tx o typ reason) Q a s.
Proof.
  intros HQ HE. unfold insertOutbox, buildOrderEvent. wp_steps.
  destruct (EncodeOrderEvent _) as [payload|e] eqn:Henc; [|apply HE].
  wp_steps; try apply HE. unfold pg_call in *.
  apply outbox_insert_inv in Heqr as (-> & Hfresh & Hkey). reflect_bools.
  apply HQ; cbn; try done. intros r key (Hu & He & Hs & Ha & _). split_and!; [done..|].
  eexists. split; [by apply decode_encode_order|]. cbn. by split_and!.
Qed.

(** *** Steps on the database *)

Lemma rows_of_app id d d' row :
  tb_order_outbox d' = tb_order_outbox d ++ [row] ->
  rows_of id d' = rows_of id d ++ (if bool_decide (ob_key row = id) then [row] else []).
Proof.
  intros E. unfold rows_of. rewrite E, filter_app, filter_cons. cbn.
  by destruct (decide (ob_key row = id)) as [E'|E'];
    [rewrite bool_decide_eq_true_2|rewrite bool_decide_eq_false_2].
Qed.

Lemma says_ext id r r' typ reason row :
  od_user_id r' = od_user_id r -> od_event_id r' = od_event_id r ->
  od_seat_ids r' = od_seat_ids r -> od_amount_cents r' = od_amount_cents r ->
  says id r typ reason row -> says id r' typ reason row.
Proof. unfold says. by intros -> -> -> ->. Qed.

(** The new order, its key and its first event. *)
Lemma insert_order_wf o key r d d1 row :
  wf_ord d -> order_data o key r -> od_status r = "PENDING" -> od_failure_reason r = None ->
  insert_order (o_ID o) r d = Ok d1 ->
  ~ (ob_id row ∈ map ob_id (tb_order_outbox d1)) -> ob_key row = o_ID o ->
  says (o_ID o) r ORDER_EVENT_TYPE_CREATED ORDER_FAILURE_REASON_UNSPECIFIED row ->
  let d' := set_order_outbox (tb_order_outbox d1 ++ [row]) d1 in
  wf_ord d' /\ guarantee (o_ID o) d d' /\ tb_orders d' !! o_ID o = Some r.
Proof.
  intros [W1 W2 W3 W4] Hdata Hst Hre Hins Hfresh Hkey Hsays d'.
  unfold insert_order in Hins. case_bool_decide as Hnone; [done|].
  destruct (match od_idempotency_key r with None => false | Some k => _ end) eqn:Hu; [done|].
  injection Hins as <-. cbn in Hfresh.
  assert (Hord : tb_orders d' = <[o_ID o := r]> (tb_orders d)) by done.
  assert (Hout : tb_order_outbox d' = tb_order_outbox d ++ [row]) by done. clearbody d'.
  assert (Hnil : rows_of (o_ID o) d = []).
  { unfold rows_of. apply filter_none. intros row' Hin E. apply Hnone. rewrite <- E. by apply W2. }
  assert (Hrows : forall id', rows_of id' d' = rows_of id' d ++ if bool_decide (o_ID o = id') then [row] else []).
  { intros id'. rewrite <- Hkey. by apply rows_of_app. }
  assert (Hother : forall id' r', id' <> o_ID o -> tb_orders d' !! id' = Some r' -> tb_orders d !! id' = Some r').
  { intros id' r' Hne. by rewrite Hord, lookup_insert_ne. }
  assert (Hkeyed : forall id' r' k, od_idempotency_key r = Some k -> od_idempotency_key r' = Some k ->
    od_user_id r' = od_user_id r -> tb_orders d !! id' = Some r' -> False).
  { intros id' r' k Hk Hk' Hus Hr'. rewrite Hk in Hu. reflect_bools. apply dec_stable in Hu.
    unfold sql_count in Hu. apply length_zero_iff_nil in Hu.
    assert (Hin : (id', r') ∈ sql_select (has_key (od_user_id r) k) (tb_orders d)).
    { apply elem_of_sql_select. split; [done|]. unfold has_key. by rewrite Hus, Hk', !bool_decide_eq_true_2. }
    rewrite Hu in Hin. by apply not_elem_of_nil in Hin. }
  split_and!; [split|..].
  - intros id' r'. destruct (decide (id' = o_ID o)) as [->|Hne].
    + rewrite Hord, lookup_insert_eq. intros [= <-].
      rewrite Hrows, Hnil, bool_decide_eq_true_2 by done. by constructor.
    + intros Hr'%Hother; [|done]. rewrite Hrows, bool_decide_eq_false_2, app_nil_r by done. by apply W1.
  - intros row' Hrow'. rewrite Hout in Hrow'. rewrite Hord. apply elem_of_app in Hrow' as [Hin| ->%list_elem_of_singleton];
      apply lookup_insert_is_Some'; [right; by apply W2|by left].
  - rewrite Hout, map_app. apply NoDup_app. split_and!; [done| |apply NoDup_singleton].
    intros x Hx ->%list_elem_of_singleton. done.
  - intros i j ri rj k. destruct (decide (i = o_ID o)) as [->|Hi], (decide (j = o_ID o)) as [->|Hj]; [done|..].
    + intros Hri Hrj%Hother Hus Hk Hk'; [|done].
      rewrite Hord, lookup_insert_eq in Hri. injection Hri as <-. by destruct (Hkeyed j rj k).
    + intros Hri%Hother Hrj Hus Hk Hk'; [|done].
      rewrite Hord, lookup_insert_eq in Hrj. injection Hrj as <-. by destruct (Hkeyed i ri k).
    + intros Hri%Hother Hrj%Hother; [|done..]. by eauto.
  - intros id' Hne. split; [by rewrite Hord, lookup_insert_ne|].
    rewrite Hrows, bool_decide_eq_false_2 by done. by rewrite app_nil_r.
  - by rewrite Hord, lookup_insert_eq.
Qed.

(** How an order ends: status, event and reason that go together. *)
Inductive ending : string -> OrderEventType -> OrderFailureReason -> option string -> Prop :=
  | end_confirmed :
      ending "CONFIRMED" ORDER_EVENT_TYPE_CONFIRMED ORDER_FAILURE_REASON_UNSPECIFIED None
  | end_failed reason :
      ending "FAILED" ORDER_EVENT_TYPE_FAILED reason (Some (reasonLabel reason)).

Lemma ending_reason st typ reason fr :
  ending st typ reason fr ->
  order_status_ok st = true /\
  (if bool_decide (typ = ORDER_EVENT_TYPE_FAILED) then Some (reasonLabel reason) else None) = fr.
Proof. by intros []. Qed.

Lemma finish_order_wf o key r st typ reason fr d d1 row :
  ending st typ reason fr ->
  wf_ord d -> tb_orders d !! o_ID o = Some r -> order_data o key r -> od_status r = "PENDING" ->
  update_order (o_ID o) st fr d = Ok d1 ->
  ~ (ob_id row ∈ map ob_id (tb_order_outbox d1)) -> ob_key row = o_ID o ->
  says (o_ID o) r typ reason row ->
  let d' := set_order_outbox (tb_order_outbox d1 ++ [row]) d1 in
  wf_ord d' /\ guarantee (o_ID o) d d' /\ tb_orders d' !! o_ID o = Some (set_status st fr r).
Proof.
  intros Hend [W1 W2 W3 W4] Hr Hdata Hst Hupd Hfresh Hkey Hsays d'.
  unfold update_order in Hupd. destruct (ending_reason _ _ _ _ Hend) as [Hok _]. rewrite Hok in Hupd.
  injection Hupd as <-. cbn in Hfresh.
  assert (Hord : tb_orders d' = sql_update (fun k _ => bool_decide (k = o_ID o)) (set_status st fr) (tb_orders d))
    by done.
  assert (Hout : tb_order_outbox d' = tb_order_outbox d ++ [row]) by done. clearbody d'.
  assert (Hlook : forall id', tb_orders d' !! id' =
    (fun r => if bool_decide (id' = o_ID o) then set_status st fr r else r) <$> tb_orders d !! id').
  { intros id'. by rewrite Hord, lookup_sql_update. }
  assert (Hrows : forall id', rows_of id' d' = rows_of id' d ++ if bool_decide (o_ID o = id') then [row] else []).
  { intros id'. rewrite <- Hkey. by apply rows_of_app. }
  assert (Hback : forall id' r', tb_orders d' !! id' = Some r' -> exists r0, tb_orders d !! id' = Some r0 /\
    od_user_id r' = od_user_id r0 /\ od_idempotency_key r' = od_idempotency_key r0).
  { intros id' r'. rewrite Hlook. destruct (tb_orders d !! id') as [r0|]; [|done]. cbn.
    intros [= <-]. exists r0. by case_bool_decide. }
  split_and!; [split|..].
  - intros id' r'. rewrite Hlook, Hrows. destruct (decide (id' = o_ID o)) as [->|Hne].
    + rewrite Hr, !bool_decide_eq_true_2 by done. cbn. intros [= <-].
      pose proof (W1 _ _ Hr) as Hs. inversion Hs as [c ? ? Hc Heq|c f ?|c f rs ?]; try congruence.
      destruct Hend; cbn; [eapply story_confirmed|eapply story_failed]; done.
    + rewrite !bool_decide_eq_false_2 by done. rewrite app_nil_r.
      destruct (tb_orders d !! id') as [r0|] eqn:E; [|done]. cbn. intros [= <-]. by apply W1.
  - intros row' Hrow'. apply elem_of_dom. rewrite Hord, dom_sql_update. apply elem_of_dom.
    rewrite Hout in Hrow'. apply elem_of_app in Hrow' as [Hin| ->%list_elem_of_singleton]; [by apply W2|].
    rewrite Hkey. eauto.
  - rewrite Hout, map_app. apply NoDup_app. split_and!; [done| |apply NoDup_singleton].
    intros x Hx ->%list_elem_of_singleton. done.
  - intros i j ri rj k Hi Hj. destruct (Hback _ _ Hi) as (? & ? & -> & ->).
    destruct (Hback _ _ Hj) as (? & ? & -> & ->). by eauto.
  - intros id' Hne. split; [rewrite Hlook; rewrite bool_decide_eq_false_2 by done; by destruct (tb_orders d !! id')|].
    rewrite Hrows, bool_decide_eq_false_2 by done. by rewrite app_nil_r.
  - rewrite Hlook, Hr. cbn. by rewrite bool_decide_eq_true_2.
Qed.

(** *** Transactions *)

Lemma createOrder_spec o key a s :
  steady (o_ID o) s -> tb_orders (os_db s) !! o_ID o = None ->
  wp (createOrder o key) (fun r _ s' => steady (o_ID o) s' /\ os_calls s' = os_calls s /\
    match r with
    | Ok _ => at_status o key "PENDING" None s'
    | Err e => tb_orders (os_db s') !! o_ID o = None \/
               (e = EConn /\ at_status o key "PENDING" None s')
    end) a s.
Proof.
  intros Hsteady Hnone. unfold createOrder. wp_steps.
  apply (wp_interfere (o_ID o)); [done|]. intros s1 Hs1 [Hrel _] Hcalls. rewrite Hnone in Hrel.
  pose proof Hs1 as [Henv Hwf].
  wp_steps; [by auto| |by auto].
  apply wp_pg_arg; [|by auto]. intros user Huser. wp_steps.
  apply wp_pg_arg; [|by auto]. intros event Hevent. wp_steps.
  apply wp_pg_args; [|by auto]. intros seats Hseats. wp_steps; [|by auto].
  apply wp_insertOutbox; [|by auto]. intros row a' Hfresh Hex Hsays Hkey. cbn in Heqr.
  match type of Heqr with insert_order _ ?r _ = Ok ?x => set (r0 := r) in *; rename x into d1 end.
  assert (Hdata : order_data o key r0) by (by split_and!).
  destruct (insert_order_wf o key r0 _ _ row Hwf Hdata eq_refl eq_refl Heqr Hfresh Hkey (Hsays _ _ Hdata))
    as (Hwf' & _ & Hlook).
  assert (Hpend : forall s', os_db s' = set_order_outbox (tb_order_outbox d1 ++ [row]) d1 ->
    at_status o key "PENDING" None s').
  { intros s' E. exists r0. by rewrite E. }
  wp_steps. cbn. split; [split_and!; [done|done|by apply Hpend]|].
  intros _. split; (split_and!; [done|done|]); [right|left]; auto.
Qed.

Lemma transition_spec o key st typ reason fr a s :
  ending st typ reason fr -> steady (o_ID o) s -> at_status o key "PENDING" None s ->
  wp (transition o st typ reason) (fun r _ s' => steady (o_ID o) s' /\ os_calls s' = os_calls s /\
    match r with
    | Ok _ => at_status o key st fr s'
    | Err e => at_status o key "PENDING" None s' \/ at_status o key st fr s'
    end) a s.
Proof.
  intros Hend Hsteady Hpend. unfold transition. wp_steps.
  apply (wp_interfere (o_ID o)); [done|]. intros s1 Hs1 Hrel Hcalls.
  pose proof Hs1 as [Henv Hwf]. apply (at_status_rely _ _ _ _ _ _ Hrel) in Hpend. clear Hrel.
  destruct (ending_reason _ _ _ _ Hend) as [_ Hfr].
  wp_steps; [by auto| | |]; try (split_and!; by auto).
  rewrite Hfr in Heqr. apply wp_insertOutbox; [|by auto].
  intros row a' Hfresh Hex Hsays Hkey. pose proof Hpend as (r0 & Hr0 & Hdata & Hst & _). cbn in Heqr.
  match type of Heqr with _ = Ok ?x => rename x into d1 end.
  destruct (finish_order_wf o key r0 _ _ _ _ _ _ row Hend Hwf Hr0 Hdata Hst Heqr Hfresh Hkey
    (Hsays _ _ Hdata)) as (Hwf' & _ & Hlook).
  assert (Hfin : forall s', os_db s' = set_order_outbox (tb_order_outbox d1 ++ [row]) d1 ->
    at_status o key st fr s').
  { intros s' E. exists (set_status st fr r0). by rewrite E. }
  wp_steps. cbn. split.
  - unfold recordOutcome. destruct Hend; wp_steps; (split_and!; [done|done|by apply Hfin]).
  - intros _. split; (split_and!; [done|done|]); [right|left]; auto.
Qed.

Lemma fail_spec o key reason a s :
  steady (o_ID o) s -> at_status o key "PENDING" None s ->
  wp (fail o reason) (fun r _ s' => r = Ok tt /\ steady (o_ID o) s' /\ os_calls s' = os_calls s /\
    exists st, (st = ("FAILED", Some (reasonLabel reason)) \/ st = ("PENDING", None)) /\
      at_status o key st.1 st.2 s') a s.
Proof.
  intros Hst Hp. unfold fail. wp_steps. eapply wp_mono; [by eapply transition_spec; [constructor|..]|].
  cbn. intros [[]|e] a' s' (Hs & Hc & Hr); wp_steps; (split_and!; [done..|]).
  - eexists (_, _). split; [by left|done].
  - destruct Hr; eexists (_, _); [split; [by right|done]|split; [by left|done]].
Qed.

(** *** Calls to the peers *)

(** A call leaves the database to the others; a success or a refusal was said by the
    peer, and the peer performed at most this call. *)
Lemma call_peer_spec {A} o key st reason c (h : prog W A) a s :
  steady (o_ID o) s -> at_status o key st reason s ->
  wp (call_peer (o_ID o) c h) (fun r _ s' => steady (o_ID o) s' /\ at_status o key st reason s' /\
    exists l, os_calls s' = os_calls s ++ l /\
      match r with
      | Ok _ => l = [(o_ID o, c, true)]
      | Err e => (l = [] /\ isRefusal e = false) \/ exists b, l = [(o_ID o, c, b)] /\
                   (isRefusal e = true -> b = false)
      end) a s.
Proof.
  intros Hst Hat. unfold call_peer. wp_steps. apply (wp_interfere (o_ID o)); [done|].
  intros s1 [Henv Hwf] Hrel Hcalls. apply (at_status_rely _ _ _ _ _ _ Hrel) in Hat. clear Hrel.
  assert (Ht : forall t, isRefusal (EStatus (transport_code t) "transport failure" []) = false)
    by (by intros []).
  apply wp_rpc.
  { intros _ t. split_and!; [done|done|]. exists []. rewrite app_nil_r. split; [done|]. left. by split. }
  unfold wp, at_peer. destruct (h (drop_fate a) (os_world s1)) as [[r a'] w]. cbn.
  split; [|intros _ t]; (split_and!; [done|done|]); eexists; (split; [by rewrite Hcalls|]).
  - destruct r; [done|]. right. eexists. split; [done|]. by intros _.
  - right. eexists. split; [done|]. by rewrite Ht.
Qed.

Lemma releaseSeats_spec o key st reason a s :
  steady (o_ID o) s -> at_status o key st reason s ->
  wp (releaseSeats o) (fun r _ s' => r = Ok tt /\ steady (o_ID o) s' /\ at_status o key st reason s' /\
    exists l, os_calls s' = os_calls s ++ l /\ (l = [] \/ exists b, l = [(o_ID o, PRelease, b)])) a s.
Proof.
  intros Hst Hat. unfold releaseSeats. wp_steps. eapply wp_mono; [by apply call_peer_spec|].
  cbn. intros r a' s' (H1 & H2 & l & H3 & H4). wp_steps. split_and!; [done..|].
  exists l. split; [done|]. destruct r; [right; eauto|].
  destruct H4 as [[-> _]|(b & -> & _)]; eauto.
Qed.

(** *** The saga *)

Definition ends_in (o : orderSnapshot) (key : string) (s : ord_state W)
    (r : res CreateOrderResponse) (s' : ord_state W) : Prop :=
  steady (o_ID o) s' /\ exists st l,
    (match st with
     | None => tb_orders (os_db s') !! o_ID o = None
     | Some (st, reason) => at_status o key st reason s'
     end) /\
    os_calls s' = os_calls s ++ entries (o_ID o) l /\ saga_outcome (o_ID o) r st l.

(** The way every branch of the saga ends: with the recorded status and the calls. *)
Lemma ends_intro o key s r s' st l :
  steady (o_ID o) s' -> at_status o key st.1 st.2 s' ->
  os_calls s' = os_calls s ++ entries (o_ID o) l -> saga_outcome (o_ID o) r (Some st) l ->
  ends_in o key s r s'.
Proof. intros. split; [done|]. exists (Some st), l. by destruct st. Qed.

(** Recording a failure is the last thing a failing branch does. *)
Lemma fail_ends o key reason e l a s0 s :
  steady (o_ID o) s -> at_status o key "PENDING" None s ->
  os_calls s = os_calls s0 ++ entries (o_ID o) l ->
  (forall st, st = ("FAILED", Some (reasonLabel reason)) \/ st = ("PENDING", None) ->
     saga_outcome (o_ID o) (Err e) (Some st) l) ->
  wp (_ ← fail o reason; throw e) (fun r _ s' => ends_in o key s0 r s') a s.
Proof.
  intros Hs Hp Hc Hout. apply wp_bind. eapply wp_mono; [by apply fail_spec|]. cbn.
  intros r a' s' (-> & Hs' & Hc' & st & Hst & Hat). wp_steps.
  eapply ends_intro; [done|done|by rewrite Hc'|by apply Hout].
Qed.

Lemma release_then o key l a s0 s (m : prog (ord_state W) CreateOrderResponse) :
  steady (o_ID o) s -> at_status o key "PENDING" None s ->
  os_calls s = os_calls s0 ++ entries (o_ID o) l ->
  (forall rel a s, steady (o_ID o) s -> at_status o key "PENDING" None s ->
     rel = [] \/ (exists b, rel = [(PRelease, b)]) ->
     os_calls s = os_calls s0 ++ entries (o_ID o) (l ++ rel) ->
     wp m (fun r _ s' => ends_in o key s0 r s') a s) ->
  wp (_ ← releaseSeats o; m) (fun r _ s' => ends_in o key s0 r s') a s.
Proof.
  intros Hs Hp Hc Hm. apply wp_bind. eapply wp_mono; [by apply releaseSeats_spec|]. cbn.
  intros r a' s' (-> & Hs' & Hp' & rel & Hc' & Hrel).
  assert (exists rel', rel = entries (o_ID o) rel' /\ (rel' = [] \/ exists b, rel' = [(PRelease, b)]))
    as (rel' & -> & Hrel').
  { destruct Hrel as [->|[b ->]]; [exists []|exists [(PRelease, b)]]; eauto. }
  apply (Hm rel'); try done. rewrite Hc', Hc, <- app_assoc. unfold entries. by rewrite map_app.
Qed.

Definition paid_calls : list (peer_call * bool) :=
  [(PReserve, true); (PCharge, true); (PConfirm, true)].

(** The validation of seat ids fails with a status error, never a database error. *)
Lemma check_seats_error (seen : gset UUID) ids e :
  check_seats seen ids = Err e -> isDuplicateKey e = false.
Proof.
  revert seen. induction ids as [|x ids IH]; intros seen; cbn; [done|].
  repeat case_match; intros; simplify_eq; try done. by eapply IH.
Qed.

Lemma run_saga_spec o key a s :
  steady (o_ID o) s -> at_status o key "PENDING" None s ->
  wp (run_saga o) (fun r _ s' => ends_in o key s r s') a s.
Proof.
  intros Hs Hp. unfold run_saga. wp_steps. eapply wp_mono; [by apply call_peer_spec|].
  cbn. intros [x|e] a1 s1 (Hs1 & Hp1 & l1 & Hc1 & Hl1).
  2: { destruct (isRefusal e) eqn:He.
    - destruct Hl1 as [[_ ?]|(b & -> & Hb)]; [done|]. rewrite (Hb eq_refl) in Hc1.
      eapply (fail_ends _ _ _ _ [(PReserve, false)]); [done..|]. intros st Hst. by constructor.
    - assert (exists l, l1 = entries (o_ID o) l /\ (l = [] \/ exists b, l = [(PReserve, b)]))
        as (l & -> & Hl).
      { destruct Hl1 as [[-> _]|(b & -> & _)]; [exists []|exists [(PReserve, b)]]; eauto. }
      eapply (release_then _ _ l); [done..|]. intros rel a2 s2 Hs2 Hp2 Hrel Hc2.
      eapply fail_ends; [done..|]. intros st Hst. constructor; [done| |done].
      destruct Hl as [->|[b ->]]; eauto. }
  subst l1. apply wp_bind, wp_attempt. eapply wp_mono; [by apply call_peer_spec|].
  cbn. intros [y|e] a2 s2 (Hs2 & Hp2 & l2 & Hc2 & Hl2); rewrite Hc1, <- app_assoc in Hc2.
  2: { assert (exists l, (o_ID o, PReserve, true) :: l2 = entries (o_ID o) l /\
           ((l = [(PReserve, true)] /\ isRefusal e = false) \/
            exists b, l = [(PReserve, true); (PCharge, b)] /\ (isRefusal e = true -> b = false)))
         as (l & Heq & Hl).
    { destruct Hl2 as [[-> ?]|(b & -> & ?)];
        [exists [(PReserve, true)]|exists [(PReserve, true); (PCharge, b)]]; eauto 10. }
    cbn in Hc2. rewrite Heq in Hc2.
    eapply (release_then _ _ l); [done..|]. intros rel a3 s3 Hs3 Hp3 Hrel Hc3.
    destruct (isRefusal e) eqn:He.
    - destruct Hl as [[_ ?]|(b & -> & Hb)]; [done|]. rewrite (Hb eq_refl) in *.
      eapply fail_ends; [done..|]. intros st Hst. by apply (saga_declined _ st rel).
    - eapply fail_ends; [done..|]. intros st Hst. constructor; [done| |done].
      destruct Hl as [[-> _]|(b & -> & _)]; eauto 10. }
  subst l2. apply wp_bind, wp_attempt. eapply wp_mono; [by apply call_peer_spec|].
  cbn. intros [z|e] a3 s3 (Hs3 & Hp3 & l3 & Hc3 & Hl3); rewrite Hc2, <- app_assoc in Hc3.
  2: { wp_steps. destruct Hl3 as [[-> _]|(b & -> & _)].
    - by eapply (ends_intro _ _ _ _ _ ("PENDING", None) [(PReserve, true); (PCharge, true)]);
        [..|apply (saga_unconfirmed _ []); left].
    - eapply (ends_intro _ _ _ _ _ ("PENDING", None) [(PReserve, true); (PCharge, true); (PConfirm, b)]);
        [done..|apply (saga_unconfirmed _ [(PConfirm, b)]); eauto]. }
  subst l3. apply wp_bind, wp_attempt. eapply wp_mono; [by eapply transition_spec; [constructor|..]|].
  cbn. intros [[]|e] a4 s4 (Hs4 & Hc4 & Hat4); wp_steps; rewrite <- Hc4 in Hc3.
  - by eapply (ends_intro _ _ _ _ _ ("CONFIRMED", None) paid_calls); [..|constructor].
  - destruct Hat4 as [Hat4|Hat4];
      [eapply (ends_intro _ _ _ _ _ ("PENDING", None) paid_calls)|
       eapply (ends_intro _ _ _ _ _ ("CONFIRMED", None) paid_calls)];
      try done; constructor; auto.
Qed.

(** *** The whole request *)

(** A replay reads, and calls nobody. *)
Lemma replay_spec id req a s :
  steady id s ->
  wp (replay req) (fun _ _ s' => steady id s' /\ rely id (os_db s) (os_db s') /\
    os_calls s' = os_calls s) a s.
Proof.
  intros Hs. unfold replay, findByKey. wp_steps. apply (wp_interfere id); [done|].
  intros s1 Hs1 Hrel Hc. wp_steps; try done. apply wp_pg_arg; [|intros _; by wp_steps].
  intros user Hu. by wp_steps.
Qed.

Lemma CreateOrder_spec req a s :
  let o := snapshot (amb_uuid a (amb_next a)) req in
  steady (o_ID o) s -> tb_orders (os_db s) !! o_ID o = None ->
  wp (CreateOrder req) (fun r _ s' => ends_in o (co_IdempotencyKey req) s r s') a s.
Proof.
  intros o Hs Hnone. unfold CreateOrder. wp_steps.
  assert (Hnot : forall (e : error) s', steady (o_ID o) s' -> tb_orders (os_db s') !! o_ID o = None ->
    os_calls s' = os_calls s -> isDuplicateKey e = false -> ends_in o (co_IdempotencyKey req) s (Err e) s').
  { intros e s' H1 H2 H3 H4. split; [done|]. exists None, []. rewrite app_nil_r. split_and!; [done..|].
    apply saga_not_created; auto. }
  destruct (validateCreateOrder req) as [u|e] eqn:Hv.
  2: { apply Hnot; try done. unfold validateCreateOrder in Hv.
    repeat (case_match; simplify_eq; try done). by eapply check_seats_error. }
  wp_steps. eapply wp_mono; [by apply createOrder_spec|]. cbn.
  intros [[]|e] a1 s1 (Hs1 & Hc1 & Hr); wp_steps.
  - eapply wp_mono; [by apply run_saga_spec|]. cbn. intros r a2 s2 (H1 & st & l & H2 & H3 & H4).
    split; [done|]. exists st, l. by rewrite H3, Hc1.
  - destruct Hr as [Hr|[-> _]]; [|done].
    eapply wp_mono; [by apply (replay_spec (o_ID o))|]. cbn. intros r a2 s2 (H1 & [H2 _] & H3).
    split; [done|]. exists None, []. rewrite app_nil_r. split_and!; [exact (eq_trans H2 Hr)|exact (eq_trans H3 Hc1)|constructor].
  - destruct Hr as [Hr|[-> Hr]]; [by apply Hnot|].
    split; [done|]. exists (Some ("PENDING", None)), []. rewrite app_nil_r. split_and!; [done..|].
    apply saga_not_created; auto.
Qed.
End Refine.
