(* ===== verification/OrderProps.v ===== *)
(** * order-svc: the properties

    One order per idempotency key and one story per order whatever runs concurrently;
    the answer of a request, its recorded state and the calls performed for it agree;
    a retry gets the first answer and performs nothing. *)

From Stdlib Require Import String Ascii.
From stdpp Require Import base gmap list strings numbers sorting.
From S2P Require Import Prelude Platform GoStrings Events Redis Instances Apierr Inventory Payment.
From S2P Require Import Order OrderSpec.

(** ** Sorting strings *)

Lemma string_compare_trans x y z :
  String.compare x y = Lt -> String.compare y z = Lt -> String.compare x z = Lt.
Proof.
  revert y z. induction x as [|a x IH]; intros [|b y] [|c z]; cbn; try done.
  unfold Ascii.compare.
  destruct (N.compare_spec (N_of_ascii a) (N_of_ascii b)) as [E1|E1|E1]; try done;
    destruct (N.compare_spec (N_of_ascii b) (N_of_ascii c)) as [E2|E2|E2]; try done;
    destruct (N.compare_spec (N_of_ascii a) (N_of_ascii c)) as [E3|E3|E3]; try done; try lia.
  apply IH.
Qed.

#[export] Instance string_le_trans : Transitive string_le.
Proof.
  intros x y z. unfold string_le, String.leb. intros Hxy Hyz.
  destruct (String.compare x y) eqn:E1; try done.
  - apply String.compare_eq_iff in E1 as ->. done.
  - destruct (String.compare y z) eqn:E2; try done.
    + apply String.compare_eq_iff in E2 as ->. by rewrite E1.
    + by rewrite (string_compare_trans _ _ _ E1 E2).
Qed.

#[export] Instance string_le_total : Total string_le.
Proof. intros x y. apply String.leb_total. Qed.

#[export] Instance string_le_antisym : AntiSymm eq string_le.
Proof. intros x y. apply String.leb_antisym. Qed.

Lemma slices_sort_perm l k : slices_sort l = slices_sort k <-> l ≡ₚ k.
Proof.
  unfold slices_sort. split.
  - intros E. by rewrite <- (merge_sort_Permutation string_le l), E, merge_sort_Permutation.
  - intros E. apply (StronglySorted_unique string_le); [apply StronglySorted_merge_sort; apply _..|].
    by rewrite !merge_sort_Permutation.
Qed.

(** ** Lemmas *)

Section Lemmas.
Context `{U : UuidLib} {J : ProtoJson} {W : Type} {B : Backends W}.
Context `{!UuidLaws U} `{!ProtoJsonLaws J}.

Implicit Types (s : ord_state W) (a : ambient) (d : ord_db).

Lemma sameRequest_iff (o : storedOrder) req :
  sameRequest o req = true <->
  so_EventID o = co_EventId req /\ so_AmountCents o = co_AmountCents req /\
  so_SeatIDs o ≡ₚ co_SeatIds req.
Proof.
  unfold sameRequest. destruct (_ || _) eqn:E.
  - split; [done|]. intros (H1 & H2 & _). apply orb_true_iff in E as [E|E]; by reflect_bools.
  - reflect_bools. rewrite bool_decide_eq_true, slices_sort_perm.
    split; [intros Hp|by intros (_ & _ & ?)]. split_and!; [..|done]; by apply dec_stable.
Qed.

(** A stored key is found, and only there. *)
Lemma has_key_select d id r k :
  wf_ord d -> tb_orders d !! id = Some r -> od_idempotency_key r = Some k ->
  sql_select (has_key (od_user_id r) k) (tb_orders d) = [(id, r)].
Proof.
  intros Hwf Hr Hk. set (l := sql_select _ _).
  assert (Hin : (id, r) ∈ l).
  { apply elem_of_sql_select. split; [done|]. unfold has_key. by rewrite Hk, !bool_decide_eq_true_2. }
  assert (Hall : forall x, x ∈ l -> x = (id, r)).
  { intros [id' r'] [Hr' Hp]%elem_of_sql_select. unfold has_key in Hp. reflect_bools.
    assert (id' = id) as -> by (by eapply (wo_unique _ Hwf)). congruence. }
  assert (Hnd : NoDup (l.*1)) by apply NoDup_fst_sql_select.
  destruct l as [|x [|y l]]; [by apply not_elem_of_nil in Hin|by rewrite (Hall x (list_elem_of_here _ _))|].
  exfalso. rewrite (Hall x) in Hnd by (by left). rewrite (Hall y) in Hnd by (by right; left).
  cbn in Hnd. apply NoDup_cons in Hnd as [Hni _]. apply Hni. by left.
Qed.

(** A second insert with a used key is refused by the index. *)
Lemma createOrder_duplicate o key a s id r :
  no_faults a -> os_env s = [] -> wf_ord (os_db s) ->
  tb_orders (os_db s) !! id = Some r -> od_idempotency_key r = Some key -> key <> "" ->
  pg_uuid (o_UserID o) = Some (od_user_id r) -> is_Some (pg_uuid (o_EventID o)) ->
  is_Some (mapM pg_uuid (o_SeatIDs o)) -> tb_orders (os_db s) !! o_ID o = None ->
  createOrder o key a s = (Err (EWrap "insert order" (EPg unique_violation idempotencyIndex)), a, s).
Proof.
  intros Hnf Henv Hwf Hr Hk Hne Hu [ev He] [ids Hs] Hnone.
  unfold createOrder, interfere, begin_func, tx_begin, pg_call, pg_arg, pg_args.
  unfold mbind, prog_bind, modify, next_fate, get_state, pop_fate. cbn. rewrite Henv.
  rewrite Hnf. cbn. rewrite Hnf. cbn. rewrite Hu. cbn. rewrite He. cbn. rewrite Hs. cbn.
  unfold insert_order. rewrite bool_decide_eq_false_2 by (rewrite Hnone; by intros []).
  cbn. unfold nullIfEmpty. rewrite bool_decide_eq_false_2 by done.
  unfold sql_count. rewrite (has_key_select _ _ _ _ Hwf Hr Hk). done.
Qed.

(** What [findByKey] reads of a row. *)
Definition stored (id : UUID) (r : order_row) : storedOrder :=
  {| so_ID := id; so_EventID := uuid_string (od_event_id r);
     so_SeatIDs := map uuid_string (od_seat_ids r); so_AmountCents := od_amount_cents r;
     so_Status := od_status r; so_FailureReason := od_failure_reason r |}.

Lemma findByKey_run userID a s id r k :
  no_faults a -> os_env s = [] -> wf_ord (os_db s) ->
  tb_orders (os_db s) !! id = Some r -> od_idempotency_key r = Some k ->
  pg_uuid userID = Some (od_user_id r) ->
  findByKey userID k a s = (Ok (stored id r), a, s).
Proof.
  intros Hnf Henv Hwf Hr Hk Hu. unfold findByKey, interfere, pg_call, pg_arg.
  unfold mbind, prog_bind, modify, next_fate, get_state, pop_fate. cbn. rewrite Henv.
  rewrite Hnf. cbn. rewrite Hu. cbn. by rewrite (has_key_select _ _ _ _ Hwf Hr Hk).
Qed.

(** The answer a retry gets from the stored order. *)
Definition stored_answer (id : UUID) (r : order_row) : res CreateOrderResponse :=
  if bool_decide (od_status r = "CONFIRMED")
  then Ok {| cr_OrderId := uuid_string id; cr_Status := ORDER_STATUS_CONFIRMED |}
  else if bool_decide (od_status r = "FAILED") then Err (failureFor (od_failure_reason r))
  else Err (api_error Aborted ReasonRequestInProgress
              "a request with this idempotency key is still being processed").

Lemma retry_run req a s id r :
  validateCreateOrder req = Ok tt -> no_faults a -> os_env s = [] -> wf_ord (os_db s) ->
  tb_orders (os_db s) !! id = Some r -> od_idempotency_key r = Some (co_IdempotencyKey req) ->
  co_IdempotencyKey req <> "" -> pg_uuid (co_UserId req) = Some (od_user_id r) ->
  is_Some (pg_uuid (co_EventId req)) -> is_Some (mapM pg_uuid (co_SeatIds req)) ->
  tb_orders (os_db s) !! amb_uuid a (amb_next a) = None ->
  CreateOrder req a s =
    (if sameRequest (stored id r) req then stored_answer id r
     else Err (api_error InvalidArgument ReasonIdempotencyKeyReused
                 "this idempotency key was already used for a different request"),
     drop_uuid a, s).
Proof.
  intros Hv Hnf Henv Hwf Hr Hk Hne Hu He Hs Hnone.
  set (o := snapshot (amb_uuid a (amb_next a)) req).
  pose proof (createOrder_duplicate o (co_IdempotencyKey req) (drop_uuid a) s id r
    Hnf Henv Hwf Hr Hk Hne Hu He Hs Hnone) as Hdup.
  pose proof (findByKey_run (co_UserId req) (drop_uuid a) s id r _ Hnf Henv Hwf Hr Hk Hu) as Hfind.
  unfold CreateOrder. rewrite Hv.
  unfold mbind, prog_bind, lift_res, mret, prog_ret, uuid_new. cbn -[createOrder replay].
  fold o. unfold attempt, drop_uuid in *. rewrite Hdup. cbn -[replay].
  rewrite !bool_decide_eq_true_2 by done.
  unfold replay, attempt, mbind, prog_bind, mret, prog_ret. cbn -[findByKey]. rewrite Hfind.
  unfold stored_answer. destruct (sameRequest _ _); cbn; [|done].
  by repeat case_bool_decide.
Qed.

(** A request whose key is taken writes nothing and calls nobody, whatever fails. *)
Lemma retry_harmless req a s id r :
  os_env s = [] -> tb_orders (os_db s) !! id = Some r ->
  od_idempotency_key r = Some (co_IdempotencyKey req) -> co_IdempotencyKey req <> "" ->
  pg_uuid (co_UserId req) = Some (od_user_id r) ->
  wp (CreateOrder req) (fun _ _ s' => s' = s) a s.
Proof.
  intros Henv Hr Hk Hne Hu.
  assert (Hwait : forall Q a, Q (Ok tt) a s -> wp interfere Q a s).
  { intros Q a0 HQ. unfold interfere. apply wp_modify. by rewrite Henv. }
  assert (Hcount : sql_count (has_key (od_user_id r) (co_IdempotencyKey req)) (tb_orders (os_db s)) <> 0).
  { intros E%length_zero_iff_nil. pose proof (sql_select_nil _ _ E id r Hr) as Hp.
    unfold has_key in Hp. by rewrite Hk, !bool_decide_eq_true_2 in Hp. }
  assert (Hins : forall k row, od_user_id row = od_user_id r -> od_idempotency_key row = Some (co_IdempotencyKey req) ->
    exists e, insert_order k row (os_db s) = Err e).
  { intros k row E1 E2. unfold insert_order. case_bool_decide; [by eexists|]. rewrite E1, E2.
    rewrite bool_decide_eq_true_2 by done. by eexists. }
  assert (Hreplay : forall a, wp (replay req) (fun _ _ s' => s' = s) a s).
  { intros a0. unfold replay, findByKey. apply wp_bind, wp_attempt, wp_bind, Hwait. wp_steps; try done.
    apply wp_pg_arg; intros; wp_steps; done. }
  unfold CreateOrder. wp_steps. destruct (validateCreateOrder req) as [[]|]; [|done].
  wp_steps. unfold createOrder. apply wp_bind, Hwait.
  assert (Herr : forall e a, wp (if isDuplicateKey e then replay req else throw e) (fun _ _ s' => s' = s) a s)
    by (intros e a0; case_match; [apply Hreplay|done]).
  apply wp_begin_func; [intros _; apply Herr|]. apply wp_bind, wp_pg_call; [|intros _; apply Herr].
  apply wp_bind, wp_pg_arg; [|intros _; apply Herr]. intros user Huser. cbn in Huser.
  apply wp_bind, wp_pg_arg; [|intros _; apply Herr]. intros event _.
  apply wp_bind, wp_pg_args; [|intros _; apply Herr]. intros seats _. cbn [db_get ord_has_db].
  match goal with |- context [insert_order ?k ?row ?d] => destruct (Hins k row) as [e He] end.
  - cbn. congruence.
  - cbn. unfold nullIfEmpty. by rewrite bool_decide_eq_false_2.
  - rewrite He. apply Herr.
Qed.

(** The recorded outcome of a saga determines its answer, except that a lost commit
    answer hides a success. *)
Lemma outcome_answer id r st l (row : order_row) :
  saga_outcome id r (Some (od_status row, od_failure_reason row)) l -> st = od_status row ->
  (st = "FAILED" -> r = stored_answer id row) /\
  (is_ok r = true -> r = stored_answer id row).
Proof.
  intros Ho ->. unfold stored_answer.
  inversion Ho; simplify_eq; destr_hyps;
    repeat match goal with H : _ \/ _ |- _ => destruct H end; destr_hyps; simplify_eq/=;
    repeat match goal with
    | H : ?x = od_status _ |- _ => rewrite <- H
    | H : od_status _ = ?x |- _ => rewrite H
    | H : ?x = od_failure_reason _ |- _ => rewrite <- H
    | H : od_failure_reason _ = ?x |- _ => rewrite H
    end; done.
Qed.

Lemma mapM_pg_strings (us : list UUID) : mapM pg_uuid (map uuid_string us) = Some us.
Proof. induction us as [|u us IH]; cbn; [done|]. by rewrite pg_uuid_string, IH. Qed.

Lemma mapM_is_Some (l : list string) :
  (forall x, x ∈ l -> is_Some (pg_uuid x)) -> is_Some (mapM pg_uuid l).
Proof.
  induction l as [|x l IH]; intros Hl; cbn; [by eauto|].
  destruct (Hl x) as [u ->]; [by left|]. destruct IH as [us ->]; [intros y Hy; apply Hl; by right|].
  cbn. eauto.
Qed.

(** *** Guarantees *)

Lemma wp_interfere_none (Q : res unit -> ambient -> ord_state W -> Prop) a s :
  os_env s = [] -> Q (Ok tt) a s -> wp interfere Q a s.
Proof. intros E HQ. unfold interfere. wp_steps. by rewrite E. Qed.

Lemma guarantee_refl id d : guarantee id d d.
Proof. by intros id' _. Qed.

Lemma createOrder_guarantee o key a s :
  os_env s = [] -> wf_ord (os_db s) -> tb_orders (os_db s) !! o_ID o = None ->
  wp (createOrder o key) (fun _ _ s' => wf_ord (os_db s') /\ guarantee (o_ID o) (os_db s) (os_db s')) a s.
Proof.
  intros Henv Hwf Hnone. unfold createOrder. wp_steps. apply wp_interfere_none; [done|].
  wp_steps; [by auto using guarantee_refl| |by auto using guarantee_refl].
  apply wp_pg_arg; [|by auto using guarantee_refl]. intros user Huser. wp_steps.
  apply wp_pg_arg; [|by auto using guarantee_refl]. intros event Hevent. wp_steps.
  apply wp_pg_args; [|by auto using guarantee_refl]. intros seats Hseats.
  wp_steps; [|by auto using guarantee_refl].
  apply wp_insertOutbox; [|by auto using guarantee_refl]. intros row a' Hfresh Hex Hsays Hkey. cbn in Heqr.
  match type of Heqr with insert_order _ ?r _ = Ok ?x => set (r0 := r) in *; rename x into d1 end.
  assert (Hdata : order_data o key r0) by (by split_and!).
  destruct (insert_order_wf o key r0 _ _ row Hwf Hdata eq_refl eq_refl Heqr Hfresh Hkey (Hsays _ _ Hdata))
    as (Hwf' & Hg & _).
  wp_steps. cbn. split; [done|]. intros _. split; [done|]. auto using guarantee_refl.
Qed.

Lemma transition_guarantee o key st typ reason fr a s :
  os_env s = [] -> wf_ord (os_db s) -> ending st typ reason fr -> at_status o key "PENDING" None s ->
  wp (transition o st typ reason)
    (fun _ _ s' => wf_ord (os_db s') /\ guarantee (o_ID o) (os_db s) (os_db s')) a s.
Proof.
  intros Henv Hwf Hend Hpend. unfold transition. wp_steps. apply wp_interfere_none; [done|].
  destruct (ending_reason _ _ _ _ Hend) as [_ Hfr].
  wp_steps; [by auto using guarantee_refl| | |]; try (by auto using guarantee_refl).
  rewrite Hfr in Heqr. apply wp_insertOutbox; [|by auto using guarantee_refl].
  intros row a' Hfresh Hex Hsays Hkey. pose proof Hpend as (r0 & Hr0 & Hdata & Hst & _). cbn in Heqr.
  match type of Heqr with _ = Ok ?x => rename x into d1 end.
  destruct (finish_order_wf o key r0 _ _ _ _ _ _ row Hend Hwf Hr0 Hdata Hst Heqr Hfresh Hkey
    (Hsays _ _ Hdata)) as (Hwf' & Hg & _).
  wp_steps. cbn. split.
  - unfold recordOutcome. destruct Hend; wp_steps; done.
  - intros _. split; [done|]. auto using guarantee_refl.
Qed.
End Lemmas.

(** ** Properties *)

Section Properties.
Context `{U : UuidLib} {J : ProtoJson} {W : Type} {B : Backends W}.
Context `{!UuidLaws U} `{!ProtoJsonLaws J}.

Implicit Types (s : ord_state W) (a : ambient) (d : ord_db).

Lemma CreateOrder_outcome req a s r a' s' :
  let id := amb_uuid a (amb_next a) in
  wf_ord (os_db s) -> Forall (env_ok id) (os_env s) -> tb_orders (os_db s) !! id = None ->
  CreateOrder req a s = (r, a', s') ->
  wf_ord (os_db s') /\ exists l, os_calls s' = os_calls s ++ entries id l /\
    saga_outcome id r
      ((fun row => (od_status row, od_failure_reason row)) <$> tb_orders (os_db s') !! id) l.
Proof.
  intros id Hwf Henv Hnone. revert r a' s'. unfold id in *. clear id. wp_start.
  eapply wp_mono; [apply CreateOrder_spec; [by split|done]|]. cbn.
  intros r a' s' ([_ Hwf'] & st & l & Hst & Hc & Ho). split; [done|]. exists l. split; [done|].
  destruct st as [[st reason]|]; [|cbn in Hst; by rewrite Hst].
  destruct Hst as (row & Hrow & _ & <- & <-). cbn in Hrow. by rewrite Hrow.
Qed.

(** C3: whatever fails during a [CreateOrder], whatever the peers answer, and whatever
    other requests do meanwhile to other orders and to the peers, the database stays
    consistent (every order has exactly the events of its status in the outbox, and a
    user's key belongs to one order) and the answer, the recorded state of the order
    and the calls performed for it fit together as [saga_outcome] lists. *)
Theorem saga_ends_consistently req a s r a' s' :
  let id := amb_uuid a (amb_next a) in
  wf_ord (os_db s) -> Forall (env_ok id) (os_env s) -> tb_orders (os_db s) !! id = None ->
  CreateOrder req a s = (r, a', s') ->
  wf_ord (os_db s') /\ exists l, os_calls s' = os_calls s ++ entries id l /\
    saga_outcome id r
      ((fun row => (od_status row, od_failure_reason row)) <$> tb_orders (os_db s') !! id) l.
Proof. apply CreateOrder_outcome. Qed.

Lemma outcome_discipline id r st l :
  saga_outcome id r st l ->
  length (filter (fun x => x.1 = PCharge) l) <= 1 /\
  (forall b, (PCharge, b) ∈ l -> exists l', l = (PReserve, true) :: (PCharge, b) :: l') /\
  (forall b, (PConfirm, b) ∈ l -> exists l', l = [(PReserve, true); (PCharge, true); (PConfirm, b)] ++ l') /\
  ((PCharge, true) ∈ l -> r <> Err errPaymentDeclined /\ r <> Err errSeatsUnavailable) /\
  (is_ok r = true -> st <> None ->
     l = [(PReserve, true); (PCharge, true); (PConfirm, true)] /\ st = Some ("CONFIRMED", None)).
Proof.
  intros Ho. inversion Ho; subst; destr_hyps;
    repeat match goal with H : _ \/ _ |- _ => destruct H end; destr_hyps; subst;
    split_and!; try (cbn; lia); intros; cbn in *;
    repeat match goal with
    | H : _ ∈ _ |- _ => rewrite ?elem_of_cons, ?elem_of_nil in H; cbn in H
    | H : _ \/ _ |- _ => destruct H
    | H : False |- _ => destruct H
    end; simplify_eq; try done; eauto.
Qed.

(** C7: the money side of the saga.  However a [CreateOrder] ends, the peers performed
    for it a list [l] of calls in which the customer is charged at most once, only
    after the seats were reserved for the order; seats are confirmed only after a
    successful charge; a charge that succeeded is never answered as declined or as
    seats taken; and when a new order is answered with success, reservation, charge
    and confirmation all succeeded, nothing else was called, and the order is stored
    as confirmed. *)
Theorem charge_discipline req a s r a' s' :
  let id := amb_uuid a (amb_next a) in
  wf_ord (os_db s) -> Forall (env_ok id) (os_env s) -> tb_orders (os_db s) !! id = None ->
  CreateOrder req a s = (r, a', s') ->
  exists l, os_calls s' = os_calls s ++ entries id l /\
    length (filter (fun x => x.1 = PCharge) l) <= 1 /\
    (forall b, (PCharge, b) ∈ l -> exists l', l = (PReserve, true) :: (PCharge, b) :: l') /\
    (forall b, (PConfirm, b) ∈ l -> exists l', l = [(PReserve, true); (PCharge, true); (PConfirm, b)] ++ l') /\
    ((PCharge, true) ∈ l -> r <> Err errPaymentDeclined /\ r <> Err errSeatsUnavailable) /\
    (forall row, is_ok r = true -> tb_orders (os_db s') !! id = Some row ->
       l = [(PReserve, true); (PCharge, true); (PConfirm, true)] /\ od_status row = "CONFIRMED").
Proof.
  intros id Hwf Henv Hnone. revert r a' s'. unfold id in *. clear id. wp_start.
  eapply wp_mono; [apply CreateOrder_spec; [by split|done]|]. cbn.
  intros r a' s' (_ & st & l & Hst & Hc & Ho). exists l. split; [done|].
  destruct (outcome_discipline _ _ _ _ Ho) as (H1 & H2 & H3 & H4 & H5). split_and!; try done.
  intros row Hok Hrow. destruct st as [[st reason]|]; [|cbn in Hst; congruence].
  destruct Hst as (row' & Hrow' & _ & Est & _). destruct (H5 Hok ltac:(done)) as [-> E].
  split; [done|]. cbn in Hrow'. congruence.
Qed.

(** What a request does to the database between two points of interference is what
    every other request relies on: inserting an order, or finishing a pending one,
    keeps the database consistent and leaves the orders and outbox rows of all other
    requests as they were. *)
Lemma transactions_respect_others o key st typ reason fr a s :
  os_env s = [] -> wf_ord (os_db s) ->
  (tb_orders (os_db s) !! o_ID o = None ->
     let s' := (createOrder o key a s).2 in
     wf_ord (os_db s') /\ guarantee (o_ID o) (os_db s) (os_db s')) /\
  (ending st typ reason fr -> at_status o key "PENDING" None s ->
     let s' := (transition o st typ reason a s).2 in
     wf_ord (os_db s') /\ guarantee (o_ID o) (os_db s) (os_db s')).
Proof.
  intros Henv Hwf. split.
  - intros Hnone. pose proof (createOrder_guarantee o key a s Henv Hwf Hnone) as Hw.
    unfold wp in Hw. by destruct (createOrder o key a s) as [[??]?].
  - intros Hend Hp. pose proof (transition_guarantee o key st typ reason fr a s Henv Hwf Hend Hp) as Hw.
    unfold wp in Hw. by destruct (transition o st typ reason a s) as [[??]?].
Qed.

(** C17: a retry is answered from the order of its key.  After a [CreateOrder] whose ids were
    spelled canonically, which carried a key and left an order row, the same request with its
    seats in any order changes neither the database nor the peers, whatever fails in it.  When
    nothing fails in it, it repeats the first answer if that was a success, and repeats it if
    the order failed; it is answered with success when the order is confirmed, although the
    first answer may have been an error, and with "in progress" while the order is pending. *)
Theorem retry_is_answered_from_the_order req seats a1 s a1' r1 s1 a2 r2 a2' s2 ev ids row :
  let id := amb_uuid a1 (amb_next a1) in
  let req' := {| co_UserId := co_UserId req; co_EventId := co_EventId req; co_SeatIds := seats;
                 co_AmountCents := co_AmountCents req; co_IdempotencyKey := co_IdempotencyKey req |} in
  co_EventId req = uuid_string ev -> co_SeatIds req = map uuid_string ids ->
  seats ≡ₚ co_SeatIds req -> co_IdempotencyKey req <> "" ->
  wf_ord (os_db s) -> Forall (env_ok id) (os_env s) -> tb_orders (os_db s) !! id = None ->
  CreateOrder req a1 s = (r1, a1', s1) ->
  tb_orders (os_db s1) !! id = Some row -> os_env s1 = [] ->
  CreateOrder req' a2 s1 = (r2, a2', s2) ->
  s2 = s1 /\
  (no_faults a2 -> tb_orders (os_db s1) !! amb_uuid a2 (amb_next a2) = None -> validateCreateOrder req' = Ok tt ->
   (is_ok r1 = true -> r2 = r1) /\
   (od_status row = "CONFIRMED" ->
      r2 = Ok {| cr_OrderId := uuid_string id; cr_Status := ORDER_STATUS_CONFIRMED |}) /\
   (od_status row = "FAILED" -> r2 = r1) /\
   (od_status row = "PENDING" -> r2 = Err (api_error Aborted ReasonRequestInProgress
      "a request with this idempotency key is still being processed"))).
Proof.
  intros id req' Hev Hids Hperm Hne Hwf Henv Hnone Hrun1 Hrow Henv1 Hrun2.
  destruct (wp_run _ _ _ _ _ _ _ Hrun1 (CreateOrder_spec req a1 s (conj Henv Hwf) Hnone))
    as ([_ Hwf1] & st & l & Hst & _ & Hout).
  destruct st as [[st reason]|]; [|exfalso; cbn in Hst; fold id in Hst; by rewrite Hst in Hrow].
  destruct Hst as (row' & Hrow' & (Hu & He & Hs & Ha & Hk) & <- & <-). cbn in Hrow', Hu, He, Hs, Ha, Hk. fold id in Hrow'.
  assert (row' = row) as -> by congruence.
  assert (Hkey : od_idempotency_key row = Some (co_IdempotencyKey req)).
  { rewrite Hk. unfold nullIfEmpty. by rewrite bool_decide_eq_false_2. }
  split; [exact (wp_run _ _ _ _ _ _ _ Hrun2 (retry_harmless req' a2 s1 id row Henv1 Hrow Hkey Hne Hu))|].
  intros Hnf Hnone2 Hv.
  assert (Hseats : od_seat_ids row = ids).
  { rewrite Hids in Hs. rewrite mapM_pg_strings in Hs. congruence. }
  assert (Hev' : od_event_id row = ev) by (rewrite Hev, pg_uuid_string in He; congruence).
  assert (Hsame : sameRequest (stored id row) req' = true).
  { apply sameRequest_iff. cbn. rewrite Hseats, Hev', Hperm. by rewrite <- Hids, <- Ha. }
  assert (Hmap : is_Some (mapM pg_uuid seats)).
  { apply mapM_is_Some. intros x Hx. rewrite Hperm, Hids in Hx.
    apply list_elem_of_fmap in Hx as (u & -> & _). rewrite pg_uuid_string. eauto. }
  pose proof (retry_run req' a2 s1 id row Hv Hnf Henv1 Hwf1 Hrow Hkey Hne Hu) as Hretry.
  cbn in Hretry. rewrite Hsame in Hretry.
  rewrite Hretry in Hrun2; [|by eauto|done|done]. injection Hrun2 as <- _ _.
  destruct (outcome_answer _ _ _ _ row Hout eq_refl) as [Hf Hok].
  split_and!.
  - intros E. symmetry. by apply Hok.
  - intros E. unfold stored_answer. by rewrite E.
  - intros E. symmetry. by apply Hf.
  - intros E. unfold stored_answer. by rewrite E.
Qed.

(** The retry detection compares spellings.  Once an order with a key is stored, a
    retry that spells the event id or a seat id of the same UUIDs in any other way
    than the canonical one is refused as a different request. *)
Lemma respelled_retry_is_refused req a s id row :
  validateCreateOrder req = Ok tt -> no_faults a -> os_env s = [] -> wf_ord (os_db s) ->
  tb_orders (os_db s) !! id = Some row -> order_data (snapshot id req) (co_IdempotencyKey req) row ->
  co_IdempotencyKey req <> "" -> tb_orders (os_db s) !! amb_uuid a (amb_next a) = None ->
  co_EventId req <> uuid_string (od_event_id row) \/
    ~ (co_SeatIds req ≡ₚ map uuid_string (od_seat_ids row)) ->
  CreateOrder req a s = (Err (api_error InvalidArgument ReasonIdempotencyKeyReused
    "this idempotency key was already used for a different request"), drop_uuid a, s).
Proof.
  intros Hv Hnf Henv Hwf Hrow (Hu & He & Hs & Ha & Hk) Hne Hnone Hsp. cbn in *.
  assert (Hk' : od_idempotency_key row = Some (co_IdempotencyKey req)).
  { rewrite Hk. unfold nullIfEmpty. by rewrite bool_decide_eq_false_2. }
  rewrite (retry_run req a s id row); try done; try (by eauto).
  destruct (sameRequest (stored id row) req) eqn:E; [exfalso|done].
  apply sameRequest_iff in E as (H1 & _ & H3). cbn in *.
  destruct Hsp as [Hsp|Hsp]; [by rewrite H1 in Hsp|by apply Hsp].
Qed.
End Properties.

(** ** Witnesses *)

Section Examples.
(** Peers that say yes to everything but a charge of 700. *)
#[local] Instance yes_backends : Backends (U := ref_uuid) unit := {|
  peer_ReserveSeats _ := mret [];
  peer_ConfirmSeats _ := mret [];
  peer_ReleaseSeats _ := mret [];
  peer_Charge req := if (ch_AmountCents req =? 700)%Z
                     then throw (EStatus FailedPrecondition "payment declined" []) else mret "p";
|}.

Definition no_orders : ord_state unit :=
  Build_ord_state {| tb_orders := ∅; tb_order_outbox := [] |} tt [] [] [].

Lemma no_orders_wf : wf_ord (os_db no_orders).
Proof.
  split; cbn; intros *; rewrite ?lookup_empty, ?elem_of_nil; try done. constructor.
Qed.

Definition buy (seats : list string) (cents : Z) : CreateOrderRequest :=
  {| co_UserId := "uU"; co_EventId := "ue"; co_SeatIds := seats; co_AmountCents := cents;
     co_IdempotencyKey := "k1" |}.

Definition bought (cents : Z) : res CreateOrderResponse * ambient * ord_state unit :=
  CreateOrder (buy ["us1"; "us2"] cents) (amb0 [] (names "x") 1 1) no_orders.

Lemma saga_ends_consistently_witness :
  exists l, saga_outcome (U := ref_uuid) "x0" (bought 700).1.1 (Some ("FAILED", Some "payment_declined")) l.
Proof.
  destruct (saga_ends_consistently (U := ref_uuid) (buy ["us1"; "us2"] 700) (amb0 [] (names "x") 1 1) no_orders
    _ _ _ no_orders_wf (Forall_nil_2 _) eq_refl (run_eta (bought 700))) as (_ & l & _ & Ho).
  exists l. exact Ho.
Defined.

Lemma charge_discipline_witness :
  exists l, os_calls (bought 100).2 = entries (U := ref_uuid) "x0" l /\
    length (filter (fun x : peer_call * bool => x.1 = PCharge) l) <= 1.
Proof.
  destruct (charge_discipline (U := ref_uuid) (buy ["us1"; "us2"] 100) (amb0 [] (names "x") 1 1) no_orders
    _ _ _ no_orders_wf (Forall_nil_2 _) eq_refl (run_eta (bought 100))) as (l & Hl & H1 & _).
  exists l. split; [exact Hl|exact H1].
Defined.

Lemma transactions_respect_others_witness :
  wf_ord (os_db (createOrder (snapshot (U := ref_uuid) "x0" (buy ["us1"] 100)) "k1"
                   (amb0 [] (names "x") 1 1) no_orders).2) /\
  wf_ord (os_db (transition (snapshot (U := ref_uuid) "x0" (buy ["us1"] 100)) "CONFIRMED"
                   ORDER_EVENT_TYPE_CONFIRMED ORDER_FAILURE_REASON_UNSPECIFIED (amb0 [] (names "y") 2 2)
                   (createOrder (snapshot (U := ref_uuid) "x0" (buy ["us1"] 100)) "k1"
                     (amb0 [] (names "x") 1 1) no_orders).2).2).
Proof.
  destruct (proj1 (transactions_respect_others (U := ref_uuid) (snapshot (U := ref_uuid) "x0" (buy ["us1"] 100)) "k1"
    "CONFIRMED" ORDER_EVENT_TYPE_CONFIRMED ORDER_FAILURE_REASON_UNSPECIFIED None
    (amb0 [] (names "x") 1 1) no_orders eq_refl no_orders_wf) eq_refl) as [H1 _].
  split; [exact H1|].
  refine (proj1 (proj2 (transactions_respect_others (U := ref_uuid) (snapshot (U := ref_uuid) "x0" (buy ["us1"] 100)) "k1"
    "CONFIRMED" ORDER_EVENT_TYPE_CONFIRMED ORDER_FAILURE_REASON_UNSPECIFIED None
    (amb0 [] (names "y") 2 2) (createOrder (snapshot (U := ref_uuid) "x0" (buy ["us1"] 100)) "k1"
      (amb0 [] (names "x") 1 1) no_orders).2 eq_refl H1) end_confirmed _)).
  eexists. split; [vm_compute; reflexivity|].
  split; [split_and!; vm_compute; reflexivity|split; vm_compute; reflexivity].
Defined.

Lemma retry_is_answered_from_the_order_witness :
  (CreateOrder (buy ["us2"; "us1"] 700) (amb0 [] (names "y") 2 2) (bought 700).2).1.1 = (bought 700).1.1 /\
  (bought 700).1.1 = Err errPaymentDeclined.
Proof.
  split; [|vm_compute; reflexivity].
  assert (Hrow : exists row, tb_orders (os_db (bought 700).2) !! ("x0" : @UUID ref_uuid) = Some row /\
    od_status row = "FAILED") by (eexists; split; vm_compute; reflexivity).
  destruct Hrow as (row & Hrow & Hst).
  destruct (retry_is_answered_from_the_order (U := ref_uuid) (buy ["us1"; "us2"] 700) ["us2"; "us1"] (amb0 [] (names "x") 1 1)
    no_orders _ _ _ (amb0 [] (names "y") 2 2) _ _ _ "e" ["s1"; "s2"] row eq_refl eq_refl
    (perm_swap _ _ _) ltac:(done) no_orders_wf (Forall_nil_2 _) eq_refl (run_eta (bought 700)) Hrow
    ltac:(vm_compute; reflexivity) (run_eta _)) as (_ & Hans).
  exact (proj1 (proj2 (proj2 (Hans eq_refl ltac:(vm_compute; reflexivity) ltac:(vm_compute; reflexivity)))) Hst).
Defined.

(** The same two seats, the first one spelled in upper case. *)
Lemma respelled_retry_is_refused_witness :
  Reason (match (CreateOrder (buy ["Us1"; "us2"] 100) (amb0 [] (names "y") 2 2) (bought 100).2).1.1 with
          | Err e => Some e | Ok _ => None end) = ReasonIdempotencyKeyReused.
Proof.
  assert (Hrow : exists row, tb_orders (os_db (bought 100).2) !! ("x0" : @UUID ref_uuid) = Some row /\
    order_data (snapshot (U := ref_uuid) "x0" (buy ["Us1"; "us2"] 100)) "k1" row /\
    map uuid_string (od_seat_ids row) = ["us1"; "us2"])
    by (eexists; split; [vm_compute; reflexivity|split; [split_and!; vm_compute; reflexivity|vm_compute; reflexivity]]).
  destruct Hrow as (row & Hrow & Hdata & Hids).
  destruct (wp_run _ _ _ _ _ _ _ (run_eta (bought 100)) (CreateOrder_spec (U := ref_uuid)
    (buy ["us1"; "us2"] 100) (amb0 [] (names "x") 1 1) no_orders (conj (Forall_nil_2 _) no_orders_wf) eq_refl))
    as ([_ Hwf] & _).
  rewrite (respelled_retry_is_refused (U := ref_uuid) (buy ["Us1"; "us2"] 100) (amb0 [] (names "y") 2 2)
    (bought 100).2 "x0" row); try exact Hwf; try exact Hrow; try exact Hdata; try (vm_compute; reflexivity); try done.
  right. rewrite Hids. intros Hp. assert (Hin : "Us1" ∈ ["us1"; "us2"]) by (rewrite <- Hp; by left).
  by apply elem_of_cons in Hin as [?|[?|[]%elem_of_nil]%elem_of_cons].
Defined.
End Examples.
