(* ===== verification/System.v ===== *)
(** * The purchase across services

    order-svc's view of its peers as a contract ([BackendLaws]); the saga verified
    against the contract; and the inventory and payment services composed into the
    world that satisfies it. *)

From stdpp Require Import base gmap list strings numbers sorting.
From S2P Require Import Prelude Platform GoStrings Events Redis Instances Apierr Inventory InventorySpec.
From S2P Require Import InventoryInv InventoryTrace InventoryLive InventoryProps Payment Order OrderSpec OrderProps.

(** ** The contract *)

(** The world holds an inventory and a payments table; the peers change them only as
    their specifications say, and a refusal changes nothing but the record of a
    declined charge. *)
Class BackendLaws `{U : UuidLib} {J : ProtoJson} (W : Type) `{B : !Backends W} := {
  bk_inv : W -> inv_db;
  bk_pay : W -> gmap UUID payment_row;
  bk_reserve : forall req a w, wp (peer_ReserveSeats req) (fun r _ w' =>
    bk_pay w' = bk_pay w /\
    match r with
    | Ok _ => exists rows, reserved req (bk_inv w) (bk_inv w') rows
    | Err e => bk_inv w' = bk_inv w \/
        (isRefusal e = false /\ exists rows, reserved req (bk_inv w) (bk_inv w') rows)
    end) a w;
  bk_confirm : forall req a w, wp (peer_ConfirmSeats req) (fun r _ w' =>
    bk_pay w' = bk_pay w /\
    match r with
    | Ok _ => moved LConfirm (sr_EventId req) (sr_SeatIds req) (sr_OrderId req) (bk_inv w) (bk_inv w')
    | Err e => bk_inv w' = bk_inv w \/ (isRefusal e = false /\
        moved LConfirm (sr_EventId req) (sr_SeatIds req) (sr_OrderId req) (bk_inv w) (bk_inv w'))
    end) a w;
  bk_release : forall req a w, wp (peer_ReleaseSeats req) (fun r _ w' =>
    bk_pay w' = bk_pay w /\
    match r with
    | Ok _ => moved LRelease (sr_EventId req) (sr_SeatIds req) (sr_OrderId req) (bk_inv w) (bk_inv w')
    | Err e => bk_inv w' = bk_inv w \/ (isRefusal e = false /\
        moved LRelease (sr_EventId req) (sr_SeatIds req) (sr_OrderId req) (bk_inv w) (bk_inv w'))
    end) a w;
  bk_charge : forall req a w, wp (peer_Charge req) (fun r _ w' =>
    bk_inv w' = bk_inv w /\
    match r with
    | Ok _ => charged req "SUCCEEDED" (bk_pay w) (bk_pay w')
    | Err e => if isRefusal e then charged req "FAILED" (bk_pay w) (bk_pay w')
               else bk_pay w' = bk_pay w \/ exists st, charged req st (bk_pay w) (bk_pay w')
    end) a w;
}.

(** ** The saga against the contract *)

Section Saga.
Context `{U : UuidLib} {J : ProtoJson} {W : Type} {B : Backends W} {L : BackendLaws W}.
Context `{!UuidLaws U} `{!ProtoJsonLaws J}.

Implicit Types (s : ord_state W) (a : ambient) (w : W).

(** Nobody interferes, and only the peers change the world. *)
Definition alone (w : W) (s : ord_state W) : Prop := os_env s = [] /\ os_world s = w.

Lemma refusal_wire e : isRefusal (over_the_wire e) = isRefusal e.
Proof.
  unfold isRefusal, status_code, over_the_wire. destruct (from_error e) as [[[c msg] ds]|] eqn:E; cbn;
    by rewrite ?E.
Qed.

(** What the client knows of the world after a call. *)
Lemma call_peer_world {A} id c (h : prog W A) (Q : res A -> W -> Prop) a s w :
  alone w s ->
  (forall a, wp h (fun r _ w' => Q r w') a w) ->
  wp (call_peer id c h) (fun r _ s' => exists w', alone w' s' /\
    match r with
    | Ok x => Q (Ok x) w'
    | Err e => if isRefusal e then exists e', isRefusal e' = true /\ Q (Err e') w'
               else w' = w \/ exists r', Q r' w'
    end) a s.
Proof.
  intros [Henv <-] HQ. unfold call_peer. wp_steps. apply wp_interfere_none; [done|].
  assert (Ht : forall t, isRefusal (EStatus (transport_code t) "transport failure" []) = false)
    by (by intros []).
  apply wp_rpc.
  { intros _ t. exists (os_world s). split; [done|]. rewrite Ht. by left. }
  specialize (HQ (drop_fate a)). unfold wp in *. unfold at_peer.
  destruct (h (drop_fate a) (os_world s)) as [[r a'] w']. cbn. split.
  - exists w'. split; [done|]. destruct r as [x|e]; [done|].
    destruct (isRefusal (over_the_wire e)) eqn:E; rewrite refusal_wire in E; eauto.
  - intros _ t. exists w'. split; [done|]. rewrite Ht. right. eauto.
Qed.

Lemma insertOutbox_state tx o typ reason a s :
  wp (insertOutbox tx o typ reason) (fun _ _ s' => s' = s) a s.
Proof. by apply wp_insertOutbox. Qed.

Lemma transition_world o st typ reason a s w :
  alone w s -> wp (transition o st typ reason) (fun _ _ s' => alone w s') a s.
Proof.
  intros [Henv Hw]. unfold transition. wp_steps. apply wp_interfere_none; [done|]. wp_steps; try done.
  eapply wp_mono; [apply insertOutbox_state|]. cbn. intros [tx|e] a' s' ->; [|done].
  wp_steps. cbn. unfold recordOutcome. split; [|done]. by destruct typ; wp_steps.
Qed.

Lemma fail_world o reason a s w :
  alone w s -> wp (fail o reason) (fun r _ s' => r = Ok tt /\ alone w s') a s.
Proof.
  intros Hw. unfold fail. wp_steps. eapply wp_mono; [by apply transition_world|].
  cbn. intros r a' s' Hw'. by wp_steps.
Qed.

Lemma createOrder_world o key a s w :
  alone w s -> wp (createOrder o key) (fun _ _ s' => alone w s') a s.
Proof.
  intros [Henv Hw]. unfold createOrder. wp_steps. apply wp_interfere_none; [done|]. wp_steps; try done.
  apply wp_pg_arg; [|done]. intros user Huser. wp_steps.
  apply wp_pg_arg; [|done]. intros event Hevent. wp_steps.
  apply wp_pg_args; [|done]. intros seats Hseats. wp_steps; try done.
  eapply wp_mono; [apply insertOutbox_state|]. cbn. intros [tx|e] a' s' ->; [|done]. by wp_steps.
Qed.

(** Seats of the order were released, or they are as they were. *)
Definition maybe_released (o : orderSnapshot) (d d' : inv_db) : Prop :=
  d' = d \/ moved LRelease (o_EventID o) (o_SeatIDs o) (uuid_string (o_ID o)) d d'.

Definition seats_reserved (o : orderSnapshot) (d d' : inv_db) : Prop :=
  exists rows, reserved (seats_request o) d d' rows.

Definition charge_of (o : orderSnapshot) : ChargeRequest :=
  {| ch_OrderId := uuid_string (o_ID o); ch_AmountCents := o_AmountCents o |}.

(** What an answer tells of the world. *)
Definition world_after (o : orderSnapshot) (w : W) (r : res CreateOrderResponse) (w' : W) : Prop :=
  (is_ok r = true -> exists i,
     seats_reserved o (bk_inv w) i /\ charged (charge_of o) "SUCCEEDED" (bk_pay w) (bk_pay w') /\
     moved LConfirm (o_EventID o) (o_SeatIDs o) (uuid_string (o_ID o)) i (bk_inv w')) /\
  (r = Err errSeatsUnavailable -> bk_inv w' = bk_inv w /\ bk_pay w' = bk_pay w) /\
  (r = Err errPaymentDeclined -> exists i,
     seats_reserved o (bk_inv w) i /\ charged (charge_of o) "FAILED" (bk_pay w) (bk_pay w') /\
     maybe_released o i (bk_inv w')).

Lemma releaseSeats_world o a s w :
  alone w s ->
  wp (releaseSeats o) (fun r _ s' => r = Ok tt /\ exists w', alone w' s' /\ bk_pay w' = bk_pay w /\
    maybe_released o (bk_inv w) (bk_inv w')) a s.
Proof.
  intros Hw. unfold releaseSeats. wp_steps.
  eapply wp_mono; [apply call_peer_world; [done|intros; apply bk_release]|].
  cbn. intros r a' s' (w' & Hw' & Hr). wp_steps. split; [done|]. exists w'.
  unfold maybe_released. split; [done|]. destruct r as [x|e]; [destruct Hr; auto|].
  destruct (isRefusal e).
  - destruct Hr as (e' & He' & Hp & [Hr|[_ Hr]]); auto.
  - destruct Hr as [->|([x|e'] & Hp & Hr)]; [auto..|]. destruct Hr as [Hr|[_ Hr]]; auto.
Qed.

Lemma run_saga_world o a s w :
  alone w s ->
  wp (run_saga o) (fun r _ s' => exists w', alone w' s' /\ world_after o w r w') a s.
Proof.
  intros Hw. unfold run_saga, world_after. wp_steps.
  eapply wp_mono; [apply call_peer_world; [done|intros; apply bk_reserve]|].
  cbn. intros [x|e] a1 s1 (w1 & Hw1 & Hr1).
  2: { destruct (isRefusal e).
    - apply wp_bind. eapply wp_mono; [by apply fail_world|]. cbn. intros r a2 s2 [-> Hw2]. wp_steps.
      exists w1. split; [done|]. split_and!; [done| |done]. intros _.
      destruct Hr1 as (e' & He' & Hp & [Hi|[? _]]); [done|congruence].
    - apply wp_bind. eapply wp_mono; [by apply releaseSeats_world|]. cbn.
      intros r a2 s2 (-> & w2 & Hw2 & _). apply wp_bind. eapply wp_mono; [by apply fail_world|].
      cbn. intros r a3 s3 [-> Hw3]. wp_steps. by exists w2. }
  destruct Hr1 as [Hp1 Hres]. apply wp_bind, wp_attempt.
  eapply wp_mono; [apply call_peer_world; [done|intros; apply bk_charge]|].
  cbn. intros [y|e] a2 s2 (w2 & Hw2 & Hr2).
  2: { apply wp_bind. eapply wp_mono; [by apply releaseSeats_world|]. cbn.
    intros r a3 s3 (-> & w3 & Hw3 & Hp3 & Hrel3). destruct (isRefusal e).
    - apply wp_bind. eapply wp_mono; [by apply fail_world|]. cbn. intros r a4 s4 [-> Hw4]. wp_steps.
      exists w3. split; [done|]. split_and!; [done|done|]. intros _.
      destruct Hr2 as (e' & He' & Hi2 & Hr2). rewrite He' in Hr2.
      exists (bk_inv w1). split_and!; [done| |by rewrite <- Hi2]. by rewrite Hp3, <- Hp1.
    - apply wp_bind. eapply wp_mono; [by apply fail_world|].
      cbn. intros r a4 s4 [-> Hw4]. wp_steps. by exists w3. }
  destruct Hr2 as [Hi2 Hch]. apply wp_bind, wp_attempt.
  eapply wp_mono; [apply call_peer_world; [done|intros; apply bk_confirm]|].
  cbn. intros [z|e] a3 s3 (w3 & Hw3 & Hr3); [|wp_steps; by exists w3].
  destruct Hr3 as [Hp3 Hconf]. apply wp_bind, wp_attempt.
  eapply wp_mono; [by apply transition_world|]. cbn. intros [[]|e] a4 s4 Hw4; wp_steps;
    exists w3; (split; [done|]); [|done].
  split_and!; [|done|done]. intros _. exists (bk_inv w1). split_and!; [done| |by rewrite <- Hi2].
  by rewrite Hp3, <- Hp1.
Qed.

(** C8: what the answer of a [CreateOrder] that stored its order says about the other
    services, whatever calls failed or lost their answers.  A success: the seats were
    reserved for this order, its amount was charged with exactly one successful
    payment, and the same seats were sold to it.  "Seats unavailable": inventory and
    payments are untouched.  "Payment declined": exactly one declined payment was
    recorded, and the reserved seats were released again or are still on hold.  No other
    request runs in order-svc meanwhile. *)
Theorem answer_tells_the_world req a s r a' s' :
  let id := amb_uuid a (amb_next a) in
  os_env s = [] -> wf_ord (os_db s) -> tb_orders (os_db s) !! id = None ->
  CreateOrder req a s = (r, a', s') -> is_Some (tb_orders (os_db s') !! id) ->
  world_after (snapshot id req) (os_world s) r (os_world s').
Proof.
  intros id Henv Hwf Hnone. revert r a' s'. wp_start. unfold CreateOrder. wp_steps.
  destruct (validateCreateOrder req) as [u|e]; [|intros [row Hrow]; cbn in Hrow; fold id in Hrow; congruence].
  wp_steps. set (o := snapshot id req). change (snapshot (amb_uuid a (amb_next a)) req) with o.
  eapply wp_mono; [apply wp_conj;
    [by apply (createOrder_spec o); [split; [by rewrite Henv|done]|]|by apply createOrder_world]|].
  cbn. intros [[]|e] a1 s1 [(Hs1 & _ & Hr1) [Henv1 Hw1]]; wp_steps.
  - eapply wp_mono; [by apply run_saga_world|]. cbn.
    intros r a2 s2 (w2 & [_ <-] & Hafter) _. exact Hafter.
  - destruct Hr1 as [Hr1|[-> _]]; [|done]. eapply wp_mono; [by apply (replay_spec id)|]. cbn.
    intros r a2 s2 (_ & [Hrel _] & _) [row Hrow]. cbn in Hr1. fold id in Hr1. congruence.
  - intros [row Hrow]. destruct Hr1 as [Hr1|[-> _]].
    + cbn in Hr1. fold id in Hr1. congruence.
    + rewrite Hw1. split_and!; done.
Qed.
End Saga.

(** ** The real peers *)

Section World.
Context `{U : UuidLib} {J : ProtoJson} {R : Type} `{!RedisLib R}.

(** inventory-svc and payment-svc, side by side. *)
Definition world : Type := inv_state R * gmap UUID payment_row.

Definition in_inventory {A} (m : prog (inv_state R) A) : prog world A := fun a w =>
  match m a w.1 with (r, a', i) => (r, a', (i, w.2)) end.
Definition in_payment {A} (m : prog (gmap UUID payment_row) A) : prog world A := fun a w =>
  match m a w.2 with (r, a', p) => (r, a', (w.1, p)) end.

#[global] Instance world_backends : Backends world := {|
  peer_ReserveSeats req := in_inventory (ReserveSeats req);
  peer_ConfirmSeats req := in_inventory (ConfirmSeats req);
  peer_ReleaseSeats req := in_inventory (ReleaseSeats req);
  peer_Charge req := in_payment (Charge req);
|}.

Lemma wp_in_inventory {A} (m : prog (inv_state R) A) Q a (w : world) :
  wp m (fun r a' i => Q r a' (i, w.2)) a w.1 -> wp (in_inventory m) Q a w.
Proof. unfold wp, in_inventory. by destruct (m a w.1) as [[??]?]. Qed.

Lemma wp_in_payment {A} (m : prog (gmap UUID payment_row) A) Q a (w : world) :
  wp m (fun r a' p => Q r a' (w.1, p)) a w.2 -> wp (in_payment m) Q a w.
Proof. unfold wp, in_payment. by destruct (m a w.2) as [[??]?]. Qed.

Context `{!UuidLaws U} `{!ProtoJsonLaws J}.

(** The services keep the contract order-svc was verified against. *)
#[global] Program Instance world_laws : BackendLaws world := {|
  bk_inv w := is_db w.1;
  bk_pay w := w.2;
|}.
Next Obligation.
  intros req a w. apply wp_in_inventory. eapply wp_mono; [apply ReserveSeats_spec|]. cbn.
  intros [seats|e] a' i Hr; (split; [done|]).
  - destruct Hr as (rows & Hr & _). eauto.
  - destruct Hr as [Hr|(-> & Hr)]; auto.
Qed.
Next Obligation.
  intros req a w. apply wp_in_inventory. eapply wp_mono; [apply ConfirmSeats_spec|]. cbn.
  intros [seats|e] a' i Hr; (split; [done|]); [by destruct Hr|].
  destruct Hr as [Hr|(-> & Hr)]; auto.
Qed.
Next Obligation.
  intros req a w. apply wp_in_inventory. eapply wp_mono; [apply ReleaseSeats_spec|]. cbn.
  intros [seats|e] a' i Hr; (split; [done|]); [by destruct Hr|].
  destruct Hr as [Hr|(-> & Hr)]; auto.
Qed.
Next Obligation.
  intros req a w. apply wp_in_payment. eapply wp_mono; [apply Charge_spec|]. cbn.
  intros [pid|e] a' p Hr; (split; [done|]); [by destruct Hr|].
  unfold isRefusal. case_bool_decide; [by destruct Hr|]. destruct Hr as [Hr|Hr]; eauto.
Qed.
End World.

(** ** Witnesses *)

Section Examples.
Definition gig_world : ord_state (world (R := store)) :=
  Build_ord_state (os_db no_orders) (gig_state, ∅) [] [] [].

Definition gig_buy : CreateOrderRequest :=
  {| co_UserId := "uU"; co_EventId := "ux0"; co_SeatIds := ["ux1"; "ux2"]; co_AmountCents := 100;
     co_IdempotencyKey := "" |}.

Definition gig_bought : res CreateOrderResponse * ambient * ord_state (world (R := store)) :=
  CreateOrder gig_buy (amb0 [] (names "o") 1 1) gig_world.

Lemma answer_tells_the_world_witness :
  charged (U := ref_uuid) (charge_of (snapshot (U := ref_uuid) "o0" gig_buy)) "SUCCEEDED" ∅
    (os_world gig_bought.2).2.
Proof.
  destruct (answer_tells_the_world (U := ref_uuid) gig_buy (amb0 [] (names "o") 1 1) gig_world _ _ _
    eq_refl no_orders_wf eq_refl (run_eta gig_bought)) as [Hok _].
  - eexists. vm_compute. reflexivity.
  - destruct Hok as (i & _ & Hch & _); [vm_compute; reflexivity|]. exact Hch.
Defined.
End Examples.
