(* ===== verification/Kafka.v ===== *)
(** * Kafka messages and the producer ([pkg/kafka/message.go], [producer.go])

    The package's own message type, its translation to and from the driver's, and the
    retry that a write to an unknown topic gets. *)

From stdpp Require Import base gmap list strings numbers sorting.
From S2P Require Import Prelude Platform.

(** ** Messages *)

Record Message := {
  msg_Topic : string;
  msg_Partition : Z;
  msg_Offset : Z;
  msg_Key : string;
  msg_Value : string;
  msg_Headers : gmap string string;
}.

#[global] Instance Message_eq_dec : EqDecision Message.
Proof. solve_decision. Defined.

(** The driver's record: headers are a list. *)
Record KMessage := {
  km_Topic : string;
  km_Partition : Z;
  km_Offset : Z;
  km_Key : string;
  km_Value : string;
  km_Headers : list (string * string);
}.

#[global] Instance KMessage_eq_dec : EqDecision KMessage.
Proof. solve_decision. Defined.

(** [range m.Headers] visits the map in an order Go leaves open: [order] is the list of
    entries it happened to visit. *)
Definition toKafka (order : list (string * string)) (m : Message) : KMessage :=
  {| km_Topic := ""; km_Partition := 0; km_Offset := 0; km_Key := msg_Key m;
     km_Value := msg_Value m; km_Headers := order |}.

Definition fromKafka (m : KMessage) : Message :=
  {| msg_Topic := km_Topic m; msg_Partition := km_Partition m; msg_Offset := km_Offset m;
     msg_Key := km_Key m; msg_Value := km_Value m;
     msg_Headers := foldl (fun h kv => <[kv.1 := kv.2]> h) ∅ (km_Headers m) |}.

(** ** The producer's retry *)

(** What the driver's [WriteMessages] returns: one error, or one per message. *)
Inductive kafka_cause := UnknownTopicOrPartition | OtherKafka (msg : string).

Inductive kafka_error :=
  | KafkaError (e : kafka_cause)
  | WriteErrors (es : list (option kafka_cause)).

Definition is_unknown (e : kafka_cause) : bool :=
  match e with UnknownTopicOrPartition => true | OtherKafka _ => false end.

(** [isUnknownTopic]: for a write of several messages, every failed one must say so. *)
Definition isUnknownTopic (e : kafka_error) : bool :=
  match e with
  | WriteErrors es =>
      forallb (fun o => match o with None => true | Some e => is_unknown e end) es
  | KafkaError e => is_unknown e
  end.

Definition unknownTopicAttempts : nat := 8.

Section Retry.
Context {S : Type}.

(** The [n]-th [write] changes the broker's state and returns nil or an error. *)
Variable write : nat -> S -> option kafka_error * S.
(** Whether the context ends while waiting after attempt [n]. *)
Variable done_after : nat -> bool.

(** The loop from [attempt] on, with [left] attempts to go. *)
Fixpoint retry_from (left attempt : nat) (err : option kafka_error) (s : S) : option kafka_error * S :=
  match left with
  | O => (err, s)
  | Datatypes.S left' =>
      match write attempt s with
      | (None, s') => (None, s')
      | (Some e, s') =>
          if negb (isUnknownTopic e) then (Some e, s')
          else if bool_decide (left' = 0) then (Some e, s')
          else if done_after attempt then (Some e, s')
          else retry_from left' (attempt + 1) (Some e) s'
      end
  end.

Definition retryUnknownTopic (attempts : nat) (s : S) : option kafka_error * S :=
  retry_from attempts 1 None s.
End Retry.

(** [Producer.Publish]: convert, write with retries. *)
Definition Publish {S} (write : list KMessage -> nat -> S -> option kafka_error * S)
    (order : Message -> list (string * string)) (done_after : nat -> bool)
    (msgs : list Message) (s : S) : option kafka_error * S :=
  retryUnknownTopic (write (map (fun m => toKafka (order m) m) msgs)) done_after
    unknownTopicAttempts s.

(** ** Properties *)

Lemma headers_fold (l : list (string * string)) (h0 h : gmap string string) :
  NoDup (l.*1) -> (forall k, k ∈ l.*1 -> h0 !! k = None) -> l ≡ₚ map_to_list h ->
  forall k, foldl (fun h kv => <[kv.1 := kv.2]> h) h0 l !! k = (list_to_map l ∪ h0) !! k.
Proof.
  intros Hnd Hdis _ k. revert h0 Hdis. induction l as [|[k1 v1] l IH]; intros h0 Hdis; cbn.
  { by rewrite (left_id_L ∅ (∪)). }
  cbn in Hnd. apply NoDup_cons in Hnd as [Hni Hnd]. rewrite IH; [|done|].
  - rewrite <- insert_union_r by (by apply not_elem_of_list_to_map_1). by rewrite insert_union_l.
  - intros k' Hk'. rewrite lookup_insert_ne; [apply Hdis; by right|]. by intros ->.
Qed.

(** A message's key, value and headers survive the trip through the driver's
    representation, whatever order the header map was iterated in. *)
Lemma headers_round_trip order m :
  order ≡ₚ map_to_list (msg_Headers m) ->
  let m' := fromKafka (toKafka order m) in
  msg_Key m' = msg_Key m /\ msg_Value m' = msg_Value m /\ msg_Headers m' = msg_Headers m.
Proof.
  intros Hp m'. split_and!; [done..|]. apply map_eq. intros k. cbn.
  assert (Hnd : NoDup (order.*1)) by (rewrite Hp; apply NoDup_fst_map_to_list).
  rewrite (headers_fold order ∅ (msg_Headers m)); [|done|by intros; rewrite lookup_empty|done].
  rewrite (right_id_L ∅ (∪)), (list_to_map_proper _ _ Hnd Hp). by rewrite list_to_map_to_list.
Qed.

(** Attempt [n] was answered "unknown topic", so nothing was stored. *)
Definition rejected {S} (write : nat -> S -> option kafka_error * S) (n : nat) (s : S) : Prop :=
  exists e, write n s = (Some e, s) /\ isUnknownTopic e = true.

Lemma retry_from_spec {S} (write : nat -> S -> option kafka_error * S) done_after left attempt err s :
  (forall n s e s', write n s = (Some e, s') -> isUnknownTopic e = true -> s' = s) ->
  0 < left ->
  exists k, attempt <= k < attempt + left /\
    retry_from write done_after left attempt err s = write k s /\
    (forall j, attempt <= j < k -> rejected write j s /\ done_after j = false) /\
    (rejected write k s -> k + 1 = attempt + left \/ done_after k = true).
Proof.
  intros Hlaw. revert attempt err. induction left as [|left IH]; intros attempt err Hlt; [lia|].
  cbn. destruct (write attempt s) as [[e|] s'] eqn:E.
  2: { exists attempt. split_and!; [lia|lia|by rewrite E|lia|]. intros (e & He & _). congruence. }
  destruct (isUnknownTopic e) eqn:Hu; cbn.
  2: { exists attempt. split_and!; [lia|lia|by rewrite E|lia|]. intros (e' & He & Hu'). congruence. }
  pose proof (Hlaw _ _ _ _ E Hu) as ->. case_bool_decide as Hl.
  { exists attempt. split_and!; [lia|lia|by rewrite E|lia|]. intros _. left. lia. }
  destruct (done_after attempt) eqn:Hd.
  { exists attempt. split_and!; [lia|lia|by rewrite E|lia|]. by right. }
  destruct (IH (attempt + 1) (Some e)) as (k & Hk & Hr & Hj & Hend); [lia|].
  exists k. split_and!; [lia|lia|done| |].
  - intros j Hjk. destruct (decide (j = attempt)) as [->|]; [|apply Hj; lia].
    split; [by exists e|done].
  - intros [?|?]%Hend; [left; lia|by right].
Qed.

(** If a rejection for an unknown topic stores nothing, [Publish] has the effect and
    the answer of exactly one write, at most the eighth: the first that was not
    rejected, or the last one made before the attempts or the context ran out.  So a
    batch is never stored twice by the retry. *)
Lemma publish_stores_once {S} (write : list KMessage -> nat -> S -> option kafka_error * S)
    order done_after msgs (s : S) :
  (forall out n s e s', write out n s = (Some e, s') -> isUnknownTopic e = true -> s' = s) ->
  let out := map (fun m => toKafka (order m) m) msgs in
  exists k, 1 <= k <= 8 /\ Publish write order done_after msgs s = write out k s /\
    (forall j, 1 <= j < k -> rejected (write out) j s /\ done_after j = false) /\
    (rejected (write out) k s -> k = 8 \/ done_after k = true).
Proof.
  intros Hlaw out. unfold Publish, retryUnknownTopic.
  destruct (retry_from_spec (write out) done_after unknownTopicAttempts 1 None s (Hlaw out))
    as (k & Hk & Hr & Hj & Hend); [unfold unknownTopicAttempts; lia|].
  unfold unknownTopicAttempts in *. exists k. split; [lia|]. split_and!; [done|done|].
  intros [?|?]%Hend; [left; lia|by right].
Qed.

(** The topic becomes known at the third attempt. *)
Definition late_topic (out : list KMessage) (n : nat) (s : list KMessage)
    : option kafka_error * list KMessage :=
  if bool_decide (n < 3) then (Some (KafkaError UnknownTopicOrPartition), s) else (None, s ++ out).

Definition plain : Message :=
  {| msg_Topic := ""; msg_Partition := 0; msg_Offset := 0; msg_Key := "k"; msg_Value := "v";
     msg_Headers := ∅ |}.

Lemma publish_stores_once_witness :
  (exists k, 1 <= k <= 8 /\
     Publish late_topic (fun m => map_to_list (msg_Headers m)) (fun _ => false) [plain] [] =
       late_topic [toKafka [] plain] k []) /\
  Publish late_topic (fun m => map_to_list (msg_Headers m)) (fun _ => false) [plain] [] =
    (None, [toKafka [] plain]).
Proof.
  split; [|vm_compute; reflexivity].
  destruct (publish_stores_once late_topic (fun m => map_to_list (msg_Headers m)) (fun _ => false)
    [plain] []) as (k & Hk & Hr & _).
  - intros out n s e s'. unfold late_topic. case_bool_decide; [by intros [= _ ->]|done].
  - exists k. split; [exact Hk|exact Hr].
Defined.
