(* ===== verification/Outbox.v ===== *)
(** * The outbox publisher ([pkg/outbox/publisher.go])

    It relays unpublished rows to Kafka, oldest first, and marks them published in the
    transaction that locked them.  [publishBatch] and [Run] are the code; [OutboxRace] lets
    any number of replicas and writers interleave at its statements, within the step relation
    of [OutboxSpec]. *)

From Stdlib Require Import Ascii String.
From stdpp Require Import base gmap list strings numbers sorting.
From S2P Require Import Prelude Platform GoStrings Events Kafka.

(** ** Table names *)

Record Table := { tbl_Name : string; tbl_KeyColumn : string }.

(** [Table.validate]: the names are spliced into SQL. *)
Definition validate (t : Table) : res unit :=
  if negb (match_identifier (tbl_Name t)) || negb (match_identifier (tbl_KeyColumn t))
  then Err (EText ("outbox: " +:+ tbl_Name t +:+ " and " +:+ tbl_KeyColumn t
                   +:+ " must be plain lower-case SQL identifiers"))
  else Ok tt.

(** ** Kafka as the publisher sees it *)

(** [kafka.Publisher]: what a topic holds, and a publish call. *)
Class KafkaPublisher `{U : UuidLib} (K : Type) := {
  kafka_log : K -> list Message;
  kafka_publish : list Message -> prog K unit;
}.

(** A publish that returned nil stored every message, once: a write that the client library
    repeats by itself without telling counts as one that failed and was sent again.  A failed
    publish may have stored some of the messages; one that no fault hit succeeds. *)
Class KafkaPublisherLaws `{U : UuidLib} (K : Type) `{!KafkaPublisher K} : Prop := {
  kafka_publish_log : forall msgs a k, wp (kafka_publish msgs) (fun r _ k' => exists stored,
    kafka_log k' = kafka_log k ++ stored /\ sublist stored msgs /\ (r = Ok tt -> stored = msgs)) a k;
  kafka_publish_live : forall msgs a k, no_faults a ->
    wp (kafka_publish msgs) (fun r a' _ => r = Ok tt /\ a' = a) a k;
}.

(** ** The publisher *)

Section Publisher.
Context `{U : UuidLib} `{!PgOrder U} {K : Type} `{!KafkaPublisher K}.

(** The outbox table, Kafka, the rows other replicas have locked, and the counter
    [ticketwave_outbox_published_total]. *)
Record pub_state := {
  ps_rows : list outbox_row;
  ps_kafka : K;
  ps_locked : list UUID;
  ps_published : Z;
}.

#[global] Instance pub_has_db : HasDb pub_state (list outbox_row) := {|
  db_get := ps_rows;
  db_set := fun d s => {| ps_rows := d; ps_kafka := ps_kafka s; ps_locked := ps_locked s;
                          ps_published := ps_published s |};
|}.

Definition in_kafka {A} (m : prog K A) : prog pub_state A := fun a s =>
  match m a (ps_kafka s) with
  | (r, a', k) => (r, a', {| ps_rows := ps_rows s; ps_kafka := k; ps_locked := ps_locked s;
                             ps_published := ps_published s |})
  end.

Definition batch : nat := 100.

(** [ORDER BY created_at, id] *)
Definition row_le (x y : outbox_row) : Prop :=
  (ob_created_at x < ob_created_at y)%Z \/
  (ob_created_at x = ob_created_at y /\ uuid_le (ob_id x) (ob_id y)).

#[global] Instance row_le_dec : RelDecision row_le.
Proof. unfold row_le. intros x y. apply _. Defined.

(** The unpublished rows nobody else has locked, oldest first. *)
Definition waiting (locked : list UUID) (rows : list outbox_row) : list outbox_row :=
  merge_sort row_le (filter (fun r => ob_published r = false /\ ob_id r ∉ locked) rows).

Definition to_message (r : outbox_row) : Message :=
  {| msg_Topic := ""; msg_Partition := 0; msg_Offset := 0; msg_Key := uuid_string (ob_key r);
     msg_Value := ob_payload r;
     msg_Headers := <[HeaderMessageID := uuid_string (ob_id r)]>
                      {[HeaderEventType := ob_event_type r]} |}.

(** [UPDATE .. SET published = true, published_at = now() WHERE id = ANY(ids)] *)
Definition mark (ids : list UUID) (now : Z) (rows : list outbox_row) : list outbox_row :=
  map (fun r => if bool_decide (ob_id r ∈ ids)
                then {| ob_id := ob_id r; ob_key := ob_key r; ob_event_type := ob_event_type r;
                        ob_payload := ob_payload r; ob_published := true;
                        ob_published_at := Some now; ob_created_at := ob_created_at r |}
                else r) rows.

Definition add_published (n : Z) : prog pub_state unit := modify (fun s =>
  {| ps_rows := ps_rows s; ps_kafka := ps_kafka s; ps_locked := ps_locked s;
     ps_published := (ps_published s + n)%Z |}).

Definition publishBatch : prog pub_state nat :=
  tx ← tx_begin (EWrap "begin tx");
  _ ← pg_call (EWrap "select unpublished rows");
  s ← get_state;
  let rows := take batch (waiting (ps_locked s) tx) in
  let ids := map ob_id rows in
  let msgs := map to_message rows in
  _ ← pg_call (EWrap "iterate outbox rows");
  if bool_decide (length msgs = 0) then mret 0 else
  sent ← attempt (in_kafka (kafka_publish msgs));
  match sent with
  | Err e => throw (EWrap ("publish " +:+ itoa (Z.of_nat (length msgs)) +:+ " event(s)") e)
  | Ok _ =>
      _ ← pg_call (EWrap "mark rows published");
      now ← tx_now;
      _ ← tx_commit (EWrap "commit") (mark ids now tx);
      _ ← add_published (Z.of_nat (length msgs));
      mret (length msgs)
  end.

(** [Run]: [checks] are the answers of [ctx.Err()] and of the waits, in order; the loop
    ends with the first that says the context is done.  The code goes round for ever; the model
    looks at as many rounds as there are answers. *)
Fixpoint Run (checks : list bool) : prog pub_state unit :=
  match checks with
  | [] => mret tt
  | cancelled :: rest =>
      r ← attempt publishBatch;
      if (cancelled : bool) then mret tt else
      match r with
      | Ok (S _) => Run rest
      | _ => match rest with
             | [] => mret tt
             | done :: rest' => if (done : bool) then mret tt else Run rest'
             end
      end
  end.
End Publisher.

(** ** Setting up ([NewPublisher]) *)

Definition interval : Z := 200 * 10 ^ 6.          (* 200 * time.Millisecond *)

Record Publisher := {
  pb_interval : Z;
  pb_batch : nat;
  pb_table : string;
  pb_selectSQL : string;
  pb_updateSQL : string;
}.

Definition tabs : string := String "010" "			".

(** The statements have the names spliced in; the constructor panics on an invalid table. *)
Definition NewPublisher (table : Table) : res Publisher :=
  match validate table with
  | Err e => Err e
  | Ok _ => Ok
      {| pb_interval := interval; pb_batch := batch; pb_table := tbl_Name table;
         pb_selectSQL := "SELECT id, " +:+ tbl_KeyColumn table +:+ ", event_type, payload" +:+ tabs +:+
           "   FROM " +:+ tbl_Name table +:+ tabs +:+ "  WHERE published = false" +:+ tabs +:+
           "  ORDER BY created_at, id" +:+ tabs +:+ "  LIMIT $1" +:+ tabs +:+ "    FOR UPDATE SKIP LOCKED";
         pb_updateSQL := "UPDATE " +:+ tbl_Name table +:+
           " SET published = true, published_at = now() WHERE id = ANY($1)" |}
  end.

(** What is spliced into the statements are names of at most 63 lower-case letters, digits and
    underscores. *)
Lemma spliced_names_are_plain table p :
  NewPublisher table = Ok p ->
  Forall (fun name => Z.of_nat (String.length name) <= 63 /\ forallb ident_byte (list_ascii_of_string name) = true)%Z
    [tbl_Name table; tbl_KeyColumn table].
Proof.
  assert (Hp : forall name, match_identifier name = true ->
    (Z.of_nat (String.length name) <= 63)%Z /\ forallb ident_byte (list_ascii_of_string name) = true).
  { intros name. unfold match_identifier.
    replace (String.length name) with (length (list_ascii_of_string name))
      by (induction name as [|b name IH]; cbn; congruence).
    destruct (list_ascii_of_string name) as [|b l]; [done|].
    intros [[Hb Hl]%andb_true_iff Hall]%andb_true_iff. cbn. unfold ident_byte at 1. rewrite Hb, Hall. split; [lia|done]. }
  unfold NewPublisher, validate. destruct (match_identifier (tbl_Name table)) eqn:E1; [|done].
  destruct (match_identifier (tbl_KeyColumn table)) eqn:E2; [|done]. intros _. repeat constructor; by apply Hp.
Qed.

Arguments pub_state {U} K.
Arguments ps_rows {U K}.
Arguments ps_kafka {U K}.
Arguments ps_locked {U K}.
Arguments ps_published {U K}.
Arguments Build_pub_state {U K}.

#[global] Arguments waiting : simpl never.
#[global] Arguments batch : simpl never.

(** ** Lemmas *)

Section Lemmas.
Context `{U : UuidLib} `{!PgOrder U} {K : Type} `{!KafkaPublisher K} `{!KafkaPublisherLaws K}.

Implicit Types (s : pub_state K) (a : ambient).

Lemma wp_in_kafka {A} (m : prog K A) Q a s :
  wp m (fun r a' k => Q r a' {| ps_rows := ps_rows s; ps_kafka := k; ps_locked := ps_locked s;
                                ps_published := ps_published s |}) a (ps_kafka s) ->
  wp (in_kafka m) Q a s.
Proof. unfold wp, in_kafka. by destruct (m a (ps_kafka s)) as [[??]?]. Qed.

Lemma elem_of_waiting locked rows r :
  r ∈ waiting locked rows <-> r ∈ rows /\ ob_published r = false /\ ob_id r ∉ locked.
Proof. unfold waiting. rewrite merge_sort_Permutation, list_elem_of_filter. tauto. Qed.

Lemma map_ob_id_mark ids now rows : map ob_id (mark ids now rows) = map ob_id rows.
Proof. unfold mark. rewrite map_map. apply map_ext. intros r. by case_bool_decide. Qed.

Lemma to_message_mark r ids now : forall r', r' ∈ mark ids now [r] -> to_message r' = to_message r.
Proof. cbn. intros r' ->%list_elem_of_singleton. by case_bool_decide. Qed.

(** Marking changes nothing but the two published columns of the named rows. *)
Lemma elem_of_mark ids now rows r' :
  r' ∈ mark ids now rows -> exists r, r ∈ rows /\ to_message r' = to_message r /\ ob_id r' = ob_id r /\
    ob_created_at r' = ob_created_at r /\
    (ob_published r' = true <-> ob_published r = true \/ ob_id r ∈ ids).
Proof.
  intros (r & -> & Hr)%list_elem_of_fmap. exists r. case_bool_decide; split_and!; try done; tauto.
Qed.

(** What one batch did: nothing; or its messages (or some, if the publish failed) are
    in Kafka and nothing is marked; or they are all there and marked. *)
Lemma publishBatch_spec a s :
  wp publishBatch (fun r _ s' => ps_locked s' = ps_locked s /\
    let rows := take batch (waiting (ps_locked s) (ps_rows s)) in
    exists stored, kafka_log (ps_kafka s') = kafka_log (ps_kafka s) ++ stored /\
      sublist stored (map to_message rows) /\
      match r with
      | Ok n => n = length rows /\ stored = map to_message rows /\
                exists now, ps_rows s' = mark (map ob_id rows) now (ps_rows s)
      | Err _ => ps_rows s' = ps_rows s \/ (stored = map to_message rows /\
                exists now, ps_rows s' = mark (map ob_id rows) now (ps_rows s))
      end) a s.
Proof.
  unfold publishBatch. wp_steps; cbn.
  - reflect_bools. rewrite length_map in Heqb. apply nil_length_inv in Heqb. cbn in Heqb.
    split; [done|]. exists []. rewrite app_nil_r, Heqb. split_and!; try done. exists 0%Z. cbn.
    unfold mark. rewrite <- (map_id (ps_rows s)) at 1. apply map_ext. intros r.
    by rewrite bool_decide_eq_false_2 by apply not_elem_of_nil.
  - apply wp_in_kafka. eapply wp_mono; [apply kafka_publish_log|]. cbn.
    intros [[]|e] a1 k1 (stored & Hlog & Hsub & Hok).
    + rewrite (Hok eq_refl) in *. unfold add_published. wp_steps; cbn; (split; [done|]); eexists;
        (split; [exact Hlog|]); (split; [done|]).
      * rewrite length_map. split_and!; [done..|by eexists].
      * right. split; [done|]. by eexists.
      * by left.
      * by left.
    + wp_steps. split; [done|]. exists stored. split_and!; [done..|by left].
  - split; [done|]. exists []. rewrite app_nil_r. split_and!; [done|apply sublist_nil_l|by left].
  - split; [done|]. exists []. rewrite app_nil_r. split_and!; [done|apply sublist_nil_l|by left].
  - split; [done|]. exists []. rewrite app_nil_r. split_and!; [done|apply sublist_nil_l|by left].
Qed.

Lemma publishBatch_live a s :
  no_faults a -> wp publishBatch (fun r a' _ => is_ok r = true /\ a' = a) a s.
Proof.
  intros Hnf. unfold publishBatch. wp_steps; try no_fault; rewrite !drop_fate_none by auto with prog; try done.
  apply wp_in_kafka. eapply wp_mono; [by apply kafka_publish_live|]. cbn.
  intros r a1 k1 [-> ->]. unfold add_published. wp_steps; try no_fault; by rewrite !drop_fate_none by auto with prog.
Qed.
End Lemmas.
