(* ===== verification/OutboxSpec.v ===== *)
(** * The outbox relay: specification, refinement, delivery

    Any number of replicas relay one outbox while transactions keep appending rows:
    [pub_step] is what each of them may do, atomically.  A run of [publishBatch] is such
    a sequence of steps.  Nothing that is marked published is missing from Kafka, rows
    are never sent by two replicas at once, and without failures nothing is sent twice. *)

From stdpp Require Import base gmap list strings numbers sorting relations.
From S2P Require Import Prelude Platform GoStrings Events Kafka Instances Outbox.

(** ** The relay as a state machine *)

Section Relay.
Context `{U : UuidLib}.

(** The table, the topic, and for each busy replica the rows it has locked and whether
    all of their messages were acknowledged. *)
Record relay := Relay {
  rl_rows : list outbox_row;
  rl_log : list Message;
  rl_locks : gmap nat (list UUID * bool);
}.

Inductive relay_label :=
  | RInsert                (* a transaction appended a row *)
  | RTake (i : nat)        (* replica [i] selected and locked rows *)
  | RSend (i : nat)        (* its publish was acknowledged *)
  | RSendFailed (i : nat)  (* its publish failed, some messages may be stored *)
  | RCommit (i : nat)      (* it marked its rows published *)
  | RAbort (i : nat).      (* it failed or died, its locks are gone *)

Definition messages_of (ids : list UUID) (rows : list outbox_row) : list Message :=
  map to_message (filter (fun r => ob_id r ∈ ids) rows).

Inductive pub_step : relay_label -> relay -> relay -> Prop :=
  | relay_insert row rows log locks :
      ob_id row ∉ map ob_id rows -> ob_published row = false ->
      pub_step RInsert {| rl_rows := rows; rl_log := log; rl_locks := locks |}
        {| rl_rows := rows ++ [row]; rl_log := log; rl_locks := locks |}
  | relay_take i ids rows log locks :
      locks !! i = None -> NoDup ids ->
      (forall id, id ∈ ids -> exists r, r ∈ rows /\ ob_id r = id /\ ob_published r = false) ->
      (forall j ids' b id, locks !! j = Some (ids', b) -> id ∈ ids -> id ∉ ids') ->
      pub_step (RTake i) {| rl_rows := rows; rl_log := log; rl_locks := locks |}
        {| rl_rows := rows; rl_log := log; rl_locks := <[i := (ids, false)]> locks |}
  | relay_send i ids stored rows log locks :
      locks !! i = Some (ids, false) -> stored ≡ₚ messages_of ids rows ->
      pub_step (RSend i) {| rl_rows := rows; rl_log := log; rl_locks := locks |}
        {| rl_rows := rows; rl_log := log ++ stored; rl_locks := <[i := (ids, true)]> locks |}
  | relay_send_failed i ids stored rows log locks :
      locks !! i = Some (ids, false) -> stored ⊆+ messages_of ids rows ->
      pub_step (RSendFailed i) {| rl_rows := rows; rl_log := log; rl_locks := locks |}
        {| rl_rows := rows; rl_log := log ++ stored; rl_locks := locks |}
  | relay_commit i ids now rows log locks :
      locks !! i = Some (ids, true) ->
      pub_step (RCommit i) {| rl_rows := rows; rl_log := log; rl_locks := locks |}
        {| rl_rows := mark ids now rows; rl_log := log; rl_locks := delete i locks |}
  | relay_abort i ids b rows log locks :
      locks !! i = Some (ids, b) ->
      pub_step (RAbort i) {| rl_rows := rows; rl_log := log; rl_locks := locks |}
        {| rl_rows := rows; rl_log := log; rl_locks := delete i locks |}.

Inductive relay_trace : list relay_label -> relay -> relay -> Prop :=
  | trace_nil x : relay_trace [] x x
  | trace_cons l ls x y z : pub_step l x y -> relay_trace ls y z -> relay_trace (l :: ls) x z.

(** At least once: what is marked is in the topic, and nothing else gets there. *)
Record relay_ok (x : relay) : Prop := {
  ro_ids : NoDup (map ob_id (rl_rows x));
  ro_published : forall r, r ∈ rl_rows x -> ob_published r = true -> to_message r ∈ rl_log x;
  ro_locked : forall i ids b, rl_locks x !! i = Some (ids, b) ->
    forall id, id ∈ ids -> exists r, r ∈ rl_rows x /\ ob_id r = id /\ ob_published r = false;
  ro_disjoint : forall i j ids ids' b b' id, i <> j -> rl_locks x !! i = Some (ids, b) ->
    rl_locks x !! j = Some (ids', b') -> id ∈ ids -> id ∉ ids';
  ro_sent : forall i ids, rl_locks x !! i = Some (ids, true) ->
    forall r, r ∈ rl_rows x -> ob_id r ∈ ids -> to_message r ∈ rl_log x;
  ro_origin : forall m, m ∈ rl_log x -> exists r, r ∈ rl_rows x /\ m = to_message r;
}.

(** Exactly once so far: each row's message is in the topic only if the row is marked or
    about to be, and then once. *)
Record relay_clean (x : relay) : Prop := {
  rc_nodup : NoDup (rl_log x);
  rc_accounted : forall r, r ∈ rl_rows x -> to_message r ∈ rl_log x ->
    ob_published r = true \/ exists i ids, rl_locks x !! i = Some (ids, true) /\ ob_id r ∈ ids;
}.
End Relay.

(** ** Lemmas *)

Section Lemmas.
Context `{U : UuidLib} `{!UuidLaws U}.

Implicit Types (x y : relay).

Lemma row_by_id (rows : list outbox_row) r r' :
  NoDup (map ob_id rows) -> r ∈ rows -> r' ∈ rows -> ob_id r = ob_id r' -> r = r'.
Proof.
  intros Hnd Hr Hr' E. apply list_elem_of_lookup in Hr as [i Hi], Hr' as [j Hj].
  assert (i = j) as ->; [|congruence].
  eapply (NoDup_lookup _ i j (ob_id r) Hnd); [|rewrite E]; rewrite list_lookup_fmap.
  - by rewrite Hi.
  - by rewrite Hj.
Qed.

Lemma to_message_id r r' : to_message r = to_message r' -> ob_id r = ob_id r'.
Proof.
  intros E. apply (f_equal (fun m => msg_Headers m !! HeaderMessageID)) in E. cbn in E.
  rewrite !lookup_insert_eq in E. injection E as E. by apply (inj uuid_string).
Qed.

Lemma elem_of_messages ids rows m :
  m ∈ messages_of ids rows <-> exists r, r ∈ rows /\ ob_id r ∈ ids /\ m = to_message r.
Proof.
  unfold messages_of. rewrite list_elem_of_fmap. setoid_rewrite list_elem_of_filter.
  split; intros (r & ?); exists r; tauto.
Qed.

Lemma relay_ok_insert row rows log locks :
  ob_id row ∉ map ob_id rows -> ob_published row = false ->
  relay_ok (Relay rows log locks) -> relay_ok (Relay (rows ++ [row]) log locks).
Proof.
  intros Hfresh Hpub [I1 I2 I3 I4 I5 I6]. split; cbn in *.
  + rewrite map_app. apply NoDup_app. split_and!; [done| |apply NoDup_singleton].
    by intros u Hu ->%list_elem_of_singleton.
  + intros r [Hr| ->%list_elem_of_singleton]%elem_of_app Hp; [by auto|congruence].
  + intros i ids b Hi id (r & Hr & ?)%(I3 _ _ _ Hi). exists r. split; [by apply elem_of_app; left|done].
  + done.
  + intros i ids Hi r [Hr| ->%list_elem_of_singleton]%elem_of_app Hin; [by eauto|].
    exfalso. destruct (I3 _ _ _ Hi _ Hin) as (r' & Hr' & E & _). apply Hfresh. rewrite <- E.
    by apply list_elem_of_fmap_2.
  + intros m (r & Hr & ->)%I6. exists r. split; [by apply elem_of_app; left|done].
Qed.

Lemma relay_ok_take i ids rows log locks :
  locks !! i = None ->
  (forall id, id ∈ ids -> exists r, r ∈ rows /\ ob_id r = id /\ ob_published r = false) ->
  (forall j ids' b id, locks !! j = Some (ids', b) -> id ∈ ids -> id ∉ ids') ->
  relay_ok (Relay rows log locks) -> relay_ok (Relay rows log (<[i := (ids, false)]> locks)).
Proof.
  intros Hi Hids Hdis [I1 I2 I3 I4 I5 I6]. split; cbn in *; try done.
  + intros j ids' b. destruct (decide (j = i)) as [->|Hne].
    * rewrite lookup_insert_eq. by intros [= <- <-].
    * rewrite lookup_insert_ne by done. apply I3.
  + intros j k ids1 ids2 b1 b2 id Hjk.
    destruct (decide (j = i)) as [->|Hj], (decide (k = i)) as [->|Hk]; [done|..];
      rewrite ?lookup_insert_eq, ?lookup_insert_ne by done.
    * intros [= <- <-] Hk2 Hin. by eapply Hdis.
    * intros Hj1 [= <- <-] Hin Hin'. by eapply Hdis.
    * by apply I4.
  + intros j ids'. destruct (decide (j = i)) as [->|Hne].
    * by rewrite lookup_insert_eq.
    * rewrite lookup_insert_ne by done. apply I5.
Qed.

Lemma relay_ok_send i ids stored rows log locks :
  locks !! i = Some (ids, false) -> stored ≡ₚ messages_of ids rows ->
  relay_ok (Relay rows log locks) -> relay_ok (Relay rows (log ++ stored) (<[i := (ids, true)]> locks)).
Proof.
  intros Hi Hst [I1 I2 I3 I4 I5 I6]. split; cbn in *; try done.
  + intros r Hr Hp. apply elem_of_app. left. by auto.
  + intros j ids' b. destruct (decide (j = i)) as [->|Hne].
    * rewrite lookup_insert_eq. intros [= <- <-]. by apply (I3 i ids false).
    * rewrite lookup_insert_ne by done. apply I3.
  + intros j k ids1 ids2 b1 b2 id Hjk.
    destruct (decide (j = i)) as [->|Hj], (decide (k = i)) as [->|Hk]; [done|..];
      rewrite ?lookup_insert_eq, ?lookup_insert_ne by done.
    * intros [= <- <-]. by eapply (I4 i k).
    * intros Hj1 [= <- <-]. by eapply (I4 j i).
    * by apply I4.
  + intros j ids' Hj r Hr Hin. apply elem_of_app. destruct (decide (j = i)) as [->|Hne].
    * rewrite lookup_insert_eq in Hj. injection Hj as <-. right. rewrite Hst.
      apply elem_of_messages. eauto.
    * rewrite lookup_insert_ne in Hj by done. left. by eauto.
  + intros m [Hm|Hm]%elem_of_app; [by auto|]. rewrite Hst in Hm.
    apply elem_of_messages in Hm as (r & ? & _ & ?). eauto.
Qed.

Lemma relay_ok_send_failed ids stored rows log locks :
  stored ⊆+ messages_of ids rows ->
  relay_ok (Relay rows log locks) -> relay_ok (Relay rows (log ++ stored) locks).
Proof.
  intros Hst [I1 I2 I3 I4 I5 I6]. split; cbn in *; try done.
  + intros r Hr Hp. apply elem_of_app. left. by auto.
  + intros j ids' Hj r Hr Hin. apply elem_of_app. left. by eauto.
  + intros m [Hm|Hm]%elem_of_app; [by auto|]. apply (elem_of_submseteq _ _ _ Hm) in Hst.
    apply elem_of_messages in Hst as (r & ? & _ & ?). eauto.
Qed.

Lemma relay_ok_commit i ids now rows log locks :
  locks !! i = Some (ids, true) ->
  relay_ok (Relay rows log locks) -> relay_ok (Relay (mark ids now rows) log (delete i locks)).
Proof.
  intros Hi [I1 I2 I3 I4 I5 I6]. split; cbn in *.
  + by rewrite map_ob_id_mark.
  + intros r' (r & Hr & -> & _ & _ & Hp)%elem_of_mark [Hp'|Hin]%Hp; [by auto|by eauto].
  + intros j ids' b [Hne Hj]%lookup_delete_Some id Hin.
    destruct (I3 _ _ _ Hj id Hin) as (r & Hr & <- & Hp). exists r. split_and!; [|done..].
    apply list_elem_of_fmap. exists r. split; [|done].
    rewrite bool_decide_eq_false_2; [done|]. by eapply (I4 j i).
  + intros j k ids1 ids2 b1 b2 id Hjk [_ Hj]%lookup_delete_Some [_ Hk]%lookup_delete_Some.
    by eapply I4.
  + intros j ids' [_ Hj]%lookup_delete_Some r' (r & Hr & -> & -> & _)%elem_of_mark Hin. by eauto.
  + intros m (r & Hr & ->)%I6. exists (if bool_decide (ob_id r ∈ ids) then
      {| ob_id := ob_id r; ob_key := ob_key r; ob_event_type := ob_event_type r;
         ob_payload := ob_payload r; ob_published := true;
         ob_published_at := Some now; ob_created_at := ob_created_at r |} else r).
    split; [|by case_bool_decide]. apply list_elem_of_fmap. by exists r.
Qed.

Lemma relay_ok_abort i rows log locks :
  relay_ok (Relay rows log locks) -> relay_ok (Relay rows log (delete i locks)).
Proof.
  intros [I1 I2 I3 I4 I5 I6]. split; cbn in *; try done.
  + intros j ids' b' [_ Hj]%lookup_delete_Some. by eapply I3.
  + intros j k ids1 ids2 b1 b2 id Hjk [_ Hj]%lookup_delete_Some [_ Hk]%lookup_delete_Some.
    by eapply I4.
  + intros j ids' [_ Hj]%lookup_delete_Some. by eapply I5.
Qed.

Lemma relay_ok_step l x y : pub_step l x y -> relay_ok x -> relay_ok y.
Proof.
  intros []; [by apply relay_ok_insert|by apply relay_ok_take|by apply relay_ok_send
    |by eapply relay_ok_send_failed|by apply relay_ok_commit|by apply relay_ok_abort].
Qed.

(** *** Exactly once without failures *)

Definition is_failure (l : relay_label) : bool :=
  match l with RSendFailed _ | RAbort _ => true | _ => false end.

Lemma messages_NoDup ids rows : NoDup (map ob_id rows) -> NoDup (messages_of ids rows).
Proof.
  intros Hnd. unfold messages_of.
  assert (Hf : NoDup (map ob_id (filter (fun r => ob_id r ∈ ids) rows))).
  { eapply sublist_NoDup; [exact Hnd|]. apply fmap_sublist, sublist_filter. }
  induction (filter _ rows) as [|r l IH]; cbn in *; [constructor|].
  apply NoDup_cons in Hf as [Hni Hf]. apply NoDup_cons. split; [|by apply IH].
  intros (r' & E%to_message_id & Hr')%list_elem_of_fmap. apply Hni. rewrite E.
  by apply list_elem_of_fmap_2.
Qed.

(** A row another replica is holding, or that is free, was not sent. *)
Lemma relay_clean_send i ids stored rows log locks :
  locks !! i = Some (ids, false) -> stored ≡ₚ messages_of ids rows ->
  relay_ok (Relay rows log locks) -> relay_clean (Relay rows log locks) ->
  relay_clean (Relay rows (log ++ stored) (<[i := (ids, true)]> locks)).
Proof.
  intros Hi Hst [I1 I2 I3 I4 I5 I6] [C1 C2]. cbn in *. split; cbn.
  - rewrite Hst. apply NoDup_app. split_and!; [done| |by apply messages_NoDup].
    intros m Hm (r & Hr & Hin & ->)%elem_of_messages.
    destruct (I3 _ _ _ Hi _ Hin) as (r' & Hr' & E & Hp).
    assert (r' = r) as -> by (by eapply row_by_id).
    destruct (C2 r Hr Hm) as [?|(j & ids' & Hj & Hin')]; [congruence|].
    assert (j <> i) by (intros ->; congruence). by eapply (I4 i j).
  - intros r Hr [Hm|Hm]%elem_of_app.
    + destruct (C2 r Hr Hm) as [?|(j & ids' & Hj & Hin')]; [by left|right].
      exists j, ids'. split; [|done]. rewrite lookup_insert_ne; [done|]. intros ->. congruence.
    + rewrite Hst in Hm. apply elem_of_messages in Hm as (r' & _ & Hin & E%to_message_id).
      right. exists i, ids. rewrite lookup_insert_eq, E. done.
Qed.

Lemma relay_clean_step l x y :
  pub_step l x y -> is_failure l = false -> relay_ok x -> relay_clean x -> relay_clean y.
Proof.
  intros Hst Hl Hok Hc. destruct Hst as [row rows log locks Hfresh Hpub
    |i ids rows log locks Hi Hnd Hids Hdis|i ids stored rows log locks Hi Hst| |i ids now rows log locks Hi|];
    try done; [| |by apply relay_clean_send|]; destruct Hok as [I1 I2 I3 I4 I5 I6], Hc as [C1 C2];
    cbn in *; split; cbn; try done.
  - intros r [Hr| ->%list_elem_of_singleton]%elem_of_app Hm; [by auto|].
    exfalso. apply I6 in Hm as (r & Hr & E%to_message_id). apply Hfresh. rewrite E.
    by apply list_elem_of_fmap_2.
  - intros r Hr Hm. destruct (C2 r Hr Hm) as [?|(j & ids' & Hj & Hin')]; [by left|right].
    exists j, ids'. split; [|done]. rewrite lookup_insert_ne; [done|]. intros ->. congruence.
  - intros r' (r & Hr & -> & -> & _ & Hp)%elem_of_mark Hm.
    destruct (C2 r Hr Hm) as [?|(j & ids' & Hj & Hin')]; [left; apply Hp; by left|].
    destruct (decide (j = i)) as [->|Hne].
    + left. apply Hp. right. congruence.
    + right. exists j, ids'. by rewrite lookup_delete_ne.
Qed.

Lemma relay_trace_app ls ls' x y z :
  relay_trace ls x y -> relay_trace ls' y z -> relay_trace (ls ++ ls') x z.
Proof. intros H1 H2. induction H1; cbn; [done|]. econstructor; eauto. Qed.
End Lemmas.

(** ** Refinement of the code *)

Section Refine.
Context `{U : UuidLib} `{!PgOrder U} `{!UuidLaws U}.
Context {K : Type} `{!KafkaPublisher K} `{!KafkaPublisherLaws K}.

Implicit Types (s : pub_state K) (a : ambient).

(** The messages a batch sends are those of the rows it locked. *)
Lemma batch_messages (locked : list UUID) (rows : list outbox_row) n :
  NoDup (map ob_id rows) ->
  let taken := take n (waiting locked rows) in
  map to_message taken ≡ₚ messages_of (map ob_id taken) rows /\ NoDup (map ob_id taken).
Proof.
  intros Hnd taken.
  assert (Hw : NoDup (map ob_id (waiting locked rows))).
  { unfold waiting. rewrite merge_sort_Permutation. eapply sublist_NoDup; [exact Hnd|].
    apply fmap_sublist, sublist_filter. }
  assert (Ht : NoDup (map ob_id taken)).
  { eapply sublist_NoDup; [exact Hw|]. apply fmap_sublist, sublist_take. }
  split; [|done]. unfold messages_of. apply fmap_Permutation.
  apply NoDup_Permutation; [by eapply NoDup_fmap_1| |].
  - apply NoDup_filter. by eapply NoDup_fmap_1.
  - intros r. rewrite list_elem_of_filter. split.
    + intros Hr. split; [by apply list_elem_of_fmap_2|].
      apply elem_of_take in Hr as (i & Hi & _). apply list_elem_of_lookup_2 in Hi.
      by apply elem_of_waiting in Hi as [? _].
    + intros [(r' & E & Hr')%list_elem_of_fmap Hr]. assert (r = r') as ->; [|done].
      apply (row_by_id rows); try done.
      apply elem_of_take in Hr' as (i & Hi & _). apply list_elem_of_lookup_2 in Hi.
      by apply elem_of_waiting in Hi as [? _].
Qed.

(** The relay state of a table, a topic and the locks of the other replicas. *)
Definition relay_of (locks : gmap nat (list UUID * bool)) (s : pub_state K) : relay :=
  Relay (ps_rows s) (kafka_log (ps_kafka s)) locks.

Definition locked_by (locks : gmap nat (list UUID * bool)) (locked : list UUID) : Prop :=
  forall id, id ∈ locked <-> exists j ids b, locks !! j = Some (ids, b) /\ id ∈ ids.

Lemma take_step (locks : gmap nat (list UUID * bool)) i s n :
  locks !! i = None -> locked_by locks (ps_locked s) -> NoDup (map ob_id (ps_rows s)) ->
  let ids := map ob_id (take n (waiting (ps_locked s) (ps_rows s))) in
  pub_step (RTake i) (relay_of locks s)
    (Relay (ps_rows s) (kafka_log (ps_kafka s)) (<[i := (ids, false)]> locks)).
Proof.
  intros Hi Hlb Hnd ids.
  assert (Hw : forall id, id ∈ ids -> exists r, r ∈ ps_rows s /\ ob_id r = id /\
    ob_published r = false /\ ob_id r ∉ ps_locked s).
  { intros id (r & -> & Hr)%list_elem_of_fmap. exists r.
    apply elem_of_take in Hr as (k & Hk & _). apply list_elem_of_lookup_2 in Hk.
    apply elem_of_waiting in Hk as (? & ? & ?). done. }
  constructor; [done|by apply batch_messages| |].
  - intros id (r & ? & ? & ? & _)%Hw. eauto.
  - intros j ids' b id Hj (r & _ & <- & _ & Hnl)%Hw Hin. apply Hnl, Hlb. eauto.
Qed.

Lemma publishBatch_steps locks i a s :
  locks !! i = None -> locked_by locks (ps_locked s) -> NoDup (map ob_id (ps_rows s)) ->
  wp publishBatch (fun r _ s' => exists ls, relay_trace ls (relay_of locks s) (relay_of locks s') /\
    (is_ok r = true -> forallb (fun l => negb (is_failure l)) ls = true)) a s.
Proof.
  intros Hi Hlb Hnd. eapply wp_mono; [apply publishBatch_spec|]. cbv zeta.
  intros r a' s' (_ & stored & Hlog & Hsub & Hr).
  destruct (batch_messages (ps_locked s) (ps_rows s) batch Hnd) as [Hmsgs _].
  pose proof (take_step locks i s batch Hi Hlb Hnd) as Htake. cbv zeta in *.
  set (taken := take batch (waiting (ps_locked s) (ps_rows s))) in *.
  assert (Hdel : delete i (<[i := (map ob_id taken, true)]> locks) = locks) by (by rewrite delete_insert_id).
  assert (Hgood : stored = map to_message taken ->
    (exists now, ps_rows s' = mark (map ob_id taken) now (ps_rows s)) ->
    relay_trace [RTake i; RSend i; RCommit i] (relay_of locks s) (relay_of locks s')).
  { intros -> [now Hrows]. econstructor; [exact Htake|]. econstructor.
    - eapply relay_send; [by rewrite lookup_insert_eq|exact Hmsgs].
    - econstructor; [|constructor]. unfold relay_of. rewrite Hlog, Hrows, insert_insert_eq.
      rewrite <- Hdel at 2. apply relay_commit. by rewrite lookup_insert_eq. }
  assert (Hfail : ps_rows s' = ps_rows s ->
    relay_trace [RTake i; RSendFailed i; RAbort i] (relay_of locks s) (relay_of locks s')).
  { intros Hrows. econstructor; [exact Htake|]. econstructor.
    - eapply relay_send_failed; [by rewrite lookup_insert_eq|]. rewrite <- Hmsgs.
      by apply sublist_submseteq.
    - econstructor; [|constructor]. unfold relay_of. rewrite Hlog, Hrows.
      rewrite <- (delete_insert_id locks i (map ob_id taken, false)) at 2 by done.
      eapply relay_abort. by rewrite lookup_insert_eq. }
  destruct r as [n|e].
  - destruct Hr as (_ & H1 & H2). eexists. split; [by apply Hgood|done].
  - destruct Hr as [H1|[H1 H2]]; eexists; (split; [|done]); [by apply Hfail|by apply Hgood].
Qed.

(** *** Draining *)

Context `{!Transitive uuid_le} `{!Total uuid_le} `{!AntiSymm (=) uuid_le}.

#[local] Instance row_le_trans : Transitive row_le.
Proof.
  intros x y z [?|[? ?]] [?|[? ?]]; unfold row_le; try (left; lia). right. split; [lia|by etrans].
Qed.

#[local] Instance row_le_total : Total row_le.
Proof.
  intros x y. unfold row_le.
  destruct (Z.lt_trichotomy (ob_created_at x) (ob_created_at y)) as [?|[E|?]]; auto.
  destruct (total uuid_le (ob_id x) (ob_id y)); auto.
Qed.

Lemma waiting_sorted locked rows : StronglySorted row_le (waiting locked rows).
Proof. unfold waiting. apply StronglySorted_merge_sort; apply _. Qed.

Lemma row_le_antisym rows x y :
  NoDup (map ob_id rows) -> x ∈ rows -> y ∈ rows -> row_le x y -> row_le y x -> x = y.
Proof.
  intros Hnd Hx Hy Hxy Hyx. eapply row_by_id; [done..|].
  destruct Hxy as [?|[? ?]], Hyx as [?|[? ?]]; try lia. by apply (anti_symm uuid_le).
Qed.

(** What is left after the oldest rows were marked is the rest of the queue. *)
Lemma waiting_mark n now rows :
  NoDup (map ob_id rows) ->
  let w := waiting [] rows in
  waiting [] (mark (map ob_id (take n w)) now rows) = drop n w.
Proof.
  intros Hnd w. set (ids := map ob_id (take n w)).
  assert (Hwnd : NoDup (map ob_id w)).
  { unfold w, waiting. rewrite merge_sort_Permutation. eapply sublist_NoDup; [exact Hnd|].
    apply fmap_sublist, sublist_filter. }
  assert (Hin : forall r, r ∈ waiting [] (mark ids now rows) <-> r ∈ w /\ ob_id r ∉ ids).
  { intros r. rewrite elem_of_waiting. split.
    - intros ((r0 & -> & Hr0)%list_elem_of_fmap & Hp & _). revert Hp. case_bool_decide; [done|].
      intros Hp. split; [|done]. apply elem_of_waiting. split_and!; [done|done|apply not_elem_of_nil].
    - intros [(Hr & Hp & _)%elem_of_waiting Hni]. split_and!; [|done|apply not_elem_of_nil].
      apply list_elem_of_fmap. exists r. by rewrite bool_decide_eq_false_2. }
  assert (Hdrop : forall r, r ∈ drop n w <-> r ∈ w /\ ob_id r ∉ ids).
  { intros r. rewrite <- (take_drop n w), map_app in Hwnd. apply NoDup_app in Hwnd as (_ & Hdis & _).
    rewrite <- (take_drop n w) at 2. rewrite elem_of_app. split.
    - intros Hr. split; [by right|]. intros Hid. apply (Hdis _ Hid). by apply list_elem_of_fmap_2.
    - intros [[Hr|Hr] Hni]; [|done]. destruct Hni. by apply list_elem_of_fmap_2. }
  apply (StronglySorted_unique_strong row_le).
  - intros x y [Hx _]%Hin [Hy _]%Hdrop. apply elem_of_waiting in Hx as [Hx _], Hy as [Hy _].
    by apply (row_le_antisym rows).
  - apply waiting_sorted.
  - eapply StronglySorted_app_1_r with (l1 := take n w). rewrite take_drop. apply waiting_sorted.
  - apply NoDup_Permutation.
    + apply (NoDup_fmap_1 ob_id). unfold waiting. rewrite merge_sort_Permutation.
      eapply sublist_NoDup; [|apply fmap_sublist, sublist_filter].
      change (NoDup (map ob_id (mark ids now rows))). by rewrite map_ob_id_mark.
    + eapply sublist_NoDup; [by eapply (NoDup_fmap_1 ob_id)|apply sublist_drop].
    + intros r. by rewrite Hin, Hdrop.
Qed.

Lemma Run_drains m a s :
  no_faults a -> ps_locked s = [] -> NoDup (map ob_id (ps_rows s)) ->
  length (waiting [] (ps_rows s)) <= batch * m ->
  wp (Run (replicate m false)) (fun r _ s' => r = Ok tt /\
    waiting [] (ps_rows s') = [] /\
    kafka_log (ps_kafka s') = kafka_log (ps_kafka s) ++ map to_message (waiting [] (ps_rows s))) a s.
Proof.
  revert a s. induction m as [m IH] using lt_wf_ind. intros a s Hnf Hlk Hnd Hlen.
  destruct m as [|m]; cbn [replicate Run].
  { assert (E : waiting [] (ps_rows s) = []) by (apply nil_length_inv; lia).
    rewrite E. wp_steps. by rewrite app_nil_r. }
  apply wp_bind, wp_attempt. eapply wp_mono; [apply wp_conj; [apply publishBatch_spec|by apply publishBatch_live]|].
  cbv zeta. intros r a1 s1 [(Hlk1 & stored & Hlog & _ & Hr) [Hok ->]]. rewrite Hlk in *.
  destruct r as [n|]; [|done]. destruct Hr as (-> & -> & now & Hrows).
  pose proof (waiting_mark batch now (ps_rows s) Hnd) as Hw. cbv zeta in Hw. rewrite <- Hrows in Hw.
  set (w := waiting [] (ps_rows s)) in *.
  assert (Hnd1 : NoDup (map ob_id (ps_rows s1))) by (by rewrite Hrows, map_ob_id_mark).
  assert (Hgo : forall m', m' <= m -> length (waiting [] (ps_rows s1)) <= batch * m' ->
    wp (Run (replicate m' false)) (fun r _ s' => r = Ok tt /\ waiting [] (ps_rows s') = [] /\
      kafka_log (ps_kafka s') = kafka_log (ps_kafka s) ++ map to_message w) a s1).
  { intros m' Hm' Hl. eapply wp_mono; [apply (IH m'); [lia|done..]|]. cbn.
    intros r a2 s2 (-> & H1 & H2). split_and!; [done..|].
    rewrite H2, Hlog, Hw, <- app_assoc, <- map_app, take_drop. done. }
  destruct (length (take batch w)) as [|k] eqn:Ek.
  - assert (w = []) as E.
    { rewrite length_take in Ek. unfold batch in Ek. destruct w; [done|cbn in Ek; lia]. }
    rewrite E in *. rewrite drop_nil in Hw. destruct m as [|m]; cbn [replicate].
    + wp_steps. rewrite Hlog, Hw. done.
    + apply Hgo; [lia|]. rewrite Hw. cbn [length]. lia.
  - apply Hgo; [lia|]. rewrite Hw, length_drop. unfold batch in *. lia.
Qed.
End Refine.
