(* ===== verification/OutboxProps.v ===== *)
(** * The outbox relay: the properties *)

From stdpp Require Import base gmap list strings numbers sorting relations.
From S2P Require Import Prelude Platform GoStrings Events Kafka Instances Outbox OutboxSpec.

Section Properties.
Context `{U : UuidLib} `{!PgOrder U} `{!UuidLaws U}.
Context {K : Type} `{!KafkaPublisher K} `{!KafkaPublisherLaws K}.

Implicit Types (s : pub_state K) (a : ambient).

(** The invariant holds along every sequence of the relay's steps. *)
Lemma relay_trace_ok ls x y : relay_trace ls x y -> relay_ok x -> relay_ok y.
Proof. induction 1 as [|l ls x y z Hst _ IH]; [done|]. intros Hok. by eapply IH, relay_ok_step. Qed.

(** Exactly once unless something fails.  As long as no replica's publish fails and
    none gives up its rows, no message is in the topic twice, and a row whose message
    is there is marked, or is still held by the replica that sent it. *)
Lemma relay_exactly_once_without_failures ls x y :
  relay_trace ls x y -> forallb (fun l => negb (is_failure l)) ls = true ->
  relay_ok x -> relay_clean x -> relay_clean y.
Proof.
  induction 1 as [|l ls x y z Hst _ IH]; [done|]. cbn. intros [Hl Hls]%andb_true_iff Hok Hc.
  apply negb_true_iff in Hl. apply IH; [done|by eapply relay_ok_step|by eapply relay_clean_step].
Qed.

(** C19: a run of [publishBatch] by a replica, whatever fails in it, is a sequence of the
    relay's steps that respects the locks of the other replicas and ends with its own
    locks released; when it reports success no step of it was a failure. *)
Theorem publish_batch_is_a_relay_run locks i a s r a' s' :
  locks !! i = None -> locked_by locks (ps_locked s) -> NoDup (map ob_id (ps_rows s)) ->
  publishBatch a s = (r, a', s') ->
  exists ls, relay_trace ls (relay_of locks s) (relay_of locks s') /\
    (is_ok r = true -> forallb (fun l => negb (is_failure l)) ls = true).
Proof.
  intros Hi Hlb Hnd Hrun.
  exact (wp_run _ _ _ _ _ _ _ Hrun (publishBatch_steps locks i a s Hi Hlb Hnd)).
Qed.

(** C20: the publisher drains the outbox.  With nothing failing and nobody else
    holding locks, as many rounds as there are batches of 100 leave no row waiting, and
    the topic has grown by exactly the messages of the waiting rows, each once, sorted
    by the creation time and then the id of their rows (and so not necessarily in the
    order the rows were committed). *)
Theorem run_drains_the_outbox m a s r a' s' :
  Transitive uuid_le -> Total uuid_le -> AntiSymm (=) uuid_le ->
  no_faults a -> ps_locked s = [] -> NoDup (map ob_id (ps_rows s)) ->
  length (waiting [] (ps_rows s)) <= 100 * m ->
  Run (replicate m false) a s = (r, a', s') ->
  (forall row, row ∈ ps_rows s' -> ob_published row = true) /\
  exists sent, kafka_log (ps_kafka s') = kafka_log (ps_kafka s) ++ map to_message sent /\
    sent ≡ₚ filter (fun row => ob_published row = false) (ps_rows s) /\
    StronglySorted row_le sent.
Proof.
  intros Htr Htot Has Hnf Hlk Hnd Hlen Hrun.
  destruct (wp_run _ _ _ _ _ _ _ Hrun (Run_drains m a s Hnf Hlk Hnd Hlen)) as (_ & Hw & Hlog).
  split.
  - intros row Hrow. destruct (ob_published row) eqn:E; [done|exfalso].
    assert (Hin : row ∈ waiting [] (ps_rows s'))
      by (apply elem_of_waiting; split_and!; [done|done|apply not_elem_of_nil]).
    rewrite Hw in Hin. by apply not_elem_of_nil in Hin.
  - exists (waiting [] (ps_rows s)). split_and!; [done| |apply waiting_sorted].
    unfold waiting. rewrite merge_sort_Permutation.
    clear. induction (ps_rows s) as [|x l IH]; [done|]. rewrite !filter_cons.
    destruct (decide (ob_published x = false)) as [E|E].
    + rewrite decide_True by (split; [done|apply not_elem_of_nil]). by rewrite IH.
    + rewrite decide_False; [done|]. by intros [? _].
Qed.
End Properties.

(** ** Witnesses *)

Section Examples.
(** A topic as a list; a lost publish stores nothing, a lost answer hides a stored one. *)
#[local] Instance list_kafka : KafkaPublisher (U := ref_uuid) (list Message) := {|
  kafka_log := id;
  kafka_publish msgs :=
    f ← next_fate;
    match f with
    | Done => modify (fun k => k ++ msgs)
    | Lost _ => throw EConn
    | ReplyLost _ => _ ← modify (fun k => k ++ msgs); throw EConn
    end;
|}.

#[local] Instance list_kafka_laws : KafkaPublisherLaws (U := ref_uuid) (list Message).
Proof.
  split.
  - intros msgs a k. cbn. wp_steps; cbn.
    + by exists msgs.
    + exists []. rewrite app_nil_r. split_and!; [done|apply sublist_nil_l|done].
    + by exists msgs.
  - intros msgs a k Hnf. cbn. wp_steps; rewrite (head_fate_none _ Hnf) in *; try done.
    by rewrite drop_fate_none.
Qed.

Definition ex_row (name : string) (created : Z) : outbox_row (U := ref_uuid) :=
  {| ob_id := name : @UUID ref_uuid; ob_key := "k" : @UUID ref_uuid; ob_event_type := "seat.held";
     ob_payload := name; ob_published := false; ob_published_at := None; ob_created_at := created |}.

(** [b] was committed after [a], by a transaction that had started earlier. *)
Definition ex_pub : pub_state (U := ref_uuid) (list Message) :=
  {| ps_rows := [ex_row "a" 2; ex_row "b" 1]; ps_kafka := []; ps_locked := []; ps_published := 0 |}.

Definition ex_relay : relay (U := ref_uuid) := Relay (ps_rows ex_pub) [] ∅.

Lemma ex_nodup : NoDup (map ob_id (ps_rows ex_pub)).
Proof. apply (bool_decide_unpack _). vm_compute. done. Qed.

Lemma ex_relay_ok : relay_ok ex_relay /\ relay_clean ex_relay.
Proof.
  split; split; cbn.
  - apply ex_nodup.
  - intros r. rewrite !elem_of_cons. by intros [->|[->|[]%elem_of_nil]].
  - done.
  - done.
  - done.
  - by intros m ?%not_elem_of_nil.
  - constructor.
  - by intros r _ ?%not_elem_of_nil.
Qed.

Definition ex_once : relay (U := ref_uuid) :=
  Relay (mark ["a" : @UUID ref_uuid] 5 (ps_rows ex_pub)) [to_message (ex_row "a" 2)] ∅.

Lemma relay_exactly_once_without_failures_witness : relay_clean ex_once.
Proof.
  refine (relay_exactly_once_without_failures [RTake 1; RSend 1; RCommit 1] ex_relay ex_once _ eq_refl
    (proj1 ex_relay_ok) (proj2 ex_relay_ok)).
  pose (ids := ["a" : @UUID ref_uuid]).
  econstructor; [apply (relay_take 1 ids); [done|apply NoDup_singleton| |done]|].
  { intros id ->%list_elem_of_singleton. exists (ex_row "a" 2). split; [by left|done]. }
  econstructor; [apply (relay_send 1 ids [to_message (ex_row "a" 2)]); [done|reflexivity]|].
  econstructor; [by eapply (relay_commit 1 ids 5)|]. constructor.
Defined.

Definition ex_lost : res nat * ambient * pub_state (U := ref_uuid) (list Message) :=
  publishBatch (amb0 [Done; Done; Done; ReplyLost TUnavailable] (names "x") 1 1) ex_pub.

Lemma publish_batch_is_a_relay_run_witness :
  exists ls, relay_trace ls (relay_of ∅ ex_pub) (relay_of ∅ ex_lost.2).
Proof.
  destruct (publish_batch_is_a_relay_run (U := ref_uuid) ∅ 0
    (amb0 [Done; Done; Done; ReplyLost TUnavailable] (names "x") 1 1) ex_pub _ _ _ (lookup_empty 0)
    ltac:(intros id; cbn; rewrite elem_of_nil; split; [done|]; intros (j & ids & b & Hj & _); by rewrite lookup_empty in Hj)
    ex_nodup (run_eta ex_lost)) as (ls & Htr & _).
  exists ls. exact Htr.
Defined.

(** The row of the transaction that started first is published first. *)
Lemma run_drains_the_outbox_witness :
  exists sent, kafka_log (ps_kafka (Run (replicate 1 false) (amb0 [] (names "x") 1 1) ex_pub).2) =
    map to_message sent /\ StronglySorted row_le sent.
Proof.
  destruct (run_drains_the_outbox (U := ref_uuid) 1 (amb0 [] (names "x") 1 1) ex_pub
    (Run (replicate 1 false) (amb0 [] (names "x") 1 1) ex_pub).1.1
    (Run (replicate 1 false) (amb0 [] (names "x") 1 1) ex_pub).1.2
    (Run (replicate 1 false) (amb0 [] (names "x") 1 1) ex_pub).2) as (_ & sent & H1 & _ & H2).
  - intros x y z. cbn. lia.
  - intros x y. cbn. lia.
  - intros x y H1 H2. cbn in *. apply (inj encode). lia.
  - done.
  - done.
  - exact ex_nodup.
  - vm_compute. lia.
  - apply run_eta.
  - exists sent. split; [exact H1|exact H2].
Defined.
End Examples.
