(* ===== verification/OutboxRace.v ===== *)
(** * The outbox relay: replicas statement by statement ([pkg/outbox/publisher.go])

    [publishBatch] cut at its statements ([statement]; run one after another they are
    [publishBatch], [publishBatch_statements]), and any number of replicas that take turns at
    them while transactions keep appending rows ([relay_step]).  A transaction's locks are the
    rows it selected; they are gone when it ends, however it ends.  Every such turn is allowed
    by the specification of [OutboxSpec]. *)

From stdpp Require Import base gmap list strings numbers sorting relations.
From S2P Require Import Prelude Platform GoStrings Events Kafka Instances Outbox OutboxSpec OutboxProps.

(** ** The code *)

Section Race.
Context `{U : UuidLib} `{!PgOrder U} {K : Type} `{!KafkaPublisher K}.

(** The statement a replica executes next, with what the earlier ones left in its variables. *)
Inductive batch_stage :=
  | BBegin
  | BSelect
  | BPublish (rows : list outbox_row)
  | BUpdate (rows : list outbox_row)
  | BCommit (rows : list outbox_row) (now : Z).

(** One statement of [publishBatch]: the next one, or the number of rows sent.  Statements see
    what was committed when they run; the update appears with the commit. *)
Definition statement (st : batch_stage) : prog (pub_state K) (batch_stage + nat) :=
  match st with
  | BBegin => _ ← pg_call (EWrap "begin tx"); mret (inl BSelect)
  | BSelect =>
      _ ← pg_call (EWrap "select unpublished rows");
      s ← get_state;
      let rows := take batch (waiting (ps_locked s) (ps_rows s)) in
      _ ← pg_call (EWrap "iterate outbox rows");
      mret (if bool_decide (length rows = 0) then inr 0 else inl (BPublish rows))
  | BPublish rows =>
      sent ← attempt (in_kafka (kafka_publish (map to_message rows)));
      match sent with
      | Err e => throw (EWrap ("publish " +:+ itoa (Z.of_nat (length rows)) +:+ " event(s)") e)
      | Ok _ => mret (inl (BUpdate rows))
      end
  | BUpdate rows =>
      _ ← pg_call (EWrap "mark rows published");
      now ← tx_now;
      mret (inl (BCommit rows now))
  | BCommit rows now =>
      s ← get_state;
      _ ← tx_commit (EWrap "commit") (mark (map ob_id rows) now (ps_rows s));
      _ ← add_published (Z.of_nat (length rows));
      mret (inr (length rows))
  end.

(** The statements one after another, undisturbed. *)
Fixpoint statements (n : nat) (st : batch_stage) : prog (pub_state K) nat :=
  match n with
  | O => mret 0
  | S n' =>
      next ← statement st;
      match next with
      | inl st' => statements n' st'
      | inr sent => mret sent
      end
  end.

(** The table, the topic, the counter, and the busy replicas. *)
Record cluster := {
  cl_rows : list outbox_row;
  cl_kafka : K;
  cl_published : Z;
  cl_busy : gmap nat batch_stage;
}.

(** The rows a replica's transaction has locked. *)
Definition held_rows (st : batch_stage) : list UUID :=
  match st with
  | BBegin | BSelect => []
  | BPublish rows | BUpdate rows | BCommit rows _ => map ob_id rows
  end.

(** What replica [i] sees: the rows the others have locked are skipped. *)
Definition view_of (i : nat) (c : cluster) : pub_state K :=
  {| ps_rows := cl_rows c; ps_kafka := cl_kafka c;
     ps_locked := flat_map (fun x => held_rows x.2) (map_to_list (delete i (cl_busy c)));
     ps_published := cl_published c |}.

Inductive relay_act :=
  | Write (row : outbox_row)          (* a transaction of the service commits an outbox row *)
  | Call (i : nat)                    (* replica [i] calls [publishBatch] *)
  | Next (i : nat) (a : ambient)      (* it executes its next statement *)
  | Die (i : nat).                    (* it dies, or loses its connection *)

(** The statement returned [r] and left the state [s]; when the call is over its transaction
    is, too: the rollback is deferred. *)
Definition resume (i : nat) (r : res (batch_stage + nat)) (s : pub_state K) (c : cluster) : cluster :=
  {| cl_rows := ps_rows s; cl_kafka := ps_kafka s; cl_published := ps_published s;
     cl_busy := match r with
                | Ok (inl st) => <[i := st]> (cl_busy c)
                | _ => delete i (cl_busy c)
                end |}.

Definition relay_step (act : relay_act) (c : cluster) : option cluster :=
  match act with
  | Write row =>
      if bool_decide (ob_id row ∈ map ob_id (cl_rows c)) || ob_published row then None
      else Some {| cl_rows := cl_rows c ++ [row]; cl_kafka := cl_kafka c;
                   cl_published := cl_published c; cl_busy := cl_busy c |}
  | Call i =>
      match cl_busy c !! i with
      | Some _ => None
      | None => Some {| cl_rows := cl_rows c; cl_kafka := cl_kafka c;
                        cl_published := cl_published c; cl_busy := <[i := BBegin]> (cl_busy c) |}
      end
  | Next i a =>
      st ← cl_busy c !! i;
      let '(r, _, s) := statement st a (view_of i c) in Some (resume i r s c)
  | Die i =>
      _ ← cl_busy c !! i;
      Some {| cl_rows := cl_rows c; cl_kafka := cl_kafka c;
              cl_published := cl_published c; cl_busy := delete i (cl_busy c) |}
  end.

Fixpoint relay_turns (acts : list relay_act) (c : cluster) : option cluster :=
  match acts with
  | [] => Some c
  | act :: acts' => c' ← relay_step act c; relay_turns acts' c'
  end.

(** Nothing fails in the turn. *)
Definition smooth (act : relay_act) : Prop :=
  match act with
  | Next _ a => no_faults a
  | Die _ => False
  | _ => True
  end.
End Race.

Arguments batch_stage {U}.
Arguments relay_act {U}.
Arguments cluster {U} K.
Arguments cl_rows {U K}.
Arguments cl_kafka {U K}.
Arguments cl_published {U K}.
Arguments cl_busy {U K}.

(** ** Lemmas *)

Section Code.
Context `{U : UuidLib} `{!PgOrder U} {K : Type} `{!KafkaPublisher K}.

(** [publishBatch] is its statements in a row. *)
Lemma publishBatch_statements (a : ambient) (s : pub_state K) : publishBatch a s = statements 5 BBegin a s.
Proof.
  unfold publishBatch, statements, statement, tx_begin, tx_commit, pg_call, add_published, attempt, get_state, tx_now, next_fate,
    modify, throw, in_kafka, mbind, prog_bind, mret, prog_ret.
  cbn. destruct (pop_fate a) as [[] a1]; cbn; try done.
  destruct (pop_fate a1) as [[] a2]; cbn; try done.
  destruct (pop_fate a2) as [[] a3]; cbn; try done.
  rewrite length_map. case_bool_decide; [done|].
  destruct (kafka_publish _ a3 (ps_kafka s)) as [[[[]|e] a4] k]; cbn; [|done].
  destruct (pop_fate a4) as [[] a5]; cbn; try done.
  destruct (pop_fate a5) as [[] a6]; cbn; done.
Qed.
End Code.

Section Refine.
Context `{U : UuidLib} `{!PgOrder U} `{!UuidLaws U}.
Context {K : Type} `{!KafkaPublisher K} `{!KafkaPublisherLaws K}.

Implicit Types (c : cluster K) (a : ambient).

(** What the specification knows of a busy replica. *)
Definition lock_of (st : batch_stage) : option (list UUID * bool) :=
  match st with
  | BBegin | BSelect => None
  | BPublish rows => Some (map ob_id rows, false)
  | BUpdate rows | BCommit rows _ => Some (map ob_id rows, true)
  end.

Definition relay_at c : relay := Relay (cl_rows c) (kafka_log (cl_kafka c)) (omap lock_of (cl_busy c)).

(** The rows a replica has selected are still in the table as it read them. *)
Definition up_to_date c : Prop :=
  forall i st, cl_busy c !! i = Some st ->
    match st with
    | BBegin | BSelect => True
    | BPublish rows | BUpdate rows | BCommit rows _ =>
        NoDup (map ob_id rows) /\ forall r, r ∈ rows -> r ∈ cl_rows c
    end.

(** The messages of the selected rows. *)
Lemma selected_messages (rows table : list outbox_row) :
  NoDup (map ob_id table) -> NoDup (map ob_id rows) -> (forall r, r ∈ rows -> r ∈ table) ->
  map to_message rows ≡ₚ messages_of (map ob_id rows) table.
Proof.
  intros Ht Hr Hin. unfold messages_of. apply fmap_Permutation, NoDup_Permutation.
  - by eapply NoDup_fmap_1.
  - apply NoDup_filter. by eapply NoDup_fmap_1.
  - intros r. rewrite list_elem_of_filter. split.
    + intros Hx. split; [by apply list_elem_of_fmap_2|by apply Hin].
    + intros [(r' & E & Hr')%list_elem_of_fmap Hx]. assert (r = r') as ->; [|done].
      apply (row_by_id table); auto.
Qed.

Lemma locked_by_others i c :
  omap lock_of (cl_busy c) !! i = None ->
  locked_by (omap lock_of (cl_busy c)) (ps_locked (view_of i c)).
Proof.
  intros Hi id. cbn. rewrite list_elem_of_In, in_flat_map. split.
  - intros ([j st] & Hj%list_elem_of_In%elem_of_map_to_list & Hin%list_elem_of_In). cbn in Hin.
    apply lookup_delete_Some in Hj as [_ Hj]. exists j.
    destruct st as [| |rows|rows|rows now]; cbn in Hin; try (by apply not_elem_of_nil in Hin);
      exists (map ob_id rows); eexists; (split; [|exact Hin]); rewrite lookup_omap, Hj; done.
  - intros (j & ids & b & Hj & Hin). rewrite lookup_omap in Hj.
    destruct (cl_busy c !! j) as [st|] eqn:Est; [|done]. cbn in Hj. exists (j, st). split.
    + apply list_elem_of_In, elem_of_map_to_list, lookup_delete_Some. split; [|done].
      intros ->. rewrite lookup_omap, Est in Hi. cbn in Hi. congruence.
    + apply list_elem_of_In. cbn. by destruct st; cbn in *; simplify_eq.
Qed.

(** What one statement does, for the replica that executes it. *)
Definition allowed c c' (ok : Prop) : Prop :=
  up_to_date c' /\ exists ls, relay_trace ls (relay_at c) (relay_at c') /\
    (ok -> forallb (fun l => negb (is_failure l)) ls = true).

Lemma lock_at c i st : cl_busy c !! i = Some st -> omap lock_of (cl_busy c) !! i = lock_of st.
Proof. intros Hi. by rewrite lookup_omap, Hi. Qed.

Lemma up_to_date_gone c c' i :
  up_to_date c -> cl_rows c' = cl_rows c -> cl_busy c' = delete i (cl_busy c) -> up_to_date c'.
Proof. intros Hup Hr Hb j st. rewrite Hb, Hr. intros [_ Hj]%lookup_delete_Some. by apply (Hup j). Qed.

(** A replica gives up; its locks, if it had any, are gone. *)
Lemma gone_allowed c c' i st (ok : Prop) :
  up_to_date c -> cl_busy c !! i = Some st -> (ok -> lock_of st = None) ->
  cl_rows c' = cl_rows c -> cl_kafka c' = cl_kafka c -> cl_busy c' = delete i (cl_busy c) ->
  allowed c c' ok.
Proof.
  intros Hup Hi Hok Hr Hk Hb. split; [by eapply up_to_date_gone|].
  unfold relay_at. rewrite Hr, Hk, Hb, omap_delete. pose proof (lock_at c i st Hi) as Hl.
  destruct (lock_of st) as [[ids b]|].
  - exists [RAbort i]. split; [|intros H; by specialize (Hok H)].
    econstructor; [by eapply relay_abort|constructor].
  - exists []. rewrite delete_id by done. split; [constructor|done].
Qed.

(** A publish that failed may have stored some of the messages. *)
Lemma send_failed_allowed c c' i rows stored :
  up_to_date c -> NoDup (map ob_id (cl_rows c)) -> cl_busy c !! i = Some (BPublish rows) ->
  cl_rows c' = cl_rows c -> kafka_log (cl_kafka c') = kafka_log (cl_kafka c) ++ stored ->
  sublist stored (map to_message rows) -> cl_busy c' = delete i (cl_busy c) -> allowed c c' False.
Proof.
  intros Hup Hnd Hi Hr Hk Hst Hb. split; [by eapply up_to_date_gone|].
  exists [RSendFailed i; RAbort i]. split; [|done].
  destruct (Hup i _ Hi) as [Hrn Hrin]. pose proof (lock_at c i _ Hi) as Hl.
  unfold relay_at. rewrite Hr, Hk, Hb, omap_delete. econstructor.
  - eapply relay_send_failed; [exact Hl|]. rewrite <- (selected_messages rows (cl_rows c)) by done.
    by apply sublist_submseteq.
  - econstructor; [by eapply relay_abort|constructor].
Qed.

Lemma sent_allowed c c' i rows :
  up_to_date c -> NoDup (map ob_id (cl_rows c)) -> cl_busy c !! i = Some (BPublish rows) ->
  cl_rows c' = cl_rows c -> kafka_log (cl_kafka c') = kafka_log (cl_kafka c) ++ map to_message rows ->
  cl_busy c' = <[i := BUpdate rows]> (cl_busy c) -> allowed c c' True.
Proof.
  intros Hup Hnd Hi Hr Hk Hb. destruct (Hup i _ Hi) as [Hrn Hrin]. split.
  { intros j st. rewrite Hb, Hr. intros [[<- <-]|[_ Hj]]%lookup_insert_Some; [done|by apply (Hup j)]. }
  exists [RSend i]. split; [|done]. unfold relay_at. rewrite Hr, Hk, Hb, (omap_insert_Some _ _ _ _ (map ob_id rows, true)) by done.
  econstructor; [|constructor]. eapply relay_send; [exact (lock_at c i _ Hi)|].
  by apply selected_messages.
Qed.

Lemma committed_allowed c c' i rows now :
  up_to_date c -> relay_ok (relay_at c) -> cl_busy c !! i = Some (BCommit rows now) ->
  cl_rows c' = mark (map ob_id rows) now (cl_rows c) -> cl_kafka c' = cl_kafka c ->
  cl_busy c' = delete i (cl_busy c) -> allowed c c' True.
Proof.
  intros Hup Hok Hi Hr Hk Hb. pose proof (lock_at c i _ Hi) as Hl. split.
  - intros j st. rewrite Hb, Hr. intros [Hne Hj]%lookup_delete_Some. pose proof (Hup j st Hj) as Hst.
    assert (Hkeep : forall rows', held_rows st = map ob_id rows' -> (forall r, r ∈ rows' -> r ∈ cl_rows c) ->
      forall r, r ∈ rows' -> r ∈ mark (map ob_id rows) now (cl_rows c)).
    { intros rows' Hh Hin r Hr'. apply list_elem_of_fmap. exists r. split; [|by apply Hin].
      rewrite bool_decide_eq_false_2; [done|]. pose proof (lock_at c j st Hj) as Hlj.
      intros Hid. assert (Hj' : ob_id r ∈ held_rows st) by (rewrite Hh; by apply list_elem_of_fmap_2).
      destruct st as [| |rs|rs|rs now']; cbn in Hj', Hlj; try (by apply not_elem_of_nil in Hj');
        (eapply (ro_disjoint _ Hok i j); [by apply not_eq_sym|exact Hl|exact Hlj|done|done]). }
    destruct st as [| |rs|rs|rs now']; try done; (split; [apply Hst|]); by eapply Hkeep; [|apply Hst].
  - exists [RCommit i]. split; [|done]. unfold relay_at. rewrite Hr, Hk, Hb, omap_delete.
    econstructor; [by eapply relay_commit|constructor].
Qed.

Lemma selected_allowed c c' i :
  up_to_date c -> NoDup (map ob_id (cl_rows c)) -> cl_busy c !! i = Some BSelect ->
  cl_rows c' = cl_rows c -> cl_kafka c' = cl_kafka c ->
  cl_busy c' = <[i := BPublish (take batch (waiting (ps_locked (view_of i c)) (cl_rows c)))]> (cl_busy c) ->
  allowed c c' True.
Proof.
  intros Hup Hnd Hi Hr Hk Hb. pose proof (lock_at c i _ Hi) as Hl. split.
  - intros j st. rewrite Hb, Hr. intros [[<- <-]|[_ Hj]]%lookup_insert_Some; [|by apply (Hup j)].
    split; [by apply batch_messages|]. intros r (k & Hx & _)%elem_of_take.
    by apply list_elem_of_lookup_2, elem_of_waiting in Hx as [? _].
  - exists [RTake i]. split; [|done].
    econstructor; [exact (take_step _ i (view_of i c) batch Hl (locked_by_others i c Hl) Hnd)|].
    unfold relay_at. rewrite Hr, Hk, Hb. erewrite (omap_insert_Some lock_of) by done. constructor.
Qed.

(** A replica goes on without a change the others or the specification can see. *)
Lemma quiet_allowed c c' i st st' ok :
  up_to_date c -> cl_busy c !! i = Some st -> lock_of st' = lock_of st ->
  (st' = BSelect \/ exists rows now, st = BUpdate rows /\ st' = BCommit rows now) ->
  cl_rows c' = cl_rows c -> cl_kafka c' = cl_kafka c -> cl_busy c' = <[i := st']> (cl_busy c) ->
  allowed c c' ok.
Proof.
  intros Hup Hi Hl Hst Hr Hk Hb. split.
  - intros j x. rewrite Hb, Hr. intros [[<- <-]|[_ Hj]]%lookup_insert_Some; [|by apply (Hup j)].
    destruct Hst as [->|(rows & now & -> & ->)]; [done|by apply (Hup i _ Hi)].
  - exists []. split; [|done]. assert (relay_at c' = relay_at c) as ->; [|constructor].
    unfold relay_at. rewrite Hr, Hk, Hb. f_equal. apply map_eq. intros j. rewrite !lookup_omap.
    destruct (decide (j = i)) as [->|]; [by rewrite lookup_insert_eq, Hi; cbn|by rewrite lookup_insert_ne].
Qed.

Lemma statement_allowed c i st a :
  up_to_date c -> relay_ok (relay_at c) -> cl_busy c !! i = Some st ->
  wp (statement st) (fun r _ s => allowed c (resume i r s c) (no_faults a)) a (view_of i c).
Proof.
  intros Hup Hok Hi. pose proof (ro_ids _ Hok) as Hnd. cbn in Hnd.
  assert (Hbad : forall a', (no_faults a -> no_faults a') -> head_fate a' <> Done -> no_faults a -> False)
    by (intros a' Ha Hf Hnf; by apply Hf, head_fate_none, Ha).
  assert (Hweak : forall c', allowed c c' True -> allowed c c' (no_faults a)).
  { intros c' (? & ls & ? & H). split; [done|]. exists ls. auto. }
  destruct st as [| |rows|rows|rows now]; cbn [statement].
  - wp_steps; [apply (quiet_allowed c _ i BBegin BSelect); auto|by eapply gone_allowed].
  - wp_steps; try (by eapply gone_allowed).
    case_bool_decide; [by eapply gone_allowed|]. by apply Hweak, (selected_allowed c _ i).
  - assert (Hlive : wp (kafka_publish (map to_message rows)) (fun r _ _ => no_faults a -> r = Ok tt) a (cl_kafka c)).
    { unfold wp. destruct (kafka_publish _ a (cl_kafka c)) as [[r a'] k'] eqn:E. intros Hnf.
      by destruct (wp_run _ _ _ _ _ _ _ E (kafka_publish_live (map to_message rows) a (cl_kafka c) Hnf)). }
    wp_steps. apply wp_in_kafka. eapply wp_mono; [apply wp_conj; [apply kafka_publish_log|exact Hlive]|].
    intros [[]|e] a1 k1 [(stored & Hlog & Hsub & Hst) Hnf]; wp_steps.
    + rewrite (Hst eq_refl) in Hlog. by apply Hweak, (sent_allowed c _ i rows).
    + destruct (send_failed_allowed c (resume i (Err e) {| ps_rows := cl_rows c; ps_kafka := k1; ps_locked := [];
        ps_published := cl_published c |} c) i rows stored) as (Hup' & ls & Htr & _); try done.
      split; [done|]. exists ls. split; [done|]. intros H. by specialize (Hnf H).
  - wp_steps; [apply (quiet_allowed c _ i (BUpdate rows) (BCommit rows (amb_txnow (drop_fate a)))); eauto|].
    eapply gone_allowed; eauto; intros Hnf; by destruct (Hbad a id).
  - unfold add_published. wp_steps; [by apply Hweak, (committed_allowed c _ i rows now)| |].
    + by apply Hweak, (committed_allowed c _ i rows now).
    + eapply gone_allowed; eauto; intros Hnf; by destruct (Hbad a id).
Qed.

Lemma relay_step_allowed act c c' :
  relay_step act c = Some c' -> up_to_date c -> relay_ok (relay_at c) -> allowed c c' (smooth act).
Proof.
  intros Hst Hup Hok. destruct act as [row|i|i a|i]; cbn in Hst.
  - destruct (bool_decide _) eqn:Hb; [done|]. destruct (ob_published row) eqn:Hp; [done|]. cbn in Hst.
    injection Hst as <-. reflect_bools. split.
    + intros j st Hj. specialize (Hup j st Hj). cbn. destruct st; try done; (split; [apply Hup|]);
        intros r Hr; apply elem_of_app; left; by apply Hup.
    + exists [RInsert]. split; [|done]. econstructor; [by constructor|constructor].
  - destruct (cl_busy c !! i) eqn:Hi; [done|]. injection Hst as <-. split.
    + intros j st. cbn. intros [[<- <-]|[_ Hj]]%lookup_insert_Some; [done|by apply (Hup j)].
    + exists []. split; [|done]. unfold relay_at. cbn. rewrite omap_insert_None by done.
      rewrite delete_id by (by rewrite lookup_omap, Hi). constructor.
  - destruct (cl_busy c !! i) as [st|] eqn:Hi; [|done]. cbn in Hst.
    pose proof (statement_allowed c i st a Hup Hok Hi) as Hw. unfold wp in Hw.
    destruct (statement st a (view_of i c)) as [[r a'] s]. by injection Hst as <-.
  - destruct (cl_busy c !! i) as [st|] eqn:Hi; [|done]. injection Hst as <-. by eapply gone_allowed.
Qed.

(** Along any turns the specification's invariants hold. *)
Lemma relay_turns_ok acts c c' :
  relay_turns acts c = Some c' -> up_to_date c -> relay_ok (relay_at c) ->
  up_to_date c' /\ relay_ok (relay_at c') /\
  (Forall smooth acts -> relay_clean (relay_at c) -> relay_clean (relay_at c')).
Proof.
  revert c. induction acts as [|act acts IH]; intros c Hrun Hup Hok; cbn in Hrun; [by injection Hrun as <-|].
  destruct (relay_step act c) as [c1|] eqn:Hst; [|done].
  destruct (relay_step_allowed _ _ _ Hst Hup Hok) as (Hup1 & ls & Htr & Hsm).
  destruct (IH c1 Hrun Hup1 (relay_trace_ok _ _ _ Htr Hok)) as (H1 & H2 & H3). split_and!; [done|done|].
  intros [Ha Has]%Forall_cons Hc. apply H3; [done|]. eapply relay_exactly_once_without_failures; eauto.
Qed.
End Refine.

(** ** Properties *)

Section Properties.
Context `{U : UuidLib} `{!PgOrder U} `{!UuidLaws U}.
Context {K : Type} `{!KafkaPublisher K} `{!KafkaPublisherLaws K}.

Implicit Types (c : cluster K).

(** Nobody is publishing, what is marked is in the topic and nothing else is. *)
Record at_rest c : Prop := {
  ar_idle : cl_busy c = ∅;
  ar_ids : NoDup (map ob_id (cl_rows c));
  ar_marked : forall r, r ∈ cl_rows c -> ob_published r = true -> to_message r ∈ kafka_log (cl_kafka c);
  ar_origin : forall m, m ∈ kafka_log (cl_kafka c) -> exists r, r ∈ cl_rows c /\ m = to_message r;
}.

Lemma at_rest_ok c : at_rest c -> up_to_date c /\ relay_ok (relay_at c).
Proof.
  intros [Hb Hi Hm Ho]. split; [intros i st; by rewrite Hb, lookup_empty|]. unfold relay_at.
  split; cbn; try done; rewrite Hb, omap_empty; intros; by rewrite lookup_empty in *.
Qed.

(** C6: at least once.  [publishBatch] is its five statements in a row; when any number of
    replicas take turns at these statements while transactions append rows, with statements
    failing, answers lost, batches stored in part and replicas dying anywhere, then at every
    moment a row marked published has its message in the topic, every message in the topic is
    a row's, and no row is in the hands of two replicas. *)
Theorem relay_at_least_once acts c c' :
  (forall a s, publishBatch (K := K) a s = statements 5 BBegin a s) /\
  (at_rest c -> relay_turns acts c = Some c' ->
   (forall r, r ∈ cl_rows c' -> ob_published r = true -> to_message r ∈ kafka_log (cl_kafka c')) /\
   (forall m, m ∈ kafka_log (cl_kafka c') -> exists r, r ∈ cl_rows c' /\ m = to_message r) /\
   (forall i j st st' id, i <> j -> cl_busy c' !! i = Some st -> cl_busy c' !! j = Some st' ->
      id ∈ held_rows st -> id ∉ held_rows st')).
Proof.
  split; [apply publishBatch_statements|]. intros [Hup Hok]%at_rest_ok Hrun.
  destruct (relay_turns_ok _ _ _ Hrun Hup Hok) as (_ & [_ Hpub _ Hdis _ Horg] & _). cbn in *.
  split_and!; [done|done|]. intros i j st st' id Hne Hi Hj Hin Hin'.
  pose proof (lock_at c' i st Hi) as Hl. pose proof (lock_at c' j st' Hj) as Hl'.
  destruct st, st'; cbn in *; try (by apply not_elem_of_nil in Hin); try (by apply not_elem_of_nil in Hin');
    by eapply (Hdis i j).
Qed.

End Properties.

(** ** Witnesses *)

Section Examples.
#[local] Existing Instance list_kafka.
#[local] Existing Instance list_kafka_laws.

Definition ex_cluster : cluster (U := ref_uuid) (list Message) :=
  {| cl_rows := ps_rows ex_pub; cl_kafka := []; cl_published := 0; cl_busy := ∅ |}.

Lemma ex_at_rest : at_rest ex_cluster.
Proof.
  split; cbn; [done|apply ex_nodup| |by intros m ?%not_elem_of_nil].
  intros r. rewrite !elem_of_cons. intros [->|[->|Hn]]; [done..|by apply elem_of_nil in Hn].
Qed.

Definition ex_turn (i : nat) : relay_act (U := ref_uuid) := Next i (amb0 [] (names "x") 1 5).

(** Replica 1 sends and dies before it marks; replica 2 sends again and marks. *)
Definition ex_crash : list (relay_act (U := ref_uuid)) :=
  [Call 1; ex_turn 1; ex_turn 1; ex_turn 1; Die 1; Call 2; ex_turn 2; ex_turn 2; ex_turn 2; ex_turn 2; ex_turn 2].

Definition ex_after (acts : list (relay_act (U := ref_uuid))) : cluster (list Message) :=
  default ex_cluster (relay_turns acts ex_cluster).

Lemma relay_at_least_once_witness :
  map ob_published (cl_rows (ex_after ex_crash)) = [true; true] /\ length (cl_kafka (ex_after ex_crash)) = 4 /\
  forall r, r ∈ cl_rows (ex_after ex_crash) -> ob_published r = true -> to_message r ∈ cl_kafka (ex_after ex_crash).
Proof.
  split; [vm_compute; reflexivity|]. split; [vm_compute; reflexivity|].
  refine (proj1 (proj2 (relay_at_least_once (U := ref_uuid) ex_crash ex_cluster (ex_after ex_crash)) ex_at_rest _)).
  vm_compute. reflexivity.
Defined.


End Examples.
