(* ===== verification/InventoryRaceProps.v ===== *)
(** * inventory-svc: properties of concurrent transactions

    Serialisability of the transactions on seats, the handlers as such transactions, progress
    of ordered locking, and what the order of the outbox does not say. *)

From stdpp Require Import base gmap list strings numbers sorting.
From S2P Require Import Prelude Platform GoStrings Events Redis Instances Inventory InventorySpec InventoryInv InventoryTrace InventoryProps Kafka Outbox OutboxProps InventoryRace InventoryRuns.

(** ** Serialisability *)

Section Serialisability.
Context `{U : UuidLib} {J : ProtoJson} `{!UuidLaws U} `{!ProtoJsonLaws J}.

(** C11: transactions on seats are serialisable.  However any number of reservations,
    confirmations, releases and sweeps interleave statement by statement, wait for each
    other's row locks, abort or commit, the database is what the committed ones make of it one
    after the other in the order of their commits, each a step of the specification (a seat is
    held only when it was free, sold or released only by the order that holds it).  So no two
    of them sell the same seat, the tables stay well formed, each seat moves only from free to
    held and from held to sold or free, and replaying the outbox in commit order gives the seat
    map. *)
Theorem concurrent_calls_serialise acts d c :
  run acts (idle d) = Some c ->
  db_steps (cs_log c) d (cs_db c) /\ NoDup (flat_map sells (cs_log c)) /\
  (announced d -> announced (cs_db c)) /\
  (wf_db d -> wf_db (cs_db c) /\ forall id r, tb_seats d !! id = Some r ->
     exists r' x x', tb_seats (cs_db c) !! id = Some r' /\ seat_of r = Some x /\ seat_of r' = Some x' /\ rtc seat_step x x').
Proof.
  intros Hrun. destruct (seat_run_ok acts _ _ (seat_idle_ok d) Hrun) as (_ & ls & Hlog & Hsteps). cbn in Hlog, Hsteps.
  rewrite Hlog. split_and!; [done|by eapply steps_sell_once|..].
  - eapply steps_invariant; eauto using db_step_announced.
  - intros Hwf. split; [by eapply (steps_invariant wf_db); eauto using db_step_wf|].
    intros id r. by apply (steps_seat ls).
Qed.
End Serialisability.

(** ** The handlers *)

Section HandlersProps.
Context `{U : UuidLib} {J : ProtoJson} {R : Type} `{RedisLib R}.
Context `{!UuidLaws U} `{!ProtoJsonLaws J}.

(** C12: the handlers are such transactions.  Whatever fails in an undisturbed call of
    [CreateEvent], [ReserveSeats], [ConfirmSeats] or [ReleaseSeats], its effect on the database
    is that of a run of the statements above: a call that answers committed exactly its step; a
    call that fails committed nothing, unless the answer to its commit was lost, and one that
    refuses the request ran to the refusal of the same request.  A sweep commits at most one
    release of expired holds. *)
Theorem seat_calls_are_transactions cl a s r a' s' :
  run_call cl a s = (r, a', s') -> as_transaction cl (is_db s) r (is_db s').
Proof.
  intros Hrun. refine (wp_run _ (fun r _ s' => as_transaction cl (is_db s) r (is_db s')) _ _ _ _ _ Hrun _).
  pose proof (fun d' (r : res unit) => ran_as_transaction cl (is_db s) r d') as Hran.
  destruct cl as [req|req|req|req|]; cbn [run_call call_readable call_label] in *.
  - apply wp_bind. eapply wp_mono; [apply CreateEvent_runs|]. intros [name|e] a1 s1 H1; [apply wp_ret|]; by apply Hran.
  - eapply wp_mono; [unfold ReserveSeats; apply wp_handler_runs; [apply reserve_tx_runs|]|].
    + intros x a1 s1. unfold inc_reserved. wp_steps. eapply wp_mono; [apply wp_for_each_ok; intros; apply wp_redis_write|].
      cbn. intros [y|e] a2 s2 [Hok Hs]; [|done]. by wp_steps.
    + intros r1 a1 s1 H1. by apply Hran.
  - eapply wp_mono; [unfold ConfirmSeats; apply wp_handler_runs; [intros Hv; apply moveHeldSeats_runs; [constructor|done]|]|].
    + intros x a1 s1. apply wp_bind. eapply wp_mono; [apply wp_for_each_ok; intros; apply wp_redis_write|].
      cbn. intros [y|e] a2 s2 [Hok Hs]; [|done]. by wp_steps.
    + intros r1 a1 s1 H1. by apply Hran.
  - eapply wp_mono; [unfold ReleaseSeats; apply wp_handler_runs; [intros Hv; apply moveHeldSeats_runs; [constructor|done]|]|].
    + intros x a1 s1. apply wp_bind. eapply wp_mono; [apply wp_for_each_ok; intros; apply wp_redis_write|].
      cbn. intros [y|e] a2 s2 [Hok Hs]; [|done]. by wp_steps.
    + intros r1 a1 s1 H1. by apply Hran.
  - eapply wp_mono; [apply sweep_runs|]. cbn. intros r1 a1 s1 (-> & acts & c & ? & ? & ? & [?|?]); exists acts, c; split_and!; auto.
Qed.
End HandlersProps.

(** ** Waiting for locks *)

Section Deadlock.
Context `{U : UuidLib} {J : ProtoJson} `{!UuidLaws U} `{!ProtoJsonLaws J}.

(** A strict total order in which scans meet the rows. *)
Context (before : relation UUID) `{!StrictOrder before} `{!Trichotomy before} `{!RelDecision before}.
Implicit Types (d : inv_db) (tx : seat_tx) (c : seat_race).

(** [id] is the first of the rows. *)
Definition comes_first (todo : gset UUID) (id : UUID) : Prop :=
  id ∈ todo /\ set_Forall (fun id' => id' = id \/ before id id') todo.

#[local] Instance comes_first_dec todo id : Decision (comes_first todo id).
Proof. unfold comes_first. apply _. Defined.

(** A lock is on the first row the scan still wants. *)
Definition takes_first (act : action) c : bool :=
  match act with
  | ALock i id =>
      match tx_stage <$> cs_txs c !! i with
      | Some (Scanning todo _) => bool_decide (comes_first todo id)
      | _ => true
      end
  | _ => true
  end.

(** Every scan locks its rows in this order. *)
Fixpoint in_order (acts : list action) c : bool :=
  match acts with
  | [] => true
  | act :: acts' => takes_first act c && match step act c with Some c' => in_order acts' c' | None => true end
  end.

(** The transaction can take its next step without waiting: the next statement, the next row
    of its scan, the commit, or an outbox row (its id is new, so nobody else can block it). *)
Definition goes_on c (i : nat) : Prop :=
  exists tx, cs_txs c !! i = Some tx /\
    ((exists got wr g groups out, tx_stage tx = Emitting got wr (g :: groups) out) \/
     exists act, is_Some (step act c) /\
       (act ∈ [AScan i; AReturn i; ARefuse i; AUpdate i; ACommit i] \/
        exists todo got id, tx_stage tx = Scanning todo got /\ comes_first todo id /\ act = ALock i id)).

(** The rows a scan has locked come before those it still wants, and these exist. *)
Record lined_up c : Prop := {
  lu_ok : race_ok c;
  lu_order : forall i tx todo got, cs_txs c !! i = Some tx -> tx_stage tx = Scanning todo got ->
    forall x y, x ∈ got.*1 -> y ∈ todo -> before x y;
  lu_known : forall i tx todo got, cs_txs c !! i = Some tx -> tx_stage tx = Scanning todo got ->
    forall id, id ∈ todo -> is_Some (tb_seats (cs_db c) !! id);
}.

Lemma db_step_seats l d d' id : db_step l d d' -> is_Some (tb_seats d !! id) -> is_Some (tb_seats d' !! id).
Proof.
  intros Hst [r Hr]. destruct (db_step_cases _ _ _ Hst) as [(h & rows & Ht)|(ev & n & ->)].
  - rewrite (seats_set_lookup _ _ _ _ _ id (tc_set _ _ _ _ _ _ Ht)), Hr. by eexists.
  - rewrite (db_step_keeps _ _ _ id Hst), Hr; [by eexists|by eexists|apply not_elem_of_nil].
Qed.

Lemma step_seats act c c' id :
  race_ok c -> step act c = Some c' -> is_Some (tb_seats (cs_db c) !! id) -> is_Some (tb_seats (cs_db c') !! id).
Proof.
  intros Hok Hs. destruct (seat_step_ok act c c' Hok Hs) as [_ [[-> _]|(l & _ & Hst)]]; [done|]. by eapply db_step_seats.
Qed.

(** Where a scanning transaction comes from. *)
Lemma step_scanning act c c' j tx' todo got :
  step act c = Some c' -> cs_txs c' !! j = Some tx' -> tx_stage tx' = Scanning todo got ->
  cs_txs c !! j = Some tx' \/
  (got = [] /\ forall id, id ∈ todo -> is_Some (tb_seats (cs_db c) !! id)) \/
  (exists id tx r todo0 got0, act = ALock j id /\ cs_txs c !! j = Some tx /\ tx_stage tx = Scanning todo0 got0 /\
     todo = todo0 ∖ {[id]} /\ got = got0 ++ [(id, r)]).
Proof.
  intros Hs Hj Hst. destruct act as [i k req start|i expired start|i|i id|i|i|i|i mid now|i|i|req ev ids now];
    cbn [step] in Hs; try (destruct (cs_txs c !! i) as [tx|] eqn:Hi; [|done]; cbn [mbind option_bind] in Hs).
  3: { destruct (tx_stage tx); try done. injection Hs as <-. cbn in Hj.
       apply lookup_insert_Some in Hj as [[<- <-]|[_ Hj]]; [|by left]. cbn in Hst. injection Hst as <- <-.
       right. left. split; [done|]. intros id. rewrite elem_of_list_to_set, elem_of_fst_sql_select. intros (r & Hr & _). eauto. }
  3: { destruct (tx_stage tx) as [|todo0 got0| |] eqn:Hst0; try done. destruct (tb_seats _ !! id) as [r|]; [|done].
       destruct (bool_decide _ && _); [|done]. injection Hs as <-. cbn in Hj.
       apply lookup_insert_Some in Hj as [[<- <-]|[_ Hj]]; [|by left]. cbn in Hst. injection Hst as <- <-.
       right. right. exists id, tx, r, todo0, got0. auto. }
  all: left; unfold begin_tx in Hs; repeat (case_match; try done); simplify_eq; cbn in *;
    try (destruct (read_args req) as [g|]; cbn in Hs; [|done]; repeat (case_match; try done); simplify_eq; cbn in * );
    try (destruct (emitted_row _ _ _ _ _ _); cbn in Hs; [|done]; repeat (case_match; try done); simplify_eq; cbn in * );
    try (destruct (create_rows _ _ _ _ _); cbn in Hs; [|done]; simplify_eq; cbn in * );
    try (apply lookup_insert_Some in Hj as [[<- <-]|[_ Hj]]; [done|done]);
    try (by apply lookup_delete_Some in Hj as [_ Hj]); done.
Qed.

Lemma step_lined_up act c c' :
  lined_up c -> step act c = Some c' -> takes_first act c = true -> lined_up c'.
Proof.
  intros [Hok Ho Hk] Hs Hact. split; [by eapply seat_step_ok|..].
  - intros j tx' todo got Hj Hst.
    destruct (step_scanning _ _ _ _ _ _ _ Hs Hj Hst) as [Hj'|[[-> _]|(id & tx & r & todo0 & got0 & -> & Hj' & Hst' & -> & ->)]].
    + by eapply Ho.
    + by intros x y ?%elem_of_nil.
    + cbn [takes_first] in Hact. rewrite Hj' in Hact. cbn in Hact. rewrite Hst' in Hact.
      apply bool_decide_eq_true in Hact as [_ Hfirst]. intros x y. rewrite fmap_app.
      intros [Hx| ->%list_elem_of_singleton]%elem_of_app [Hy Hne]%elem_of_difference; [by eapply Ho|].
      destruct (Hfirst y Hy); [set_solver|done].
  - intros j tx' todo got Hj Hst id Hid. eapply step_seats; [done..|].
    destruct (step_scanning _ _ _ _ _ _ _ Hs Hj Hst) as [Hj'|[[_ Hn]|(id' & tx & r & todo0 & got0 & -> & Hj' & Hst' & -> & _)]];
      [by eapply Hk|by apply Hn|]. eapply Hk; [done..|]. set_solver.
Qed.

Lemma run_lined_up acts c c' : lined_up c -> in_order acts c = true -> run acts c = Some c' -> lined_up c'.
Proof.
  revert c. induction acts as [|act acts IH]; intros c Hc; cbn; [by intros _ [= <-]|].
  intros [Hact Hrest]%andb_true_iff. destruct (step act c) as [c1|] eqn:E; cbn; [|done]. apply IH; [|done].
  by eapply step_lined_up.
Qed.

Lemma idle_lined_up d : lined_up (idle d).
Proof. split; [apply seat_idle_ok|..]; cbn; intros *; by rewrite lookup_empty. Qed.

Lemma comes_first_exists (todo : gset UUID) : todo <> ∅ -> exists id, comes_first todo id.
Proof.
  intros Hne. destruct (minimal_exists_elem_of_L before todo Hne) as (id & Hid & Hmin). exists id. split; [done|].
  intros y Hy. destruct (trichotomy before y id) as [Hlt|[->|Hlt]]; [|by left|by right].
  specialize (Hmin y Hy Hlt). by destruct (irreflexivity before y (transitivity Hlt Hmin)).
Qed.

(** A transaction that is not in the middle of a scan can go on. *)
Lemma not_scanning_goes_on c i tx :
  race_ok c -> cs_txs c !! i = Some tx ->
  (forall todo got, tx_stage tx = Scanning todo got -> todo = ∅) -> goes_on c i.
Proof.
  intros Hok Hi Hst. exists tx. split; [done|]. destruct (ro_txs _ Hok i tx Hi) as (Hj & Hgot & Hnd).
  destruct (tx_stage tx) as [|todo got|got|got wr [|g groups] out] eqn:E; [right..|left; eauto 10].
  - exists (AScan i). split; [|left; set_solver]. cbn [step]. rewrite Hi. cbn. rewrite E. by eexists.
  - exists (AReturn i). split; [|left; set_solver]. cbn [step]. rewrite Hi. cbn. rewrite E.
    rewrite bool_decide_eq_true_2 by (by eapply Hst). by eexists.
  - destruct (accepts (tx_job tx) (matching (tx_job tx) got)) eqn:Hacc.
    + exists (AUpdate i). split; [|left; set_solver]. cbn [step]. rewrite Hi. cbn. rewrite E, Hacc. cbn.
      destruct (updated_rows_ready _ _ _ Hj Hgot Hnd Hacc) as (_ & Hlock & _).
      rewrite (proj2 (forallb_forall _ _)); [by eexists|]. intros x Hx%list_elem_of_In%(list_elem_of_fmap_2 fst)%Hlock.
      apply bool_decide_eq_true_2. intros j tx' Hj'. destruct (decide (i = j)) as [|Hne]; [by left|right].
      apply (ro_apart _ Hok i j tx tx' Hi Hj' Hne). by rewrite E.
    + exists (ARefuse i). split; [|left; set_solver]. cbn [step]. rewrite Hi. cbn. rewrite E, Hacc. by eexists.
  - exists (ACommit i). split; [|left; set_solver]. cbn [step]. rewrite Hi. cbn. rewrite E. by eexists.
Qed.

(** The rows the scans still want. *)
Definition wanted c : gset UUID :=
  ⋃ ((fun x => match tx_stage x.2 with Scanning todo _ => todo | _ => ∅ end) <$> map_to_list (cs_txs c)).

Lemma elem_of_wanted c i tx todo got id :
  cs_txs c !! i = Some tx -> tx_stage tx = Scanning todo got -> id ∈ todo -> id ∈ wanted c.
Proof.
  intros Hi Hst Hid. apply elem_of_union_list. exists todo. split; [|done]. apply list_elem_of_fmap.
  exists (i, tx). cbn. rewrite Hst. split; [done|]. by apply elem_of_map_to_list.
Qed.

Lemma later_smaller (X : gset UUID) id id' :
  before id id' -> id' ∈ X -> size (filter (before id') X) < size (filter (before id) X).
Proof.
  intros Hlt Hin. apply subset_size. split.
  - intros x [Hx ?]%elem_of_filter. apply elem_of_filter. split; [by transitivity id'|done].
  - intros Hsub. assert (Hx : id' ∈ filter (before id) X) by (by apply elem_of_filter).
    apply Hsub, elem_of_filter in Hx as [Hx _]. by destruct (irreflexivity before id').
Qed.

(** Who waits, waits for somebody who wants a later row or goes on. *)
Lemma some_goes_on n c i tx todo got id :
  lined_up c -> cs_txs c !! i = Some tx -> tx_stage tx = Scanning todo got -> comes_first todo id ->
  size (filter (before id) (wanted c)) < n -> exists j, goes_on c j.
Proof.
  intros [Hok Ho Hk]. revert i tx todo got id. induction n as [|n IH]; intros i tx todo got id Hi Hst Hid Hn; [lia|].
  destruct (unlocked i id c) eqn:Hu.
  { exists i, tx. split; [done|]. right. exists (ALock i id). split; [|right; eauto 10].
    destruct (Hk _ _ _ _ Hi Hst id (proj1 Hid)) as [r Hr]. cbn [step]. rewrite Hi. cbn. rewrite Hst, Hr, Hu.
    rewrite bool_decide_eq_true_2 by apply Hid. by eexists. }
  apply bool_decide_eq_false in Hu. apply map_not_Forall in Hu as (j & tx' & Hj & Hlock); [|apply _].
  apply Decidable.not_or in Hlock as [Hne Hlock]. apply dec_stable in Hlock.
  destruct (tx_stage tx') as [|todo' got'|got'|got' wr' groups' out'] eqn:Hst'.
  2: destruct (decide (todo' = ∅)) as [->|Hne'].
  3: { destruct (comes_first_exists todo' Hne') as [id' Hid'].
       assert (Hlt : before id id') by (eapply Ho; [exact Hj|exact Hst'|done|apply Hid']).
       apply (IH j tx' todo' got' id' Hj Hst' Hid').
       pose proof (later_smaller (wanted c) id id' Hlt (elem_of_wanted _ _ _ _ _ _ Hj Hst' (proj1 Hid'))). lia. }
  all: exists j; apply (not_scanning_goes_on c j tx' Hok Hj); rewrite Hst'; by intros ? ? [=].
Qed.

(** Row locks taken in one order cannot deadlock.  As long as every scan locks its rows in
    a common order, whatever else interleaves, whenever transactions are open at least one of
    them can take its next step without waiting for a lock. *)
Lemma ordered_scans_never_deadlock acts d c :
  run acts (idle d) = Some c -> in_order acts (idle d) = true -> cs_txs c <> ∅ -> exists i, goes_on c i.
Proof.
  intros Hrun Hord Hne. pose proof (run_lined_up _ _ _ (idle_lined_up d) Hord Hrun) as Hl.
  apply map_choose in Hne as (i & tx & Hi).
  destruct (tx_stage tx) as [|todo got|got|got wr groups out] eqn:Hst.
  2: destruct (decide (todo = ∅)) as [->|Hne'].
  3: { destruct (comes_first_exists todo Hne') as [id Hid]. 
       by apply (some_goes_on (S (size (filter (before id) (wanted c)))) c i tx todo got id); [..|lia]. }
  all: exists i; apply (not_scanning_goes_on c i tx (lu_ok _ Hl) Hi); rewrite Hst; by intros ? ? [=].
Qed.

(** A scan all of whose remaining rows are locked by others. *)
Definition blocked c (i : nat) (tx : seat_tx) : bool :=
  match tx_stage tx with
  | Scanning todo _ => bool_decide (todo <> ∅) && forallb (fun id => negb (unlocked i id c)) (elements todo)
  | _ => false
  end.

Lemma blocked_waits c i tx : cs_txs c !! i = Some tx -> blocked c i tx = true -> ~ goes_on c i.
Proof.
  intros Hi Hb (tx' & Hi' & Hgo). assert (tx' = tx) as -> by congruence. unfold blocked in Hb.
  destruct (tx_stage tx) as [|todo got|got|got wr groups out] eqn:Hst; try done.
  apply andb_true_iff in Hb as [Hne%bool_decide_eq_true Hall]. rewrite forallb_forall in Hall.
  destruct Hgo as [(? & ? & ? & ? & ? & ?)|(act & [c' Hs] & Hact)]; [done|].
  destruct Hact as [Hact|(todo' & got' & id & [= <- <-] & [Hid _] & ->)].
  - repeat (apply elem_of_cons in Hact as [->|Hact]); [..|by apply elem_of_nil in Hact];
      cbn [step] in Hs; rewrite Hi in Hs; cbn [mbind option_bind] in Hs; rewrite Hst in Hs; try done.
    by rewrite bool_decide_eq_false_2 in Hs.
  - cbn [step] in Hs. rewrite Hi in Hs. cbn [mbind option_bind] in Hs. rewrite Hst in Hs.
    specialize (Hall id). rewrite <- list_elem_of_In, elem_of_elements in Hall. specialize (Hall Hid).
    apply negb_true_iff in Hall. rewrite Hall, andb_false_r in Hs. by destruct (tb_seats _ !! id).
Qed.
End Deadlock.

(** ** Witnesses, an inversion and a deadlock *)

(** What a subscriber of the topic takes a seat for: the last message about it. *)
Definition feed_status `{U : UuidLib} {J : ProtoJson} (log : list Message) (id : UUID) : string :=
  foldl (fun st m => match DecodeSeatEvent (msg_Value m) with
                     | Ok e => match mapM pg_uuid (se_SeatIds e) with
                               | Some ids => if bool_decide (id ∈ ids) then state_status (se_State e) else st
                               | None => st
                               end
                     | Err _ => st
                     end) "AVAILABLE" log.

Section Examples.
#[local] Existing Instance list_kafka.

Abbreviation seat n := (n : @UUID ref_uuid).

(** Another order wants the same seats. *)
Definition rival_req : SeatsRequest :=
  {| sr_EventId := "ux0"; sr_SeatIds := ["ux2"; "ux1"]; sr_OrderId := "up" |}.

Definition gig_db : inv_db := is_db gig_state.

(** Both read before either has locked all of its rows; the second waits and is refused. *)
Definition two_buyers : list (action (U := ref_uuid)) :=
  [ABegin 1 KReserve gig_req 1; ABegin 2 KReserve rival_req 2; AScan 1; AScan 2; ALock 1 (seat "x1"); ALock 1 (seat "x2");
   AReturn 1; AUpdate 1; AEmit 1 (seat "m1") 3; ACommit 1; ALock 2 (seat "x1"); ALock 2 (seat "x2"); AReturn 2; ARefuse 2;
   ABegin 3 KConfirm gig_req 4; AScan 3; ALock 3 (seat "x1"); ALock 3 (seat "x2"); AReturn 3; AUpdate 3;
   AEmit 3 (seat "m3") 5; ACommit 3].

Definition bought : option seat_race := run two_buyers (idle gig_db).

Lemma bought_log : cs_log <$> bought =
  Some [LReserve (seat "x0") (seat "o") [seat "x1"; seat "x2"]; LConfirm (seat "x0") (seat "o") [seat "x1"; seat "x2"]].
Proof. vm_compute. reflexivity. Qed.

Lemma concurrent_calls_serialise_witness :
  exists c, bought = Some c /\ db_steps (cs_log c) gig_db (cs_db c) /\ flat_map sells (cs_log c) = [seat "x1"; seat "x2"] /\
    wf_db (cs_db c).
Proof.
  pose proof bought_log as E. destruct bought as [c|] eqn:Hc; [|discriminate E]. injection E as E.
  destruct (concurrent_calls_serialise two_buyers gig_db c Hc) as (H1 & _ & _ & H2).
  exists c. split_and!; [reflexivity|exact H1|rewrite E; reflexivity|exact (proj1 (H2 (proj1 gig_wf)))].
Defined.

Lemma seat_calls_are_transactions_witness :
  is_ok gig_held.1.1 = true /\ as_transaction (CallReserve gig_req) gig_db gig_held.1.1 (is_db gig_held.2).
Proof.
  split; [vm_compute; reflexivity|].
  exact (seat_calls_are_transactions (CallReserve gig_req) (amb0 [] (names "y") 1 1) gig_state _ _ _ (run_eta gig_held)).
Defined.

(** The order [o] holds the seats and releases them, in a transaction that begins at 20; a
    reservation of [p] has begun at 10 and waits for the rows. *)
Definition late_commit : list (action (U := ref_uuid)) :=
  [ABegin 1 KReserve gig_req 1; AScan 1; ALock 1 (seat "x1"); ALock 1 (seat "x2"); AReturn 1; AUpdate 1;
   AEmit 1 (seat "m1") 1; ACommit 1;
   ABegin 2 KReserve rival_req 10; ABegin 3 KRelease gig_req 20; AScan 3; ALock 3 (seat "x1"); ALock 3 (seat "x2");
   AScan 2; AReturn 3; AUpdate 3; AEmit 3 (seat "m3") 21; ACommit 3;
   ALock 2 (seat "x1"); ALock 2 (seat "x2"); AReturn 2; AUpdate 2; AEmit 2 (seat "m2") 22; ACommit 2].

Definition late : option seat_race := run late_commit (idle gig_db).

(** The outbox as the publisher finds it, and the topic after its next batch. *)
Definition published (c : seat_race (U := ref_uuid)) : list Message :=
  ps_kafka (publishBatch (amb0 [] (names "k") 30 30) (Build_pub_state (tb_outbox (cs_db c)) [] [] 0)).2.

Lemma late_commit_runs :
  (fun c => ((fun r => (st_status r, st_held_by r)) <$> tb_seats (cs_db c) !! seat "x1", size (cs_txs c),
             feed_status (published c) (seat "x1"))) <$> late =
  Some (Some ("HELD", Some (seat "p")), 0, "AVAILABLE").
Proof. vm_compute. reflexivity. Qed.

(** The topic can end with the wrong word on a seat.  Outbox rows carry the time their
    transaction began and the publisher relays them in that order: there is an interleaving of
    a release and a reservation that waited for it after which the seat is held, but the batch
    the publisher sends ends with the release, so that whoever follows the topic takes the
    seat for available. *)
Lemma late_commit_reorders_the_feed :
  exists acts d (c : seat_race (U := ref_uuid)) id r, wf_db d /\ announced d /\
    run acts (idle d) = Some c /\ cs_txs c = ∅ /\
    tb_seats (cs_db c) !! id = Some r /\ st_status r = "HELD" /\ feed_status (published c) id = "AVAILABLE".
Proof.
  pose proof late_commit_runs as E. destruct late as [c|] eqn:Hc; [|discriminate E].
  cbn [fmap option_fmap option_map] in E. injection E as Hseat Htx Hfeed.
  apply fmap_Some in Hseat as (r & Hr & [= Hst _]). symmetry in Hst.
  exists late_commit, gig_db, c, (seat "x1"), r.
  split_and!; [apply gig_wf|apply gig_wf|exact Hc|by apply map_size_empty_inv|exact Hr|exact Hst|exact Hfeed].
Qed.

(** Two reservations that meet the same rows in opposite orders. *)
Definition crossed : list (action (U := ref_uuid)) :=
  [ABegin 1 KReserve gig_req 1; ABegin 2 KReserve rival_req 2; AScan 1; AScan 2; ALock 1 (seat "x1"); ALock 2 (seat "x2")].

Definition stuck : option seat_race := run crossed (idle gig_db).

Lemma stuck_blocked :
  (fun c => (size (cs_txs c), forallb (fun x => blocked c x.1 x.2) (map_to_list (cs_txs c)))) <$> stuck = Some (2, true).
Proof. vm_compute. reflexivity. Qed.

(** The locked read has no [ORDER BY]: when two reservations meet the same rows in opposite
    orders, each waits for the other, and neither can ever take its next step; Postgres
    detects this and aborts one of them. *)
Lemma unordered_scans_can_deadlock before :
  exists c, stuck = Some c /\ cs_txs c <> ∅ /\ forall i, ~ goes_on before c i.
Proof.
  pose proof stuck_blocked as E. destruct stuck as [c|] eqn:Hc; [|discriminate E].
  cbn [fmap option_fmap option_map] in E. injection E as Hsize Hall. exists c. split_and!; [done| |].
  - intros He. by rewrite He, map_size_empty in Hsize.
  - intros i Hgo. pose proof Hgo as (tx & Hi & _). rewrite forallb_forall in Hall.
    apply (blocked_waits before c i tx Hi); [|done]. apply (Hall (i, tx)), list_elem_of_In. by apply elem_of_map_to_list.
Qed.

(** The same two reservations in the order of the seats: the second waits, the first goes on. *)
Definition in_line : list (action (U := ref_uuid)) :=
  [ABegin 1 KReserve gig_req 1; ABegin 2 KReserve rival_req 2; AScan 1; AScan 2; ALock 1 (seat "x1")].

Definition lt_code : relation (@UUID ref_uuid) := fun x y => (encode x < encode y)%positive.

#[local] Instance lt_code_dec : RelDecision lt_code.
Proof. unfold lt_code. intros x y. apply _. Defined.
#[local] Instance lt_code_strict : StrictOrder lt_code.
Proof. unfold lt_code. split; [intros x; unfold complement; lia|intros x y z; lia]. Qed.
#[local] Instance lt_code_trichotomy : Trichotomy lt_code.
Proof.
  intros x y. unfold lt_code. destruct (Pos.lt_total (encode x) (encode y)) as [?|[?|?]]; [by left| |by right; right].
  right. left. by apply (inj encode).
Qed.

Definition lined : option seat_race := run in_line (idle gig_db).

Lemma lined_open : (fun c => bool_decide (cs_txs c = ∅)) <$> lined = Some false.
Proof. vm_compute. reflexivity. Qed.

Lemma ordered_scans_never_deadlock_witness :
  exists c, lined = Some c /\ exists i, goes_on lt_code c i.
Proof.
  pose proof lined_open as E. destruct lined as [c|] eqn:Hc; [|discriminate E]. injection E as E.
  exists c. split; [reflexivity|].
  refine (ordered_scans_never_deadlock lt_code in_line gig_db c Hc _ _); [vm_compute; reflexivity|].
  by apply bool_decide_eq_false in E.
Defined.
End Examples.
