(* ===== verification/StressTest.v ===== *)
(** * The stress test ([scripts/stresstest])

    The script creates an event with one seat and lets twenty goroutines reserve it at once; it
    prints the number of winners next to "expected: 1".  The goroutines' calls are transactions
    of [InventoryRace.v], one per goroutine. *)

From Stdlib Require Import String.
From stdpp Require Import base gmap list strings numbers sorting.
From S2P Require Import Prelude Platform GoStrings Events Redis Instances Inventory InventorySpec InventoryInv InventoryTrace InventoryLive InventoryProps InventoryRace.

(** ** The script *)

Section Script.
Context `{U : UuidLib} {J : ProtoJson} {R : Type} `{RedisLib R} `{!PgOrder U}.

Definition concurrency : nat := 20.

(** Until the goroutines start: the event and its only seat.  The script panics on an error. *)
Definition stress_setup : prog (inv_state R) (string * string) :=
  eventID ← CreateEvent {| ce_Name := "Stress Test Event"; ce_SeatCount := 1 |};
  seats ← ListSeats {| ls_EventId := eventID |};
  match seats with
  | [] => throw (EText "panic: index out of range [0] with length 0")
  | seat :: _ => mret (eventID, seat_Id seat)
  end.

(** The request of a goroutine; its order id is its own [uuid.New()]. *)
Definition stress_request (eventID seatID : string) (order : UUID) : SeatsRequest :=
  {| sr_EventId := eventID; sr_SeatIds := [seatID]; sr_OrderId := uuid_string order |}.

(** [%2d] *)
Definition pad_2d (n : nat) : string := (if n <? 10 then " " else "") +:+ itoa (Z.of_nat n).

(** The line a goroutine sends to [results]: [None] when its call succeeded, or the text of
    the error. *)
Definition result_line (n : nat) (order : UUID) (err : option string) : string :=
  match err with
  | Some e => "goroutine " +:+ pad_2d n +:+ ": lost (" +:+ e +:+ ")"
  | None => "goroutine " +:+ pad_2d n +:+ ": WON  (order " +:+ uuid_string order +:+ ")"
  end.

(** [strings.Contains] *)
Definition contains (s sub : string) : bool :=
  match String.index 0 sub s with Some _ => true | None => false end.

Definition winners (results : list string) : nat :=
  length (filter (fun r => contains r "WON" = true) results).

(** How gRPC prints the refusal of a call. *)
Definition not_available : string :=
  "rpc error: code = FailedPrecondition desc = one or more seats are not available".

(** A goroutine won when its order's reservation was committed. *)
Definition won (order : UUID) (log : list db_label) : bool :=
  existsb (fun l => match l with LReserve _ o _ => bool_decide (o = order) | _ => false end) log.

(** A losing goroutine's answer is the refusal of [reserve_tx], the only one a call can meet
    while [stress_act] holds; which goroutines won is read off the commits. *)
Definition stress_results (order : nat -> UUID) (log : list db_label) : list string :=
  map (fun n => result_line n (order n) (if won (order n) log then None else Some not_available))
    (seq 0 concurrency).

(** What happens while the goroutines run: their calls, and nothing else. *)
Definition stress_act (eventID seatID : string) (order : nat -> UUID) (act : action) : bool :=
  match act with
  | ABegin i KReserve req _ => (i <? concurrency) &&
      bool_decide (sr_EventId req = eventID) && bool_decide (sr_SeatIds req = [seatID]) &&
      bool_decide (sr_OrderId req = uuid_string (order i))
  | AScan _ | ALock _ _ | AReturn _ | ARefuse _ | AUpdate _ | AEmit _ _ _ | ACommit _ => true
  | _ => false
  end.
End Script.

(** ** One winner *)

Section Winner.
Context `{U : UuidLib} {J : ProtoJson} `{!UuidLaws U} `{!ProtoJsonLaws J}.
Context (ev seat : UUID) (order : nat -> UUID).

(** A goroutine's transaction, which has met the seat or is about to. *)
Definition stress_tx (i : nat) (tx : seat_tx) : Prop :=
  i < concurrency /\
  (exists g, tx_job tx = JSeats KReserve g /\ sa_ev g = ev /\ sa_order g = order i /\ sa_ids g = [seat] /\
     length (sr_SeatIds (sa_req g)) = 1) /\
  match tx_stage tx with
  | Begun => True
  | Scanning todo got => seat ∈ todo \/ seat ∈ got.*1
  | Returned got => seat ∈ got.*1
  | Emitting _ _ _ _ => True
  end.

(** The seat is free and nobody has committed, or it is held and one goroutine has. *)
Definition stress_seat (log : list db_label) (d : inv_db) : Prop :=
  exists r, tb_seats d !! seat = Some r /\ st_event_id r = ev /\
    ((log = [] /\ st_status r = "AVAILABLE") \/
     exists n, n < concurrency /\ log = [LReserve ev (order n) [seat]] /\ st_status r = "HELD").

Record stress_ok (c : seat_race) : Prop := {
  so_race : race_ok c;
  so_txs : forall i tx, cs_txs c !! i = Some tx -> stress_tx i tx;
  so_seat : stress_seat (cs_log c) (cs_db c);
}.

(** The seat is one of the rows the locked read looks for. *)
Lemma stress_scans g d r :
  sa_ev g = ev -> sa_ids g = [seat] -> tb_seats d !! seat = Some r -> st_event_id r = ev ->
  seat ∈ (sql_select (scans (JSeats KReserve g)) (tb_seats d)).*1.
Proof.
  intros Hev Hids Hr He. apply elem_of_fst_sql_select. exists r. split; [done|]. cbn. unfold seats_of.
  rewrite Hids, Hev, !bool_decide_eq_true_2; [done|done|by left].
Qed.

(** Exactly the seat is returned. *)
Lemma stress_matching g got (d : inv_db) r :
  sa_ev g = ev -> sa_ids g = [seat] -> NoDup got.*1 -> seat ∈ got.*1 ->
  (forall id r, (id, r) ∈ got -> tb_seats d !! id = Some r) -> tb_seats d !! seat = Some r -> st_event_id r = ev ->
  matching (JSeats KReserve g) got = [(seat, r)].
Proof.
  intros Hev Hids Hnd Hin Hgot Hr He.
  assert (Hm : (seat, r) ∈ matching (JSeats KReserve g) got).
  { apply list_elem_of_filter. cbn. unfold seats_of. rewrite Hids, Hev, !bool_decide_eq_true_2; [|done|by left].
    split; [done|]. apply list_elem_of_fmap in Hin as ([id' r'] & Hid & Hin). cbn in Hid. subst id'.
    apply Hgot in Hin as Hr'. congruence. }
  apply Permutation_singleton_r, NoDup_Permutation.
  - apply (NoDup_fmap_1 fst). eapply sublist_NoDup; [exact Hnd|]. apply fmap_sublist, sublist_filter.
  - apply NoDup_singleton.
  - intros [id r']. rewrite list_elem_of_singleton. split; [|by intros [= -> ->]].
    intros [Hp Hg]%list_elem_of_filter. cbn in Hp. apply seats_of_ids in Hp. rewrite Hids in Hp.
    apply list_elem_of_singleton in Hp as ->. apply Hgot in Hg. congruence.
Qed.

(** A goroutine is refused only after another one has committed. *)
Lemma stress_refused c i tx got :
  stress_ok c -> cs_txs c !! i = Some tx -> tx_stage tx = Returned got ->
  accepts (tx_job tx) (matching (tx_job tx) got) = false -> cs_log c <> [].
Proof.
  intros [Hok Htx (r & Hr & He & Hseat)] Hi Hst Hacc Hlog. destruct (Htx i tx Hi) as (_ & (g & Hj & Hev & _ & Hids & Hlen) & Hstage).
  destruct (ro_txs _ Hok i tx Hi) as (_ & Hgot & Hnd). rewrite Hst in *. cbn in Hgot.
  rewrite Hj, (stress_matching g got (cs_db c) r) in Hacc by done. cbn in Hacc. rewrite Hlen in Hacc.
  destruct Hseat as [[_ Hs]|(n & _ & Hl & _)]; [|congruence]. by rewrite Hs in Hacc.
Qed.

Lemma stress_commit c i tx got wr out :
  stress_ok c -> cs_txs c !! i = Some tx -> tx_stage tx = Emitting got wr [] out ->
  stress_seat (cs_log c ++ [job_label (tx_job tx) wr.*1]) (apply_job (tx_job tx) wr.*1 out (cs_db c)).
Proof.
  intros [Hok Htx (r & Hr & He & Hseat)] Hi Hst. destruct (Htx i tx Hi) as (Hn & (g & Hj & Hev & Ho & Hids & _) & _).
  pose proof (commit_step _ _ _ _ _ Hst (ro_txs _ Hok i tx Hi)) as Hstep. rewrite Hj in *. cbn [job_label] in *.
  rewrite Hev, Ho, Hids in *. inversion Hstep as [? ? ? row ? ? _ [_ Hfree] Hset _ _| | | |]; subst.
  destruct (Hfree seat) as (r' & Hr' & _ & Hs); [by left|]. assert (r' = r) as -> by congruence.
  destruct Hseat as [[-> _]|(n & _ & _ & Hheld)]; [|congruence].
  eexists. rewrite (seats_set_lookup _ _ _ _ _ seat Hset), Hr. cbn [fmap option_fmap option_map].
  rewrite bool_decide_eq_true_2 by (by left). split_and!; [done|done|]. right. by exists i.
Qed.

Lemma stress_set c i tx :
  stress_ok c -> race_ok (set_tx i tx c) -> stress_tx i tx ->
  stress_ok (set_tx i tx c) /\ (cs_log (set_tx i tx c) = [] -> cs_txs (set_tx i tx c) <> ∅).
Proof.
  intros [Hok Htx Hseat] Hok' Hi. split; [split; [done| |done]|].
  - cbn. intros j tx' [[<- <-]|[_ Hj]]%lookup_insert_Some; [done|by apply Htx].
  - intros _. cbn. apply insert_non_empty.
Qed.

Lemma stress_step eventID seatID act c c' :
  pg_uuid eventID = Some ev -> pg_uuid seatID = Some seat ->
  stress_ok c -> stress_act eventID seatID order act = true -> step act c = Some c' ->
  stress_ok c' /\ (cs_log c' = [] -> cs_txs c' <> ∅).
Proof.
  intros Hev Hseat Hok Hact Hs. destruct (seat_step_ok act c c' (so_race _ Hok) Hs) as [Hok' _].
  destruct act as [i k req start|i expired start|i|i id|i|i|i|i mid now|i|i|req ev' ids now]; try done;
    cbn [step] in Hs; try (destruct (cs_txs c !! i) as [tx|] eqn:Hi; [|done]; cbn [mbind option_bind] in Hs;
      destruct (so_txs _ Hok i tx Hi) as (Hn & Hjob & Hstage)).
  - destruct k; try done. unfold stress_act in Hact. reflect_bools.
    destruct (read_args req) as [g|] eqn:Hg; [|done]. cbn in Hs. unfold begin_tx in Hs.
    destruct (cs_txs c !! i) eqn:Hi; [done|]. injection Hs as <-. apply stress_set; [done|done|].
    split_and!; [by apply Nat.ltb_lt| |done]. exists g. split; [done|]. unfold read_args in Hg.
    destruct (validateSeatRequest _ _ _); [|done]. destruct req as [e ids o]. cbn in *. subst.
    rewrite Hev, pg_uuid_string in Hg. cbn in Hg. rewrite Hseat in Hg. cbn in Hg. by injection Hg as <-.
  - destruct (tx_stage tx) eqn:Hst; try done. injection Hs as <-. apply stress_set; [done|done|].
    split_and!; [done|done|]. left. destruct (so_seat _ Hok) as (r & Hr & He & _).
    destruct Hjob as (g & Hj & Hge & _ & Hids & _). cbn. rewrite elem_of_list_to_set, Hj. by eapply stress_scans.
  - destruct (tx_stage tx) as [|todo got| |] eqn:Hst; try done. destruct (tb_seats _ !! id) as [r|]; [|done].
    destruct (bool_decide _ && _); [|done]. injection Hs as <-. apply stress_set; [done|done|].
    split_and!; [done|done|]. cbn. rewrite fmap_app, elem_of_app. destruct (decide (id = seat)) as [->|Hne].
    + right. right. by left.
    + destruct Hstage as [?|?]; [left; set_solver|right; by left].
  - destruct (tx_stage tx) as [|todo got| |] eqn:Hst; try done. case_bool_decide as Ht; [|done]. injection Hs as <-.
    apply stress_set; [done|done|]. split_and!; [done|done|]. cbn. subst todo. destruct Hstage; [set_solver|done].
  - destruct (tx_stage tx) as [| |got|] eqn:Hst; try done. destruct (accepts _ _) eqn:Hacc; [done|]. injection Hs as <-.
    split; [split; [done| |apply (so_seat _ Hok)]|by intros Hl; destruct (stress_refused _ _ _ _ Hok Hi Hst Hacc)].
    cbn. intros j tx' [_ Hj]%lookup_delete_Some. by apply (so_txs _ Hok).
  - destruct (tx_stage tx) as [| |got|] eqn:Hst; try done. destruct (accepts _ _ && _); [|done]. injection Hs as <-.
    by apply stress_set.
  - destruct (tx_stage tx) as [| | |got wr [|[ev' ids] groups] out] eqn:Hst; try done.
    destruct (emitted_row _ _ _ _ _ _); [|done]. cbn in Hs. destruct (_ && _); [|done]. injection Hs as <-. by apply stress_set.
  - destruct (tx_stage tx) as [| | |got wr [|] out] eqn:Hst; try done. injection Hs as <-.
    split; [split; [done| |by eapply stress_commit]|by intros []%app_nil].
    cbn. intros j tx' [_ Hj]%lookup_delete_Some. by apply (so_txs _ Hok).
Qed.

Lemma stress_run eventID seatID acts c c' :
  pg_uuid eventID = Some ev -> pg_uuid seatID = Some seat ->
  stress_ok c -> forallb (stress_act eventID seatID order) acts = true -> run acts c = Some c' ->
  (cs_log c = [] -> cs_txs c <> ∅) \/ acts <> [] ->
  stress_ok c' /\ (cs_log c' = [] -> cs_txs c' <> ∅).
Proof.
  intros Hev Hseat. revert c. induction acts as [|act acts IH]; intros c Hok; cbn.
  { intros _ [= <-] [?|?]; done. }
  intros [Hact Hacts]%andb_true_iff. destruct (step act c) as [c1|] eqn:E; cbn; [|done]. intros Hrun _.
  destruct (stress_step _ _ _ _ _ Hev Hseat Hok Hact E) as [Hok1 Hne]. apply (IH c1); auto.
Qed.
End Winner.

(** ** The whole script *)

Section Main.
Context `{U : UuidLib} {J : ProtoJson} {R : Type} `{RedisLib R} `{!PgOrder U}.
Context `{!UuidLaws U} `{!ProtoJsonLaws J}.
Implicit Types (s : inv_state R) (a : ambient).

(** The seat the script targets is free and belongs to its event. *)
Definition targets (eventID seatID : string) (d : inv_db) : Prop :=
  exists ev seat r, pg_uuid eventID = Some ev /\ pg_uuid seatID = Some seat /\
    tb_seats d !! seat = Some r /\ st_event_id r = ev /\ st_status r = "AVAILABLE".

(** The seats of an event that was just created are free. *)
Lemma created_free ev n d d' id r :
  db_step (LCreate ev n) d d' -> wf_db d -> tb_seats d' !! id = Some r -> st_event_id r = ev -> st_status r = "AVAILABLE".
Proof.
  intros Hst Hwf. inversion Hst as [| | | |ev' n' e news d0 d0' Hfresh He Hs Hnd Hlen Hmax Hnew Hlab Ho]; subst.
  rewrite Hs. intros [Hin|[_ Hr]]%(create_lookup _ _ _ _ Hnd) Hev; [by apply Hnew in Hin as (_ & _ & ? & _)|].
  destruct (wf_event _ Hwf id r Hr) as [x Hx]. congruence.
Qed.

Lemma stress_setup_targets a s :
  wf_db (is_db s) ->
  wp stress_setup (fun r _ s' => forall eventID seatID, r = Ok (eventID, seatID) -> targets eventID seatID (is_db s')) a s.
Proof.
  intros Hwf. unfold stress_setup. apply wp_bind. eapply wp_mono; [apply CreateEvent_spec|].
  cbn. intros [name|e] a1 s1 [_ Hr]; [|done]. destruct Hr as (ev & -> & Hst & _).
  unfold ListSeats. wp_steps. destruct (validateEventID _); [|done]. wp_steps; [|done].
  apply wp_pg_arg; [|done]. cbn. intros u Hu. rewrite pg_uuid_string in Hu. injection Hu as <-.
  wp_steps; [done| |done]. destruct (merge_sort label_le _) as [|[id r] rows] eqn:Hrows; [done|].
  injection Heql as <- _.
  intros eventID seatID [= <- <-]. cbn. exists ev, id, r. rewrite !pg_uuid_string.
  assert (Hin : (id, r) ∈ sql_select (fun _ r => bool_decide (st_event_id r = ev)) (tb_seats (is_db s1))).
  { rewrite <- (merge_sort_Permutation label_le), Hrows. by left. }
  apply elem_of_sql_select in Hin as [Hr Hev]. reflect_bools. split_and!; try done. by eapply created_free.
Qed.

(** *** The count *)

Lemma line_tells n o err : n < concurrency -> err = None \/ err = Some not_available ->
  contains (result_line n o err) "WON" = bool_decide (err = None).
Proof. intros Hn [->| ->]; unfold concurrency in Hn; do 20 (destruct n as [|n]; [reflexivity|]); lia. Qed.

Lemma winners_count order log :
  winners (stress_results order log) = length (filter (fun n => won (order n) log = true) (seq 0 concurrency)).
Proof.
  assert (Hall : Forall (fun n => n < concurrency) (seq 0 concurrency)) by (apply Forall_seq; lia).
  unfold winners, stress_results. induction Hall as [|n l Hn _ IH]; [done|]. cbn [map].
  rewrite !filter_cons, line_tells; [|done|by destruct (won _ _); auto].
  destruct (won (order n) log); cbn; rewrite ?decide_True, ?decide_False by done; cbn; lia.
Qed.

(** C13: the stress test has exactly one winner.  After a setup that succeeded, however the
    transactions of the twenty goroutines interleave statement by statement, once all that
    began are answered the script counts one winner: exactly one reservation was committed,
    and everybody else was told that the seat is not available. *)
Theorem stress_test_has_one_winner a s eventID seatID a' s' order acts c :
  wf_db (is_db s) -> stress_setup a s = (Ok (eventID, seatID), a', s') ->
  (forall n m, order n = order m -> n = m) ->
  forallb (stress_act eventID seatID order) acts = true -> acts <> [] ->
  run acts (idle (is_db s')) = Some c -> cs_txs c = ∅ ->
  length (cs_log c) = 1 /\ winners (stress_results order (cs_log c)) = 1.
Proof.
  intros Hwf Hset Hinj Hacts Hne Hrun Hdone.
  destruct (wp_run _ _ _ _ _ _ _ Hset (stress_setup_targets a s Hwf) _ _ eq_refl)
    as (ev & seat & r & Hev & Hseat & Hr & He & Hs).
  assert (Hok : stress_ok ev seat order (idle (is_db s'))).
  { split; [apply seat_idle_ok|cbn; intros *; by rewrite lookup_empty|]. exists r. split_and!; auto. }
  destruct (stress_run ev seat order _ _ _ _ _ Hev Hseat Hok Hacts Hrun (or_intror Hne)) as [[_ _ (r' & _ & _ & Hlog)] Hlast].
  destruct Hlog as [[Hl _]|(n & Hn & -> & _)]; [by destruct (Hlast Hl)|]. split; [done|].
  rewrite winners_count. replace 1 with (length [n]) by done. apply Permutation_length, NoDup_Permutation.
  - apply NoDup_filter, NoDup_seq.
  - apply NoDup_singleton.
  - intros m. rewrite list_elem_of_filter, elem_of_seq, list_elem_of_singleton. cbn. rewrite orb_false_r, bool_decide_eq_true.
    split; [intros [E _]; symmetry; by apply Hinj|intros ->; split; [done|lia]].
Qed.
End Main.

Section Examples.
Abbreviation seat n := (n : @UUID ref_uuid).

Definition stress_ready : res (string * string) * ambient * inv_state store :=
  stress_setup (amb0 [] (names "x") 0 0) no_state.

Lemma stress_ready_ok : stress_ready = (Ok ("ux0", "ux1"), stress_ready.1.2, stress_ready.2).
Proof. vm_compute. reflexivity. Qed.

Definition stress_order : nat -> @UUID ref_uuid := names "o".

(** Goroutine 7 waits for goroutine 3 and is refused. *)
Definition two_goroutines : list (action (U := ref_uuid)) :=
  [ABegin 7 KReserve (stress_request "ux0" "ux1" (stress_order 7)) 1;
   ABegin 3 KReserve (stress_request "ux0" "ux1" (stress_order 3)) 2; AScan 3; AScan 7; ALock 3 (seat "x1"); AReturn 3;
   AUpdate 3; AEmit 3 (seat "m3") 3; ACommit 3; ALock 7 (seat "x1"); AReturn 7; ARefuse 7].

Definition stressed : option seat_race := run two_goroutines (idle (is_db stress_ready.2)).

Lemma stressed_done : (fun c => size (cs_txs c)) <$> stressed = Some 0.
Proof. vm_compute. reflexivity. Qed.

Lemma stress_test_has_one_winner_witness :
  exists c, stressed = Some c /\ winners (stress_results stress_order (cs_log c)) = 1.
Proof.
  pose proof stressed_done as E. destruct stressed as [c|] eqn:Hc; [|discriminate E]. injection E as E.
  exists c. split; [reflexivity|].
  refine (proj2 (stress_test_has_one_winner (U := ref_uuid) (amb0 [] (names "x") 0 0) no_state "ux0" "ux1" _ _
    stress_order two_goroutines c (proj1 no_db_wf) stress_ready_ok (names_inj "o") _ _ Hc _));
    [vm_compute; reflexivity|done|by apply map_size_empty_inv].
Defined.
End Examples.
