(* ===== verification/Backlog.v ===== *)
(** * The outbox's metrics ([pkg/outbox/metrics.go])

    What a scrape reports of an outbox table, and how it follows the publisher.  The age is
    in the unit of [created_at]; its conversion to seconds as a floating-point number is left
    out. *)

From stdpp Require Import base gmap list strings numbers sorting.
From S2P Require Import Prelude Platform Events Kafka Outbox OutboxSpec Instances OutboxProps.

Section Collector.
Context `{U : UuidLib}.

(** A gauge's value. *)
Inductive gauge := GaugeNaN | GaugeValue (v : Z).

Definition depth_name : string := "ticketwave_outbox_unpublished".
Definition age_name : string := "ticketwave_outbox_oldest_unpublished_age_seconds".

(** [SELECT count(star) .. WHERE published = false] *)
Definition unpublished (rows : list outbox_row) : list outbox_row := filter (fun r => ob_published r = false) rows.
Definition depth (rows : list outbox_row) : Z := Z.of_nat (length (unpublished rows)).

(** [COALESCE(now() - min(created_at), 0)] over the same rows. *)
Definition age (now : Z) (rows : list outbox_row) : Z :=
  match unpublished rows with
  | [] => 0
  | r :: rest => now - foldr Z.min (ob_created_at r) (map ob_created_at rest)
  end.

(** [Collect]: a failed query gives no number, and no failed scrape. *)
Definition Collect : prog (list outbox_row) (list (string * gauge)) :=
  q ← attempt (pg_call id);
  match q with
  | Err _ => mret [(depth_name, GaugeNaN); (age_name, GaugeNaN)]
  | Ok _ =>
      rows ← get_state;
      now ← tx_now;
      mret [(depth_name, GaugeValue (depth rows)); (age_name, GaugeValue (age now rows))]
  end.
End Collector.

Section Lemmas.
Context `{U : UuidLib} `{!PgOrder U} {K : Type} `{!KafkaPublisher K} `{!KafkaPublisherLaws K}.
Implicit Types (rows : list outbox_row) (s : pub_state K).

Lemma foldr_min_le (x : Z) l y : y ∈ x :: l -> (foldr Z.min x l <= y)%Z.
Proof.
  induction l as [|z l IH]; intros [->|Hin]%elem_of_cons; cbn; [done|by apply elem_of_nil in Hin| |].
  - specialize (IH ltac:(by left)). lia.
  - apply elem_of_cons in Hin as [->|Hin]; [lia|]. specialize (IH ltac:(by right)). lia.
Qed.

Lemma foldr_min_elem (x : Z) l : foldr Z.min x l ∈ x :: l.
Proof.
  induction l as [|z l IH]; cbn; [by left|]. destruct (Z.min_spec z (foldr Z.min x l)) as [[_ ->]|[_ ->]].
  - right. by left.
  - apply elem_of_cons in IH as [->|Hin]; [by left|]. right. by right.
Qed.

(** The age is that of the row that has waited longest. *)
Lemma age_oldest now rows r : r ∈ unpublished rows -> (now - ob_created_at r <= age now rows)%Z.
Proof.
  unfold age. destruct (unpublished rows) as [|r0 l]; [by intros ?%elem_of_nil|]. intros Hr.
  pose proof (foldr_min_le (ob_created_at r0) (map ob_created_at l) (ob_created_at r)) as Hle.
  enough (ob_created_at r ∈ ob_created_at r0 :: map ob_created_at l) by (apply Hle in H; lia).
  apply elem_of_cons in Hr as [->|Hr]; [by left|right]. by apply list_elem_of_fmap_2.
Qed.

Lemma age_attained now rows : unpublished rows <> [] -> exists r, r ∈ unpublished rows /\ age now rows = (now - ob_created_at r)%Z.
Proof.
  unfold age. destruct (unpublished rows) as [|r0 l]; [done|]. intros _.
  pose proof (foldr_min_elem (ob_created_at r0) (map ob_created_at l)) as Hin.
  apply elem_of_cons in Hin as [->|(r & -> & Hr)%list_elem_of_fmap]; [exists r0|exists r]; (split; [|done]); [by left|by right].
Qed.

(** Marking rows takes exactly those out of the backlog. *)
Lemma unpublished_mark ids now rows :
  unpublished (mark ids now rows) = filter (fun r => ob_id r ∉ ids) (unpublished rows).
Proof.
  unfold unpublished, mark. induction rows as [|r l IH]; [done|]. cbn [map]. rewrite !filter_cons.
  case_bool_decide as Hin; cbn [ob_published].
  - rewrite decide_False by done. rewrite IH. case_decide; [|reflexivity].
    rewrite filter_cons, decide_False by tauto. reflexivity.
  - case_decide; [|exact IH]. rewrite filter_cons, decide_True by done. by rewrite IH.
Qed.

Lemma NoDup_map_filter {X Y} (f : X -> Y) (P : X -> Prop) `{!forall x, Decision (P x)} l :
  NoDup (map f l) -> NoDup (map f (filter P l)).
Proof.
  induction l as [|x l IH]; cbn [map]; [done|]. intros [Hx Hl]%NoDup_cons. rewrite filter_cons.
  case_decide; [|by apply IH]. cbn [map]. apply NoDup_cons. split; [|by apply IH].
  intros (y & E & [_ Hy]%list_elem_of_filter)%list_elem_of_fmap. apply Hx. rewrite E. by apply list_elem_of_fmap_2.
Qed.

Lemma sublist_of_backlog ids rows (l : list outbox_row) :
  NoDup (map ob_id rows) -> ids = map ob_id l -> NoDup ids -> (forall r, r ∈ l -> r ∈ unpublished rows) ->
  length (filter (fun r => ob_id r ∉ ids) (unpublished rows)) + length ids = length (unpublished rows).
Proof.
  intros Hnd -> Hids Hl. set (b := unpublished rows) in *.
  assert (Hb : NoDup (map ob_id b)).
  { by apply NoDup_map_filter. }
  rewrite <- (filter_app_complement (fun r => ob_id r ∉ map ob_id l) b) at 2. rewrite length_app. f_equal.
  rewrite <- (length_fmap ob_id). apply Permutation_length, NoDup_Permutation; [done| |].
  - by apply NoDup_map_filter.
  - intros id. split.
    + intros (r & -> & Hr)%list_elem_of_fmap. apply list_elem_of_fmap. exists r. split; [done|].
      apply list_elem_of_filter. split; [|by apply Hl]. intros Hn. apply Hn. by apply list_elem_of_fmap_2.
    + intros (r & -> & Hr)%list_elem_of_fmap. apply list_elem_of_filter in Hr as [Hr _]. by apply dec_stable.
Qed.

Lemma taken_from_backlog locked rows r : r ∈ take batch (waiting locked rows) -> r ∈ unpublished rows.
Proof.
  intros Hr. apply (elem_of_sublist _ (waiting locked rows)) in Hr; [|apply sublist_take].
  apply elem_of_waiting in Hr as (? & ? & _). by apply list_elem_of_filter.
Qed.

Lemma Collect_run a rows : (Collect a rows).1.1 =
  Ok (if fate_ok (head_fate a)
      then [(depth_name, GaugeValue (depth rows)); (age_name, GaugeValue (age (amb_txnow a) rows))]
      else [(depth_name, GaugeNaN); (age_name, GaugeNaN)]).
Proof.
  unfold Collect, attempt, pg_call, mbind, prog_bind, next_fate, tx_now, head_fate. rewrite <- (drop_fate_txnow a).
  unfold drop_fate. by destruct (pop_fate a) as [[] a'].
Qed.

(** The backlog metrics follow the outbox.  A scrape reports the number of unpublished
    rows and how long the oldest of them has waited, and zero for both only if there is none;
    when the database does not answer it reports no number, and does not fail.  A batch the
    publisher reports as sent lowers the depth by exactly its size and never raises the age. *)
Lemma backlog_follows_the_outbox rows a :
  (head_fate a <> Done -> (Collect a rows).1.1 = Ok [(depth_name, GaugeNaN); (age_name, GaugeNaN)]) /\
  (head_fate a = Done -> exists d t, (Collect a rows).1.1 = Ok [(depth_name, GaugeValue d); (age_name, GaugeValue t)] /\
     d = Z.of_nat (length (unpublished rows)) /\ (d = 0%Z -> t = 0%Z) /\
     (d <> 0%Z -> exists r, r ∈ unpublished rows /\ t = (amb_txnow a - ob_created_at r)%Z) /\
     forall r, r ∈ unpublished rows -> (amb_txnow a - ob_created_at r <= t)%Z) /\
  (forall s n ap a' s' now, NoDup (map ob_id (ps_rows s)) -> publishBatch ap s = (Ok n, a', s') ->
     (forall r, r ∈ ps_rows s -> (ob_created_at r <= now)%Z) ->
     (depth (ps_rows s') = depth (ps_rows s) - Z.of_nat n)%Z /\ (age now (ps_rows s') <= age now (ps_rows s))%Z).
Proof.
  split_and!.
  - rewrite Collect_run. intros Hf. by destruct (head_fate a).
  - intros Hf. exists (depth rows), (age (amb_txnow a) rows). rewrite Collect_run, Hf. split_and!.
    + done.
    + done.
    + unfold depth, age. by destruct (unpublished rows).
    + intros Hd. apply age_attained. intros E. apply Hd. unfold depth. by rewrite E.
    + intros r. apply age_oldest.
  - intros s n ap a' s' now Hnd Hrun Hpast.
    pose proof (wp_run _ _ _ _ _ _ _ Hrun (publishBatch_spec ap s)) as (_ & stored & _ & _ & -> & _ & t & ->).
    set (l := take batch (waiting (ps_locked s) (ps_rows s))).
    assert (Hl : forall r, r ∈ l -> r ∈ unpublished (ps_rows s)) by (intros r; apply taken_from_backlog).
    assert (Hids : NoDup (map ob_id l)).
    { apply (sublist_NoDup _ (map ob_id (waiting (ps_locked s) (ps_rows s)))).
      - unfold waiting. rewrite merge_sort_Permutation. by apply NoDup_map_filter.
      - unfold l. rewrite <- firstn_map. apply sublist_take. }
    pose proof (sublist_of_backlog (map ob_id l) (ps_rows s) l Hnd eq_refl Hids Hl) as Hlen.
    rewrite length_map in Hlen. split.
    + unfold depth. rewrite unpublished_mark. lia.
    + destruct (decide (unpublished (mark (map ob_id l) t (ps_rows s)) = [])) as [E|E].
      * assert (0 <= age now (ps_rows s))%Z; [|unfold age at 1; by rewrite E].
        destruct (decide (unpublished (ps_rows s) = [])) as [E'|E']; [unfold age; by rewrite E'|].
        destruct (age_attained now (ps_rows s) E') as (r & Hr & ->).
        apply list_elem_of_filter in Hr as [_ Hr]. specialize (Hpast r Hr). lia.
      * destruct (age_attained now _ E) as (r & Hr & ->). rewrite unpublished_mark in Hr.
        apply list_elem_of_filter in Hr as [_ Hr]. by apply age_oldest.
Qed.
End Lemmas.

(** ** Witness *)

Section Examples.
#[local] Existing Instance list_kafka.
#[local] Existing Instance list_kafka_laws.

Abbreviation ex_sent := (publishBatch (amb0 [] (names "x") 1 1) ex_pub).

(** Two rows wait, the older one since 1; both are sent. *)
Lemma backlog_follows_the_outbox_witness :
  age 10 (ps_rows ex_pub) = 9%Z /\ depth (ps_rows ex_sent.2) = 0%Z /\
  (age 10 (ps_rows ex_sent.2) <= age 10 (ps_rows ex_pub))%Z.
Proof.
  split; [vm_compute; reflexivity|].
  destruct (backlog_follows_the_outbox (U := ref_uuid) (K := list Message) (ps_rows ex_pub) (amb0 [] (names "x") 1 1))
    as (_ & _ & Hb).
  assert (E : ex_sent = (Ok 2, ex_sent.1.2, ex_sent.2)) by (vm_compute; reflexivity).
  destruct (Hb ex_pub 2 _ _ _ 10%Z ex_nodup E) as [Hd Ha].
  - intros r. cbn. rewrite !elem_of_cons. intros [->|[->|Hr%elem_of_nil]]; [cbn; lia|cbn; lia|done].
  - split; [rewrite Hd; vm_compute; reflexivity|exact Ha].
Defined.
End Examples.
