(* ===== verification/Consumer.v ===== *)
(** * The Kafka consumer ([pkg/kafka/consumer.go])

    Batches, retries, dead letters and commits around a message handler.  The
    partition is a list of records; the consumer's context can end at any point where
    the code looks at it. *)

From stdpp Require Import base gmap list strings numbers.
From S2P Require Import Prelude Platform GoStrings Kafka.

(** ** Permanent failures *)

Definition errPermanent : string := "permanent failure".

Definition Permanent (e : error) : error := EWrap errPermanent e.

(** [errors.Is(err, errPermanent)] *)
Fixpoint IsPermanent (e : error) : bool :=
  match e with
  | EWrap ctx e' => bool_decide (ctx = errPermanent) || IsPermanent e'
  | _ => false
  end.

(** ** Configuration *)

Record ConsumerConfig := {
  cc_Brokers : list string;
  cc_Topic : string;
  cc_GroupID : string;
  cc_HasDLQ : bool;
  cc_Concurrency : Z;
  cc_BatchSize : Z;
  cc_BatchWait : Z;
  cc_MaxAttempts : Z;
  cc_RetryBackoff : Z;
}.

Definition validate_config (c : ConsumerConfig) : res unit :=
  if bool_decide (length (cc_Brokers c) = 0) || bool_decide (cc_Topic c = "")
     || bool_decide (cc_GroupID c = "")
  then Err (EText "kafka consumer: brokers, topic and group ID are required")
  else if negb (cc_HasDLQ c) then Err (EText "kafka consumer: a dead-letter publisher is required")
  else Ok tt.

Definition applyDefaults (c : ConsumerConfig) : ConsumerConfig :=
  {| cc_Brokers := cc_Brokers c; cc_Topic := cc_Topic c; cc_GroupID := cc_GroupID c;
     cc_HasDLQ := cc_HasDLQ c;
     cc_Concurrency := if (cc_Concurrency c <=? 0)%Z then 1 else cc_Concurrency c;
     cc_BatchSize := if (cc_BatchSize c <=? 0)%Z then 100 else cc_BatchSize c;
     cc_BatchWait := if (cc_BatchWait c <=? 0)%Z then 200 * 10 ^ 6 else cc_BatchWait c;
     cc_MaxAttempts := if (cc_MaxAttempts c <=? 0)%Z then 3 else cc_MaxAttempts c;
     cc_RetryBackoff := if (cc_RetryBackoff c <=? 0)%Z then 200 * 10 ^ 6 else cc_RetryBackoff c |}.

(** ** State *)

(** The handler's state [A], the partition, the next record to fetch, the committed
    offset, the dead-letter topic, whether the context is done and whether the group
    context of the current batch is, the counter's labels, and, for the record, the
    calls of the handler with their success. *)
Record con_state (A : Type) := {
  cn_app : A;
  cn_log : list KMessage;
  cn_pos : nat;
  cn_committed : nat;
  cn_dlq : list Message;
  cn_done : bool;
  cn_gdone : bool;
  cn_counts : list (string * string);
  cn_calls : list (KMessage * bool);
}.

Arguments cn_app {A}.
Arguments cn_log {A}.
Arguments cn_pos {A}.
Arguments cn_committed {A}.
Arguments cn_dlq {A}.
Arguments cn_done {A}.
Arguments cn_gdone {A}.
Arguments cn_counts {A}.
Arguments cn_calls {A}.
Arguments Build_con_state {A}.

Section Consumer.
Context `{U : UuidLib} {A : Type}.
Variable cfg : ConsumerConfig.
Variable handler : Message -> prog A unit.
(** The order in which the records of a batch are handled: the batch's own when
    [Concurrency] is 1, otherwise as the scheduler has it. *)
Variable schedule : list KMessage -> list KMessage.

Definition set_done (s : con_state A) : con_state A :=
  Build_con_state (cn_app s) (cn_log s) (cn_pos s) (cn_committed s) (cn_dlq s) true (cn_gdone s)
    (cn_counts s) (cn_calls s).
Definition set_gdone (b : bool) (s : con_state A) : con_state A :=
  Build_con_state (cn_app s) (cn_log s) (cn_pos s) (cn_committed s) (cn_dlq s) (cn_done s) b
    (cn_counts s) (cn_calls s).
Definition set_pos (n : nat) (s : con_state A) : con_state A :=
  Build_con_state (cn_app s) (cn_log s) n (cn_committed s) (cn_dlq s) (cn_done s) (cn_gdone s)
    (cn_counts s) (cn_calls s).
Definition set_committed (n : nat) (s : con_state A) : con_state A :=
  Build_con_state (cn_app s) (cn_log s) (cn_pos s) n (cn_dlq s) (cn_done s) (cn_gdone s)
    (cn_counts s) (cn_calls s).
Definition add_dead (m : Message) (s : con_state A) : con_state A :=
  Build_con_state (cn_app s) (cn_log s) (cn_pos s) (cn_committed s) (cn_dlq s ++ [m]) (cn_done s)
    (cn_gdone s) (cn_counts s) (cn_calls s).
Definition add_count (l : string * string) (s : con_state A) : con_state A :=
  Build_con_state (cn_app s) (cn_log s) (cn_pos s) (cn_committed s) (cn_dlq s) (cn_done s)
    (cn_gdone s) (cn_counts s ++ [l]) (cn_calls s).

Definition count (topic result : string) : prog (con_state A) unit := modify (add_count (topic, result)).

(** [ctx.Err() != nil]: once done, done; otherwise it may have ended by now. *)
Definition ctx_err : prog (con_state A) bool :=
  s ← get_state;
  if cn_done s then mret true else
  f ← next_fate;
  if fate_ok f then mret false else _ ← modify set_done; mret true.

(** The same for the group context of a batch, which also ends with the first error. *)
Definition gctx_err : prog (con_state A) bool :=
  s ← get_state; if cn_gdone s then mret true else ctx_err.

(** [FetchMessage]: a record; the context (or the filling window) ended while waiting,
    [None]; or the reader failed. *)
Definition FetchMessage : prog (con_state A) (option KMessage) :=
  f ← next_fate;
  match f with
  | Lost _ => throw EConn
  | ReplyLost _ => mret None
  | Done => s ← get_state;
            match cn_log s !! cn_pos s with
            | None => mret None
            | Some m => _ ← modify (set_pos (cn_pos s + 1)); mret (Some m)
            end
  end.

(** Fill the batch up to [n] more records. *)
Fixpoint fill (n : nat) (batch : list KMessage) : prog (con_state A) (list KMessage) :=
  match n with
  | O => mret batch
  | S n' => m ← FetchMessage;
            match m with
            | None => mret batch
            | Some m => fill n' (batch ++ [m])
            end
  end.

(** The first fetch returns without a record only when the context is done. *)
Definition fetchBatch : prog (con_state A) (list KMessage) :=
  first ← FetchMessage;
  match first with
  | None => _ ← modify set_done; mret []
  | Some m => fill (Z.to_nat (cc_BatchSize cfg) - 1) [m]
  end.

(** The copy parked on the dead-letter topic. *)
Definition dead_copy (msg : Message) (attempts : nat) (cause : error) : Message :=
  {| msg_Topic := ""; msg_Partition := 0; msg_Offset := 0; msg_Key := msg_Key msg;
     msg_Value := msg_Value msg;
     msg_Headers :=
       <["dlq-source-offset" := itoa (msg_Offset msg)]>
       (<["dlq-source-partition" := itoa (msg_Partition msg)]>
       (<["dlq-source-topic" := msg_Topic msg]>
       (<["dlq-attempts" := itoa (Z.of_nat attempts)]>
       (<["dlq-error" := error_string cause]> (msg_Headers msg))))) |}.

(** [DLQ.Publish]: stored and acknowledged, not stored, or stored unacknowledged. *)
Definition deadLetter (msg : Message) (attempts : nat) (cause : error) : prog (con_state A) unit :=
  f ← next_fate;
  match f with
  | Lost _ => throw (EWrap "dead-letter" EConn)
  | ReplyLost _ => _ ← modify (add_dead (dead_copy msg attempts cause)); throw (EWrap "dead-letter" EConn)
  | Done => _ ← modify (add_dead (dead_copy msg attempts cause));
            count (msg_Topic msg) "dead_lettered"
  end.

(** One call of the handler. *)
Definition call_handler (km : KMessage) : prog (con_state A) unit := fun a s =>
  match handler (fromKafka km) a (cn_app s) with
  | (r, a', x) => (r, a', Build_con_state x (cn_log s) (cn_pos s) (cn_committed s) (cn_dlq s)
                            (cn_done s) (cn_gdone s) (cn_counts s) (cn_calls s ++ [(km, is_ok r)]))
  end.

Definition errCanceled : error := EText "context canceled".

(** The attempts from number [attempts + 1] on, [left] of them. *)
Fixpoint try_handle (km : KMessage) (left attempts : nat) (err : error) : prog (con_state A) unit :=
  match left with
  | O => deadLetter (fromKafka km) attempts err
  | S left' =>
      let attempts := attempts + 1 in
      r ← attempt (call_handler km);
      match r with
      | Ok _ => count (km_Topic km) "handled"
      | Err e =>
          cancelled ← gctx_err;
          if (cancelled : bool) then throw errCanceled
          else if IsPermanent e then deadLetter (fromKafka km) attempts e
          else if bool_decide (left' = 0) then deadLetter (fromKafka km) attempts e
          else
            _ ← count (km_Topic km) "retried";
            cancelled ← gctx_err;            (* the backoff *)
            if (cancelled : bool) then throw errCanceled
            else try_handle km left' attempts e
      end
  end.

(** With no attempt made there is no cause: [MaxAttempts] is at least 1 after
    [applyDefaults]. *)
Definition handleOne (km : KMessage) : prog (con_state A) unit :=
  try_handle km (Z.to_nat (cc_MaxAttempts cfg)) 0 (EText "").

(** [process]: every record of the batch is handled; the first error is the result, and
    ends the group context for the rest. *)
Fixpoint handle_all (l : list KMessage) (first : option error) : prog (con_state A) unit :=
  match l with
  | [] => match first with None => mret tt | Some e => throw e end
  | km :: l' =>
      r ← attempt (handleOne km);
      match r with
      | Ok _ => handle_all l' first
      | Err e => _ ← modify (set_gdone true);
                 handle_all l' (match first with None => Some e | Some _ => first end)
      end
  end.

Definition process (batch : list KMessage) : prog (con_state A) unit :=
  _ ← modify (set_gdone false);
  handle_all (schedule batch) None.

(** [CommitMessages]: the offsets of the batch, which end where the reader stands. *)
Definition CommitMessages : prog (con_state A) unit :=
  f ← next_fate;
  match f with
  | Lost _ => throw (EWrap "commit" EConn)
  | Done => modify (fun s => set_committed (cn_pos s) s)
  | ReplyLost _ => _ ← modify (fun s => set_committed (cn_pos s) s); throw (EWrap "commit" EConn)
  end.

(** [Run], for [fuel] iterations of its loop. *)
Fixpoint RunConsumer (fuel : nat) : prog (con_state A) unit :=
  match fuel with
  | O => mret tt
  | S fuel' =>
      cancelled ← ctx_err;
      if (cancelled : bool) then mret tt else
      fetched ← attempt fetchBatch;
      match fetched with
      | Err e => throw (EWrap "fetch" e)
      | Ok batch =>
          if bool_decide (length batch = 0) then RunConsumer fuel' else
          processed ← attempt (process batch);
          match processed with
          | Err e => cancelled ← ctx_err;
                     if (cancelled : bool) then mret tt else throw e
          | Ok _ => _ ← CommitMessages; RunConsumer fuel'
          end
      end
  end.

(** A new process of the group starts at the committed offset. *)
Definition restart (s : con_state A) : con_state A :=
  Build_con_state (cn_app s) (cn_log s) (cn_committed s) (cn_committed s) (cn_dlq s) false false
    (cn_counts s) (cn_calls s).
End Consumer.

(** ** Delivery *)

Section Delivery.
Context `{U : UuidLib} {A : Type}.
Implicit Types (s : con_state A) (a : ambient).

(** The record was handled, or a copy of it is parked on the dead-letter topic. *)
Definition settled (s : con_state A) (km : KMessage) : Prop :=
  (km, true) ∈ cn_calls s \/
  exists n e, dead_copy (fromKafka km) n e ∈ cn_dlq s.

(** No gap: every record below the committed offset is settled, and the reader is at or
    after it. *)
Definition no_gap (s : con_state A) : Prop :=
  cn_committed s <= cn_pos s /\
  forall i km, i < cn_committed s -> cn_log s !! i = Some km -> settled s km.

(** Later states know at least as much. *)
Record grows (s s' : con_state A) : Prop := {
  gr_log : cn_log s' = cn_log s;
  gr_calls : forall x, x ∈ cn_calls s -> x ∈ cn_calls s';
  gr_dlq : forall x, x ∈ cn_dlq s -> x ∈ cn_dlq s';
}.

Lemma grows_refl s : grows s s.
Proof. done. Qed.
Lemma grows_trans s1 s2 s3 : grows s1 s2 -> grows s2 s3 -> grows s1 s3.
Proof. intros [] []. split; [congruence|auto..]. Qed.
Lemma settled_grows s s' km : grows s s' -> settled s km -> settled s' km.
Proof. intros [_ Hc Hd] [?|(n & e & ?)]; [left; auto|right; eauto]. Qed.

Variable cfg : ConsumerConfig.
Variable handler : Message -> prog A unit.
Variable schedule : list KMessage -> list KMessage.

(** Offsets, flags and fetched records untouched; knowledge grows. *)
Definition handling (s s' : con_state A) : Prop :=
  grows s s' /\ cn_pos s' = cn_pos s /\ cn_committed s' = cn_committed s.

Lemma handling_refl s : handling s s.
Proof. done. Qed.
Lemma handling_trans s1 s2 s3 : handling s1 s2 -> handling s2 s3 -> handling s1 s3.
Proof.
  intros (G1 & P1 & C1) (G2 & P2 & C2). split_and!; [by eapply grows_trans|congruence..].
Qed.

Lemma wp_ctx_err a s : wp ctx_err (fun r _ s' => is_ok r = true /\ handling s s') a s.
Proof. unfold ctx_err. wp_steps; done. Qed.

Lemma wp_gctx_err a s : wp gctx_err (fun r _ s' => is_ok r = true /\ handling s s') a s.
Proof. unfold gctx_err. wp_steps; [done|]. apply wp_ctx_err. Qed.

Lemma wp_deadLetter km n e a s :
  wp (deadLetter (fromKafka km) n e) (fun r _ s' => handling s s' /\ (r = Ok tt -> settled s' km)) a s.
Proof.
  assert (Hh : handling s (add_dead (dead_copy (fromKafka km) n e) s)).
  { split; [|done]. split; [done|done|]. intros x Hx. cbn. apply elem_of_app. by left. }
  unfold deadLetter, count. wp_steps; (split; [first [done|by eapply handling_trans; [exact Hh|]]|]);
    intros; try done.
  right. exists n, e. cbn. apply elem_of_app. right. by apply list_elem_of_singleton.
Qed.

Lemma wp_call_handler km a s :
  wp (call_handler handler km) (fun r _ s' => handling s s' /\ (r = Ok tt -> settled s' km)) a s.
Proof.
  unfold wp, call_handler. destruct (handler (fromKafka km) a (cn_app s)) as [[r a'] x]. cbn. split.
  - split; [|done]. split; [done| |done]. intros y Hy. cbn. apply elem_of_app. by left.
  - intros ->. left. cbn. apply elem_of_app. right. by apply list_elem_of_singleton.
Qed.

Lemma wp_try_handle km left n e a s :
  wp (try_handle handler km left n e) (fun r _ s' => handling s s' /\ (r = Ok tt -> settled s' km)) a s.
Proof.
  revert n e a s. induction left as [|left IH]; intros n e a s; cbn [try_handle]; [apply wp_deadLetter|].
  apply wp_bind, wp_attempt. eapply wp_mono; [apply wp_call_handler|]. cbn.
  intros [[]|e'] a1 s1 [Hh1 Hs1].
  { unfold count. wp_steps. split; [by eapply handling_trans; [exact Hh1|]|]. intros _.
    by apply (settled_grows s1); [|apply Hs1]. }
  apply wp_bind. eapply wp_mono; [apply wp_gctx_err|]. cbn.
  intros [c1|] a2 s2 [Hok2 Hh2]; [|done]. pose proof (handling_trans _ _ _ Hh1 Hh2) as Hh.
  destruct c1; [wp_steps; by split|].
  assert (Hdead : wp (deadLetter (fromKafka km) (n + 1) e')
    (fun r _ s' => handling s s' /\ (r = Ok tt -> settled s' km)) a2 s2).
  { eapply wp_mono; [apply wp_deadLetter|]. cbn. intros r a3 s3 [H3 Hs3].
    split; [by eapply handling_trans|done]. }
  wp_step; [exact Hdead|]. wp_step; [exact Hdead|]. unfold count. wp_steps.
  eapply wp_mono; [apply wp_gctx_err|]. cbn. intros [c3|] a3 s3 [Hok3 Hh3]; [|done].
  assert (Hh3' : handling s s3).
  { eapply handling_trans; [exact Hh|]. eapply handling_trans; [|exact Hh3]. done. }
  destruct c3; [wp_steps; by split|]. eapply wp_mono; [apply IH|]. cbn.
  intros r a4 s4 [H4 Hs4]. split; [by eapply handling_trans|done].
Qed.

Lemma wp_handle_all l first a s :
  wp (handle_all cfg handler l first) (fun r _ s' => handling s s' /\
    (r = Ok tt -> first = None /\ forall km, km ∈ l -> settled s' km)) a s.
Proof.
  revert first a s. induction l as [|km l IH]; intros first a s; cbn [handle_all].
  { destruct first; wp_steps; (split; [done|]); intros; [done|].
    split; [done|]. by intros km ?%not_elem_of_nil. }
  apply wp_bind, wp_attempt. eapply wp_mono; [apply wp_try_handle|]. cbn.
  intros [[]|e] a1 s1 [Hh1 Hs1].
  - eapply wp_mono; [apply IH|]. cbn. intros r a2 s2 [Hh2 Hs2].
    split; [by eapply handling_trans|]. intros Hr. destruct (Hs2 Hr) as [-> Hall]. split; [done|].
    intros km' [->|Hin]%elem_of_cons; [|by auto].
    destruct Hh2 as [Hg _]. eapply settled_grows; [exact Hg|by apply Hs1].
  - wp_steps. eapply wp_mono; [apply IH|]. cbn. intros r a2 s2 [Hh2 Hs2].
    split; [eapply handling_trans; [exact Hh1|]; eapply handling_trans; [|exact Hh2]; done|].
    intros Hr. destruct (Hs2 Hr) as [Hf _]. by destruct first.
Qed.

(** *** Fetching *)

(** The records from [i] on, [n] of them. *)
Definition slice (l : list KMessage) (i n : nat) : list KMessage := take n (drop i l).

Lemma slice_snoc l i n m : l !! (i + n) = Some m -> length (slice l i n) = n ->
  slice l i (S n) = slice l i n ++ [m].
Proof. intros Hm Hn. unfold slice. apply take_S_r. by rewrite lookup_drop. Qed.

(** The batch is what lies between the committed offset and the reader. *)
Definition fetched (s : con_state A) (batch : list KMessage) : Prop :=
  cn_committed s + length batch = cn_pos s /\
  forall i km, cn_committed s <= i < cn_pos s -> cn_log s !! i = Some km -> km ∈ batch.

Lemma fetched_snoc s batch m :
  fetched s batch -> cn_log s !! cn_pos s = Some m -> fetched (set_pos (cn_pos s + 1) s) (batch ++ [m]).
Proof.
  intros [Hl Hin] Hm. split; [rewrite length_app; cbn; lia|]. cbn. intros i km Hi Hkm.
  apply elem_of_app. destruct (decide (i = cn_pos s)) as [->|Hne].
  - right. apply list_elem_of_singleton. congruence.
  - left. apply (Hin i); [lia|done].
Qed.

Definition same_knowledge (s s' : con_state A) : Prop :=
  cn_log s' = cn_log s /\ cn_committed s' = cn_committed s /\ cn_calls s' = cn_calls s /\
  cn_dlq s' = cn_dlq s.

Lemma wp_fill n batch a s :
  fetched s batch ->
  wp (fill n batch) (fun r _ s' => same_knowledge s s' /\ cn_committed s' <= cn_pos s' /\
    (forall b, r = Ok b -> fetched s' b)) a s.
Proof.
  revert batch a s. induction n as [|n IH]; intros batch a s Hf; cbn [fill].
  { wp_steps. split_and!; [done|destruct Hf; lia|by intros b [= <-]]. }
  unfold FetchMessage. wp_steps; try (split_and!; [done|destruct Hf; cbn in *; lia|by (intros b [= <-] || done)]).
  eapply wp_mono; [apply IH; by apply fetched_snoc|]. done.
Qed.

Lemma wp_fetchBatch a s :
  cn_pos s = cn_committed s ->
  wp (fetchBatch cfg) (fun r _ s' => same_knowledge s s' /\ cn_committed s' <= cn_pos s' /\
    (forall b, r = Ok b -> fetched s' b)) a s.
Proof.
  intros Hpos.
  assert (Hf : fetched s []) by (split; [cbn; lia|]; intros; lia).
  unfold fetchBatch, FetchMessage. wp_steps;
    try (split_and!; [done|cbn; lia|by (intros b [= <-] || done)]).
  eapply wp_mono; [apply wp_fill; by apply (fetched_snoc s [])|]. done.
Qed.

(** *** The loop *)

Lemma no_gap_handling s s' : handling s s' -> no_gap s -> no_gap s'.
Proof.
  intros ([Hl Hc Hd] & Hp & Hm) [Hle Hs]. split; [by rewrite Hp, Hm|]. rewrite Hm, Hl.
  intros i km Hi Hkm. eapply settled_grows; [|by eapply Hs]. done.
Qed.

Lemma no_gap_fetched s s' : same_knowledge s s' -> cn_committed s' <= cn_pos s' -> no_gap s -> no_gap s'.
Proof.
  intros (Hl & Hm & Hc & Hd) Hle [_ Hs]. split; [done|]. rewrite Hl, Hm. intros i km Hi Hkm.
  unfold settled. rewrite Hc, Hd. by eapply Hs.
Qed.

Lemma RunConsumer_no_gap fuel a s :
  (forall l, schedule l ≡ₚ l) -> no_gap s -> cn_pos s = cn_committed s ->
  wp (RunConsumer cfg handler schedule fuel) (fun _ _ s' => no_gap s') a s.
Proof.
  intros Hsch. revert a s. induction fuel as [|fuel IH]; intros a s Hng Hpos; cbn [RunConsumer]; [done|].
  apply wp_bind. eapply wp_mono; [apply wp_ctx_err|]. cbn. intros [c|] a1 s1 [_ Hh1]; [|by eapply no_gap_handling].
  assert (Hng1 : no_gap s1) by (by eapply no_gap_handling).
  assert (Hpos1 : cn_pos s1 = cn_committed s1) by (destruct Hh1 as (_ & -> & ->); done).
  destruct c; [by wp_steps|]. apply wp_bind, wp_attempt.
  eapply wp_mono; [by apply wp_fetchBatch|]. cbn. intros r a2 s2 (Hk2 & Hle2 & Hf2).
  assert (Hng2 : no_gap s2) by (by eapply no_gap_fetched).
  destruct r as [b|e]; [|by wp_steps]. specialize (Hf2 b eq_refl). wp_step.
  { apply IH; [done|]. reflect_bools. destruct Hf2 as [Hl _]. lia. }
  unfold process. wp_steps. eapply wp_mono; [apply wp_handle_all|]. cbn.
  intros r a3 s3 [Hh3 Hs3].
  assert (Hh3' : handling s2 s3) by (eapply handling_trans; [|exact Hh3]; done).
  assert (Hng3 : no_gap s3) by (by eapply no_gap_handling).
  destruct r as [[]|e].
  - destruct (Hs3 eq_refl) as [_ Hall].
    assert (Hc : no_gap (set_committed (cn_pos s3) s3)).
    { split; [done|]. cbn. intros i km Hi Hkm. destruct (decide (i < cn_committed s3)) as [Hlt|Hge].
      - destruct Hng3 as [_ Hs]. by eapply Hs.
      - apply Hall. rewrite Hsch. destruct Hh3' as ([Hl _ _] & Hp & Hm), Hf2 as [_ Hin].
        apply (Hin i); [lia|]. congruence. }
    unfold CommitMessages. wp_steps; [by apply IH|done|done].
  - wp_steps. eapply wp_mono; [apply wp_ctx_err|]. cbn. intros [c|] a4 s4 [_ Hh4];
      [destruct c; wp_steps|]; by eapply no_gap_handling.
Qed.
End Delivery.

(** ** Clients: an invariant of the handler is an invariant of the consumer *)

Section Clients.
Context `{U : UuidLib} {A : Type}.
Variable cfg : ConsumerConfig.
Variable handler : Message -> prog A unit.
Variable schedule : list KMessage -> list KMessage.
(** The partition, and what the handler's calls so far say about its state. *)
Variable log : list KMessage.
Variable I : list (KMessage * bool) -> A -> Prop.

Hypothesis schedule_perm : forall l, schedule l ≡ₚ l.
Hypothesis handler_keeps : forall km calls a x, km ∈ log -> I calls x ->
  wp (handler (fromKafka km)) (fun r _ x' => I (calls ++ [(km, is_ok r)]) x') a x.

Implicit Types (s : con_state A) (a : ambient).

Definition keeps (s : con_state A) : Prop := cn_log s = log /\ I (cn_calls s) (cn_app s).

Lemma keeps_ctx_err a s : keeps s -> wp ctx_err (fun r _ s' => is_ok r = true /\ keeps s') a s.
Proof. intros Hk. unfold ctx_err. wp_steps; done. Qed.

Lemma keeps_gctx_err a s : keeps s -> wp gctx_err (fun r _ s' => is_ok r = true /\ keeps s') a s.
Proof. intros Hk. unfold gctx_err. wp_steps; [done|]. by apply keeps_ctx_err. Qed.

Lemma keeps_deadLetter m n e a s : keeps s -> wp (deadLetter m n e) (fun _ _ s' => keeps s') a s.
Proof. intros Hk. unfold deadLetter, count. wp_steps; done. Qed.

Lemma keeps_call_handler km a s : km ∈ log -> keeps s ->
  wp (call_handler handler km) (fun _ _ s' => keeps s') a s.
Proof.
  intros Hin [Hl Hi]. pose proof (handler_keeps km (cn_calls s) a (cn_app s) Hin Hi) as Hw.
  unfold wp, call_handler in *. by destruct (handler (fromKafka km) a (cn_app s)) as [[r a'] x].
Qed.

Lemma keeps_try_handle km left n e a s : km ∈ log -> keeps s ->
  wp (try_handle handler km left n e) (fun _ _ s' => keeps s') a s.
Proof.
  intros Hin. revert n e a s. induction left as [|left IH]; intros n e a s Hk; cbn [try_handle];
    [by apply keeps_deadLetter|].
  apply wp_bind, wp_attempt. eapply wp_mono; [by apply keeps_call_handler|]. cbn.
  intros [[]|e'] a1 s1 Hk1; [unfold count; by wp_steps|].
  apply wp_bind. eapply wp_mono; [by apply keeps_gctx_err|]. cbn. intros [c1|] a2 s2 [Hok2 Hk2]; [|done].
  destruct c1; [by wp_steps|]. wp_step; [by apply keeps_deadLetter|].
  wp_step; [by apply keeps_deadLetter|]. unfold count. wp_steps.
  eapply wp_mono; [by apply keeps_gctx_err|]. cbn. intros [c3|] a3 s3 [Hok3 Hk3]; [|done].
  destruct c3; [by wp_steps|]. by apply IH.
Qed.

Lemma keeps_handle_all l first a s : (forall km, km ∈ l -> km ∈ log) -> keeps s ->
  wp (handle_all cfg handler l first) (fun _ _ s' => keeps s') a s.
Proof.
  revert first a s. induction l as [|km l IH]; intros first a s Hin Hk; cbn [handle_all].
  { destruct first; by wp_steps. }
  apply wp_bind, wp_attempt. eapply wp_mono; [apply keeps_try_handle; [apply Hin; by left|done]|]. cbn.
  intros [[]|e] a1 s1 Hk1; wp_steps; (apply IH; [intros; apply Hin; by right|done]).
Qed.

Lemma keeps_fill n batch a s : (forall km, km ∈ batch -> km ∈ log) -> keeps s ->
  wp (fill n batch) (fun r _ s' => keeps s' /\ forall b km, r = Ok b -> km ∈ b -> km ∈ log) a s.
Proof.
  revert batch a s. induction n as [|n IH]; intros batch a s Hin Hk; cbn [fill].
  { wp_steps. split; [done|]. intros b km [= <-]. auto. }
  unfold FetchMessage. wp_steps; try (split; [done|]; intros b km0; by (intros [= <-]; auto) || done).
  apply IH; [|done]. intros km [?|Hm]%elem_of_app; [auto|]. apply list_elem_of_singleton in Hm as ->.
  destruct Hk as [<- _]. by eapply list_elem_of_lookup_2.
Qed.

Lemma keeps_fetchBatch a s : keeps s ->
  wp (fetchBatch cfg) (fun r _ s' => keeps s' /\ forall b km, r = Ok b -> km ∈ b -> km ∈ log) a s.
Proof.
  intros Hk. unfold fetchBatch, FetchMessage.
  wp_steps; try (split; [done|]; intros b km0; (intros [= <-]; by intros ?%not_elem_of_nil) || done).
  apply keeps_fill; [|done]. intros km ->%list_elem_of_singleton.
  destruct Hk as [<- _]. by eapply list_elem_of_lookup_2.
Qed.

Lemma RunConsumer_keeps fuel a s : keeps s ->
  wp (RunConsumer cfg handler schedule fuel) (fun _ _ s' => keeps s') a s.
Proof.
  revert a s. induction fuel as [|fuel IH]; intros a s Hk; cbn [RunConsumer]; [done|].
  apply wp_bind. eapply wp_mono; [by apply keeps_ctx_err|]. cbn. intros [c|] a1 s1 [_ Hk1]; [|done].
  destruct c; [by wp_steps|]. apply wp_bind, wp_attempt.
  eapply wp_mono; [by apply keeps_fetchBatch|]. cbn. intros [b|e] a2 s2 [Hk2 Hb]; [|by wp_steps].
  wp_step; [by apply IH|]. unfold process. wp_steps. eapply wp_mono.
  { apply keeps_handle_all; [|done]. intros km. rewrite schedule_perm. by apply (Hb b). }
  cbn. intros [[]|e] a3 s3 Hk3.
  - unfold CommitMessages. wp_steps; [by apply IH|done|done].
  - wp_steps. eapply wp_mono; [by apply keeps_ctx_err|]. cbn.
    intros [c|] a4 s4 [_ Hk4]; [destruct c; by wp_steps|done].
Qed.
End Clients.
