(* ===== verification/ConsumerProps.v ===== *)
(** * The Kafka consumer: the properties *)

From stdpp Require Import base gmap list strings numbers relations.
From S2P Require Import Prelude Platform GoStrings Kafka Instances Consumer.

(** ** Runs without faults *)

Section Live.
Context `{U : UuidLib} {A : Type}.
Variable cfg : ConsumerConfig.
Variable handler : Message -> prog A unit.
Variable schedule : list KMessage -> list KMessage.

Implicit Types (s : con_state A) (a : ambient).

(** The handler terminates without consuming a fault. *)
Hypothesis handler_quiet : forall m a x, no_faults a -> wp (handler m) (fun _ a' _ => no_faults a') a x.

(** Nothing was cancelled. *)
Definition up (s : con_state A) : Prop := cn_done s = false /\ cn_gdone s = false.

Lemma gctx_err_up a s : no_faults a -> up s ->
  wp gctx_err (fun r a' s' => r = Ok false /\ a' = a /\ s' = s) a s.
Proof.
  intros Hnf [Hd Hg]. unfold gctx_err, ctx_err. wp_steps; try congruence.
  - by rewrite drop_fate_none.
  - by rewrite (head_fate_none a Hnf) in *.
Qed.

Lemma deadLetter_up km n e a s : no_faults a -> up s ->
  wp (deadLetter (fromKafka km) n e) (fun r a' s' => r = Ok tt /\ no_faults a' /\ up s' /\ handling s s') a s.
Proof.
  intros Hnf Hup. unfold deadLetter, count. wp_steps; rewrite ?(head_fate_none a Hnf) in *; try done.
  split; [done|]. split; [auto with prog|]. split; [done|]. split; [|done]. split; [done|done|].
  intros x Hx. cbn. apply elem_of_app. by left.
Qed.

Lemma call_handler_up km a s : no_faults a -> up s ->
  wp (call_handler handler km) (fun _ a' s' => no_faults a' /\ up s' /\ handling s s') a s.
Proof.
  intros Hnf Hup. pose proof (wp_call_handler handler km a s) as Hw.
  pose proof (handler_quiet (fromKafka km) a (cn_app s) Hnf) as Hq.
  unfold wp, call_handler in *. destruct (handler (fromKafka km) a (cn_app s)) as [[r a'] x].
  split_and!; [done|done|by destruct Hw].
Qed.

Lemma try_handle_up km left n e a s : no_faults a -> up s ->
  wp (try_handle handler km left n e) (fun r a' s' => r = Ok tt /\ no_faults a' /\ up s' /\ handling s s') a s.
Proof.
  revert n e a s. induction left as [|left IH]; intros n e a s Hnf Hup; cbn [try_handle]; [by apply deadLetter_up|].
  apply wp_bind, wp_attempt. eapply wp_mono; [by apply call_handler_up|]. cbn.
  intros [[]|e'] a1 s1 (Hnf1 & Hup1 & Hh1).
  { unfold count. wp_steps. split_and!; [done|done|done|by eapply handling_trans; [exact Hh1|]]. }
  apply wp_bind. eapply wp_mono; [by apply gctx_err_up|]. cbn. intros r a2 s2 (-> & -> & ->).
  assert (Hdead : wp (deadLetter (fromKafka km) (n + 1) e')
    (fun r a' s' => r = Ok tt /\ no_faults a' /\ up s' /\ handling s s') a1 s1).
  { eapply wp_mono; [by apply deadLetter_up|]. cbn. intros r a3 s3 (-> & ? & ? & ?).
    split_and!; [done..|by eapply handling_trans]. }
  wp_step; [exact Hdead|]. wp_step; [exact Hdead|]. unfold count. wp_steps.
  eapply wp_mono; [by apply gctx_err_up|]. cbn. intros r a3 s3 (-> & -> & ->).
  eapply wp_mono; [by apply IH|]. cbn. intros r a4 s4 (-> & ? & ? & ?). split_and!; [done..|].
  eapply handling_trans; [exact Hh1|]. eapply handling_trans; [|done]. done.
Qed.

Lemma handle_all_up l a s : no_faults a -> up s ->
  wp (handle_all cfg handler l None) (fun r a' s' => r = Ok tt /\ no_faults a' /\ up s' /\ handling s s') a s.
Proof.
  revert a s. induction l as [|km l IH]; intros a s Hnf Hup; cbn [handle_all]; [done|].
  apply wp_bind, wp_attempt. eapply wp_mono; [by apply try_handle_up|]. cbn.
  intros r a1 s1 (-> & ? & ? & ?). eapply wp_mono; [by apply IH|]. cbn.
  intros r a2 s2 (-> & ? & ? & ?). split_and!; [done..|by eapply handling_trans].
Qed.

(** The reader moves, nothing else does. *)
Lemma fill_up n batch a s : no_faults a -> cn_pos s <= length (cn_log s) ->
  wp (fill n batch) (fun r a' s' => is_ok r = true /\ a' = a /\ cn_pos s <= cn_pos s' <= length (cn_log s) /\
    s' = set_pos (cn_pos s') s /\ (forall b, r = Ok b -> length batch <= length b)) a s.
Proof.
  intros Hnf. revert batch s. induction n as [|n IH]; intros batch s Hle; cbn [fill].
  { wp_steps. split_and!; [done|done|lia|lia|by destruct s|by intros b [= <-]]. }
  unfold FetchMessage. wp_steps; rewrite ?(head_fate_none a Hnf), ?(drop_fate_none a Hnf) in *; try done.
  - eapply wp_mono; [apply IH; apply lookup_lt_Some in Heqo; cbn; lia|]. cbn.
    intros r a1 s1 (Hok & -> & Hle' & -> & Hb).
    split_and!; [done|done|cbn in *; lia|cbn in *; lia|done|]. intros b Hb'. specialize (Hb b Hb').
    rewrite length_app in Hb. cbn in Hb. lia.
  - split_and!; [done|done|lia|lia|by destruct s|by intros b [= <-]].
Qed.

Lemma fetchBatch_up a s : no_faults a -> cn_pos s < length (cn_log s) ->
  wp (fetchBatch cfg) (fun r a' s' => a' = a /\ cn_pos s < cn_pos s' <= length (cn_log s) /\
    s' = set_pos (cn_pos s') s /\
    exists b, r = Ok b /\ length b <> 0) a s.
Proof.
  intros Hnf Hlt. unfold fetchBatch, FetchMessage.
  wp_steps; rewrite ?(head_fate_none a Hnf), ?(drop_fate_none a Hnf) in *; try done.
  - eapply wp_mono; [apply fill_up; [done|cbn; lia]|]. cbn. intros r a1 s1 (Hok & -> & Hle & -> & Hb).
    split_and!; [done|cbn in *; lia|cbn in *; lia|done|]. destruct r as [b|]; [|done]. exists b. split; [done|].
    specialize (Hb b eq_refl). cbn in Hb. lia.
  - exfalso. apply lookup_ge_None in Heqo. lia.
Qed.

Lemma RunConsumer_up fuel a s :
  (forall l, schedule l ≡ₚ l) -> no_faults a -> cn_done s = false ->
  cn_pos s = cn_committed s -> length (cn_log s) - cn_committed s <= fuel ->
  cn_committed s <= length (cn_log s) ->
  wp (RunConsumer cfg handler schedule fuel) (fun r _ s' => r = Ok tt /\ cn_log s' = cn_log s /\
    cn_committed s' = length (cn_log s)) a s.
Proof.
  intros Hsch. revert a s. induction fuel as [|fuel IH]; intros a s Hnf Hd Hpos Hfuel Hle; cbn [RunConsumer].
  { wp_steps. split_and!; [done|done|lia]. }
  destruct (decide (cn_pos s < length (cn_log s))) as [Hlt|Hge].
  - unfold ctx_err. wp_steps; try congruence.
    2: { by rewrite (head_fate_none a Hnf) in *. }
    rewrite (drop_fate_none a Hnf). eapply wp_mono; [by apply fetchBatch_up|]. cbn.
    intros r a1 s1 (-> & Hgt & Hs1 & b & -> & Hb). rewrite bool_decide_eq_false_2 by done.
    assert (Hlog1 : cn_log s1 = cn_log s) by (by rewrite Hs1).
    assert (Hup1 : up (set_gdone false s1)) by (split; [cbn; by rewrite Hs1|done]).
    unfold process. wp_steps. eapply wp_mono; [by apply handle_all_up|]. cbn.
    intros r a2 s2 (-> & Hnf2 & [Hd2 _] & ([Hl2 _ _] & Hp2 & Hc2)). cbn in Hl2, Hp2, Hc2.
    unfold CommitMessages.
    wp_steps; rewrite ?(head_fate_none a2 Hnf2), ?(drop_fate_none a2 Hnf2) in *; try done.
    eapply wp_mono; [apply IH; cbn; rewrite ?Hl2, ?Hp2, ?Hlog1; try done; lia|].
    cbn. intros r a3 s3 (-> & H1 & H2). by rewrite H1, H2, Hl2, Hlog1.
  - assert (Hc : cn_committed s = length (cn_log s)) by lia.
    unfold ctx_err. wp_steps; try congruence.
    2: { by rewrite (head_fate_none a Hnf) in *. }
    rewrite (drop_fate_none a Hnf). unfold fetchBatch, FetchMessage.
    wp_steps; rewrite ?(head_fate_none a Hnf), ?(drop_fate_none a Hnf) in *; try done.
    { apply lookup_lt_Some in Heqo. lia. }
    destruct fuel as [|fuel]; cbn [RunConsumer]; [by wp_steps|].
    unfold ctx_err. wp_steps; [done|done|done].
Qed.
End Live.

(** ** Properties *)

Section Properties.
Context `{U : UuidLib} {A : Type}.
Variable cfg : ConsumerConfig.
Variable handler : Message -> prog A unit.
Variable schedule : list KMessage -> list KMessage.

Implicit Types (s : con_state A) (a : ambient).

(** One life of the consumer: it starts at the committed offset and runs until it
    stops, for whatever reason. *)
Definition life (s s' : con_state A) : Prop :=
  exists fuel a r a', RunConsumer cfg handler schedule fuel a (restart s) = (r, a', s').

(** C5: at-least-once without gaps.  Over any number of lives of the consumer, with
    fetches, handlers, the dead-letter topic and commits failing and shutdowns arriving
    at any point, every record below the committed offset was handled successfully or
    is parked on the dead-letter topic. *)
Theorem consumer_never_skips s s' :
  (forall l, schedule l ≡ₚ l) -> rtc life s s' -> no_gap s -> no_gap s'.
Proof.
  intros Hsch. induction 1 as [|s s1 s2 (fuel & a & r & a' & Hrun) _ IH]; [done|].
  intros [Hle Hs]. apply IH.
  refine (wp_run _ _ _ _ _ _ _ Hrun (RunConsumer_no_gap cfg handler schedule fuel a (restart s) Hsch _ _)).
  - split; [done|]. exact Hs.
  - done.
Qed.

(** C21: progress.  When nothing fails and nobody cancels, a consumer handles its
    partition to the end whatever the handler answers: it commits every record, in at
    most as many rounds as records were uncommitted. *)
Theorem consumer_commits_everything fuel a s r a' s' :
  (forall l, schedule l ≡ₚ l) ->
  (forall m a x, no_faults a -> wp (handler m) (fun _ a' _ => no_faults a') a x) ->
  no_faults a -> cn_committed s <= length (cn_log s) <= cn_committed s + fuel ->
  RunConsumer cfg handler schedule fuel a (restart s) = (r, a', s') ->
  r = Ok tt /\ cn_committed s' = length (cn_log s).
Proof.
  intros Hsch Hq Hnf Hlen Hrun.
  destruct (wp_run _ _ _ _ _ _ _ Hrun (RunConsumer_up cfg handler schedule Hq fuel a (restart s) Hsch Hnf
    eq_refl eq_refl ltac:(cbn; lia) ltac:(cbn; lia))) as (-> & _ & ->). done.
Qed.

Lemma try_handle_poison km e left n err a s :
  no_faults a -> up s ->
  (forall a x, exists x', handler (fromKafka km) a x = (Err e, a, x')) ->
  let tries := if IsPermanent e then 1 else S left in
  wp (try_handle handler km (S left) n err) (fun r _ s' => r = Ok tt /\
    cn_calls s' = cn_calls s ++ replicate tries (km, false) /\
    cn_dlq s' = cn_dlq s ++ [dead_copy (fromKafka km) (n + tries) e]) a s.
Proof.
  intros Hnf Hup Hfail tries. subst tries. revert n err s Hup.
  induction left as [|left IH]; intros n err s Hup; cbn [try_handle];
    apply wp_bind, wp_attempt; unfold wp at 1, call_handler;
    destruct (Hfail a (cn_app s)) as [x' ->]; cbn [is_ok];
    apply wp_bind; (eapply wp_mono; [by apply gctx_err_up|]); cbn;
    intros r a2 s2 (-> & -> & ->); destruct (IsPermanent e) eqn:Hp.
  1,2,3: unfold deadLetter, count; wp_steps; rewrite ?(head_fate_none a Hnf) in *; done.
  unfold count. wp_steps; [done|]. eapply wp_mono; [by apply gctx_err_up|]. cbn.
  intros r a3 s3 (-> & -> & ->). eapply wp_mono; [by apply IH|]. cbn -[replicate].
  intros r a4 s4 (-> & H1 & H2). rewrite H1, H2. split_and!; [done| |].
  - cbn. by rewrite <- app_assoc.
  - do 3 f_equal. lia.
Qed.

(** C22: a message the handler cannot process does not block the partition.  When the
    dead-letter topic is reachable, [handleOne] tries it [MaxAttempts] times, or once if
    the failure is permanent, parks one copy that records the attempts, and succeeds. *)
Theorem poison_message_is_parked km e a s r a' s' :
  (0 < cc_MaxAttempts cfg)%Z -> no_faults a -> cn_done s = false -> cn_gdone s = false ->
  (forall a x, exists x', handler (fromKafka km) a x = (Err e, a, x')) ->
  handleOne cfg handler km a s = (r, a', s') ->
  let tries := if IsPermanent e then 1 else Z.to_nat (cc_MaxAttempts cfg) in
  r = Ok tt /\ cn_calls s' = cn_calls s ++ replicate tries (km, false) /\
  cn_dlq s' = cn_dlq s ++ [dead_copy (fromKafka km) tries e].
Proof.
  intros Hmax Hnf Hd Hg Hfail Hrun tries. unfold handleOne in Hrun.
  destruct (Z.to_nat (cc_MaxAttempts cfg)) as [|left] eqn:E; [lia|].
  exact (wp_run _ _ _ _ _ _ _ Hrun (try_handle_poison km e left 0 (EText "") a s Hnf (conj Hd Hg) Hfail)).
Qed.
End Properties.

(** ** Witnesses *)

Section Examples.
Definition ex_cfg : ConsumerConfig := applyDefaults
  {| cc_Brokers := ["b"]; cc_Topic := "t"; cc_GroupID := "g"; cc_HasDLQ := true; cc_Concurrency := 0;
     cc_BatchSize := 0; cc_BatchWait := 0; cc_MaxAttempts := 0; cc_RetryBackoff := 0 |}.

Definition ex_record (v : string) : KMessage :=
  {| km_Topic := "t"; km_Partition := 0; km_Offset := 0; km_Key := "k"; km_Value := v; km_Headers := [] |}.

(** A handler that collects values and rejects ["bad"]. *)
Definition ex_handler (m : Message) : prog (U := ref_uuid) (list string) unit :=
  if bool_decide (msg_Value m = "bad") then throw (EText "rejected")
  else modify (fun l => l ++ [msg_Value m]).

Definition ex_con : con_state (list string) :=
  Build_con_state [] (map ex_record ["a"; "bad"; "c"]) 0 0 [] false false [] [].

Abbreviation ex_consumed :=
  (RunConsumer ex_cfg ex_handler id 3 (amb0 [] (names "x") 1 1) (restart ex_con)).

Lemma consumer_never_skips_witness : no_gap ex_consumed.2 /\ cn_committed ex_consumed.2 = 3.
Proof.
  split; [|vm_compute; reflexivity].
  apply (consumer_never_skips ex_cfg ex_handler id ex_con ex_consumed.2).
  - done.
  - apply rtc_once. exists 3, (amb0 [] (names "x") 1 1), ex_consumed.1.1, ex_consumed.1.2.
    exact (run_eta ex_consumed).
  - split; [done|]. cbn. intros. lia.
Defined.

Lemma consumer_commits_everything_witness : cn_committed ex_consumed.2 = 3.
Proof.
  refine (proj2 (consumer_commits_everything ex_cfg ex_handler id 3 (amb0 [] (names "x") 1 1) ex_con
    _ _ _ _ _ eq_refl _ (run_eta ex_consumed))).
  - done.
  - intros m a x Hnf. unfold ex_handler. case_bool_decide; wp_steps; done.
  - cbn. lia.
Defined.

Abbreviation ex_bad :=
  (handleOne ex_cfg ex_handler (ex_record "bad") (amb0 [] (names "x") 1 1) ex_con).

Lemma poison_message_is_parked_witness :
  cn_calls ex_bad.2 = replicate 3 (ex_record "bad", false) /\ length (cn_dlq ex_bad.2) = 1.
Proof.
  destruct (poison_message_is_parked ex_cfg ex_handler (ex_record "bad") (EText "rejected")
    (amb0 [] (names "x") 1 1) ex_con _ _ _ ltac:(done) eq_refl eq_refl eq_refl
    ltac:(intros a x; exists x; reflexivity) (run_eta ex_bad)) as (_ & H1 & H2).
  split; [exact H1|]. rewrite H2. reflexivity.
Defined.
End Examples.
