(* ===== verification/Analytics.v ===== *)
(** * analytics-svc ([services/analytics/internal])

    The projection that folds order events into statistics per concert, and the read
    API over them. *)

From stdpp Require Import base gmap list strings numbers sorting.
From S2P Require Import Prelude Platform GoStrings Events Kafka Consumer.

(** ** The projection ([projection.go]) *)

(** What one event adds to a concert's statistics. *)
Record delta := {
  ticketsSold : Z;
  revenueCents : Z;
  confirmed : Z;
  failed : Z;
}.

#[global] Instance delta_eq_dec : EqDecision delta.
Proof. solve_decision. Defined.

Section Projection.
Context `{U : UuidLib} {J : ProtoJson}.

Record change := {
  c_messageID : UUID;
  c_eventID : UUID;
  c_delta : delta;
}.

#[global] Instance change_eq_dec : EqDecision change.
Proof. solve_decision. Defined.

(** [Ok None] is [ok = false]: the event changes nothing. *)
Definition parse (msg : Message) : res (option change) :=
  match DecodeOrderEvent (msg_Value msg) with
  | Err e => Err (Permanent e)
  | Ok ev =>
      let counted := fun d =>
        match uuid_parse (oe_MessageId ev) with
        | None => Err (Permanent (EWrap ("invalid message_id " +:+ oe_MessageId ev) (EText "invalid UUID")))
        | Some messageID =>
            match uuid_parse (oe_EventId ev) with
            | None => Err (Permanent (EWrap ("invalid event_id " +:+ oe_EventId ev) (EText "invalid UUID")))
            | Some eventID =>
                Ok (Some {| c_messageID := messageID; c_eventID := eventID; c_delta := d |})
            end
        end in
      match oe_Type ev with
      | ORDER_EVENT_TYPE_CONFIRMED =>
          counted {| ticketsSold := to_int64 (Z.of_nat (length (oe_SeatIds ev)));
                     revenueCents := oe_AmountCents ev; confirmed := 1; failed := 0 |}
      | ORDER_EVENT_TYPE_FAILED =>
          counted {| ticketsSold := 0; revenueCents := 0; confirmed := 0; failed := 1 |}
      | _ => Ok None
      end
  end.

(** A row of [event_stats]. *)
Record stats_row := {
  sx_delta : delta;
  sx_updated_at : Z;
}.

Record ana_db := {
  tb_processed : gset UUID;
  tb_stats : gmap UUID stats_row;
}.

#[global] Instance ana_has_db : HasDb ana_db ana_db := {| db_get := id; db_set := fun d _ => d |}.

Definition add_delta (x y : delta) : delta :=
  {| ticketsSold := ticketsSold x + ticketsSold y; revenueCents := revenueCents x + revenueCents y;
     confirmed := confirmed x + confirmed y; failed := failed x + failed y |}.

(** [BIGINT] addition raises an error when the sum does not fit. *)
Definition fits (x : delta) : bool :=
  int64_b (ticketsSold x) && int64_b (revenueCents x) && int64_b (confirmed x) && int64_b (failed x).

(** [INSERT INTO event_stats .. ON CONFLICT (event_id) DO UPDATE SET .. + EXCLUDED ..] *)
Definition upsert_stats (ev : UUID) (d : delta) (now : Z) (m : gmap UUID stats_row)
    : res (gmap UUID stats_row) :=
  match m !! ev with
  | None => Ok (<[ev := {| sx_delta := d; sx_updated_at := now |}]> m)
  | Some r =>
      let d' := add_delta (sx_delta r) d in
      if fits d' then Ok (<[ev := {| sx_delta := d'; sx_updated_at := now |}]> m)
      else Err (EPg out_of_range "")
  end.

(** Record the message and update the counters, in the transaction [tx]. *)
Definition apply (tx : ana_db) (c : change) : prog ana_db ana_db :=
  _ ← pg_call (EWrap "record message");
  if bool_decide (c_messageID c ∈ tb_processed tx) then mret tx else
  _ ← pg_call (EWrap "update event stats");
  now ← tx_now;
  match upsert_stats (c_eventID c) (c_delta c) now (tb_stats tx) with
  | Err e => throw (EWrap "update event stats" e)
  | Ok m => mret {| tb_processed := {[c_messageID c]} ∪ tb_processed tx; tb_stats := m |}
  end.

Definition Handle (msg : Message) : prog ana_db unit :=
  match parse msg with
  | Err e => throw e
  | Ok None => mret tt
  | Ok (Some c) => begin_func (fun tx => tx' ← apply tx c; mret (tt, tx'))
  end.
End Projection.

(** ** The read API ([server/server.go]) *)

Record EventStats := {
  es_EventId : string;
  es_TicketsSold : Z;
  es_RevenueCents : Z;
  es_OrdersConfirmed : Z;
  es_OrdersFailed : Z;
  es_UpdatedAt : Z;
}.

Definition defaultLimit : Z := 20.
Definition maxLimit : Z := 100.

Definition clampLimit (n : Z) : Z :=
  if (n <=? 0)%Z then defaultLimit else if (maxLimit <? n)%Z then maxLimit else n.

Section Server.
Context `{U : UuidLib}.

Definition scanStats (row : UUID * stats_row) : EventStats :=
  let d := sx_delta row.2 in
  {| es_EventId := uuid_string row.1; es_TicketsSold := ticketsSold d;
     es_RevenueCents := revenueCents d; es_OrdersConfirmed := confirmed d;
     es_OrdersFailed := failed d; es_UpdatedAt := sx_updated_at row.2 |}.

Definition GetEventStats (event_id : string) : prog ana_db EventStats :=
  match uuid_parse event_id with
  | None => throw (EStatus InvalidArgument "event_id must be a UUID" [])
  | Some id =>
      _ ← pg_call (EWrap "query event stats");
      s ← get_state;
      match tb_stats s !! id with
      | None => throw (EStatus NotFound "no statistics for this event yet" [])
      | Some r => mret (scanStats (id, r))
      end
  end.

(** [ORDER BY revenue_cents DESC, event_id] *)
Definition revenue_le `{!PgOrder U} (x y : UUID * stats_row) : Prop :=
  (revenueCents (sx_delta y.2) < revenueCents (sx_delta x.2))%Z \/
  (revenueCents (sx_delta x.2) = revenueCents (sx_delta y.2) /\ uuid_le x.1 y.1).

#[global] Instance revenue_le_dec `{!PgOrder U} : RelDecision revenue_le.
Proof. unfold revenue_le. intros x y. apply _. Defined.

Definition ListEventStats `{!PgOrder U} (limit : Z) : prog ana_db (list EventStats) :=
  _ ← pg_call (EWrap "query event stats");
  s ← get_state;
  let rows := take (Z.to_nat (clampLimit limit)) (merge_sort revenue_le (map_to_list (tb_stats s))) in
  _ ← pg_call (EWrap "iterate event stats");
  mret (map scanStats rows).
End Server.
