(* ===== verification/AnalyticsProps.v ===== *)
(** * analytics-svc: the properties

    The statistics are the exact sums over the distinct messages counted so far, however
    often the consumer delivered them and whatever failed in between. *)

From stdpp Require Import base gmap list strings numbers relations sorting.
From S2P Require Import Prelude Platform GoStrings Events Kafka Instances Consumer ConsumerProps Analytics.

Section Tally.
Context `{U : UuidLib} {J : ProtoJson}.
Implicit Types (d : ana_db) (l : list change) (c : change).

Definition no_delta : delta := {| ticketsSold := 0; revenueCents := 0; confirmed := 0; failed := 0 |}.

Definition sum_deltas l : delta := foldr (fun c acc => add_delta acc (c_delta c)) no_delta l.

Definition of_event (ev : UUID) l : list change := filter (fun c => c_eventID c = ev) l.

(** The database has counted exactly the changes [l] (the latest first), each message
    once. *)
Record tally d l : Prop := {
  ty_ids : NoDup (map c_messageID l);
  ty_processed : forall id, id ∈ tb_processed d <-> id ∈ map c_messageID l;
  ty_stats : forall ev, sx_delta <$> tb_stats d !! ev =
    if bool_decide (of_event ev l = []) then None else Some (sum_deltas (of_event ev l));
}.

Lemma tally_empty : tally {| tb_processed := ∅; tb_stats := ∅ |} [].
Proof. split; [constructor|set_solver|done]. Qed.

Lemma add_no_delta x : add_delta no_delta x = x.
Proof. by destruct x. Qed.

Lemma tally_count d l c now m :
  tally d l -> c_messageID c ∉ tb_processed d ->
  upsert_stats (c_eventID c) (c_delta c) now (tb_stats d) = Ok m ->
  tally {| tb_processed := {[c_messageID c]} ∪ tb_processed d; tb_stats := m |} (c :: l).
Proof.
  intros [Hnd Hp Hs] Hnew Hup. split; cbn [tb_processed tb_stats map].
  - apply NoDup_cons. split; [by rewrite <- Hp|done].
  - intros id. rewrite elem_of_union, elem_of_singleton, elem_of_cons, Hp. tauto.
  - intros ev. specialize (Hs ev). unfold of_event in *. rewrite filter_cons. unfold upsert_stats in Hup.
    case_decide as Ev.
    + rewrite bool_decide_eq_false_2 by done. subst ev.
      change (sum_deltas (c :: ?l)) with (add_delta (sum_deltas l) (c_delta c)).
      destruct (tb_stats d !! c_eventID c) as [r|] eqn:E.
      * destruct (fits _); [|done]. injection Hup as <-. rewrite lookup_insert_eq. cbn in Hs |- *.
        case_bool_decide; [done|]. congruence.
      * injection Hup as <-. rewrite lookup_insert_eq. cbn in Hs |- *.
        case_bool_decide as El; [|done]. rewrite El. cbn. by rewrite add_no_delta.
    + rewrite <- Hs. destruct (tb_stats d !! c_eventID c) as [r|]; [destruct (fits _); [|done]|];
        injection Hup as <-; by rewrite lookup_insert_ne.
Qed.

(** One call of the handler: a success counted the message, or found it counted; a
    failure counted it or left everything as it was. *)
Lemma Handle_spec msg a d l :
  tally d l ->
  wp (Handle msg) (fun r _ d' => exists l', tally d' l' /\
    ((d' = d /\ l' = l) \/ exists c, parse msg = Ok (Some c) /\ l' = c :: l) /\
    (r = Ok tt -> parse msg = Ok None \/
       exists c, parse msg = Ok (Some c) /\ c_messageID c ∈ map c_messageID l')) a d.
Proof.
  intros Ht. unfold Handle.
  assert (Hsame : forall r : res unit, (r = Ok tt -> parse msg = Ok None \/
       exists c, parse msg = Ok (Some c) /\ c_messageID c ∈ map c_messageID l) ->
    exists l', tally d l' /\ ((d = d /\ l' = l) \/ exists c, parse msg = Ok (Some c) /\ l' = c :: l) /\
      (r = Ok tt -> parse msg = Ok None \/
       exists c, parse msg = Ok (Some c) /\ c_messageID c ∈ map c_messageID l')).
  { intros r Hr. exists l. split; [done|]. split; [by left|exact Hr]. }
  destruct (parse msg) as [[c|]|e] eqn:Ep; [|by wp_steps; apply Hsame; left|by wp_steps; apply Hsame].
  wp_step; [by apply Hsame|]. unfold apply. wp_steps; cbn in *; try by apply Hsame.
  - reflect_bools. assert (c_messageID c ∈ map c_messageID l) by (by apply (ty_processed _ _ Ht)).
    split; [|split]; apply Hsame; [intros; right; by exists c|done..].
  - reflect_bools. assert (Ht' := tally_count _ _ _ _ _ Ht Heqb Heqr).
    split; [|split]; [exists (c :: l)|exists (c :: l)|by apply Hsame];
      (split; [done|]; split; [right; by exists c|]); intros; [|done].
    right. exists c. split; [done|]. cbn. by left.
Qed.

(** What the calls of the handler so far say about the database. *)
Definition counted (calls : list (KMessage * bool)) d : Prop := exists l, tally d l /\
  (forall c, c ∈ l -> exists km b, (km, b) ∈ calls /\ parse (fromKafka km) = Ok (Some c)) /\
  (forall km, (km, true) ∈ calls -> parse (fromKafka km) = Ok None \/
     exists c, parse (fromKafka km) = Ok (Some c) /\ c_messageID c ∈ map c_messageID l).

Lemma Handle_counted km calls a d :
  counted calls d ->
  wp (Handle (fromKafka km)) (fun r _ d' => counted (calls ++ [(km, is_ok r)]) d') a d.
Proof.
  intros (l & Ht & Hfrom & Hok). eapply wp_mono; [by apply Handle_spec|]. cbn.
  intros r a' d' (l' & Ht' & Hl' & Hr). exists l'. split; [done|]. split.
  - intros c Hc. assert (c ∈ l \/ parse (fromKafka km) = Ok (Some c)) as [Hin|Hp].
    { destruct Hl' as [[_ ->]|(c' & Hp & ->)]; [by left|].
      apply elem_of_cons in Hc as [->|Hc]; [by right|by left]. }
    + destruct (Hfrom c Hin) as (km' & b & Hkm & Hp). exists km', b. split; [|done].
      apply elem_of_app. by left.
    + exists km, (is_ok r). split; [|done]. apply elem_of_app. right. by apply list_elem_of_singleton.
  - intros km' [Hin|Hin]%elem_of_app.
    + destruct (Hok km' Hin) as [Hn|(c & Hp & Hc)]; [by left|]. right. exists c. split; [done|].
      destruct Hl' as [[_ ->]|(c' & _ & ->)]; [done|]. cbn. by right.
    + apply list_elem_of_singleton in Hin. injection Hin as -> Hr'. apply Hr. by destruct r as [[]|].
Qed.
End Tally.

(** ** Properties *)

Section Properties.
Context `{U : UuidLib} {J : ProtoJson}.
Variable cfg : ConsumerConfig.
Variable schedule : list KMessage -> list KMessage.

Implicit Types (s : con_state ana_db).

(** The changes the records of a partition ask for. *)
Definition asked (log : list KMessage) : list change :=
  omap (fun km => match parse (fromKafka km) with Ok (Some c) => Some c | _ => None end) log.

Lemma elem_of_asked log c : c ∈ asked log <-> exists km, km ∈ log /\ parse (fromKafka km) = Ok (Some c).
Proof.
  unfold asked. rewrite list_elem_of_omap. split; intros (km & Hin & Hp); exists km; (split; [done|]).
  - destruct (parse (fromKafka km)) as [[c'|]|]; congruence.
  - by rewrite Hp.
Qed.

Lemma consumer_counts s s' :
  (forall l, schedule l ≡ₚ l) ->
  cn_app s = {| tb_processed := ∅; tb_stats := ∅ |} -> cn_calls s = [] -> cn_committed s = 0 ->
  rtc (life cfg Handle schedule) s s' ->
  exists l, tally (cn_app s') l /\ (forall c, c ∈ l -> c ∈ asked (cn_log s)) /\
    (forall i km, i < cn_committed s' -> cn_log s !! i = Some km ->
       parse (fromKafka km) = Ok None \/
       (exists c, parse (fromKafka km) = Ok (Some c) /\ c_messageID c ∈ map c_messageID l) \/
       exists n e, dead_copy (fromKafka km) n e ∈ cn_dlq s') /\
    (cn_committed s' = length (cn_log s) -> cn_dlq s' = [] ->
     (forall c c', c ∈ asked (cn_log s) -> c' ∈ asked (cn_log s) -> c_messageID c = c_messageID c' -> c = c') ->
     l ≡ₚ remove_dups (asked (cn_log s))).
Proof.
  intros Hsch Happ Hcalls Hcom Hrtc. set (log := cn_log s).
  assert (Hinv : keeps log (fun calls d => counted calls d /\ forall x, x ∈ calls -> x.1 ∈ log) s' /\ no_gap s').
  { assert (Hs : keeps log (fun calls d => counted calls d /\ forall x, x ∈ calls -> x.1 ∈ log) s /\ no_gap s).
    { split.
      - split; [done|]. rewrite Happ, Hcalls. split; [|by intros x ?%not_elem_of_nil].
        exists []. split; [apply tally_empty|]. split; intros ? []%not_elem_of_nil.
      - split; [lia|]. rewrite Hcom. lia. }
    clear Happ Hcalls Hcom. revert Hs. generalize log. clear log. intros log.
    induction Hrtc as [|s s1 s2 (fuel & a & r & a' & Hrun) _ IH]; [done|]. intros [Hk [Hle Hng]]. apply IH. split.
    - refine (wp_run _ _ _ _ _ _ _ Hrun (RunConsumer_keeps cfg Handle schedule log _ Hsch _ fuel a (restart s) Hk)).
      intros km calls a0 d Hin [Hc Hlog]. eapply wp_mono; [by apply Handle_counted|]. cbn.
      intros r0 _ d' Hc'. split; [done|]. intros x [Hx|Hx]%elem_of_app; [auto|].
      apply list_elem_of_singleton in Hx as ->. done.
    - refine (wp_run _ _ _ _ _ _ _ Hrun (RunConsumer_no_gap cfg Handle schedule fuel a (restart s) Hsch _ _));
        [by split|done]. }
  destruct Hinv as [[Hlog [(l & Ht & Hfrom & Hok) Hin]] [_ Hng]]. rewrite Hlog in Hng.
  assert (Hsub : forall c, c ∈ l -> c ∈ asked log).
  { intros c (km & b & Hkm & Hp)%Hfrom. apply elem_of_asked. exists km. split; [|done].
    by apply (Hin (km, b)). }
  assert (Hall : forall i km, i < cn_committed s' -> log !! i = Some km ->
       parse (fromKafka km) = Ok None \/
       (exists c, parse (fromKafka km) = Ok (Some c) /\ c_messageID c ∈ map c_messageID l) \/
       exists n e, dead_copy (fromKafka km) n e ∈ cn_dlq s').
  { intros i km Hi Hkm. destruct (Hng i km Hi Hkm) as [Hc|Hd]; [|by right; right].
    destruct (Hok km Hc) as [?|?]; auto. }
  exists l. split_and!; try done. intros Hcommitted Hdlq Huniq.
  apply NoDup_Permutation.
  - apply (NoDup_fmap_1 c_messageID), Ht.
  - apply NoDup_remove_dups.
  - intros c. rewrite elem_of_remove_dups. split; [apply Hsub|].
    intros Hc. pose proof Hc as (km & [i Hkm]%list_elem_of_lookup & Hp)%elem_of_asked.
    destruct (Hall i km) as [E|[(c' & E & Hid)|(n & e & Hd)]]; [|done|congruence| |].
    + rewrite Hcommitted. fold log. by apply lookup_lt_Some in Hkm.
    + assert (c' = c) as -> by congruence. apply list_elem_of_fmap in Hid as (c2 & Hid & Hc2).
      by rewrite (Huniq c c2 Hc (Hsub _ Hc2) Hid).
    + rewrite Hdlq in Hd. by apply not_elem_of_nil in Hd.
Qed.

(** C10: exactly-once counting over at-least-once delivery.  Over any number of lives of
    the consumer, with transactions, fetches, commits and the dead-letter topic failing
    at any point and records redelivered in any order, the statistics are the exact
    sums over a list of changes asked for by records of the partition, with each message id
    in it once, and every record below the committed offset is counted, asks for
    nothing, or is parked.  In particular, once everything is committed and nothing
    was parked, the statistics are the sums over the distinct changes of the partition
    (the same message id always carrying the same change). *)
Theorem counts_each_message_once s s' :
  (forall l, schedule l ≡ₚ l) ->
  cn_app s = {| tb_processed := ∅; tb_stats := ∅ |} -> cn_calls s = [] -> cn_committed s = 0 ->
  rtc (life cfg Handle schedule) s s' ->
  exists l, tally (cn_app s') l /\ (forall c, c ∈ l -> c ∈ asked (cn_log s)) /\
    (forall i km, i < cn_committed s' -> cn_log s !! i = Some km ->
       parse (fromKafka km) = Ok None \/
       (exists c, parse (fromKafka km) = Ok (Some c) /\ c_messageID c ∈ map c_messageID l) \/
       exists n e, dead_copy (fromKafka km) n e ∈ cn_dlq s') /\
    (cn_committed s' = length (cn_log s) -> cn_dlq s' = [] ->
     (forall c c', c ∈ asked (cn_log s) -> c' ∈ asked (cn_log s) -> c_messageID c = c_messageID c' -> c = c') ->
     l ≡ₚ remove_dups (asked (cn_log s))).
Proof. apply consumer_counts. Qed.

(** The read API reports the tally.  When nothing fails, [GetEventStats] of an event
    answers with the sums over the changes counted for it, or "not found" exactly when
    there are none; [ListEventStats] answers with the best-selling events: as many as
    the clamped limit asks for, highest revenue first, none left out that earned more
    than one that is listed.  Neither changes anything. *)
Lemma reads_report_the_tally `{!UuidLaws U} `{!PgOrder U} d l a ev limit :
  Transitive uuid_le -> Total uuid_le -> tally d l -> no_faults a ->
  (GetEventStats (uuid_string ev) a d =
     (if bool_decide (of_event ev l = [])
      then Err (EStatus NotFound "no statistics for this event yet" [])
      else Ok {| es_EventId := uuid_string ev;
                 es_TicketsSold := ticketsSold (sum_deltas (of_event ev l));
                 es_RevenueCents := revenueCents (sum_deltas (of_event ev l));
                 es_OrdersConfirmed := confirmed (sum_deltas (of_event ev l));
                 es_OrdersFailed := failed (sum_deltas (of_event ev l));
                 es_UpdatedAt := from_option sx_updated_at 0%Z (tb_stats d !! ev) |}, a, d)) /\
  exists page rest,
    ListEventStats limit a d = (Ok (map scanStats page), a, d) /\
    page ++ rest ≡ₚ map_to_list (tb_stats d) /\
    (1 <= clampLimit limit <= 100)%Z /\
    Z.of_nat (length page) = Z.min (clampLimit limit) (Z.of_nat (size (tb_stats d))) /\
    StronglySorted revenue_le page /\
    forall x y, x ∈ page -> y ∈ rest -> (revenueCents (sx_delta y.2) <= revenueCents (sx_delta x.2))%Z.
Proof.
  intros Htr Htot Ht Hnf. split.
  - unfold GetEventStats. rewrite uuid_parse_string.
    unfold mbind, prog_bind, pg_call, mbind, prog_bind, next_fate, pop_fate, get_state. cbn. rewrite Hnf. cbn.
    pose proof (ty_stats _ _ Ht ev) as Hs. destruct (tb_stats d !! ev) as [r|]; cbn in Hs;
      case_bool_decide; try done. injection Hs as Hs. unfold scanStats. cbn. by rewrite Hs.
  - assert (Hclamp : (1 <= clampLimit limit <= 100)%Z).
    { unfold clampLimit, defaultLimit, maxLimit. repeat case_match; reflect_bools; lia. }
    destruct (merge_sort_page revenue_le (map_to_list (tb_stats d)) (Z.to_nat (clampLimit limit)))
      as (Hperm & Hlen & Hsort & Hcross).
    + intros x y z [?|[? ?]] [?|[? ?]]; unfold revenue_le; try (left; lia). right. split; [lia|by etrans].
    + intros x y. unfold revenue_le.
      destruct (Z.lt_trichotomy (revenueCents (sx_delta x.2)) (revenueCents (sx_delta y.2))) as [?|[?|?]]; auto.
      destruct (Htot x.1 y.1); auto.
    + do 2 eexists. split; [|split_and!; [exact Hperm|lia|lia| |exact Hsort|]].
      * unfold ListEventStats, mbind, prog_bind, pg_call, mbind, prog_bind, next_fate, pop_fate, get_state. cbn.
        rewrite Hnf. cbn. by rewrite Hnf.
      * rewrite Hlen, length_map_to_list. lia.
      * intros x y Hx Hy. destruct (Hcross x y Hx Hy) as [?|[? _]]; lia.
Qed.
End Properties.

(** ** Witnesses *)

Section Examples.
(** An order event of the concert [e]. *)
Definition ex_order_event (id : string) (t : OrderEventType) (seats : list string) (cents : Z) : KMessage :=
  {| km_Topic := TopicOrderEvents; km_Partition := 0; km_Offset := 0; km_Key := "k";
     km_Value := to_bits {| oe_MessageId := id; oe_OccurredAt := 1; oe_Type := t; oe_OrderId := "uo";
                            oe_UserId := "uu"; oe_EventId := "ue"; oe_SeatIds := seats; oe_AmountCents := cents;
                            oe_FailureReason := ORDER_FAILURE_REASON_UNSPECIFIED |};
     km_Headers := [] |}.

(** A sale, a failure, and the sale again. *)
Definition ex_sales : con_state (ana_db (U := ref_uuid)) :=
  Build_con_state {| tb_processed := ∅; tb_stats := ∅ |}
    [ex_order_event "um1" ORDER_EVENT_TYPE_CONFIRMED ["us1"; "us2"] 500;
     ex_order_event "um2" ORDER_EVENT_TYPE_FAILED ["us3"] 700;
     ex_order_event "um1" ORDER_EVENT_TYPE_CONFIRMED ["us1"; "us2"] 500] 0 0 [] false false [] [].

Abbreviation ex_counted :=
  (RunConsumer ex_cfg Handle id 3 (amb0 [] (names "x") 1 1) (restart ex_sales)).

Definition ex_sale : change (U := ref_uuid) :=
  {| c_messageID := "m1" : UUID; c_eventID := "e" : UUID;
     c_delta := {| ticketsSold := 2; revenueCents := 500; confirmed := 1; failed := 0 |} |}.
Definition ex_failure : change (U := ref_uuid) :=
  {| c_messageID := "m2" : UUID; c_eventID := "e" : UUID;
     c_delta := {| ticketsSold := 0; revenueCents := 0; confirmed := 0; failed := 1 |} |}.

Lemma counts_each_message_once_witness :
  exists l, tally (U := ref_uuid) (cn_app ex_counted.2) l /\ l ≡ₚ [ex_failure; ex_sale].
Proof.
  destruct (counts_each_message_once (U := ref_uuid) ex_cfg id ex_sales ex_counted.2) as (l & Ht & _ & _ & Hl).
  - done.
  - done.
  - done.
  - done.
  - apply rtc_once. exists 3, (amb0 [] (names "x") 1 1), ex_counted.1.1, ex_counted.1.2.
    exact (run_eta ex_counted).
  - exists l. split; [exact Ht|].
    assert (E : asked (cn_log ex_sales) = [ex_sale; ex_failure; ex_sale])
      by (vm_compute; reflexivity).
    rewrite Hl; [rewrite E; vm_compute; reflexivity|vm_compute; reflexivity..|]. rewrite E. clear.
    intros c c'. rewrite !elem_of_cons, !elem_of_nil. intros Hc Hc'.
    destruct Hc as [->|[->|[->|[]]]], Hc' as [->|[->|[->|[]]]]; vm_compute; done.
Defined.

Lemma reads_report_the_tally_witness :
  exists l, tally (U := ref_uuid) {| tb_processed := ∅; tb_stats := ∅ |} l /\
    (GetEventStats "ue" (amb0 [] (names "x") 1 1) {| tb_processed := ∅; tb_stats := ∅ |}).1.1
      = Err (EStatus NotFound "no statistics for this event yet" []).
Proof.
  exists []. split; [apply tally_empty|].
  destruct (reads_report_the_tally (U := ref_uuid) {| tb_processed := ∅; tb_stats := ∅ |} []
    (amb0 [] (names "x") 1 1) ("e" : @UUID ref_uuid) 5) as [H1 _].
  - intros x y z. cbn. lia.
  - intros x y. cbn. lia.
  - apply tally_empty.
  - done.
  - change (uuid_string ("e" : @UUID ref_uuid)) with "ue" in H1. rewrite H1. reflexivity.
Defined.
End Examples.
