(* ===== verification/Notification.v ===== *)
(** * notification-svc ([services/notification/internal])

    Order events become emails; Redis remembers which events already did. *)

From Stdlib Require Import String.
From stdpp Require Import base gmap list strings numbers.
From S2P Require Import Prelude Platform GoStrings Events Redis Kafka Consumer.

(** ** Email ([email/email.go]) *)

Record Email := {
  em_To : string;
  em_Subject : string;
  em_Body : string;
}.

#[global] Instance Email_eq_dec : EqDecision Email.
Proof. solve_decision. Defined.

(** [email.Sender]: what was delivered so far, and a delivery. *)
Class Sender `{U : UuidLib} (M : Type) := {
  delivered : M -> list Email;
  send : Email -> prog M unit;
}.

(** A delivery that returned nil delivered the mail once; a failed one may have. *)
Class SenderLaws `{U : UuidLib} (M : Type) `{!Sender M} : Prop := {
  send_delivers : forall e a m, wp (send e) (fun r a' m' => amb_now a' = amb_now a /\
    (delivered m' = delivered m ++ [e] \/ (r <> Ok tt /\ delivered m' = delivered m))) a m;
}.

(** [LogSender]: the delivered mail is the log. *)
#[global] Instance LogSender `{U : UuidLib} : Sender (list Email) := {|
  delivered := id;
  send e := modify (fun log => log ++ [e]);
|}.

#[global] Instance LogSender_laws `{U : UuidLib} : SenderLaws (list Email).
Proof. split. intros e a m. cbn. wp_steps. split; [done|]. by left. Qed.

(** ** The texts ([handler.go]) *)

(** [%02d] *)
Definition pad2 (z : Z) : string :=
  let s := itoa z in if bool_decide (String.length s < 2) then "0" +:+ s else s.

(** Go's division truncates towards zero. *)
Definition money (cents : Z) : string := itoa (Z.quot cents 100) +:+ "." +:+ pad2 (Z.rem cents 100).

Definition reasonText (r : OrderFailureReason) : string :=
  match r with
  | ORDER_FAILURE_REASON_SEATS_UNAVAILABLE => "the seats are no longer available"
  | ORDER_FAILURE_REASON_PAYMENT_DECLINED => "your payment was declined"
  | ORDER_FAILURE_REASON_SERVICE_UNAVAILABLE => "one of our services was temporarily unavailable"
  | _ => "of an unexpected problem"
  end.

Definition chargeNote (r : OrderFailureReason) : string :=
  match r with
  | ORDER_FAILURE_REASON_SEATS_UNAVAILABLE
  | ORDER_FAILURE_REASON_PAYMENT_DECLINED => "You have not been charged."
  | _ => "Please try again. If you see a charge for this order, contact support and we will refund it."
  end.

Definition compose (ev : OrderEvent) : option Email :=
  match oe_Type ev with
  | ORDER_EVENT_TYPE_CONFIRMED => Some
      {| em_To := oe_UserId ev; em_Subject := "Your tickets are confirmed";
         em_Body := "Order " +:+ oe_OrderId ev +:+ " is confirmed: "
                    +:+ itoa (Z.of_nat (length (oe_SeatIds ev))) +:+ " seat(s), "
                    +:+ money (oe_AmountCents ev) +:+ " charged." |}
  | ORDER_EVENT_TYPE_FAILED => Some
      {| em_To := oe_UserId ev; em_Subject := "We couldn't complete your order";
         em_Body := "Order " +:+ oe_OrderId ev +:+ " was not completed because "
                    +:+ reasonText (oe_FailureReason ev) +:+ ". " +:+ chargeNote (oe_FailureReason ev) |}
  | _ => None
  end.

(** ** Handler and duplicates ([handler.go], [dedup/dedup.go]) *)

(** 24 hours, in milliseconds. *)
Definition dedup_ttl : Z := 24 * 60 * 60 * 1000.

Definition key (messageID : string) : string := "notification:sent:" +:+ messageID.

Section Handler.
Context `{U : UuidLib} {J : ProtoJson} {R M : Type} `{!RedisLib R} `{!Sender M}.

Record nt_state := {
  nt_redis : R;
  nt_mail : M;
}.

Definition in_mail {A} (m : prog M A) : prog nt_state A := fun a s =>
  match m a (nt_mail s) with
  | (r, a', x) => (r, a', {| nt_redis := nt_redis s; nt_mail := x |})
  end.

(** Redis' clock, in milliseconds. *)
Definition now_ms (a : ambient) : Z := (amb_now a / 10 ^ 6)%Z.

Definition Seen (messageID : string) : prog nt_state bool :=
  f ← next_fate;
  if negb (fate_ok f) then throw (EWrap "redis exists" EConn) else
  now ← time_now;
  s ← get_state;
  mret (redis_exists (now / 10 ^ 6)%Z (key messageID) (nt_redis s)).

Definition Mark (messageID : string) : prog nt_state unit :=
  f ← next_fate;
  now ← time_now;
  let set := modify (fun s =>
    {| nt_redis := redis_set (now / 10 ^ 6)%Z (key messageID) "1" dedup_ttl (nt_redis s);
       nt_mail := nt_mail s |}) in
  match f with
  | Done => set
  | Lost _ => throw (EWrap "redis set" EConn)
  | ReplyLost _ => _ ← set; throw (EWrap "redis set" EConn)
  end.

Definition HandleMail (msg : Message) : prog nt_state unit :=
  match DecodeOrderEvent (msg_Value msg) with
  | Err e => throw (Permanent e)
  | Ok ev =>
      if bool_decide (oe_MessageId ev = "")
      then throw (Permanent (EText "event has no message_id, so it cannot be deduplicated"))
      else match compose ev with
      | None => mret tt
      | Some mail =>
          seen ← attempt (Seen (oe_MessageId ev));
          match seen with
          | Err e => throw (EWrap "check duplicate" e)
          | Ok true => mret tt
          | Ok false =>
              sent ← attempt (in_mail (send mail));
              match sent with
              | Err e => throw (EWrap "send email" e)
              | Ok _ => _ ← attempt (Mark (oe_MessageId ev)); mret tt
              end
          end
      end
  end.
End Handler.

Arguments nt_state : clear implicits.
Arguments nt_redis {R M}.
Arguments nt_mail {R M}.
Arguments Build_nt_state {R M}.

(** ** Lemmas *)

Lemma key_inj x y : key x = key y -> x = y.
Proof. unfold key. apply append_inj_l. Qed.

Section Lemmas.
Context `{U : UuidLib} {J : ProtoJson} {R M : Type} `{!RedisLib R} `{!Sender M}.
Context `{!RedisLaws R} `{!SenderLaws M}.

Implicit Types (s : nt_state R M) (a : ambient).

Lemma wp_in_mail {A} (m : prog M A) Q a s :
  wp m (fun r a' x => Q r a' {| nt_redis := nt_redis s; nt_mail := x |}) a (nt_mail s) ->
  wp (in_mail m) Q a s.
Proof. unfold wp, in_mail. by destruct (m a (nt_mail s)) as [[??]?]. Qed.

(** The email a record asks for, with the id of its event. *)
Definition asks (msg : Message) : option (string * Email) :=
  match DecodeOrderEvent (msg_Value msg) with
  | Err _ => None
  | Ok ev => if bool_decide (oe_MessageId ev = "") then None
             else (fun mail => (oe_MessageId ev, mail)) <$> compose ev
  end.

(** A record that is an order event the customer need not hear of. *)
Definition quiet (msg : Message) : Prop :=
  exists ev, DecodeOrderEvent (msg_Value msg) = Ok ev /\ compose ev = None.

(** What one call did to Redis and to the mailbox, and what a success means. *)
Lemma HandleMail_spec msg a s :
  wp (HandleMail msg) (fun r _ s' =>
    (s' = s /\ (r = Ok tt -> quiet msg \/ exists id mail, asks msg = Some (id, mail) /\
                  redis_exists (now_ms a) (key id) (nt_redis s) = true)) \/
    exists id mail, asks msg = Some (id, mail) /\
      redis_exists (now_ms a) (key id) (nt_redis s) = false /\
      (nt_redis s' = nt_redis s \/
       nt_redis s' = redis_set (now_ms a) (key id) "1" dedup_ttl (nt_redis s) /\
       delivered (nt_mail s') = delivered (nt_mail s) ++ [mail]) /\
      (delivered (nt_mail s') = delivered (nt_mail s) ++ [mail] \/
       r <> Ok tt /\ delivered (nt_mail s') = delivered (nt_mail s))) a s.
Proof.
  unfold HandleMail. destruct (DecodeOrderEvent (msg_Value msg)) as [ev|e] eqn:Ed; [|by wp_steps; left].
  wp_step; [by wp_steps; left|].
  destruct (compose ev) as [mail|] eqn:Ec; [|wp_steps; left; split; [done|]; left; by exists ev].
  assert (Hasks : asks msg = Some (oe_MessageId ev, mail)) by (unfold asks; by rewrite Ed, Heqb, Ec).
  unfold Seen. wp_steps; try by left.
  - left. split; [done|]. intros _. right. exists (oe_MessageId ev), mail. split; [done|].
    unfold now_ms. by rewrite drop_fate_now in *.
  - apply wp_in_mail. eapply wp_mono; [apply send_delivers|]. cbn.
    rewrite !drop_fate_now in *. intros [[]|e] a1 m1 [Hnow Hm]; unfold Mark; wp_steps; cbn; unfold now_ms;
      rewrite ?drop_fate_now, ?Hnow; right; exists (oe_MessageId ev), mail;
      (split; [done|]; split; [done|]); destruct Hm as [Hm|[Hr Hm]]; try done;
      (split; [by auto|]); (by left) || (by right).
Qed.
End Lemmas.
