(* ===== verification/NotificationProps.v ===== *)
(** * notification-svc: the properties *)

From stdpp Require Import base gmap list strings numbers relations.
From S2P Require Import Prelude Platform GoStrings Events Redis Kafka Instances Consumer ConsumerProps.
From S2P Require Import Notification AnalyticsProps.

(** ** What the handler's calls say about the mailbox *)

Section Mailbox.
Context `{U : UuidLib} {J : ProtoJson} {R M : Type} `{!RedisLib R} `{!Sender M}.
Context `{!RedisLaws R} `{!SenderLaws M}.

Implicit Types (s : nt_state R M) (a : ambient).

(** An email about event [id], asked for by a record of [log], was delivered. *)
Definition told (log : list KMessage) (id : string) s : Prop :=
  exists km mail, km ∈ log /\ asks (fromKafka km) = Some (id, mail) /\ mail ∈ delivered (nt_mail s).

(** Redis remembers only events that were told; every successful call left its event
    told or quiet; every delivered email (after those of [old]) was asked for. *)
Record mailed (log : list KMessage) (old : list Email) (calls : list (KMessage * bool)) s : Prop := {
  md_remembered : forall id, redis_view (nt_redis s) (key id) <> None -> told log id s;
  md_handled : forall km, (km, true) ∈ calls -> quiet (fromKafka km) \/
    exists id mail, asks (fromKafka km) = Some (id, mail) /\ told log id s;
  md_asked : exists l, delivered (nt_mail s) = old ++ l /\
    forall mail, mail ∈ l -> exists km id, km ∈ log /\ asks (fromKafka km) = Some (id, mail);
}.

Lemma told_grows log id s s' l :
  delivered (nt_mail s') = delivered (nt_mail s) ++ l -> told log id s -> told log id s'.
Proof.
  intros E (km & mail & Hin & Ha & Hm). exists km, mail. split_and!; [done..|].
  rewrite E. apply elem_of_app. by left.
Qed.

Lemma HandleMail_mailed log old km calls a s :
  km ∈ log -> mailed log old calls s ->
  wp (HandleMail (fromKafka km)) (fun r _ s' => mailed log old (calls ++ [(km, is_ok r)]) s') a s.
Proof.
  intros Hin [Hrem Hhan (l & Hl & Hlog)]. eapply wp_mono; [apply HandleMail_spec|]. cbn.
  intros r a' s' [[-> Hok]|(id & mail & Ha & _ & Hred & Hmail)].
  - split; [done| |by exists l]. intros km' [Hkm|Hkm]%elem_of_app; [by auto|].
    apply list_elem_of_singleton in Hkm. injection Hkm as -> Hr.
    destruct Hok as [?|(id & mail & Ha & Hex)]; [by destruct r as [[]|]|by left|].
    right. exists id, mail. split; [done|]. apply Hrem. rewrite redis_exists_live in Hex.
    by destruct (redis_view (nt_redis s) (key id)).
  - assert (exists l', delivered (nt_mail s') = delivered (nt_mail s) ++ l' /\ (l' = [mail] \/ l' = []))
      as (l' & Hl' & Hcases).
    { destruct Hmail as [E|[_ E]]; [exists [mail]|exists []]; rewrite ?app_nil_r; auto. }
    assert (Hnow : delivered (nt_mail s') = delivered (nt_mail s) ++ [mail] -> told log id s').
    { intros E. exists km, mail. split_and!; [done..|]. rewrite E. apply elem_of_app. right.
      by apply list_elem_of_singleton. }
    split.
    + intros id' Hv. destruct Hred as [E|[E Hd]]; rewrite E in Hv.
      * eapply told_grows; eauto.
      * rewrite redis_view_set in Hv. case_bool_decide as Hk.
        -- apply key_inj in Hk as ->. by apply Hnow.
        -- eapply told_grows; eauto.
    + intros km' [Hkm|Hkm]%elem_of_app.
      * destruct (Hhan km' Hkm) as [?|(id' & mail' & ? & ?)]; [by left|right].
        exists id', mail'. split; [done|]. eapply told_grows; eauto.
      * apply list_elem_of_singleton in Hkm. injection Hkm as -> Hr. right. exists id, mail.
        split; [done|]. destruct Hmail as [E|[Hne _]]; [by apply Hnow|]. by destruct r as [[]|].
    + exists (l ++ l'). split; [by rewrite Hl', Hl, app_assoc|].
      intros mail' [Hm|Hm]%elem_of_app; [by auto|].
      destruct Hcases as [->| ->]; [|by apply not_elem_of_nil in Hm].
      apply list_elem_of_singleton in Hm as ->. by exists km, id.
Qed.

(** Redis remembers [id] until [x]: no email about it goes out before. *)
Lemma HandleMail_remembered msg a s id v x :
  redis_view (nt_redis s) (key id) = Some (v, Some x) -> (now_ms a < x)%Z ->
  wp (HandleMail msg) (fun _ _ s' => redis_view (nt_redis s') (key id) = Some (v, Some x) /\
    (delivered (nt_mail s') = delivered (nt_mail s) \/ exists id' mail, id' <> id /\
       asks msg = Some (id', mail) /\ delivered (nt_mail s') = delivered (nt_mail s) ++ [mail])) a s.
Proof.
  intros Hv Hlt. eapply wp_mono; [apply HandleMail_spec|]. cbn.
  intros r a' s' [[-> _]|(id' & mail & Ha & Hex & Hred & Hmail)]; [by split; [|left]|].
  assert (Hne : id' <> id).
  { intros ->. rewrite redis_exists_live, Hv in Hex. cbn in Hex. reflect_bools. lia. }
  split.
  - destruct Hred as [->|[-> _]]; [done|]. rewrite redis_view_set.
    rewrite bool_decide_eq_false_2; [done|]. intros E. by apply key_inj in E.
  - destruct Hmail as [E|[_ E]]; [right; by exists id', mail|by left].
Qed.
End Mailbox.

(** ** Properties *)

Section Properties.
Context `{U : UuidLib} {J : ProtoJson} {R : Type} `{!RedisLib R} `{!RedisLaws R}.

(** Handle one message after another, each with its own clock and fates. *)
Definition handle_each {M} `{!Sender M} (l : list (ambient * Message)) (s : nt_state R M) : nt_state R M :=
  foldl (fun s x => (HandleMail x.2 x.1 s).2) s l.

(** The emails the messages ask for, those about event [id] left out. *)
Definition other_mail (id : string) (l : list (ambient * Message)) : list Email :=
  omap (fun x : ambient * Message =>
    match asks x.2 with
    | Some (id', mail) => if bool_decide (id' = id) then None else Some mail
    | None => None
    end) l.

Lemma handle_each_remembered {M} `{!Sender M} `{!SenderLaws M} id v x later (s : nt_state R M) :
  redis_view (nt_redis s) (key id) = Some (v, Some x) ->
  (forall y, y ∈ later -> (now_ms y.1 < x)%Z) ->
  exists l, delivered (nt_mail (handle_each later s)) = delivered (nt_mail s) ++ l /\
    sublist l (other_mail id later).
Proof.
  revert s. induction later as [|[a m] later IH]; intros s Hv Hlt.
  { exists []. rewrite app_nil_r. done. }
  cbn [handle_each foldl].
  pose proof (HandleMail_remembered m a s id v x Hv (Hlt (a, m) ltac:(by left))) as Hw. unfold wp in Hw. cbn.
  destruct (HandleMail m a s) as [[r a'] s1]. destruct Hw as [Hv1 Hd].
  destruct (IH s1 Hv1 ltac:(intros y Hy; apply Hlt; by right)) as (l & Hl & Hsub).
  unfold handle_each in Hl. cbn. rewrite Hl. destruct Hd as [->|(id' & mail & Hne & Ha & ->)].
  - exists l. split; [done|]. destruct (asks m) as [[id' mail]|]; [|done].
    case_bool_decide; [done|]. by apply sublist_cons.
  - exists (mail :: l). split; [by rewrite <- app_assoc|]. rewrite Ha, bool_decide_eq_false_2 by done.
    by apply sublist_skip.
Qed.

Lemma HandleMail_run msg id mail a (s : nt_state R (list Email)) :
  asks msg = Some (id, mail) -> no_faults a -> redis_exists (now_ms a) (key id) (nt_redis s) = false ->
  HandleMail msg a s = (Ok tt, a, {|
    nt_redis := redis_set (now_ms a) (key id) "1" dedup_ttl (nt_redis s); nt_mail := nt_mail s ++ [mail] |}).
Proof.
  intros Ha Hnf Hex. unfold asks in Ha. unfold HandleMail. destruct (DecodeOrderEvent (msg_Value msg)) as [ev|]; [|done].
  case_bool_decide; [done|]. destruct (compose ev) as [m|]; [|done]. injection Ha as <- <-.
  unfold mbind, prog_bind, attempt, Seen, mbind, prog_bind, next_fate, pop_fate, time_now, get_state.
  unfold no_faults in Hnf. cbn. rewrite Hnf. cbn. unfold now_ms in Hex. rewrite Hex. unfold in_mail. cbn.
  unfold Mark, mbind, prog_bind, next_fate, pop_fate, time_now. cbn. rewrite Hnf. done.
Qed.

(** C24: an event that is recorded as told is not told again.  Handling a record whose event is
    not recorded yet sends its email once, or fails and sends none.  Once the event is recorded
    after that, as it is when nothing fails, no message handled during the next 24 hours,
    redelivered or not and with any failures, sends an email about it.  (When the record could
    not be written a redelivery repeats the email, as the comment in the code says.)  Messages
    are handled one after another here. *)
Theorem one_email_per_event msg id mail a (s : nt_state R (list Email)) r a1 s1 later :
  asks msg = Some (id, mail) -> redis_exists (now_ms a) (key id) (nt_redis s) = false ->
  HandleMail msg a s = (r, a1, s1) ->
  (forall x, x ∈ later -> (now_ms x.1 < now_ms a + 24 * 3600 * 1000)%Z) ->
  (nt_mail s1 = nt_mail s ++ [mail] \/ r <> Ok tt /\ nt_mail s1 = nt_mail s) /\
  (no_faults a -> r = Ok tt /\ redis_exists (now_ms a) (key id) (nt_redis s1) = true) /\
  (redis_exists (now_ms a) (key id) (nt_redis s1) = true -> nt_mail s1 = nt_mail s ++ [mail] /\
     exists l, nt_mail (handle_each later s1) = nt_mail s1 ++ l /\ sublist l (other_mail id later)).
Proof.
  intros Ha Hex Hrun Hlater.
  assert (Hset : forall rd, redis_view (redis_set (now_ms a) (key id) "1" dedup_ttl rd) (key id) =
    Some ("1", Some (now_ms a + dedup_ttl)%Z)) by (intros rd; by rewrite redis_view_set, bool_decide_eq_true_2).
  split_and!.
  - destruct (wp_run _ _ _ _ _ _ _ Hrun (HandleMail_spec msg a s)) as [[-> Hok]|(id' & mail' & Ha' & _ & _ & Hm)].
    + right. split; [|done]. intros E. destruct (Hok E) as [(ev & Hd & Hc)|(id' & mail' & Ha' & Hex')].
      * unfold asks in Ha. rewrite Hd, Hc in Ha. by destruct (bool_decide _).
      * congruence.
    + assert (mail' = mail) as -> by congruence. exact Hm.
  - intros Hnf. rewrite (HandleMail_run msg id mail) in Hrun by done. injection Hrun as <- _ <-. split; [done|].
    rewrite redis_exists_live. cbn. rewrite Hset. apply Z.ltb_lt. unfold dedup_ttl. lia.
  - intros Hrec.
    destruct (wp_run _ _ _ _ _ _ _ Hrun (HandleMail_spec msg a s)) as [[-> _]|(id' & mail' & Ha' & _ & Hr & _)];
      [congruence|].
    assert (mail' = mail /\ id' = id) as [-> ->] by (split; congruence).
    destruct Hr as [E|[E Hm]]; [rewrite E in Hrec; congruence|]. split; [exact Hm|].
    refine (handle_each_remembered (M := list Email) id "1" (now_ms a + dedup_ttl)%Z later _ _ _).
    + by rewrite E.
    + intros y Hy. specialize (Hlater y Hy). unfold dedup_ttl. lia.
Qed.

(** C23: nobody is forgotten.  Over any number of lives of the consumer, whatever fails,
    every email that goes out was asked for by a record of the partition, and for every
    record below the committed offset an email about its event was delivered, or there
    is nothing to tell, or the record is parked on the dead-letter topic. *)
Theorem every_outcome_is_announced {M} `{!Sender M} `{!SenderLaws M} cfg schedule
    (s s' : con_state (nt_state R M)) :
  (forall l, schedule l ≡ₚ l) -> cn_calls s = [] -> cn_committed s = 0 ->
  (forall id, redis_view (nt_redis (cn_app s)) (key id) = None) ->
  rtc (life cfg HandleMail schedule) s s' ->
  (exists l, delivered (nt_mail (cn_app s')) = delivered (nt_mail (cn_app s)) ++ l /\
     forall mail, mail ∈ l -> exists km id, km ∈ cn_log s /\ asks (fromKafka km) = Some (id, mail)) /\
  forall i km, i < cn_committed s' -> cn_log s !! i = Some km ->
    quiet (fromKafka km) \/
    (exists id mail, asks (fromKafka km) = Some (id, mail) /\ told (cn_log s) id (cn_app s')) \/
    exists n e, dead_copy (fromKafka km) n e ∈ cn_dlq s'.
Proof.
  intros Hsch Hcalls Hcom Hredis Hrtc. set (log := cn_log s). set (old := delivered (nt_mail (cn_app s))).
  assert (Hinv : keeps log (mailed log old) s' /\ no_gap s').
  { assert (Hs : keeps log (mailed log old) s /\ no_gap s).
    { split; [split; [done|]|split; [lia|rewrite Hcom; lia]]. rewrite Hcalls. split.
      - intros id Hv. by rewrite Hredis in Hv.
      - intros km []%not_elem_of_nil.
      - exists []. rewrite app_nil_r. split; [done|]. by intros mail ?%not_elem_of_nil. }
    clear Hcalls Hcom Hredis. revert Hs. generalize log, old. clear log old. intros log old.
    induction Hrtc as [|s s1 s2 (fuel & a & r & a' & Hrun) _ IH]; [done|]. intros [Hk [Hle Hng]].
    apply IH. split.
    - refine (wp_run _ _ _ _ _ _ _ Hrun
        (RunConsumer_keeps cfg HandleMail schedule log _ Hsch _ fuel a (restart s) Hk)).
      intros. by apply HandleMail_mailed.
    - refine (wp_run _ _ _ _ _ _ _ Hrun (RunConsumer_no_gap cfg HandleMail schedule fuel a (restart s) Hsch _ _));
        [by split|done]. }
  destruct Hinv as [[Hlog [_ Hhan Hasked]] [_ Hng]]. rewrite Hlog in Hng. split; [done|].
  intros i km Hi Hkm. destruct (Hng i km Hi Hkm) as [Hc|Hd]; [|by right; right].
  destruct (Hhan km Hc) as [?|?]; auto.
Qed.
End Properties.

(** ** Witnesses *)

Section Examples.
Abbreviation ex_nt := (nt_state store (list Email)).

(** The sale of [ex_sales] and its email. *)
Definition ex_sale_record : KMessage := ex_order_event "um1" ORDER_EVENT_TYPE_CONFIRMED ["us1"; "us2"] 505.

Definition ex_mail : Email :=
  {| em_To := "uu"; em_Subject := "Your tickets are confirmed";
     em_Body := "Order uo is confirmed: 2 seat(s), 5.05 charged." |}.

Abbreviation ex_once_told := (HandleMail (fromKafka ex_sale_record) (amb0 [] (names "x") 1 1)
  (Build_nt_state (∅ : gmap string entry) [] : ex_nt)).

Lemma one_email_per_event_witness :
  nt_mail ex_once_told.2 = [ex_mail] /\
  nt_mail (handle_each [(amb0 [] (names "y") (10 ^ 13) 2, fromKafka ex_sale_record);
                        (amb0 [Lost TUnavailable] (names "y") (10 ^ 13) 2, fromKafka ex_sale_record)] ex_once_told.2)
  = [ex_mail].
Proof.
  destruct (one_email_per_event (U := ref_uuid) (R := store) (fromKafka ex_sale_record) "um1" ex_mail
    (amb0 [] (names "x") 1 1) (Build_nt_state (∅ : gmap string entry) []) ex_once_told.1.1 ex_once_told.1.2 ex_once_told.2
    [(amb0 [] (names "y") (10 ^ 13) 2, fromKafka ex_sale_record);
     (amb0 [Lost TUnavailable] (names "y") (10 ^ 13) 2, fromKafka ex_sale_record)])
    as (_ & Hdone & Hrec).
  - vm_compute. reflexivity.
  - vm_compute. reflexivity.
  - exact (run_eta ex_once_told).
  - intros x [->|[->|[]%elem_of_nil]%elem_of_cons]%elem_of_cons; vm_compute; reflexivity.
  - destruct (Hdone eq_refl) as [_ Hseen]. destruct (Hrec Hseen) as (Hm & l & Hl & Hsub). cbn in Hm.
    split; [exact Hm|]. rewrite Hl, Hm. assert (l = []) as -> by (apply sublist_nil_r; exact Hsub). reflexivity.
Defined.

Definition ex_inbox : con_state ex_nt :=
  Build_con_state (Build_nt_state (∅ : gmap string entry) []) (cn_log ex_sales) 0 0 [] false false [] [].

Abbreviation ex_told :=
  (RunConsumer ex_cfg (HandleMail (U := ref_uuid) (R := store)) id 3 (amb0 [] (names "x") 1 1) (restart ex_inbox)).

Lemma every_outcome_is_announced_witness :
  length (nt_mail (cn_app ex_told.2)) = 2 /\
  exists l, delivered (nt_mail (cn_app ex_told.2)) = [] ++ l /\
    forall mail, mail ∈ l -> exists km id, km ∈ cn_log ex_inbox /\ asks (fromKafka km) = Some (id, mail).
Proof.
  split; [vm_compute; reflexivity|].
  refine (proj1 (every_outcome_is_announced (U := ref_uuid) (R := store) ex_cfg id ex_inbox ex_told.2
    _ eq_refl eq_refl _ _)).
  - done.
  - done.
  - apply rtc_once. exists 3, (amb0 [] (names "x") 1 1), ex_told.1.1, ex_told.1.2.
    exact (run_eta ex_told).
Defined.
End Examples.
