(* ===== verification/EndToEnd.v ===== *)
(** * Across the services

    order-svc's database, its outbox and Kafka, analytics-svc and notification-svc
    together: what the statistics and the emails say about the orders. *)

From stdpp Require Import base gmap list strings numbers relations sorting.
From S2P Require Import Prelude Platform GoStrings Events Redis Kafka Instances Inventory Payment.
From S2P Require Import Order OrderSpec OrderProps Outbox Consumer ConsumerProps Analytics AnalyticsProps Notification.

(** ** Sums of statistics *)

Section Sums.
Context {X : Type}.
Implicit Types (f g : X -> delta) (l : list X).

Definition dsum f l : delta := foldr (fun x acc => add_delta acc (f x)) no_delta l.

Lemma dsum_cons f x l : dsum f (x :: l) = add_delta (dsum f l) (f x).
Proof. done. Qed.

Lemma add_delta_comm x y : add_delta x y = add_delta y x.
Proof. destruct x, y. unfold add_delta. cbn. f_equal; lia. Qed.
Lemma add_delta_assoc x y z : add_delta x (add_delta y z) = add_delta (add_delta x y) z.
Proof. destruct x, y, z. unfold add_delta. cbn. f_equal; lia. Qed.
Lemma add_delta_zero x : add_delta x no_delta = x.
Proof. destruct x. unfold add_delta. cbn. f_equal; lia. Qed.

#[global] Instance dsum_perm f : Proper ((≡ₚ) ==> (=)) (dsum f).
Proof.
  induction 1 as [|x l l' _ IH|x y l|]; [done|rewrite !dsum_cons; by f_equal| |congruence].
  rewrite !dsum_cons, <- !add_delta_assoc. f_equal. apply add_delta_comm.
Qed.

Lemma dsum_ext f g l : (forall x, x ∈ l -> f x = g x) -> dsum f l = dsum g l.
Proof.
  induction l as [|x l IH]; intros E; [done|]. rewrite !dsum_cons, IH, (E x); [done|by left|].
  intros y Hy. apply E. by right.
Qed.

Lemma dsum_zero l : dsum (fun _ => no_delta) l = no_delta.
Proof. induction l as [|x l IH]; [done|]. by rewrite dsum_cons, IH. Qed.

(** Adding to one element adds to the sum. *)
Lemma dsum_bump {K} `{!EqDecision K} (key : X -> K) f v k l :
  NoDup (map key l) -> k ∈ map key l ->
  dsum (fun x => if bool_decide (key x = k) then add_delta (f x) v else f x) l = add_delta (dsum f l) v.
Proof.
  induction l as [|x l IH]; intros Hnd Hin; [by apply not_elem_of_nil in Hin|].
  cbn in Hnd. apply NoDup_cons in Hnd as [Hni Hnd]. rewrite !dsum_cons. case_bool_decide as Hk.
  - rewrite (dsum_ext _ f), add_delta_assoc; [done|]. intros y Hy. rewrite bool_decide_eq_false_2; [done|].
    intros Hy'. apply Hni. rewrite Hk, <- Hy'. apply list_elem_of_fmap. eauto.
  - apply elem_of_cons in Hin as [?|Hin]; [congruence|]. rewrite IH by done.
    rewrite <- !add_delta_assoc. f_equal. apply add_delta_comm.
Qed.
End Sums.

(** A sum over rows, grouped by the table row their key refers to. *)
Lemma dsum_group {K V X} `{Countable K} (key : X -> K) (f : X -> delta) (m : gmap K V) (rows : list X) :
  (forall x, x ∈ rows -> is_Some (m !! key x)) ->
  dsum f rows = dsum (fun kv => dsum f (filter (fun x => key x = kv.1) rows)) (map_to_list m).
Proof.
  induction rows as [|x rows IH]; intros Hk.
  { symmetry. rewrite (dsum_ext _ (fun _ => no_delta)); [apply dsum_zero|done]. }
  rewrite dsum_cons, IH by (intros y Hy; apply Hk; by right).
  rewrite <- (dsum_bump fst _ _ (key x)).
  - apply dsum_ext. intros [k v] _. rewrite filter_cons. cbn.
    case_bool_decide as E; case_decide as E'; try done; congruence.
  - apply NoDup_fst_map_to_list.
  - destruct (Hk x ltac:(by left)) as [v Hv]. apply list_elem_of_fmap. exists (key x, v).
    split; [done|]. by apply elem_of_map_to_list.
Qed.

Lemma NoDup_omap {X Y Z} (f : X -> option Y) (g : Y -> Z) (h : X -> Z) (l : list X) :
  NoDup (map h l) -> (forall x y, x ∈ l -> f x = Some y -> g y = h x) -> NoDup (map g (omap f l)).
Proof.
  induction l as [|x l IH]; intros Hnd Hgh; [constructor|].
  cbn in Hnd. apply NoDup_cons in Hnd as [Hni Hnd]. cbn.
  assert (IH' : NoDup (map g (omap f l))) by (apply IH; [done|]; intros; apply Hgh; [by right|done]).
  destruct (f x) as [y|] eqn:E; [|done]. cbn. apply NoDup_cons. split; [|done].
  rewrite (Hgh x y ltac:(by left) E). intros (y' & Hy & Hin)%list_elem_of_fmap.
  apply list_elem_of_omap in Hin as (x' & Hx' & E'). apply Hni. rewrite Hy, (Hgh x' y'); [|by right|done].
  apply list_elem_of_fmap. eauto.
Qed.

(** ** Statistics of the orders *)

Section Statistics.
Context `{U : UuidLib} {J : ProtoJson} `{!UuidLaws U}.
Implicit Types (d : ord_db) (row : outbox_row).

(** What an order adds to the statistics of event [ev] once it has ended. *)
Definition order_delta (ev : UUID) (r : order_row) : delta :=
  if bool_decide (od_event_id r <> ev) then no_delta
  else if bool_decide (od_status r = "CONFIRMED") then
    {| ticketsSold := to_int64 (Z.of_nat (length (od_seat_ids r))); revenueCents := od_amount_cents r;
       confirmed := 1; failed := 0 |}
  else if bool_decide (od_status r = "FAILED") then
    {| ticketsSold := 0; revenueCents := 0; confirmed := 0; failed := 1 |}
  else no_delta.

Definition orders_total d (ev : UUID) : delta :=
  dsum (fun kr => order_delta ev kr.2) (map_to_list (tb_orders d)).

(** The partition carries the outbox: every row at least once, and nothing else. *)
Definition relayed d (log : list KMessage) : Prop :=
  (forall row, row ∈ tb_order_outbox d -> exists km, km ∈ log /\ km_Value km = ob_payload row) /\
  (forall km, km ∈ log -> exists row, row ∈ tb_order_outbox d /\ km_Value km = ob_payload row).

(** The change an outbox row asks for. *)
Definition row_change row : option change :=
  match parse (to_message row) with Ok (Some c) => Some c | _ => None end.

Lemma parse_value m m' : msg_Value m = msg_Value m' -> parse m = parse m'.
Proof. unfold parse. by intros ->. Qed.

Definition row_delta (ev : UUID) row : delta :=
  match row_change row with
  | Some c => if bool_decide (c_eventID c = ev) then c_delta c else no_delta
  | None => no_delta
  end.

Lemma sum_row_changes ev rows :
  sum_deltas (of_event ev (omap row_change rows)) = dsum (row_delta ev) rows.
Proof.
  induction rows as [|row rows IH]; [done|]. rewrite dsum_cons. unfold row_delta at 2.
  change (omap row_change (row :: rows)) with
    (match row_change row with Some c => c :: omap row_change rows | None => omap row_change rows end).
  destruct (row_change row) as [c|]; [|by rewrite add_delta_zero].
  unfold of_event in *. rewrite filter_cons. case_decide as E; case_bool_decide; try done.
  - change (sum_deltas (c :: ?l)) with (add_delta (sum_deltas l) (c_delta c)). by rewrite IH.
  - by rewrite add_delta_zero.
Qed.

Lemma sum_deltas_perm l l' : l ≡ₚ l' -> sum_deltas l = sum_deltas l'.
Proof. apply (dsum_perm c_delta). Qed.

(** A row that [says] something asks for a change with its own id. *)
Lemma row_change_id id r typ reason row c :
  says id r typ reason row -> row_change row = Some c -> c_messageID c = ob_id row.
Proof.
  intros (_ & _ & e & Hd & Hm & _) Hc. unfold row_change, parse in Hc. cbn in Hc. rewrite Hd, Hm in Hc.
  rewrite uuid_parse_string in Hc. destruct (oe_Type e); repeat case_match; simplify_eq/=; done.
Qed.

(** ... and, if it can be parsed, for this change. *)
Lemma row_delta_says ev id r typ reason row :
  says id r typ reason row -> is_ok (parse (to_message row)) = true ->
  row_delta ev row =
    if bool_decide (od_event_id r <> ev) then no_delta else
    match typ with
    | ORDER_EVENT_TYPE_CONFIRMED =>
        {| ticketsSold := to_int64 (Z.of_nat (length (od_seat_ids r))); revenueCents := od_amount_cents r;
           confirmed := 1; failed := 0 |}
    | ORDER_EVENT_TYPE_FAILED => {| ticketsSold := 0; revenueCents := 0; confirmed := 0; failed := 1 |}
    | _ => no_delta
    end.
Proof.
  intros (_ & _ & e & Hd & Hm & Ht & _ & _ & _ & Hev & Hseats & Hamount).
  unfold row_delta, row_change, parse. cbn. rewrite Hd, Hm, Ht, uuid_parse_string.
  assert (Hlen : length (oe_SeatIds e) = length (od_seat_ids r)).
  { apply mapM_Some_1 in Hseats. by eapply Forall2_length. }
  destruct typ; try by (intros _; case_bool_decide).
  all: destruct (uuid_parse (oe_EventId e)) as [u|] eqn:Hu; [|done];
    rewrite (pg_uuid_parse _ _ _ Hu Hev), ?Hlen, ?Hamount; intros _; cbn;
    repeat case_bool_decide; done.
Qed.

Lemma story_delta ev id r rows :
  story id r rows -> (forall row, row ∈ rows -> is_ok (parse (to_message row)) = true) ->
  dsum (row_delta ev) rows = order_delta ev r.
Proof.
  intros Hs Hok. unfold order_delta.
  destruct Hs as [c Est _ Hc|c f Est _ Hc Hf|c f reason Est _ Hc Hf]; rewrite Est; rewrite ?dsum_cons; change (dsum (row_delta ev) []) with no_delta.
  - rewrite (row_delta_says ev _ _ _ _ _ Hc) by (apply Hok; by left). by case_bool_decide.
  - rewrite (row_delta_says ev _ _ _ _ _ Hc) by (apply Hok; by left).
    rewrite (row_delta_says ev _ _ _ _ _ Hf) by (apply Hok; right; by left).
    case_bool_decide; by rewrite ?add_no_delta, ?add_delta_zero.
  - rewrite (row_delta_says ev _ _ _ _ _ Hc) by (apply Hok; by left).
    rewrite (row_delta_says ev _ _ _ _ _ Hf) by (apply Hok; right; by left).
    case_bool_decide; by rewrite ?add_no_delta, ?add_delta_zero.
Qed.

(** Every row of a consistent database says something about its order. *)
Lemma outbox_row_says d row : wf_ord d -> row ∈ tb_order_outbox d ->
  exists id r typ reason, says id r typ reason row.
Proof.
  intros Hwf Hrow. destruct (wo_keys _ Hwf row Hrow) as [r Hr].
  assert (Hin : row ∈ rows_of (ob_key row) d) by (apply list_elem_of_filter; done).
  revert Hin. pose proof (wo_story _ Hwf _ _ Hr) as Hs. destruct Hs; intros Hin; repeat (apply elem_of_cons in Hin as [->|Hin]; [do 4 eexists; eassumption|]);
    by apply not_elem_of_nil in Hin.
Qed.

(** The distinct changes of the partition are the changes of the outbox rows. *)
Lemma relayed_changes d log : wf_ord d -> relayed d log ->
  remove_dups (asked log) ≡ₚ omap row_change (tb_order_outbox d) /\
  (forall c c', c ∈ asked log -> c' ∈ asked log -> c_messageID c = c_messageID c' -> c = c').
Proof.
  intros Hwf [Hcomplete Hsound].
  assert (Hnd : NoDup (map c_messageID (omap row_change (tb_order_outbox d)))).
  { apply (NoDup_omap _ _ ob_id); [apply Hwf|]. intros row c Hrow Hc.
    destruct (outbox_row_says d row Hwf Hrow) as (id & r & typ & reason & Hsays). by eapply row_change_id. }
  assert (Hiff : forall c, c ∈ asked log <-> c ∈ omap row_change (tb_order_outbox d)).
  { intros c. rewrite elem_of_asked, list_elem_of_omap. split.
    - intros (km & Hkm & Hp). destruct (Hsound km Hkm) as (row & Hrow & Hv). exists row. split; [done|].
      unfold row_change. by rewrite (parse_value (to_message row) (fromKafka km)), Hp by done.
    - intros (row & Hrow & Hc). destruct (Hcomplete row Hrow) as (km & Hkm & Hv). exists km. split; [done|].
      unfold row_change in Hc. rewrite (parse_value (fromKafka km) (to_message row)) by done.
      repeat case_match; simplify_eq; done. }
  split.
  - apply NoDup_Permutation; [apply NoDup_remove_dups|by apply (NoDup_fmap_1 c_messageID)|].
    intros c. by rewrite elem_of_remove_dups.
  - intros c c'. rewrite !Hiff. intros [i Hi]%list_elem_of_lookup [j Hj]%list_elem_of_lookup E.
    assert (i = j) as ->; [|congruence]. eapply NoDup_lookup; [exact Hnd| |].
    + rewrite list_lookup_fmap, Hi. done.
    + rewrite list_lookup_fmap, Hj. cbn. by rewrite E.
Qed.

(** C4: the statistics are the orders.  Take a consistent order database and a partition
    that carries its outbox (every row at least once, in any order, with any number of
    repetitions).  Once the analytics consumer has committed it all, over any number of
    lives, with whatever failures on the way, and nothing is parked, the statistics of
    every event are exactly the totals of the order table: tickets and revenue of its
    confirmed orders, and the numbers of confirmed and failed ones. *)
Theorem statistics_match_orders cfg schedule d (s s' : con_state ana_db) ev :
  wf_ord d -> relayed d (cn_log s) -> (forall l, schedule l ≡ₚ l) ->
  cn_app s = {| tb_processed := ∅; tb_stats := ∅ |} -> cn_calls s = [] -> cn_committed s = 0 ->
  rtc (life cfg Analytics.Handle schedule) s s' ->
  cn_committed s' = length (cn_log s) -> cn_dlq s' = [] ->
  default no_delta (sx_delta <$> tb_stats (cn_app s') !! ev) = orders_total d ev.
Proof.
  intros Hwf Hrel Hsch Happ Hcalls Hcom Hrtc Hall Hdlq.
  destruct (consumer_counts cfg schedule s s' Hsch Happ Hcalls Hcom Hrtc) as (l & Ht & _ & Hset & Hl).
  destruct (relayed_changes d (cn_log s) Hwf Hrel) as [Hperm Huniq].
  assert (Hlp : l ≡ₚ omap row_change (tb_order_outbox d)) by (by rewrite (Hl Hall Hdlq Huniq)).
  assert (Hok : forall row, row ∈ tb_order_outbox d -> is_ok (parse (to_message row)) = true).
  { intros row Hrow. destruct Hrel as [Hcomplete _]. destruct (Hcomplete row Hrow) as (km & [i Hi]%list_elem_of_lookup & Hv).
    rewrite (parse_value (to_message row) (fromKafka km)) by done.
    destruct (Hset i km) as [->|[(c & -> & _)|(n & e & Hd)]]; [|done..|].
    - rewrite Hall. by apply lookup_lt_Some in Hi.
    - rewrite Hdlq in Hd. by apply not_elem_of_nil in Hd. }
  transitivity (sum_deltas (of_event ev l)).
  { rewrite (ty_stats _ _ Ht ev). case_bool_decide as E; [by rewrite E|done]. }
  rewrite (sum_deltas_perm _ (of_event ev (omap row_change (tb_order_outbox d)))), sum_row_changes.
  2: { unfold of_event. by rewrite Hlp. }
  rewrite (dsum_group ob_key _ (tb_orders d)) by (apply Hwf).
  apply dsum_ext. intros [id r] Hr%elem_of_map_to_list. cbn.
  apply (story_delta ev id); [by apply (wo_story _ Hwf)|].
  intros row [_ Hrow]%list_elem_of_filter. by apply Hok.
Qed.
End Statistics.

(** ** Emails about the orders *)

Section Emails.
Context `{U : UuidLib} {J : ProtoJson} {W : Type} {B : Backends W}.
Context `{!UuidLaws U} `{!ProtoJsonLaws J}.

Implicit Types (s : ord_state W) (a : ambient).

(** What the status of an order says about its charge. *)
Lemma outcome_charged id r st reason l :
  saga_outcome id r (Some (st, reason)) l ->
  (st = "CONFIRMED" -> (PCharge, true) ∈ l) /\
  (reason = Some "seats_unavailable" \/ reason = Some "payment_declined" -> (PCharge, true) ∉ l).
Proof.
  intros Ho. inversion Ho; subst; destr_hyps;
    repeat match goal with H : _ \/ _ |- _ => destruct H end; destr_hyps; simplify_eq; cbn;
    (split; [intros ?|intros [?|?]]); simplify_eq; set_solver.
Qed.

(** What the event of an order in the outbox says, by the order's status. *)
Lemma story_event id r rows row ev :
  story id r rows -> row ∈ rows -> DecodeOrderEvent (ob_payload row) = Ok ev ->
  oe_OrderId ev = uuid_string id /\ oe_AmountCents ev = od_amount_cents r /\
  (oe_Type ev = ORDER_EVENT_TYPE_CONFIRMED -> od_status r = "CONFIRMED") /\
  (oe_Type ev = ORDER_EVENT_TYPE_FAILED -> od_failure_reason r = Some (reasonLabel (oe_FailureReason ev))).
Proof.
  intros Hs Hin Hd.
  assert (Hsays : forall typ reason, says id r typ reason row ->
    oe_Type ev = typ /\ oe_FailureReason ev = reason /\ oe_OrderId ev = uuid_string id /\
    oe_AmountCents ev = od_amount_cents r).
  { intros typ reason (_ & _ & e & Hd' & _ & Ht & Hr & Ho & _ & _ & _ & Ha).
    rewrite Hd in Hd'. injection Hd' as ->. done. }
  destruct Hs; rewrite ?elem_of_cons, elem_of_nil in Hin; repeat destruct Hin as [->|Hin]; try done;
    naive_solver congruence.
Qed.

(** C9: the emails tell the truth about the money.  However a [CreateOrder] ends, take
    any event about its order in the outbox and the email composed from it: "confirmed,
    ... charged" is only said when the charge succeeded, with the amount of the order,
    and "You have not been charged." is only said when it did not. *)
Theorem emails_tell_the_truth req a s r a' s' row ev mail :
  let id := amb_uuid a (amb_next a) in
  wf_ord (os_db s) -> Forall (env_ok id) (os_env s) -> tb_orders (os_db s) !! id = None ->
  CreateOrder req a s = (r, a', s') ->
  row ∈ rows_of id (os_db s') -> DecodeOrderEvent (ob_payload row) = Ok ev -> compose ev = Some mail ->
  exists calls, os_calls s' = os_calls s ++ entries id calls /\
    (em_Subject mail = "Your tickets are confirmed" -> (PCharge, true) ∈ calls /\
       em_Body mail = "Order " +:+ uuid_string id +:+ " is confirmed: "
         +:+ itoa (Z.of_nat (length (oe_SeatIds ev))) +:+ " seat(s), "
         +:+ money (oe_AmountCents ev) +:+ " charged." /\
       forall o, tb_orders (os_db s') !! id = Some o -> oe_AmountCents ev = od_amount_cents o) /\
    (em_Subject mail <> "Your tickets are confirmed" ->
       chargeNote (oe_FailureReason ev) = "You have not been charged." -> (PCharge, true) ∉ calls).
Proof.
  intros id Hwf Henv Hnone Hrun Hrow Hdec Hmail.
  destruct (CreateOrder_outcome req a s r a' s' Hwf Henv Hnone Hrun) as (Hwf' & calls & Hcalls & Ho).
  fold id in Hcalls, Ho. exists calls. split; [done|].
  pose proof Hrow as [Hkey Hin]%list_elem_of_filter.
  destruct (wo_keys _ Hwf' row Hin) as [o Horder]. rewrite Hkey in Horder. rewrite Horder in Ho |- *.
  destruct (story_event id o _ row ev (wo_story _ Hwf' id o Horder) Hrow Hdec) as (Eid & Eam & Hconf & Hfail).
  destruct (outcome_charged _ _ _ _ _ Ho) as [Hpaid Hunpaid].
  unfold compose in Hmail. destruct (oe_Type ev); try done; injection Hmail as <-; cbn; split; try done.
  - intros _. split; [by apply Hpaid, Hconf|]. rewrite Eid. split; [done|]. by intros o' [= <-].
  - intros _ Hnote. apply Hunpaid. rewrite (Hfail eq_refl).
    destruct (oe_FailureReason ev); try done; cbn; auto.
Qed.
End Emails.

(** ** Witnesses *)

Section Examples.
(** The database after the purchase of [bought], and its outbox relayed twice over. *)
Abbreviation ex_db := (os_db (bought 100).2).

Abbreviation ex_relayed :=
  (map (fun row => ex_record (ob_payload row)) (tb_order_outbox ex_db ++ tb_order_outbox ex_db)).

Definition ex_stats : con_state (ana_db (U := ref_uuid)) :=
  Build_con_state {| tb_processed := ∅; tb_stats := ∅ |} ex_relayed 0 0 [] false false [] [].

Abbreviation ex_stats_run :=
  (RunConsumer ex_cfg Analytics.Handle id 4 (amb0 [] (names "x") 1 1) (restart ex_stats)).

Lemma ex_db_wf : wf_ord ex_db.
Proof.
  exact (proj1 (CreateOrder_outcome (U := ref_uuid) _ _ _ _ _ _ no_orders_wf (Forall_nil_2 _) eq_refl
    (run_eta (bought 100)))).
Qed.

Lemma statistics_match_orders_witness :
  default no_delta (sx_delta <$> tb_stats (cn_app ex_stats_run.2) !! ("e" : @UUID ref_uuid)) =
    orders_total ex_db ("e" : @UUID ref_uuid) /\
  orders_total ex_db ("e" : @UUID ref_uuid) =
    {| ticketsSold := 2; revenueCents := 100; confirmed := 1; failed := 0 |}.
Proof.
  split; [|vm_compute; reflexivity].
  apply (statistics_match_orders (U := ref_uuid) ex_cfg id ex_db ex_stats ex_stats_run.2).
  - apply ex_db_wf.
  - split.
    + intros row Hrow. exists (ex_record (ob_payload row)). split; [|done].
      apply list_elem_of_fmap. exists row. split; [done|]. apply elem_of_app. by left.
    + intros km Hkm. cbn [cn_log ex_stats] in Hkm. apply list_elem_of_fmap in Hkm as (row & -> & Hrow).
      exists row. split; [|done]. by apply elem_of_app in Hrow as [?|?].
  - done.
  - done.
  - done.
  - done.
  - apply rtc_once. exists 4, (amb0 [] (names "x") 1 1), ex_stats_run.1.1, ex_stats_run.1.2.
    exact (run_eta ex_stats_run).
  - vm_compute. reflexivity.
  - vm_compute. reflexivity.
Defined.

(** The declined purchase: its email says that nothing was charged. *)
Abbreviation ex_declined := (bought 700).

Lemma emails_tell_the_truth_witness :
  exists row ev mail, row ∈ rows_of (U := ref_uuid) "x0" (os_db ex_declined.2) /\
    DecodeOrderEvent (ob_payload row) = Ok ev /\ compose ev = Some mail /\
    em_Body mail = "Order ux0 was not completed because your payment was declined. You have not been charged." /\
    exists calls, os_calls ex_declined.2 = entries (U := ref_uuid) "x0" calls /\ (PCharge, true) ∉ calls.
Proof.
  assert (Hrow : exists row ev mail, row ∈ rows_of (U := ref_uuid) "x0" (os_db ex_declined.2) /\
    DecodeOrderEvent (ob_payload row) = Ok ev /\ compose ev = Some mail /\
    em_Subject mail <> "Your tickets are confirmed" /\
    chargeNote (oe_FailureReason ev) = "You have not been charged." /\
    em_Body mail = "Order ux0 was not completed because your payment was declined. You have not been charged.").
  { do 3 eexists. split.
    - apply (list_elem_of_lookup_2 _ 1). vm_compute. reflexivity.
    - split; [vm_compute; reflexivity|]. split; [vm_compute; reflexivity|].
      split; [done|]. split; vm_compute; reflexivity. }
  destruct Hrow as (row & ev & mail & Hrow & Hev & Hmail & Hsub & Hnote & Hbody).
  exists row, ev, mail. split; [exact Hrow|]. split; [exact Hev|]. split; [exact Hmail|]. split; [exact Hbody|].
  destruct (emails_tell_the_truth (U := ref_uuid) (buy ["us1"; "us2"] 700) (amb0 [] (names "x") 1 1) no_orders
    _ _ _ row ev mail no_orders_wf (Forall_nil_2 _) eq_refl (run_eta ex_declined) Hrow Hev Hmail)
    as (calls & Hcalls & _ & Hno).
  exists calls. split; [exact Hcalls|]. exact (Hno Hsub Hnote).
Defined.
End Examples.
