(* ===== verification/RateLimit.v ===== *)
(** * The rate limiter ([pkg/ratelimit])

    A fixed window per key, counted in Redis by one atomic script. *)

From stdpp Require Import base gmap list strings numbers.
From S2P Require Import Prelude Platform GoStrings Redis Instances.

Record Result := {
  rl_Allowed : bool;
  rl_Remaining : Z;
  rl_ResetIn : Z;
}.

#[global] Instance Result_eq_dec : EqDecision Result.
Proof. solve_decision. Defined.

Section Limiter.
Context `{U : UuidLib} {R : Type} `{!RedisLib R}.

(** [allowScript] at time [t] (in milliseconds): the count and the time left, or the error
    of an [INCR] on something that is not an integer. *)
Definition allowScript (t : Z) (key : string) (window : Z) (r : R) : option (Z * Z) * R :=
  match redis_incr t key r with
  | None => (None, r)
  | Some (count, r) =>
      let r := if (count =? 1)%Z then redis_pexpire t key window r else r in
      let ttl := redis_pttl t key r in
      if (ttl <? 0)%Z then (Some (count, window), redis_pexpire t key window r)
      else (Some (count, ttl), r)
  end.

Definition limit_key (key : string) : string := "ratelimit:" +:+ key.

(** [Allow]; [window] is a [time.Duration] in nanoseconds.  A script's reply of two
    integers is the only one it gives. *)
Definition Allow (key : string) (limit window : Z) : prog R Result :=
  f ← next_fate;
  now ← time_now;
  match f with
  | Lost _ => throw (EWrap "rate limit script" EConn)
  | _ => r ← get_state;
         let '(reply, r') := allowScript (now / 10 ^ 6)%Z (limit_key key) (Z.quot window (10 ^ 6)) r in
         _ ← modify (fun _ => r');
         match reply with
         | None => throw (EWrap "rate limit script" (EText "ERR value is not an integer or out of range"))
         | Some (count, ttlMillis) =>
             if negb (fate_ok f) then throw (EWrap "rate limit script" EConn) else
             let remaining := (limit - count)%Z in
             mret {| rl_Allowed := (count <=? limit)%Z;
                     rl_Remaining := if (remaining <? 0)%Z then 0 else remaining;
                     rl_ResetIn := (ttlMillis * 10 ^ 6)%Z |}
         end
  end.
End Limiter.

(** ** Lemmas *)

Section Lemmas.
Context `{U : UuidLib} {R : Type} `{!RedisLib R} `{!RedisLaws R}.
Implicit Types (r : R) (a : ambient).

Definition clock (a : ambient) : Z := (amb_now a / 10 ^ 6)%Z.

(** A window of the key is open until [x] and [n] attempts were counted in it. *)
Definition window_open (k : string) (n x : Z) (r : R) : Prop :=
  redis_view r k = Some (itoa n, Some x).

Lemma script_opens t k w r :
  (0 < w)%Z -> live t (redis_view r k) = false ->
  exists r', allowScript t k w r = (Some (1, w)%Z, r') /\ window_open k 1 (t + w) r' /\
    forall k', k' <> k -> redis_view r' k' = redis_view r k'.
Proof.
  intros Hw Hdead. destruct (redis_incr_absent t k r Hdead) as (r1 & Hi & Hv & Hother).
  unfold allowScript. rewrite Hi. cbn.
  assert (Hlive : live t (redis_view r1 k) = true) by (by rewrite Hv).
  assert (Hv2 : redis_view (redis_pexpire t k w r1) k = Some (itoa 1, Some (t + w)%Z)).
  { rewrite redis_view_pexpire, bool_decide_eq_true_2, Hv by done. done. }
  assert (Httl : redis_pttl t k (redis_pexpire t k w r1) = w).
  { rewrite redis_pttl_view, Hv2. cbn. destruct (t <? t + w)%Z eqn:E; reflect_bools; lia. }
  rewrite Httl. destruct (w <? 0)%Z eqn:E; reflect_bools; [lia|].
  eexists. split; [done|]. split; [done|]. intros k' Hne.
  rewrite redis_view_pexpire, bool_decide_eq_false_2 by done. by apply Hother.
Qed.

Lemma script_counts t k w n x r :
  (1 <= n)%Z -> (t < x)%Z -> window_open k n x r ->
  exists r', allowScript t k w r = (Some (n + 1, x - t)%Z, r') /\ window_open k (n + 1) x r' /\
    forall k', k' <> k -> redis_view r' k' = redis_view r k'.
Proof.
  intros Hn Hlt Hopen.
  assert (Hlive : live t (redis_view r k) = true) by (rewrite Hopen; cbn; by apply Z.ltb_lt).
  destruct (redis_incr_present t k r n (Some x) Hlive Hopen) as (r1 & Hi & Hv & Hother).
  unfold allowScript. rewrite Hi. destruct (n + 1 =? 1)%Z eqn:E1; reflect_bools; [lia|].
  assert (Httl : redis_pttl t k r1 = (x - t)%Z).
  { rewrite redis_pttl_view, Hv. cbn. destruct (t <? x)%Z eqn:E; reflect_bools; lia. }
  cbv zeta. rewrite Httl. destruct (x - t <? 0)%Z eqn:E; reflect_bools; [lia|]. eauto.
Qed.

(** A counter that lost its expiry is given one. *)
Lemma script_repairs t k w n r :
  (1 <= n)%Z -> redis_view r k = Some (itoa n, None) ->
  exists r', allowScript t k w r = (Some (n + 1, w)%Z, r') /\ window_open k (n + 1) (t + w) r'.
Proof.
  intros Hn Hv. assert (Hlive : live t (redis_view r k) = true) by (by rewrite Hv).
  destruct (redis_incr_present t k r n None Hlive Hv) as (r1 & Hi & Hv1 & _).
  unfold allowScript. rewrite Hi. destruct (n + 1 =? 1)%Z eqn:E1; reflect_bools; [lia|].
  cbv zeta. rewrite redis_pttl_view, Hv1. cbn. eexists. split; [done|].
  unfold window_open. rewrite redis_view_pexpire, bool_decide_eq_true_2, Hv1; [done|done|by rewrite Hv1].
Qed.

(** A script about another key does not touch this one. *)
Lemma script_other t k w r k' :
  k' <> k -> redis_view (allowScript t k' w r).2 k = redis_view r k.
Proof.
  intros Hne. unfold allowScript. destruct (redis_incr t k' r) as [[n r1]|] eqn:E; [|done].
  assert (H1 : redis_view r1 k = redis_view r k) by (by eapply redis_incr_other).
  repeat case_match; cbn; simplify_eq; rewrite ?redis_pexpire_other; done.
Qed.

(** *** One attempt *)

(** Every run counts the attempt, or its key is untouched. *)
Lemma Allow_counts key limit window n x a r :
  (1 <= n)%Z -> (clock a < x)%Z -> window_open (limit_key key) n x r ->
  wp (Allow key limit window) (fun res _ r' =>
    (window_open (limit_key key) (n + 1) x r' /\
     (forall v, res = Ok v -> v = {| rl_Allowed := (n + 1 <=? limit)%Z;
        rl_Remaining := Z.max 0 (limit - (n + 1)); rl_ResetIn := ((x - clock a) * 10 ^ 6)%Z |}) /\
     (no_faults a -> is_ok res = true)) \/
    (~ no_faults a /\ is_ok res = false /\ window_open (limit_key key) n x r')) a r.
Proof.
  intros Hn Hlt Hopen.
  destruct (script_counts (clock a) (limit_key key) (Z.quot window (10 ^ 6)) n x r Hn Hlt Hopen)
    as (r' & Hs & Ho & _). unfold clock in Hs.
  assert (Hdone : head_fate a <> Done -> ~ no_faults a) by (intros Hf Hnf; by apply Hf, head_fate_none).
  unfold Allow. wp_steps; rewrite ?drop_fate_now in *; rewrite ?Hs in *; simplify_eq;
    [left; split; [done|]|right|left; split; [done|]].
  - split; [|done]. intros v [= <-]. f_equal. destruct (_ <? 0)%Z eqn:E; reflect_bools; lia.
  - split; [by apply Hdone|done].
  - split; [done|]. intros Hnf. by destruct (Hdone ltac:(done)).
Qed.

Lemma Allow_other key key' limit window a r :
  key' <> key ->
  wp (Allow key' limit window) (fun _ _ r' =>
    redis_view r' (limit_key key) = redis_view r (limit_key key)) a r.
Proof.
  intros Hne. assert (limit_key key' <> limit_key key) as Hk by (intros E%append_inj_l; done).
  pose proof (script_other (amb_now a / 10 ^ 6) (limit_key key) (Z.quot window (10 ^ 6)) r (limit_key key') Hk) as Hs.
  unfold Allow. wp_steps; rewrite ?drop_fate_now in *; try done;
    match goal with H : allowScript _ _ _ _ = _ |- _ => by rewrite H in Hs end.
Qed.
End Lemmas.

(** ** Properties *)

Section Properties.
Context `{U : UuidLib} {R : Type} `{!RedisLib R} `{!RedisLaws R}.

(** Attempts one after another, each on its key with its limit and window, at its time and
    with its fates; the answers. *)
Fixpoint attempts (l : list (ambient * (string * Z * Z))) (r : R) : list (string * res Result) * R :=
  match l with
  | [] => ([], r)
  | (a, (key, limit, window)) :: l' =>
      let '(v, _, r') := Allow key limit window a r in
      let (vs, r'') := attempts l' r' in ((key, v) :: vs, r'')
  end.

Definition allowed (key : string) (x : string * res Result) : bool :=
  bool_decide (x.1 = key) && match x.2 with Ok v => rl_Allowed v | Err _ => false end.

Definition admitted (key : string) (l : list (string * res Result)) : nat :=
  length (filter (fun x => allowed key x = true) l).

Lemma attempts_counted key limit window n x l r :
  (1 <= n)%Z -> window_open (limit_key key) n x r ->
  (forall y, y ∈ l -> (clock y.1 < x)%Z /\ (y.2.1.1 = key -> y.2 = (key, limit, window))) ->
  (Z.of_nat (admitted key (attempts l r).1) <= Z.max 0 (limit - n))%Z /\
  ((forall y, y ∈ l -> no_faults y.1) ->
   Z.of_nat (admitted key (attempts l r).1) =
     Z.min (Z.max 0 (limit - n)) (Z.of_nat (length (filter (fun y => y.2.1.1 = key) l)))).
Proof.
  revert n r. induction l as [|[a [[k lim] w]] l IH]; intros n r Hn Hopen Hl; [cbn; lia|].
  destruct (Hl (a, (k, lim, w)) ltac:(by left)) as [Hlt Hsame]. cbn in Hlt, Hsame.
  assert (Hl' : forall y, y ∈ l -> (clock y.1 < x)%Z /\ (y.2.1.1 = key -> y.2 = (key, limit, window)))
    by (intros y Hy; apply Hl; by right).
  cbn [attempts]. rewrite filter_cons. cbn [fst snd].
  destruct (decide (k = key)) as [->|Hne].
  - specialize (Hsame eq_refl). injection Hsame as -> ->.
    pose proof (Allow_counts key limit window n x a r Hn Hlt Hopen) as Hw. unfold wp in Hw.
    destruct (Allow key limit window a r) as [[v a'] r1].
    destruct (attempts l r1) as [vs r2] eqn:Ers. unfold admitted. cbn [fst]. rewrite filter_cons.
    destruct Hw as [(Ho & Hv & Hok)|(Hf & Hbad & Ho)].
    + destruct (IH (n + 1)%Z r1 ltac:(lia) Ho Hl') as [Hle Heq]. rewrite Ers in Hle, Heq.
      unfold admitted in Hle, Heq. cbn [fst] in Hle, Heq.
      assert (Hal : allowed key (key, v) = true -> (n + 1 <= limit)%Z).
      { unfold allowed. cbn. rewrite bool_decide_eq_true_2 by done. cbn. destruct v as [v|]; [|done].
        rewrite (Hv v eq_refl). cbn. intros ?%Z.leb_le. lia. }
      split.
      * case_decide as Ha; [specialize (Hal Ha); cbn [length]; lia|lia].
      * intros Hnf. specialize (Heq ltac:(intros y Hy; apply Hnf; by right)).
        specialize (Hok (Hnf _ ltac:(by left))). destruct v as [v|]; [|done].
        case_decide as Ha; [specialize (Hal Ha); cbn [length]; lia|]. cbn [length].
        assert (~ (n + 1 <= limit)%Z); [|lia]. intros Hc. apply Ha. unfold allowed. cbn.
        rewrite bool_decide_eq_true_2 by done. rewrite (Hv v eq_refl). cbn. by apply Z.leb_le.
    + destruct (IH n r1 Hn Ho Hl') as [Hle Heq]. rewrite Ers in Hle, Heq. unfold admitted in Hle, Heq.
      split.
      * case_decide as Ha; [|done]. unfold allowed in Ha. cbn in Ha. destruct v; [done|].
        by rewrite andb_false_r in Ha.
      * intros Hnf. exfalso. apply Hf, (Hnf (a, (key, limit, window))). by left.
  - pose proof (Allow_other key k lim w a r Hne) as Hw. unfold wp in Hw.
    destruct (Allow k lim w a r) as [[v a'] r1]. destruct (attempts l r1) as [vs r2] eqn:Ers.
    destruct (IH n r1 Hn ltac:(unfold window_open; by rewrite Hw) Hl') as [Hle Heq]. rewrite Ers in Hle, Heq.
    unfold admitted in *. cbn [fst] in *. rewrite filter_cons.
    assert (Hna : allowed key (k, v) <> true) by (unfold allowed; cbn; by rewrite bool_decide_eq_false_2).
    repeat (case_decide; [done|]). split; [done|]. intros Hnf. apply Heq. intros y Hy. apply Hnf. by right.
Qed.

(** C26: at most [limit] attempts per window.  After an attempt that found no window of its
    key open (and was answered), whatever attempts on this and other keys follow before
    the window ends, lost calls and lost answers included, at most [limit] attempts on the
    key are admitted, the first one with them; when no call fails, it is exactly the
    first [limit] ones that are.  A counter that has lost its expiry gets a new one
    instead of blocking its key for ever. *)
Theorem window_admits_limit key limit window a l r :
  (1 <= limit)%Z -> (10 ^ 6 <= window)%Z -> no_faults a ->
  live (clock a) (redis_view r (limit_key key)) = false ->
  (forall y, y ∈ l -> (clock y.1 < clock a + Z.quot window (10 ^ 6))%Z /\
                      (y.2.1.1 = key -> y.2 = (key, limit, window))) ->
  let l' := (a, (key, limit, window)) :: l in
  let answers := (attempts l' r).1 in
  (exists rest, answers = (key, Ok {| rl_Allowed := true; rl_Remaining := limit - 1;
      rl_ResetIn := (Z.quot window (10 ^ 6) * 10 ^ 6)%Z |}) :: rest) /\
  (Z.of_nat (admitted key answers) <= limit)%Z /\
  ((forall y, y ∈ l -> no_faults y.1) ->
   Z.of_nat (admitted key answers) = Z.min limit (Z.of_nat (length (filter (fun y => y.2.1.1 = key) l')))) /\
  (forall n r0, (1 <= n)%Z -> redis_view r0 (limit_key key) = Some (itoa n, None) ->
     exists x, redis_view (Allow key limit window a r0).2 (limit_key key) = Some (itoa (n + 1), Some x)).
Proof.
  intros Hlim Hwin Hnf Hdead Hl l' answers.
  assert (Hw : (0 < Z.quot window (10 ^ 6))%Z) by (apply Z.quot_str_pos; lia).
  destruct (script_opens (clock a) (limit_key key) _ r Hw Hdead) as (r1 & Hs & Ho & _).
  assert (Hrun : Allow key limit window a r = (Ok {| rl_Allowed := true; rl_Remaining := limit - 1;
      rl_ResetIn := (Z.quot window (10 ^ 6) * 10 ^ 6)%Z |}, a, r1)).
  { unfold Allow, mbind, prog_bind, next_fate, pop_fate, time_now, get_state, modify. rewrite Hnf. cbn.
    unfold clock in Hs. rewrite Hs. unfold mret, prog_ret. do 3 f_equal. f_equal.
    - by apply Z.leb_le.
    - destruct (limit - 1 <? 0)%Z eqn:E; reflect_bools; lia. }
  destruct (attempts_counted key limit window 1 _ l r1 ltac:(lia) Ho Hl) as [Hle Heq].
  unfold answers, l'. cbn [attempts]. rewrite Hrun. destruct (attempts l r1) as [vs r2]. cbn [fst] in *.
  split; [by eexists|]. unfold admitted in *. rewrite filter_cons, decide_True.
  2: { unfold allowed. cbn. by rewrite bool_decide_eq_true_2. }
  cbn [length]. split; [lia|]. split.
  - intros Hf. specialize (Heq Hf). rewrite filter_cons, decide_True by done. cbn [length]. lia.
  - intros n r0 Hn Hv. destruct (script_repairs (clock a) (limit_key key) (Z.quot window (10 ^ 6)) n r0 Hn Hv)
      as (r' & Hs' & Ho'). exists (clock a + Z.quot window (10 ^ 6))%Z.
    unfold Allow, mbind, prog_bind, next_fate, pop_fate, time_now, get_state, modify. rewrite Hnf. cbn.
    unfold clock in Hs'. rewrite Hs'. exact Ho'.
Qed.
End Properties.

(** ** Witness *)

Section Examples.
Lemma window_admits_limit_witness :
  admitted "ip" (attempts (R := store) [(amb0 [] (names "x") 1 1, ("ip", 2%Z, (60 * 10 ^ 9)%Z));
    (amb0 [] (names "x") (10 ^ 9) 1, ("ip", 2%Z, (60 * 10 ^ 9)%Z));
    (amb0 [] (names "x") (20 * 10 ^ 9) 1, ("ip", 2%Z, (60 * 10 ^ 9)%Z))] (∅ : gmap string entry)).1 <= 2.
Proof.
  destruct (window_admits_limit (U := ref_uuid) (R := store) "ip" 2 (60 * 10 ^ 9) (amb0 [] (names "x") 1 1)
    [(amb0 [] (names "x") (10 ^ 9) 1, ("ip", 2%Z, (60 * 10 ^ 9)%Z));
     (amb0 [] (names "x") (20 * 10 ^ 9) 1, ("ip", 2%Z, (60 * 10 ^ 9)%Z))] (∅ : gmap string entry))
    as (_ & Hle & _).
  - lia.
  - lia.
  - done.
  - done.
  - intros y [->|[->|[]%elem_of_nil]%elem_of_cons]%elem_of_cons; (split; [vm_compute; reflexivity|done]).
  - lia.
Defined.
End Examples.
