(* ===== verification/Hub.v ===== *)
(** * realtime-svc: the hub and the feed ([services/realtime/internal/hub], [feed])

    Who watches which event, and the bounded buffer of each watcher.  Every operation of
    the hub holds its mutex, so it is one atomic step.  Closing a closed channel and
    sending on a closed channel panic in Go: an operation that would do so is [None]. *)

From stdpp Require Import base gmap list strings numbers option.
From S2P Require Import Prelude Platform Events Kafka.

(** ** State *)

Record Update := {
  up_SeatIDs : list string;
  up_State : string;
}.

#[global] Instance Update_eq_dec : EqDecision Update.
Proof. solve_decision. Defined.

Definition subscriberBuffer : nat := 64.

(** A subscription is shared between the hub and its reader: a heap cell, named by its
    address.  [sub_c] is what the channel buffers. *)
Record Subscription := {
  sub_c : list Update;
  sub_closed : bool;
  sub_eventID : string;
}.

#[global] Instance Subscription_eq_dec : EqDecision Subscription.
Proof. solve_decision. Defined.

Abbreviation ptr := nat.

(** The hub's fields, the heap of subscriptions, and the metrics. *)
Record Hub := {
  h_subs : gmap string (gset ptr);
  h_count : Z;
  h_max : Z;
  h_closed : bool;
  h_heap : gmap ptr Subscription;
  h_gauge : Z;
  h_sent : Z;
  h_dropped : Z;
  h_refused : Z;
}.

Definition NewHub (max : Z) : Hub :=
  {| h_subs := ∅; h_count := 0; h_max := max; h_closed := false; h_heap := ∅;
     h_gauge := 0; h_sent := 0; h_dropped := 0; h_refused := 0 |}.

Definition set_heap (p : ptr) (s : Subscription) (h : Hub) : Hub :=
  {| h_subs := h_subs h; h_count := h_count h; h_max := h_max h; h_closed := h_closed h;
     h_heap := <[p := s]> (h_heap h); h_gauge := h_gauge h; h_sent := h_sent h;
     h_dropped := h_dropped h; h_refused := h_refused h |}.

(** ** Operations *)

(** [Subscribe]: a fresh subscription, or [ErrFull]. *)
Definition Subscribe (eventID : string) (h : Hub) : option ptr * Hub :=
  if h_closed h || (h_max h <=? h_count h)%Z then
    (None, {| h_subs := h_subs h; h_count := h_count h; h_max := h_max h; h_closed := h_closed h;
              h_heap := h_heap h; h_gauge := h_gauge h; h_sent := h_sent h;
              h_dropped := h_dropped h; h_refused := h_refused h + 1 |})
  else
    let p := fresh (dom (h_heap h)) in
    (Some p, {| h_subs := <[eventID := {[p]} ∪ default ∅ (h_subs h !! eventID)]> (h_subs h);
                h_count := h_count h + 1; h_max := h_max h; h_closed := h_closed h;
                h_heap := <[p := {| sub_c := []; sub_closed := false; sub_eventID := eventID |}]> (h_heap h);
                h_gauge := h_gauge h + 1; h_sent := h_sent h; h_dropped := h_dropped h;
                h_refused := h_refused h |}).

(** [remove], with the mutex held. *)
Definition remove (p : ptr) (h : Hub) : option Hub :=
  match h_heap h !! p with
  | None => None                                  (* not a subscription *)
  | Some s =>
      match h_subs h !! sub_eventID s with
      | None => Some h
      | Some watchers =>
          if bool_decide (p ∉ watchers) then Some h else
          if sub_closed s then None else          (* close of a closed channel *)
          let watchers := watchers ∖ {[p]} in
          Some {| h_subs := if bool_decide (watchers = ∅) then delete (sub_eventID s) (h_subs h)
                            else <[sub_eventID s := watchers]> (h_subs h);
                  h_count := h_count h - 1; h_max := h_max h; h_closed := h_closed h;
                  h_heap := <[p := {| sub_c := sub_c s; sub_closed := true;
                                      sub_eventID := sub_eventID s |}]> (h_heap h);
                  h_gauge := h_gauge h - 1; h_sent := h_sent h; h_dropped := h_dropped h;
                  h_refused := h_refused h |}
      end
  end.

(** [Subscription.Close] *)
Definition CloseSub (p : ptr) (h : Hub) : option Hub := remove p h.

Definition inc_sent (h : Hub) : Hub :=
  {| h_subs := h_subs h; h_count := h_count h; h_max := h_max h; h_closed := h_closed h;
     h_heap := h_heap h; h_gauge := h_gauge h; h_sent := h_sent h + 1; h_dropped := h_dropped h;
     h_refused := h_refused h |}.
Definition inc_dropped (h : Hub) : Hub :=
  {| h_subs := h_subs h; h_count := h_count h; h_max := h_max h; h_closed := h_closed h;
     h_heap := h_heap h; h_gauge := h_gauge h; h_sent := h_sent h; h_dropped := h_dropped h + 1;
     h_refused := h_refused h |}.

(** The non-blocking send of [Publish] to one watcher. *)
Definition deliver (u : Update) (p : ptr) (h : Hub) : option Hub :=
  match h_heap h !! p with
  | None => None
  | Some s =>
      if sub_closed s then None                   (* send on a closed channel *)
      else if bool_decide (length (sub_c s) < subscriberBuffer) then
        Some (inc_sent (set_heap p {| sub_c := sub_c s ++ [u]; sub_closed := false;
                                      sub_eventID := sub_eventID s |} h))
      else remove p (inc_dropped h)
  end.

(** A loop over watchers, stopped by a panic. *)
Fixpoint each (f : ptr -> Hub -> option Hub) (l : list ptr) (h : Hub) : option Hub :=
  match l with
  | [] => Some h
  | p :: l' => h' ← f p h; each f l' h'
  end.

(** [Publish]: the range over a map may delete the entry it is at. *)
Definition PublishUpdate (eventID : string) (u : Update) (h : Hub) : option Hub :=
  each (deliver u) (elements (default ∅ (h_subs h !! eventID))) h.

Definition mark_closed (h : Hub) : Hub :=
  {| h_subs := h_subs h; h_count := h_count h; h_max := h_max h; h_closed := true;
     h_heap := h_heap h; h_gauge := h_gauge h; h_sent := h_sent h; h_dropped := h_dropped h;
     h_refused := h_refused h |}.

(** [Close]: every watcher of every event. *)
Definition CloseHub (h : Hub) : option Hub :=
  each remove (concat (map (fun kv => elements kv.2) (map_to_list (h_subs h)))) (mark_closed h).

Definition Subscribers (h : Hub) : Z := h_count h.

(** A receive from [sub.C]: the next update; [None] when the channel is closed and empty.
    The outer [None]: nothing to receive yet. *)
Definition Receive (p : ptr) (h : Hub) : option (option Update * Hub) :=
  s ← h_heap h !! p;
  match sub_c s with
  | u :: rest => Some (Some u, set_heap p {| sub_c := rest; sub_closed := sub_closed s;
                                             sub_eventID := sub_eventID s |} h)
  | [] => if sub_closed s then Some (None, h) else None
  end.

(** ** The feed ([feed.go]) *)

(** [feed.Handler]: what a record of [seat-events] publishes; an undecodable or empty one is
    skipped. *)
Definition feed_update {J : ProtoJson} (m : Message) : option (string * Update) :=
  match DecodeSeatEvent (msg_Value m) with
  | Err _ => None
  | Ok e =>
      if bool_decide (se_EventId e = "") || bool_decide (length (se_SeatIds e) = 0) then None
      else Some (se_EventId e, {| up_SeatIDs := se_SeatIds e; up_State := SeatStateName (se_State e) |})
  end.

Definition FeedHandler {J : ProtoJson} (m : Message) (h : Hub) : option Hub :=
  match feed_update m with
  | None => Some h
  | Some (ev, u) => PublishUpdate ev u h
  end.

(** ** The tail ([pkg/kafka/tail.go]) *)

(** What a read returns: a record, or an error with the context done or not. *)
Inductive read_result := ReadMessage (km : KMessage) | ReadCancelled | ReadFailed (e : error).

(** [runTail]: every record read goes to the handler, in order; the loop ends with the first
    failed read.  No result: still reading.  The outer [None]: the handler panicked. *)
Fixpoint runTail {H} (handle : Message -> H -> option H) (reads : list read_result) (h : H)
    : option (option (res unit) * H) :=
  match reads with
  | [] => Some (None, h)
  | ReadMessage km :: rest => h' ← handle (fromKafka km) h; runTail handle rest h'
  | ReadCancelled :: _ => Some (Some (Ok tt), h)
  | ReadFailed e :: _ => Some (Some (Err (EWrap "kafka tail: read" e)), h)
  end.
