(* ===== verification/HubProps.v ===== *)
(** * realtime-svc: the properties of the hub and the feed *)

From stdpp Require Import base option gmap strings numbers list sorting.
From S2P Require Import Prelude Platform Events Kafka Instances Hub.

(** ** The invariant *)

(** The open subscriptions. *)
Definition open_subs (h : Hub) : gmap ptr Subscription :=
  filter (fun ps => sub_closed ps.2 = false) (h_heap h).

Record wf_hub (h : Hub) : Prop := {
  wh_subs : forall ev p, p ∈ default ∅ (h_subs h !! ev) <->
    exists s, h_heap h !! p = Some s /\ sub_eventID s = ev /\ sub_closed s = false;
  wh_nonempty : forall ev ws, h_subs h !! ev = Some ws -> ws <> ∅;
  wh_count : h_count h = Z.of_nat (size (open_subs h));
  wh_max : (h_count h <= Z.max 0 (h_max h))%Z;
  wh_gauge : h_gauge h = h_count h;
  wh_buffers : forall p s, h_heap h !! p = Some s -> length (sub_c s) <= subscriberBuffer;
}.

Definition shut (s : Subscription) : Subscription :=
  {| sub_c := sub_c s; sub_closed := true; sub_eventID := sub_eventID s |}.

(** What a publish does to an open watcher of its event. *)
Definition pushed (u : Update) (s : Subscription) : Subscription :=
  if bool_decide (length (sub_c s) < subscriberBuffer)
  then {| sub_c := sub_c s ++ [u]; sub_closed := false; sub_eventID := sub_eventID s |}
  else shut s.

Lemma wf_new max : wf_hub (NewHub max).
Proof.
  split; cbn; try done; [|lia]. intros ev p. rewrite lookup_empty. cbn.
  rewrite elem_of_empty. split; [done|]. by intros (s & [=] & _).
Qed.

(** Changing a buffer keeps who is open. *)
Lemma wf_set_buffer p s c h :
  wf_hub h -> h_heap h !! p = Some s -> length c <= subscriberBuffer ->
  wf_hub (set_heap p {| sub_c := c; sub_closed := sub_closed s; sub_eventID := sub_eventID s |} h).
Proof.
  intros [Hs Hn Hc Hm Hg Hb] Hp Hl. split; cbn; try done.
  - intros ev q. rewrite Hs. split; intros (s' & Hq & Hev & Hop).
    + destruct (decide (q = p)) as [->|Hne].
      * assert (s' = s) as -> by congruence. eexists. rewrite lookup_insert_eq. eauto.
      * exists s'. by rewrite lookup_insert_ne.
    + destruct (decide (q = p)) as [->|Hne].
      * rewrite lookup_insert_eq in Hq. injection Hq as <-. exists s. done.
      * rewrite lookup_insert_ne in Hq by done. by exists s'.
  - rewrite Hc. f_equal. unfold open_subs. cbn. rewrite map_filter_insert. cbn.
    case_decide as Ho.
    + rewrite map_size_insert_Some; [done|]. exists s. by apply map_lookup_filter_Some.
    + rewrite map_filter_delete, delete_id; [done|].
      apply map_lookup_filter_None. right. intros s' Hs' Hop. cbn in Hop. congruence.
  - intros q s' Hq. destruct (decide (q = p)) as [->|Hne].
    + rewrite lookup_insert_eq in Hq. by injection Hq as <-.
    + rewrite lookup_insert_ne in Hq by done. eauto.
Qed.

(** [remove] closes an open subscription and leaves a closed one alone; it never panics. *)
Lemma remove_spec p s h :
  wf_hub h -> h_heap h !! p = Some s ->
  exists h', remove p h = Some h' /\ wf_hub h' /\ h_heap h' = <[p := shut s]> (h_heap h) /\
    h_closed h' = h_closed h /\ h_max h' = h_max h.
Proof.
  intros Hwf Hp. pose proof Hwf as [Hs Hn Hc Hm Hg Hb]. unfold remove. rewrite Hp.
  specialize (Hs (sub_eventID s) p) as Hin. destruct (sub_closed s) eqn:Hop.
  - assert (Hsame : <[p := shut s]> (h_heap h) = h_heap h).
    { apply insert_id. rewrite Hp. unfold shut. by destruct s; cbn in *; subst. }
    rewrite Hsame. exists h. split_and!; try done.
    destruct (h_subs h !! sub_eventID s) as [ws|]; [|done]. rewrite bool_decide_eq_true_2; [done|].
    cbn in Hin. rewrite Hin. intros (s' & Hp' & _ & Ho). congruence.
  - assert (Hmem : p ∈ default ∅ (h_subs h !! sub_eventID s)) by (rewrite Hin; eauto).
    destruct (h_subs h !! sub_eventID s) as [ws|] eqn:Ews; cbn in Hmem; [|set_solver].
    rewrite bool_decide_eq_false_2 by (by intros ?). eexists. split; [done|]. split; [|done].
    split; cbn.
    + intros ev q. destruct (decide (ev = sub_eventID s)) as [->|Hev].
      * assert (Hdef : default ∅ ((if bool_decide (ws ∖ {[p]} = ∅) then delete (sub_eventID s) (h_subs h)
            else <[sub_eventID s := ws ∖ {[p]}]> (h_subs h)) !! sub_eventID s) = ws ∖ {[p]}).
        { case_bool_decide as E; [by rewrite lookup_delete_eq, E|by rewrite lookup_insert_eq]. }
        rewrite Hdef, elem_of_difference, elem_of_singleton.
        specialize (Hs (sub_eventID s) q). rewrite Ews in Hs. cbn in Hs. rewrite Hs.
        destruct (decide (q = p)) as [->|Hne].
        -- rewrite lookup_insert_eq. split; [by intros [_ []]|]. by intros (s' & [= <-] & _ & ?).
        -- rewrite lookup_insert_ne by done. tauto.
      * assert (Hdef : (if bool_decide (ws ∖ {[p]} = ∅) then delete (sub_eventID s) (h_subs h)
            else <[sub_eventID s := ws ∖ {[p]}]> (h_subs h)) !! ev = h_subs h !! ev).
        { case_bool_decide; [by rewrite lookup_delete_ne|by rewrite lookup_insert_ne]. }
        rewrite Hdef, Hs. split; intros (s' & Hq & Hev' & Ho); exists s'.
        -- rewrite lookup_insert_ne; [done|]. intros ->. congruence.
        -- destruct (decide (q = p)) as [->|]; [|by rewrite lookup_insert_ne in Hq].
           rewrite lookup_insert_eq in Hq. injection Hq as <-. done.
    + intros ev ws'. case_bool_decide as E.
      * rewrite lookup_delete_Some. intros [_ ?]. by eapply Hn.
      * destruct (decide (ev = sub_eventID s)) as [->|]; [rewrite lookup_insert_eq; by intros [= <-]|].
        rewrite lookup_insert_ne by done. apply Hn.
    + unfold open_subs in *. cbn. rewrite map_filter_insert_False, map_filter_delete by done.
      rewrite map_size_delete_Some; [rewrite Hc|by exists s; apply map_lookup_filter_Some].
      assert (size (filter (fun ps : ptr * Subscription => sub_closed ps.2 = false) (h_heap h)) <> 0); [|lia].
      apply map_size_non_empty_iff. intros E. apply (lookup_empty_Some (M := gmap ptr) p s).
      rewrite <- E. by apply map_lookup_filter_Some.
    + lia.
    + lia.
    + intros q s' Hq. destruct (decide (q = p)) as [->|]; [|rewrite lookup_insert_ne in Hq by done; eauto].
      rewrite lookup_insert_eq in Hq. injection Hq as <-. cbn. by eapply Hb.
Qed.

Lemma wf_subscribe ev h :
  wf_hub h ->
  let '(r, h') := Subscribe ev h in
  wf_hub h' /\ h_closed h' = h_closed h /\ h_max h' = h_max h /\
  match r with
  | None => h_heap h' = h_heap h /\ (h_closed h = true \/ (h_max h <= h_count h)%Z)
  | Some p => h_heap h !! p = None /\ h_closed h = false /\
      h_heap h' = <[p := {| sub_c := []; sub_closed := false; sub_eventID := ev |}]> (h_heap h)
  end.
Proof.
  intros Hwf. pose proof Hwf as [Hs Hn Hc Hm Hg Hb]. unfold Subscribe.
  destruct (h_closed h || (h_max h <=? h_count h)%Z) eqn:E.
  { apply orb_true_iff in E. split; [by split|]. do 3 (split; [done|]).
    destruct E as [?|?]; [by left|right; by apply Z.leb_le]. }
  reflect_bools. set (p := fresh (dom (h_heap h))).
  assert (Hp : h_heap h !! p = None) by (apply not_elem_of_dom, is_fresh).
  split; [|done]. split; cbn; try lia.
  - intros ev' q. destruct (decide (ev' = ev)) as [->|Hev].
    + rewrite lookup_insert_eq. cbn. rewrite elem_of_union, elem_of_singleton, Hs.
      destruct (decide (q = p)) as [->|Hne].
      * rewrite lookup_insert_eq. split; [intros _; eauto|by left].
      * rewrite lookup_insert_ne by done. naive_solver.
    + rewrite lookup_insert_ne by done. rewrite Hs. split; intros (s & Hq & Hev' & Ho); exists s.
      * rewrite lookup_insert_ne; [done|]. intros <-. congruence.
      * destruct (decide (q = p)) as [->|]; [|by rewrite lookup_insert_ne in Hq].
        rewrite lookup_insert_eq in Hq. injection Hq as <-. done.
  - intros ev' ws. destruct (decide (ev' = ev)) as [->|]; [rewrite lookup_insert_eq; intros [= <-]; set_solver|].
    rewrite lookup_insert_ne by done. apply Hn.
  - unfold open_subs in *. cbn. rewrite map_filter_insert_True by done.
    rewrite map_size_insert_None by (apply map_lookup_filter_None; by left). lia.
  - intros q s Hq. destruct (decide (q = p)) as [->|]; [|rewrite lookup_insert_ne in Hq by done; eauto].
    rewrite lookup_insert_eq in Hq. injection Hq as <-. cbn. unfold subscriberBuffer. lia.
Qed.

(** One watcher of a publish. *)
Lemma deliver_spec u p s h :
  wf_hub h -> h_heap h !! p = Some s -> sub_closed s = false ->
  exists h', deliver u p h = Some h' /\ wf_hub h' /\ h_heap h' = <[p := pushed u s]> (h_heap h) /\
    h_closed h' = h_closed h /\ h_max h' = h_max h.
Proof.
  intros Hwf Hp Ho. unfold deliver, pushed. rewrite Hp, Ho. case_bool_decide as Hl.
  - eexists. split; [done|]. split; [|done].
    pose proof (wf_set_buffer p s (sub_c s ++ [u]) h Hwf Hp ltac:(rewrite length_app; cbn; lia)) as Hw.
    rewrite Ho in Hw. destruct Hw. by split.
  - apply (remove_spec p s (inc_dropped h)); [|done]. destruct Hwf. by split.
Qed.

(** A loop that updates the cells it visits. *)
Lemma each_spec (f : ptr -> Hub -> option Hub) (g : Subscription -> Subscription) (P : Subscription -> Prop) l h :
  (forall p s h, wf_hub h -> h_heap h !! p = Some s -> P s ->
     exists h', f p h = Some h' /\ wf_hub h' /\ h_heap h' = <[p := g s]> (h_heap h) /\
       h_closed h' = h_closed h /\ h_max h' = h_max h) ->
  wf_hub h -> NoDup l -> (forall p, p ∈ l -> exists s, h_heap h !! p = Some s /\ P s) ->
  exists h', each f l h = Some h' /\ wf_hub h' /\
    h_heap h' = sql_update (fun p _ => bool_decide (p ∈ l)) g (h_heap h) /\
    h_closed h' = h_closed h /\ h_max h' = h_max h.
Proof.
  intros Hf. revert h. induction l as [|p l IH]; intros h Hwf Hnd Hl.
  { exists h. split_and!; try done. symmetry. apply sql_update_none. done. }
  apply NoDup_cons in Hnd as [Hni Hnd].
  destruct (Hl p ltac:(by left)) as (s & Hp & HP). destruct (Hf p s h Hwf Hp HP) as (h1 & H1 & Hwf1 & Hh1 & Hc1 & Hm1).
  destruct (IH h1 Hwf1 Hnd) as (h2 & H2 & Hwf2 & Hh2 & Hc2 & Hm2).
  { intros q Hq. destruct (Hl q ltac:(by right)) as (s' & Hq' & HP'). exists s'. split; [|done].
    rewrite Hh1, lookup_insert_ne; [done|]. by intros <-. }
  exists h2. cbn [each]. rewrite H1. cbn. split_and!; try done; [|congruence..].
  rewrite Hh2, Hh1. apply map_eq. intros q. rewrite !lookup_sql_update.
  destruct (decide (q = p)) as [->|Hne].
  - rewrite lookup_insert_eq, Hp. cbn. rewrite (bool_decide_eq_false_2 (p ∈ l)) by done.
    by rewrite bool_decide_eq_true_2 by (by left).
  - rewrite lookup_insert_ne by done. destruct (h_heap h !! q) as [s'|]; [|done]. cbn. f_equal.
    assert (bool_decide (q ∈ p :: l) = bool_decide (q ∈ l)) as ->; [|done].
    apply bool_decide_ext. rewrite elem_of_cons. naive_solver.
Qed.

(** A publish gives its update to every open watcher of the event that has room for it, and
    cuts off those that have not; nobody else notices. *)
Lemma publish_spec ev u h :
  wf_hub h ->
  exists h', PublishUpdate ev u h = Some h' /\ wf_hub h' /\
    h_heap h' = sql_update (fun _ s => bool_decide (sub_eventID s = ev) && negb (sub_closed s)) (pushed u) (h_heap h) /\
    h_closed h' = h_closed h /\ h_max h' = h_max h.
Proof.
  intros Hwf. unfold PublishUpdate.
  destruct (each_spec (deliver u) (pushed u) (fun s => sub_closed s = false)
    (elements (default ∅ (h_subs h !! ev))) h) as (h' & He & Hwf' & Hh & Hrest).
  - intros. by apply deliver_spec.
  - done.
  - apply NoDup_elements.
  - intros p Hp. apply elem_of_elements, (wh_subs _ Hwf) in Hp as (s & Hs & _ & Ho). eauto.
  - exists h'. split_and!; [done|done| |apply Hrest..]. rewrite Hh. apply sql_update_ext.
    intros p s Hs. destruct (bool_decide (sub_eventID s = ev) && negb (sub_closed s)) eqn:E.
    + apply bool_decide_eq_true_2, elem_of_elements, (wh_subs _ Hwf). reflect_bools. eauto.
    + apply bool_decide_eq_false_2. rewrite elem_of_elements, (wh_subs _ Hwf). intros (s' & Hs' & Hev & Ho).
      assert (s' = s) as -> by congruence. rewrite bool_decide_eq_true_2, Ho in E by done. done.
Qed.

Lemma close_spec h :
  wf_hub h ->
  exists h', CloseHub h = Some h' /\ wf_hub h' /\ h_heap h' = shut <$> h_heap h /\
    h_closed h' = true /\ h_max h' = h_max h.
Proof.
  intros Hwf. unfold CloseHub. set (l := concat (map (fun kv => elements kv.2) (map_to_list (h_subs h)))).
  assert (Hin : forall p, p ∈ l <-> exists s, h_heap h !! p = Some s /\ sub_closed s = false).
  { intros p. unfold l. rewrite list_elem_of_In, in_concat. split.
    - intros (ps & Hps & Hp). apply in_map_iff in Hps as ([ev ws] & <- & Hm).
      apply list_elem_of_In, elem_of_map_to_list in Hm. apply list_elem_of_In, elem_of_elements in Hp. cbn in Hp.
      assert (Hd : p ∈ default ∅ (h_subs h !! ev)) by (by rewrite Hm).
      apply (wh_subs _ Hwf) in Hd as (s & Hs & _ & Ho). eauto.
    - intros (s & Hs & Ho). assert (Hd : p ∈ default ∅ (h_subs h !! sub_eventID s)) by (apply (wh_subs _ Hwf); eauto).
      destruct (h_subs h !! sub_eventID s) as [ws|] eqn:E; cbn in Hd; [|set_solver].
      exists (elements ws). split; [|apply list_elem_of_In; by apply elem_of_elements].
      apply in_map_iff. exists (sub_eventID s, ws). split; [done|]. apply list_elem_of_In. by apply elem_of_map_to_list. }
  assert (Hnd : NoDup l).
  { unfold l. pose proof (NoDup_map_to_list (h_subs h)) as Hnd.
    assert (Hmap : forall kv, kv ∈ map_to_list (h_subs h) -> h_subs h !! kv.1 = Some kv.2)
      by (intros [k v]; apply elem_of_map_to_list).
    revert Hnd Hmap. generalize (map_to_list (h_subs h)). clear l Hin. intros l.
    induction l as [|[ev ws] l IH]; intros Hnd Hmap; [constructor|]. cbn.
    apply NoDup_cons in Hnd as [Hni Hnd]. apply NoDup_app. split; [apply NoDup_elements|]. split.
    - intros p Hp%elem_of_elements Hq. rewrite list_elem_of_In, in_concat in Hq.
      destruct Hq as (ps & Hps & Hq). apply in_map_iff in Hps as ([ev' ws'] & <- & Hm).
      apply list_elem_of_In in Hm. apply list_elem_of_In, elem_of_elements in Hq. cbn in Hq.
      pose proof (Hmap (ev, ws) ltac:(by left)) as E3. pose proof (Hmap (ev', ws') ltac:(by right)) as E4.
      cbn in E3, E4.
      assert (H1 : p ∈ default ∅ (h_subs h !! ev)) by (by rewrite E3).
      assert (H2 : p ∈ default ∅ (h_subs h !! ev')) by (by rewrite E4).
      apply (wh_subs _ Hwf) in H1 as (s1 & E1 & <- & _), H2 as (s2 & E2 & <- & _).
      assert (s1 = s2) as -> by congruence. apply Hni.
      assert (ws = ws') as -> by congruence. done.
    - apply IH; [done|]. intros kv Hkv. apply Hmap. by right. }
  assert (Hwf0 : wf_hub (mark_closed h)) by (destruct Hwf; by split).
  destruct (each_spec remove shut (fun _ => True) l (mark_closed h)) as (h' & He & Hwf' & Hh & Hc & Hm).
  - intros. by apply remove_spec.
  - done.
  - done.
  - intros p (s & Hs & _)%Hin. eauto.
  - exists h'. split_and!; try done. rewrite Hh. cbn. apply map_eq. intros p.
    rewrite lookup_sql_update, lookup_fmap. destruct (h_heap h !! p) as [s|] eqn:Es; [|done]. cbn. f_equal.
    case_bool_decide as Hp; [done|]. destruct (sub_closed s) eqn:Ho.
    + unfold shut. by destruct s; cbn in *; subst.
    + exfalso. apply Hp, Hin. eauto.
Qed.

(** ** Executions *)

Inductive op :=
  | OpSubscribe (ev : string)
  | OpCloseSub (p : ptr)
  | OpPublish (ev : string) (u : Update)
  | OpClose
  | OpReceive (p : ptr).

(** The operation is about a subscription that exists. *)
Definition valid (o : op) (h : Hub) : bool :=
  match o with
  | OpCloseSub p | OpReceive p => bool_decide (is_Some (h_heap h !! p))
  | _ => true
  end.

(** One atomic step; [None] is a panic.  A receive with nothing to receive blocks. *)
Definition perform (o : op) (h : Hub) : option Hub :=
  match o with
  | OpSubscribe ev => Some (Subscribe ev h).2
  | OpCloseSub p => CloseSub p h
  | OpPublish ev u => PublishUpdate ev u h
  | OpClose => CloseHub h
  | OpReceive p => Some (from_option snd h (Receive p h))
  end.

(** For the record, what each subscription was owed (the updates published for its event
    since it began) and what its reader received. *)
Abbreviation ledger := (gmap ptr (list Update * list Update)).

Definition noted (o : op) (h : Hub) (g : ledger) : ledger :=
  match o with
  | OpSubscribe ev => match (Subscribe ev h).1 with Some p => <[p := ([], [])]> g | None => g end
  | OpPublish ev u => map_imap (fun p x =>
      Some (if bool_decide (sub_eventID <$> h_heap h !! p = Some ev) then (x.1 ++ [u], x.2) else x)) g
  | OpReceive p => match Receive p h with
                   | Some (Some u, _) => alter (fun x => (x.1, x.2 ++ [u])) p g
                   | _ => g
                   end
  | _ => g
  end.

(** The hubs and ledgers that any number of goroutines can bring about. *)
Inductive reach (max : Z) : Hub -> ledger -> Prop :=
  | reach_new : reach max (NewHub max) ∅
  | reach_step o h h' g :
      reach max h g -> valid o h = true -> perform o h = Some h' -> reach max h' (noted o h g).

(** *** The invariant holds everywhere *)

Lemma receive_spec p h r h' :
  wf_hub h -> Receive p h = Some (r, h') ->
  wf_hub h' /\ h_closed h' = h_closed h /\ h_max h' = h_max h /\
  exists s, h_heap h !! p = Some s /\
    match r with
    | Some u => exists rest, sub_c s = u :: rest /\ h_heap h' = <[p := {| sub_c := rest;
        sub_closed := sub_closed s; sub_eventID := sub_eventID s |}]> (h_heap h)
    | None => h' = h /\ sub_c s = [] /\ sub_closed s = true
    end.
Proof.
  intros Hwf. unfold Receive. destruct (h_heap h !! p) as [s|] eqn:Hp; [|done]. cbn.
  destruct (sub_c s) as [|u rest] eqn:Hc.
  - destruct (sub_closed s) eqn:Ho; [|done]. intros [= <- <-]. split_and!; try done. by exists s.
  - intros [= <- <-]. split; [|split_and!; try done; exists s; split; [done|]; by exists rest].
    apply wf_set_buffer; [done|done|]. pose proof (wh_buffers _ Hwf p s Hp) as Hb. rewrite Hc in Hb. cbn in Hb. lia.
Qed.

(** A step from a well-formed hub does not panic and ends in one. *)
Lemma perform_wf o h :
  wf_hub h -> (h_closed h = true -> forall p s, h_heap h !! p = Some s -> sub_closed s = true) ->
  valid o h = true ->
  exists h', perform o h = Some h' /\ wf_hub h' /\ h_max h' = h_max h /\
    (h_closed h' = true -> forall p s, h_heap h' !! p = Some s -> sub_closed s = true).
Proof.
  intros Hwf Hcl Hv. destruct o as [ev|p|ev u| |p]; cbn in Hv |- *.
  - pose proof (wf_subscribe ev h Hwf) as Hsub. destruct (Subscribe ev h) as [r h'].
    destruct Hsub as (Hwf' & Hc & Hm & Hr). exists h'. split_and!; try done.
    destruct r as [p|]; [destruct Hr as (_ & Hc0 & _); intros; congruence|].
    destruct Hr as [-> _]. by rewrite Hc.
  - reflect_bools. destruct Hv as [s Hs]. destruct (remove_spec p s h Hwf Hs) as (h' & Hr & Hwf' & Hh & Hc & Hm).
    exists h'. split_and!; try done. rewrite Hc, Hh. intros Hc0 q s' [[<- <-]|[_ Hq]]%lookup_insert_Some; eauto.
  - destruct (publish_spec ev u h Hwf) as (h' & Hr & Hwf' & Hh & Hc & Hm). exists h'. split_and!; try done.
    rewrite Hc, Hh. intros Hc0 q s'. rewrite lookup_sql_update. intros (s & Hq & ->)%fmap_Some.
    rewrite (Hcl Hc0 _ _ Hq). rewrite andb_false_r. eauto.
  - destruct (close_spec h Hwf) as (h' & Hr & Hwf' & Hh & Hc & Hm). exists h'. split_and!; try done.
    rewrite Hh. intros _ q s'. rewrite lookup_fmap. by intros (s & _ & ->)%fmap_Some.
  - eexists. split; [done|]. destruct (Receive p h) as [[r h']|] eqn:E; [|done]. cbn.
    destruct (receive_spec p h r h' Hwf E) as (Hwf' & Hc & Hm & s & Hs & Hr). split_and!; try done.
    rewrite Hc. intros Hc0 q s'. destruct r as [u|]; [|destruct Hr as (-> & _ & _); by apply Hcl].
    destruct Hr as (rest & _ & ->). intros [[<- <-]|[_ Hq]]%lookup_insert_Some; cbn; eauto.
Qed.

Lemma reach_wf max h g :
  reach max h g -> wf_hub h /\ h_max h = max /\
    (h_closed h = true -> forall p s, h_heap h !! p = Some s -> sub_closed s = true).
Proof.
  induction 1 as [|o h h' g _ (Hwf & Hm & Hcl) Hv Hp]; [split_and!; [apply wf_new|done|done]|].
  destruct (perform_wf o h Hwf Hcl Hv) as (h1 & E & Hwf' & Hm' & Hcl'). rewrite Hp in E. injection E as <-.
  split_and!; [done|congruence|done].
Qed.

(** *** What a reader gets *)

(** The reader got, in order, the first of the updates it was owed; all the others are in its
    buffer, or it has been cut off. *)
Definition in_order (h : Hub) (g : ledger) : Prop :=
  forall p s, h_heap h !! p = Some s -> exists owed got, g !! p = Some (owed, got) /\
    (got ++ sub_c s) `prefix_of` owed /\ (sub_closed s = false -> got ++ sub_c s = owed).

Lemma noted_in_order o h h' g :
  wf_hub h -> in_order h g -> perform o h = Some h' -> valid o h = true -> in_order h' (noted o h g).
Proof.
  intros Hwf Hin Hp Hv. destruct o as [ev|p|ev u| |p]; cbn in *.
  - pose proof (wf_subscribe ev h Hwf) as Hsub. destruct (Subscribe ev h) as [r h1]. cbn in *.
    injection Hp as ->. destruct Hsub as (_ & _ & _ & Hr). destruct r as [q|]; intros p s.
    + destruct Hr as (_ & _ & ->). intros [[<- <-]|[Hne Hs]]%lookup_insert_Some.
      * exists [], []. by rewrite lookup_insert_eq.
      * rewrite lookup_insert_ne by done. by apply Hin.
    + destruct Hr as [-> _]. apply Hin.
  - reflect_bools. destruct Hv as [s Hs]. destruct (remove_spec p s h Hwf Hs) as (h1 & Hr & _ & Hh & _).
    unfold CloseSub in Hp. rewrite Hr in Hp. injection Hp as <-. intros q s'. rewrite Hh.
    intros [[<- <-]|[_ Hq]]%lookup_insert_Some; [|by apply Hin].
    destruct (Hin p s Hs) as (owed & got & Hg & Hpre & _). exists owed, got. done.
  - destruct (publish_spec ev u h Hwf) as (h1 & Hr & _ & Hh & _). rewrite Hr in Hp. injection Hp as <-.
    intros q s'. rewrite Hh, lookup_sql_update. intros (s & Hq & ->)%fmap_Some.
    destruct (Hin q s Hq) as (owed & got & Hg & Hpre & Heq). rewrite map_lookup_imap, Hg, Hq. cbn.
    destruct (decide (sub_eventID s = ev)) as [Hev|Hev].
    + rewrite !bool_decide_eq_true_2 by (by f_equal). do 2 eexists. split; [done|]. cbn.
      destruct (sub_closed s) eqn:Ho; cbn.
      * split; [|congruence]. etrans; [exact Hpre|by exists [u]].
      * unfold pushed. case_bool_decide; cbn.
        -- rewrite app_assoc, (Heq eq_refl). done.
        -- split; [|done]. etrans; [exact Hpre|by exists [u]].
    + rewrite !bool_decide_eq_false_2 by (by (intros [= ?] || idtac)). cbn. eauto.
  - destruct (close_spec h Hwf) as (h1 & Hr & _ & Hh & _). rewrite Hr in Hp. injection Hp as <-.
    intros q s'. rewrite Hh, lookup_fmap. intros (s & Hq & ->)%fmap_Some.
    destruct (Hin q s Hq) as (owed & got & Hg & Hpre & _). exists owed, got. done.
  - injection Hp as <-. destruct (Receive p h) as [[r h1]|] eqn:E; [|done]. cbn.
    destruct (receive_spec p h r h1 Hwf E) as (_ & _ & _ & s & Hs & Hr).
    destruct r as [u|]; [|by destruct Hr as (-> & _)]. destruct Hr as (rest & Hc & Hh).
    intros q s'. rewrite Hh. intros [[<- <-]|[Hne Hq]]%lookup_insert_Some.
    + destruct (Hin p s Hs) as (owed & got & Hg & Hpre & Heq). rewrite Hc in Hpre, Heq.
      exists owed, (got ++ [u]). rewrite lookup_alter_eq, Hg. cbn. rewrite <- app_assoc. done.
    + rewrite lookup_alter_ne by done. by apply Hin.
Qed.

Lemma reach_in_order max h g : reach max h g -> in_order h g.
Proof.
  induction 1 as [|o h h' g Hr IH Hv Hp]; [intros p' s'; cbn; by rewrite lookup_empty|].
  destruct (reach_wf max h g Hr) as (Hwf & _). by apply (noted_in_order o h).
Qed.

(** ** Properties *)

(** C27: the hub is safe for concurrent use.  Whatever subscribers, readers, publishers and a
    shutdown do, in any order, no operation ever panics (nothing is sent on a closed channel
    and no channel is closed twice); the number of subscribers is the number of open
    subscriptions and stays within the limit; no buffer exceeds 64 updates; and once the hub
    is closed nobody is subscribed and nobody can subscribe. *)
Theorem hub_is_safe max h g :
  reach max h g ->
  (forall o, valid o h = true -> perform o h <> None) /\
  Subscribers h = Z.of_nat (size (open_subs h)) /\ (0 <= Subscribers h <= Z.max 0 max)%Z /\
  h_gauge h = Subscribers h /\
  (forall p s, h_heap h !! p = Some s -> length (sub_c s) <= 64) /\
  (h_closed h = true -> Subscribers h = 0%Z /\ forall ev, (Subscribe ev h).1 = None).
Proof.
  intros Hr. destruct (reach_wf max h g Hr) as (Hwf & Hm & Hcl). pose proof Hwf as [Hs Hn Hc Hmax Hg Hb].
  unfold Subscribers. split_and!; try done; try lia.
  - intros o Hv. destruct (perform_wf o h Hwf Hcl Hv) as (h' & E & _). by rewrite E.
  - intros Hclosed. split; [|intros ev; unfold Subscribe; by rewrite Hclosed].
    rewrite Hc. assert (open_subs h = ∅) as ->; [|done]. apply map_empty. intros p.
    apply map_lookup_filter_None. right. intros s Hp Ho. specialize (Hcl Hclosed p s Hp). cbn in Ho. congruence.
Qed.

(** A watcher misses nothing.  For every subscription, what its reader received is, in
    order and without gaps, the beginning of what was published for its event since it
    subscribed; while it is open, the rest is waiting in its buffer; and a publish cuts it off
    only when 64 updates are waiting unread. *)
Lemma watchers_miss_nothing max h g p s :
  reach max h g -> h_heap h !! p = Some s ->
  (exists owed got, g !! p = Some (owed, got) /\ (got ++ sub_c s) `prefix_of` owed /\
     (sub_closed s = false -> got ++ sub_c s = owed)) /\
  (sub_closed s = false -> forall ev u h', PublishUpdate ev u h = Some h' ->
     exists s', h_heap h' !! p = Some s' /\
       (sub_closed s' = true <-> ev = sub_eventID s /\ length (sub_c s) = 64)).
Proof.
  intros Hr Hp. pose proof (reach_in_order max h g Hr) as Hin. destruct (reach_wf max h g Hr) as (Hwf & _). split; [by apply Hin|].
  intros Ho ev u h' Hpub. destruct (publish_spec ev u h Hwf) as (h1 & E & _ & Hh & _).
  rewrite Hpub in E. injection E as <-. rewrite Hh, lookup_sql_update, Hp. cbn. eexists. split; [done|].
  pose proof (wh_buffers _ Hwf p s Hp) as Hb. rewrite Ho, andb_true_r. unfold pushed, subscriberBuffer in *.
  repeat case_bool_decide; cbn; rewrite ?Ho; split; try done; try (intros [? ?]; congruence || lia);
    intros _; split; congruence || lia.
Qed.

(** ** Witnesses *)

Definition ex_update : Update := {| up_SeatIDs := ["us1"]; up_State := "sold" |}.

Definition ex_hub : Hub := default (NewHub 1) (PublishUpdate "ue" ex_update (Subscribe "ue" (NewHub 1)).2).

Definition ex_ledger : ledger := noted (OpPublish "ue" ex_update) (Subscribe "ue" (NewHub 1)).2
  (noted (OpSubscribe "ue") (NewHub 1) ∅).

Lemma ex_hub_reach : reach 1 ex_hub ex_ledger.
Proof.
  unfold ex_ledger. eapply reach_step; [|done|vm_compute; reflexivity].
  eapply reach_step; [apply reach_new|done|vm_compute; reflexivity].
Qed.

Lemma hub_is_safe_witness : Subscribers ex_hub = 1%Z /\ perform OpClose ex_hub <> None.
Proof.
  split; [vm_compute; reflexivity|].
  exact (proj1 (hub_is_safe 1 ex_hub ex_ledger ex_hub_reach) OpClose eq_refl).
Defined.

Lemma watchers_miss_nothing_witness :
  exists owed got, ex_ledger !! 0 = Some (owed, got) /\ got ++ [ex_update] = owed.
Proof.
  destruct (watchers_miss_nothing 1 ex_hub ex_ledger 0
    {| sub_c := [ex_update]; sub_closed := false; sub_eventID := "ue" |} ex_hub_reach
    ltac:(vm_compute; reflexivity)) as [(owed & got & Hg & _ & Heq) _].
  exists owed, got. split; [exact Hg|]. exact (Heq eq_refl).
Defined.
