(* ===== verification/Authz.v ===== *)
(** * Roles and access tokens ([pkg/authz], [pkg/jwt])

    The ladder of roles, and the signed claims that carry one from auth-svc to the
    gateway. *)

From stdpp Require Import base gmap list strings numbers.
From S2P Require Import Prelude Platform.

(** ** Roles *)

Abbreviation Role := string.

Definition RoleUser : Role := "user".
Definition RoleOrganizer : Role := "organizer".
Definition RoleAdmin : Role := "admin".

Definition rank : gmap Role Z :=
  <[RoleUser := 1%Z]> (<[RoleOrganizer := 2%Z]> {[RoleAdmin := 3%Z]}).

Definition Valid (r : Role) : bool := match rank !! r with Some _ => true | None => false end.

Definition AtLeast (r min : Role) : bool :=
  match rank !! r with
  | None => false
  | Some have =>
      match rank !! min with
      | None => false
      | Some need => (need <=? have)%Z
      end
  end.

Lemma rank_cases r n : rank !! r = Some n ->
  (r = RoleUser /\ n = 1%Z) \/ (r = RoleOrganizer /\ n = 2%Z) \/ (r = RoleAdmin /\ n = 3%Z).
Proof.
  unfold rank. intros [[<- <-]|[_ [[<- <-]|[_ [<- <-]%lookup_singleton_Some]]%lookup_insert_Some]]%lookup_insert_Some;
    auto.
Qed.

(** The ladder, and nothing outside it: who is at least an organizer is an organizer or an
    admin; an unknown role, or an unknown requirement, grants nothing. *)
Lemma AtLeast_organizer r : AtLeast r RoleOrganizer = true <-> r = RoleOrganizer \/ r = RoleAdmin.
Proof.
  unfold AtLeast. split.
  - destruct (rank !! r) as [n|] eqn:E; [|done]. apply rank_cases in E as [[-> ->]|[[-> ->]|[-> ->]]]; [done|auto..].
  - by intros [-> | ->].
Qed.

(** ** Access tokens *)

(** [jwt.NumericDate] keeps seconds. *)
Record Claims := {
  cl_UserID : string;
  cl_Email : string;
  cl_Role : string;
  cl_IssuedAt : Z;
  cl_ExpiresAt : Z;
}.

#[global] Instance Claims_eq_dec : EqDecision Claims.
Proof. solve_decision. Defined.

(** The JWT library with one RSA key pair: signing claims, and parsing a token restricted
    to RS256 at a time in nanoseconds. *)
Class JwtLib : Type := {
  jwt_sign : Claims -> res string;
  jwt_parse : Z -> string -> res Claims;
}.

(** A signed token is parsed to its claims before it expires and refused from then on. *)
Class JwtLaws (L : JwtLib) : Prop := {
  jwt_parse_sign : forall c t now, jwt_sign c = Ok t -> (now < cl_ExpiresAt c * 10 ^ 9)%Z ->
    jwt_parse now t = Ok c;
  jwt_parse_expired : forall c t now, jwt_sign c = Ok t -> (cl_ExpiresAt c * 10 ^ 9 <= now)%Z ->
    is_ok (jwt_parse now t) = false;
}.

Section Jwt.
Context {L : JwtLib}.

(** [Signer.Sign] at time [now]; [ttl] in nanoseconds. *)
Definition Sign (now : Z) (userID email role : string) (ttl : Z) : res string :=
  match jwt_sign {| cl_UserID := userID; cl_Email := email; cl_Role := role;
                    cl_IssuedAt := now / 10 ^ 9; cl_ExpiresAt := (now + ttl) / 10 ^ 9 |} with
  | Ok t => Ok t
  | Err e => Err (EWrap "signing token" e)
  end.

(** [Verifier.Verify] at time [now]. *)
Definition Verify (now : Z) (token : string) : res Claims :=
  match jwt_parse now token with
  | Ok c => Ok c
  | Err e => Err (EWrap "parsing token" e)
  end.
End Jwt.
