(* ===== verification/Auth.v ===== *)
(** * auth-svc ([services/auth/internal/server])

    Accounts, password logins, and refresh tokens that rotate. *)

From Stdlib Require Import String.
From stdpp Require Import base gmap list strings numbers.
From S2P Require Import Prelude Platform GoStrings Authz.

(** ** Libraries *)

(** [strings.ToLower], [mail.ParseAddress] (the address it finds), bcrypt (hashing depends
    on a random salt) and hex-encoded SHA-256. *)
Class AuthLib : Type := {
  to_lower : string -> string;
  parse_address : string -> option string;
  bcrypt_generate : nat -> string -> res string;
  bcrypt_compare : string -> string -> bool;
  sha256_hex : string -> string;
}.

(** A password matches its own hash, and passwords of up to 72 bytes can be hashed. *)
Class AuthLibLaws (L : AuthLib) : Prop := {
  bcrypt_matches : forall n pw h, bcrypt_generate n pw = Ok h -> bcrypt_compare h pw = true;
  bcrypt_accepts : forall n pw, (Z.of_nat (String.length pw) <= 72)%Z -> is_ok (bcrypt_generate n pw) = true;
}.

(** ** Validation ([validate.go]) *)

Definition maxEmailLen : Z := 254.
Definition minPasswordLen : Z := 8.
Definition maxPasswordLen : Z := 72.

Definition normalizeEmail {L : AuthLib} (raw : string) : res string :=
  let email := to_lower (trim_space raw) in
  if bool_decide (email = "") || (maxEmailLen <? Z.of_nat (String.length email))%Z
  then Err (EStatus InvalidArgument "email is not valid" [])
  else match parse_address email with
  | None => Err (EStatus InvalidArgument "email is not valid" [])
  | Some addr => if bool_decide (addr <> email) then Err (EStatus InvalidArgument "email is not valid" [])
                 else Ok email
  end.

Definition validatePassword (password : string) : res unit :=
  let n := Z.of_nat (String.length password) in
  if (n <? minPasswordLen)%Z || (maxPasswordLen <? n)%Z
  then Err (EStatus InvalidArgument "password must be 8 to 72 bytes" [])
  else Ok tt.

(** ** State ([migrations/auth]) *)

Definition accessTokenTTL : Z := 15 * 60 * 10 ^ 9.
Definition refreshTokenTTL : Z := 7 * 24 * 3600 * 10 ^ 9.

Definition errBadCredentials : error := EStatus Unauthenticated "Invalid email or password" [].
Definition errInvalidRefresh : error := EStatus Unauthenticated "Invalid refresh token" [].
Definition errExpiredRefresh : error := EStatus Unauthenticated "Refresh token expired" [].

Section Db.
Context `{U : UuidLib}.

Record user_row := { us_email : string; us_password_hash : string; us_role : string }.

Record token_row := {
  tk_user_id : UUID;
  tk_hash : string;
  tk_revoked : bool;
  tk_expires_at : Z;
}.

Record auth_db := {
  tb_users : gmap UUID user_row;
  tb_tokens : gmap UUID token_row;
}.

(** The database, and the supply of random tokens with the position in it; the salts of
    bcrypt come from the same supply. *)
Record auth_state := {
  au_db : auth_db;
  au_random : nat -> string;
  au_next : nat;
}.

#[global] Instance auth_has_db : HasDb auth_state auth_db := {|
  db_get := au_db;
  db_set := fun d s => {| au_db := d; au_random := au_random s; au_next := au_next s |};
|}.

Record user := {
  u_id : UUID;
  u_email : string;
  u_passwordHash : string;
  u_role : Role;
}.

(** [INSERT INTO users] *)
Definition insert_user (id : UUID) (r : user_row) (d : auth_db) : res (unit * auth_db) :=
  if bool_decide (is_Some (tb_users d !! id)) then Err (EPg unique_violation "users_pkey")
  else if negb (Valid (us_role r)) then Err (EPg check_violation "users_role_check")
  else if bool_decide (sql_count (fun _ r' => bool_decide (us_email r' = us_email r)) (tb_users d) = 0)
  then Ok (tt, {| tb_users := <[id := r]> (tb_users d); tb_tokens := tb_tokens d |})
  else Err (EPg unique_violation "users_email_key").

(** [INSERT INTO refresh_tokens] *)
Definition insert_token (id : UUID) (r : token_row) (d : auth_db) : res (unit * auth_db) :=
  if bool_decide (is_Some (tb_tokens d !! id)) then Err (EPg unique_violation "refresh_tokens_pkey")
  else if bool_decide (is_Some (tb_users d !! tk_user_id r))
  then Ok (tt, {| tb_users := tb_users d; tb_tokens := <[id := r]> (tb_tokens d) |})
  else Err (EPg foreign_key_violation "refresh_tokens_user_id_fkey").

Definition revoke (r : token_row) : token_row :=
  {| tk_user_id := tk_user_id r; tk_hash := tk_hash r; tk_revoked := true; tk_expires_at := tk_expires_at r |}.

(** [UPDATE refresh_tokens SET revoked = true WHERE P] *)
Definition revoke_where (P : UUID -> token_row -> bool) (d : auth_db) : auth_db :=
  {| tb_users := tb_users d; tb_tokens := sql_update P revoke (tb_tokens d) |}.
End Db.

(** ** Handlers ([server.go]) *)

Record Credentials := { cd_Email : string; cd_Password : string }.

(** [LoginResponse] and [RefreshResponse] have the same fields. *)
Record Session := {
  sn_AccessToken : string;
  sn_RefreshToken : string;
  sn_ExpiresIn : Z;
  sn_UserId : string;
  sn_Email : string;
  sn_Role : string;
}.

(** [New]: the configured organizers, trimmed and lower-cased, without empty entries. *)
Definition New {L : AuthLib} (organizerEmails : list string) : gset string :=
  foldl (fun m e => let e := to_lower (trim_space e) in if bool_decide (e = "") then m else {[e]} ∪ m) ∅ organizerEmails.

Section Server.
Context `{U : UuidLib} {L : AuthLib} {T : JwtLib}.
(** The field of [Server] that [New] computes. *)
Variable organizers : gset string.

Definition roleFor (email : string) : Role :=
  if bool_decide (email ∈ organizers) then RoleOrganizer else RoleUser.

Definition hashToken (raw : string) : string := sha256_hex raw.

Definition next_random : prog auth_state nat := fun a s =>
  (Ok (au_next s), a, {| au_db := au_db s; au_random := au_random s; au_next := S (au_next s) |}).

Definition Register (req : Credentials) : prog auth_state string :=
  email ← lift_res (normalizeEmail (cd_Email req));
  _ ← lift_res (validatePassword (cd_Password req));
  salt ← next_random;
  match bcrypt_generate salt (cd_Password req) with
  | Err e => throw (EWrap "hash password" e)
  | Ok hash =>
      id ← uuid_new;
      inserted ← attempt (pool_exec (fun e => e) (insert_user id
        {| us_email := email; us_password_hash := hash; us_role := roleFor email |}));
      match inserted with
      | Ok _ => mret (uuid_string id)
      | Err e =>
          if bool_decide (fst <$> as_pg e = Some unique_violation)
          then throw (EStatus AlreadyExists "email already registered" [])
          else throw (EWrap "insert user" e)
      end
  end.

(** [findUser]: [None] is "not found". *)
Definition findUser (rawEmail : string) : prog auth_state (option user) :=
  match normalizeEmail rawEmail with
  | Err _ => mret None
  | Ok email =>
      _ ← pg_call (EWrap "look up user");
      s ← get_state;
      mret (match sql_select (fun _ r => bool_decide (us_email r = email)) (tb_users (au_db s)) with
            | [] => None
            | (id, r) :: _ => Some {| u_id := id; u_email := us_email r;
                                      u_passwordHash := us_password_hash r; u_role := us_role r |}
            end)
  end.

(** [TIMESTAMPTZ] keeps microseconds. *)
Definition pg_time (t : Z) : Z := (t / 1000 * 1000)%Z.

(** [issueTokens] through [exec], the pool's or a transaction's; what [exec] returns is
    handed on. *)
Definition issueTokens {X} (exec : (auth_db -> res (unit * auth_db)) -> prog auth_state X) (u : user)
    : prog auth_state (string * string * X) :=
  now ← time_now;
  match Sign now (uuid_string (u_id u)) (u_email u) (u_role u) accessTokenTTL with
  | Err e => throw (EWrap "sign access token" e)
  | Ok accessToken =>
      _ ← pg_call (EWrap "generate refresh token");     (* rand.Read *)
      n ← next_random;
      s ← get_state;
      let refreshToken := au_random s n in
      id ← uuid_new;
      done ← attempt (exec (insert_token id
        {| tk_user_id := u_id u; tk_hash := hashToken refreshToken; tk_revoked := false;
           tk_expires_at := pg_time (now + refreshTokenTTL) |}));
      match done with
      | Err e => throw (EWrap "insert refresh token" e)
      | Ok x => mret (accessToken, refreshToken, x)
      end
  end.

Definition session (tokens : string * string) (u : user) : Session :=
  {| sn_AccessToken := tokens.1; sn_RefreshToken := tokens.2;
     sn_ExpiresIn := accessTokenTTL / 10 ^ 9; sn_UserId := uuid_string (u_id u);
     sn_Email := u_email u; sn_Role := u_role u |}.

(** The comparison with [dummyHash] for an unknown address only costs time. *)
Definition Login (req : Credentials) : prog auth_state Session :=
  found ← findUser (cd_Email req);
  match found with
  | None => throw errBadCredentials
  | Some u =>
      if bcrypt_compare (u_passwordHash u) (cd_Password req) then
        '(tokens, _) ← issueTokens (pool_exec (fun e => e)) u;
        mret (session tokens u)
      else throw errBadCredentials
  end.

(** A statement on the transaction's view [tx]. *)
Definition tx_exec (tx : auth_db) (stmt : auth_db -> res (unit * auth_db)) : prog auth_state auth_db :=
  _ ← pg_call (fun e => e);
  match stmt tx with
  | Ok (_, tx') => mret tx'
  | Err e => throw e
  end.

Definition Refresh (refreshToken : string) : prog auth_state Session :=
  let tokenHash := hashToken refreshToken in
  tx ← tx_begin (EWrap "begin transaction");
  _ ← pg_call (EWrap "look up refresh token");
  match sql_select (fun _ r => bool_decide (tk_hash r = tokenHash)) (tb_tokens tx) with
  | [] => throw errInvalidRefresh
  | (tokenID, row) :: _ =>
      if tk_revoked row then
        _ ← pg_call (EWrap "revoke all tokens");
        _ ← tx_commit (EWrap "commit revocation")
              (revoke_where (fun _ r => bool_decide (tk_user_id r = tk_user_id row)) tx);
        throw errInvalidRefresh
      else
        now ← time_now;
        if (tk_expires_at row <? now)%Z then throw errExpiredRefresh else
        _ ← pg_call (EWrap "revoke token");
        let tx := revoke_where (fun k _ => bool_decide (k = tokenID)) tx in
        _ ← pg_call (EWrap "look up user");
        match tb_users tx !! tk_user_id row with
        | None => throw (EWrap "look up user" ENoRows)
        | Some r =>
            let u := {| u_id := tk_user_id row; u_email := us_email r; u_passwordHash := "";
                        u_role := us_role r |} in
            '(tokens, tx) ← issueTokens (tx_exec tx) u;
            _ ← tx_commit (EWrap "commit") tx;
            mret (session tokens u)
        end
  end.

Definition Logout (refreshToken : string) : prog auth_state unit :=
  pool_exec (EWrap "revoke refresh token") (fun d =>
    Ok (tt, revoke_where (fun _ r => bool_decide (tk_hash r = hashToken refreshToken)) d)).
End Server.
