(* ===== verification/AuthProps.v ===== *)
(** * auth-svc: the properties *)

From Stdlib Require Import String.
From stdpp Require Import base gmap strings numbers list sorting.
From S2P Require Import Prelude Platform GoStrings Instances Authz Auth.

(** ** What a call does to the table of refresh tokens *)

Section Tokens.
Context `{U : UuidLib} {L : AuthLib} {T : JwtLib}.
Variable organizers : gset string.
Implicit Types (s : auth_state) (a : ambient).

(** The hash of the [n]-th random token. *)
Definition nth_hash s (n : nat) : string := hashToken (au_random s n).

(** Rows are revoked, never restored or removed, and at most one row is added, with a
    token nobody had before. *)
Definition token_step s s' : Prop :=
  au_random s' = au_random s /\ au_next s <= au_next s' /\ exists P,
    tb_tokens (au_db s') = sql_update P revoke (tb_tokens (au_db s)) \/
    exists id row n, tb_tokens (au_db s) !! id = None /\ au_next s <= n < au_next s' /\
      tk_hash row = nth_hash s n /\
      tb_tokens (au_db s') = <[id := row]> (sql_update P revoke (tb_tokens (au_db s))).

Lemma token_step_same s s' :
  au_random s' = au_random s -> au_next s <= au_next s' -> tb_tokens (au_db s') = tb_tokens (au_db s) ->
  token_step s s'.
Proof.
  intros Hr Hn Ht. split; [done|]. split; [done|]. exists (fun _ _ => false). left.
  by rewrite Ht, sql_update_none.
Qed.

(** The state after one random token was drawn. *)
Definition drawn s : auth_state := {| au_db := au_db s; au_random := au_random s; au_next := S (au_next s) |}.

Lemma drawn_step s : token_step s (drawn s).
Proof. apply token_step_same; cbn; [done|lia|done]. Qed.

Lemma wp_issueTokens {X} (exec : (auth_db -> res (unit * auth_db)) -> prog auth_state X) u Q a s :
  (forall e a', Q (Err e) a' s) ->
  (forall access id exp a', wp (exec (insert_token id {| tk_user_id := u_id u;
       tk_hash := nth_hash s (au_next s); tk_revoked := false; tk_expires_at := exp |}))
     (fun r a'' s'' => Q (match r with
        | Ok x => Ok (access, au_random s (au_next s), x)
        | Err e => Err (EWrap "insert refresh token" e)
        end) a'' s'') a' (drawn s)) ->
  wp (issueTokens exec u) Q a s.
Proof.
  intros Herr Hexec. unfold issueTokens. wp_steps; [|done|done].
  unfold wp at 1, next_random. wp_steps. eapply wp_mono; [apply Hexec|]. cbn.
  intros [y|e] a2 s2 HQ; wp_steps; exact HQ.
Qed.

Lemma Register_tokens req a s : wp (Register organizers req) (fun _ _ s' => token_step s s') a s.
Proof.
  assert (Hd := drawn_step s). unfold Register. wp_steps.
  destruct (normalizeEmail _); [|by apply token_step_same]. wp_steps.
  destruct (validatePassword _); [|by apply token_step_same]. wp_steps.
  unfold wp at 1, next_random. wp_steps; [|done].
  apply wp_pool_exec; cbn [id].
  - intros _. wp_steps; done.
  - unfold insert_user. repeat case_match; simplify_eq; try split; intros; wp_steps; try done;
      (apply token_step_same; cbn; [done|lia|done]).
Qed.

Lemma Login_tokens req a s : wp (Login req) (fun _ _ s' => token_step s s') a s.
Proof.
  assert (Hsame : token_step s s) by (by apply token_step_same).
  unfold Login, findUser. wp_steps; try done. destruct (normalizeEmail _); wp_steps; try done.
  destruct (sql_select _ _) as [|[id r] ?]; wp_steps; try done.
  apply wp_issueTokens; [done|]. intros access tid exp a'.
  apply wp_pool_exec; [intros _; apply drawn_step|].
  unfold insert_token. cbn. repeat case_match; simplify_eq; try apply drawn_step.
  reflect_bools. assert (Hnone : tb_tokens (au_db s) !! tid = None) by (by apply eq_None_not_Some).
  assert (Hst : token_step s {| au_db := {| tb_users := tb_users (au_db s);
      tb_tokens := <[tid := {| tk_user_id := id; tk_hash := nth_hash s (au_next s); tk_revoked := false;
                              tk_expires_at := exp |}]> (tb_tokens (au_db s)) |};
      au_random := au_random s; au_next := S (au_next s) |}).
  { split; [done|]. split; [cbn; lia|]. exists (fun _ _ => false). right. eexists tid, _, (au_next s).
    split; [exact Hnone|]. split; [cbn; lia|]. rewrite sql_update_none by done. cbn.
    split; cycle 1; [reflexivity|done]. }
  split; [wp_steps; exact Hst|intros _; exact Hst].
Qed.

Lemma insert_token_step s P tid row x d' :
  tk_hash row = nth_hash s (au_next s) ->
  insert_token tid row (revoke_where P (au_db s)) = Ok (x, d') ->
  token_step s (db_set d' (drawn s)) /\ tb_tokens (au_db s) !! tid = None /\
  tb_tokens d' = <[tid := row]> (sql_update P revoke (tb_tokens (au_db s))).
Proof.
  intros Hh. unfold insert_token. case_bool_decide as Hc; [done|]. case_bool_decide; [|done]. intros Hd. injection Hd as _ <-. cbn in *.
  assert (Hnone : tb_tokens (au_db s) !! tid = None).
  { apply eq_None_not_Some. intros [r Hr]. apply Hc. rewrite lookup_sql_update, Hr. by eexists. }
  split; [|by split]. split; [done|]. split; [cbn; lia|]. eexists. right. eexists tid, _, (au_next s).
  split; [exact Hnone|]. split; [cbn; lia|]. cbn. split; cycle 1; [reflexivity|done].
Qed.

Lemma Refresh_tokens tok a s :
  wp (Refresh tok) (fun r _ s' => token_step s s' /\
    (is_ok r = true -> exists id row row', tb_tokens (au_db s) !! id = Some row /\
       tk_hash row = hashToken tok /\ tk_revoked row = false /\
       tb_tokens (au_db s') !! id = Some row' /\ tk_revoked row' = true)) a s.
Proof.
  assert (Hsame : token_step s s) by (by apply token_step_same).
  unfold Refresh. wp_steps; try done; cbn in *.
  - split; [|done]. split; [done|]. split; [cbn; lia|]. eexists. by left.
  - split; [|done]. split; [done|]. split; [cbn; lia|]. eexists. by left.
  - apply wp_issueTokens; [done|]. intros access tid exp a'. unfold tx_exec.
    wp_steps; cbn in *; try (split; [apply drawn_step|done]);
      (edestruct insert_token_step as (Hst & Hnone & Htb); [|exact Heqr|]; [done|]);
      (split; [exact Hst|]); [|done].
    intros _. pose proof (elem_of_sql_select (fun _ r => bool_decide (tk_hash r = hashToken tok))
      (tb_tokens (au_db s)) u t) as [Hsel _]. rewrite Heql in Hsel. destruct Hsel as [Hrow Hh]; [by left|].
    reflect_bools. exists u, t, (revoke t). split_and!; try done.
    rewrite Htb, lookup_insert_ne by congruence. rewrite lookup_sql_update, Hrow. cbn.
    by rewrite bool_decide_eq_true_2.
Qed.

Lemma Logout_tokens tok a s : wp (Logout tok) (fun _ _ s' => token_step s s') a s.
Proof.
  unfold Logout. apply wp_pool_exec; [intros _; by apply token_step_same|]. cbn.
  assert (Hst : token_step s (db_set (revoke_where (fun _ r => bool_decide (tk_hash r = hashToken tok)) (au_db s)) s))
    by (split; [done|]; split; [cbn; lia|]; eexists; by left).
  split; [exact Hst|intros _; exact Hst].
Qed.
End Tokens.

(** ** Sequences of calls *)

Inductive auth_call :=
  | CallRegister (req : Credentials)
  | CallLogin (req : Credentials)
  | CallRefresh (refreshToken : string)
  | CallLogout (refreshToken : string).

#[global] Instance Credentials_eq_dec : EqDecision Credentials.
Proof. solve_decision. Defined.
#[global] Instance auth_call_eq_dec : EqDecision auth_call.
Proof. solve_decision. Defined.

Section Calls.
Context `{U : UuidLib} {L : AuthLib} {T : JwtLib}.
Variable organizers : gset string.
Implicit Types (s : auth_state) (a : ambient).

Definition run_auth (c : auth_call) : prog auth_state unit :=
  match c with
  | CallRegister req => _ ← Register organizers req; mret tt
  | CallLogin req => _ ← Login req; mret tt
  | CallRefresh tok => _ ← Refresh tok; mret tt
  | CallLogout tok => Logout tok
  end.

(** The service answers one call after another, each with its own clock and fates; which of
    them succeeded. *)
Fixpoint serve (l : list (ambient * auth_call)) s : list (auth_call * bool) * auth_state :=
  match l with
  | [] => ([], s)
  | (a, c) :: l' =>
      let '(r, _, s') := run_auth c a s in
      let (rs, s'') := serve l' s' in ((c, is_ok r) :: rs, s'')
  end.

Lemma wp_void {A} (m : prog auth_state A) Q a s :
  wp m (fun r a' s' => Q (match r with Ok _ => Ok tt | Err e => Err e end) a' s') a s ->
  wp (_ ← m; mret tt) Q a s.
Proof. intros Hw. apply wp_bind. eapply wp_mono; [exact Hw|]. by intros [x|e] a' s'. Qed.

Lemma run_auth_tokens c a s : wp (run_auth c) (fun _ _ s' => token_step s s') a s.
Proof.
  destruct c as [req|req|tok|tok]; cbn [run_auth]; try apply wp_void.
  - apply Register_tokens.
  - apply Login_tokens.
  - eapply wp_mono; [apply Refresh_tokens|]. by intros r a' s' [? _].
  - apply Logout_tokens.
Qed.

(** A token nobody can refresh with any more: its rows are revoked, and no token drawn from
    now on has its hash. *)
Definition spent (tok : string) s : Prop :=
  (forall id r, tb_tokens (au_db s) !! id = Some r -> tk_hash r = hashToken tok -> tk_revoked r = true) /\
  (forall n, au_next s <= n -> nth_hash s n <> hashToken tok).

Lemma spent_step tok s s' : token_step s s' -> spent tok s -> spent tok s'.
Proof.
  intros (Hr & Hn & P & Ht) [Hrev Hfut].
  assert (Hold : forall id r, sql_update P revoke (tb_tokens (au_db s)) !! id = Some r ->
    tk_hash r = hashToken tok -> tk_revoked r = true).
  { intros id r. rewrite lookup_sql_update. intros (r0 & Hr0 & ->)%fmap_Some.
    destruct (P id r0); [done|]. by eapply Hrev. }
  split; [|intros n Hle; unfold nth_hash; rewrite Hr; apply Hfut; lia].
  intros id r Hid Hh. destruct Ht as [Ht|(id' & row & n & _ & Hle & Hrow & Ht)]; rewrite Ht in Hid; [by eapply Hold|].
  apply lookup_insert_Some in Hid as [[_ <-]|[_ Hid]]; [|by eapply Hold].
  exfalso. apply (Hfut n); [lia|]. congruence.
Qed.

Lemma spent_refuses tok a s r a' s' : spent tok s -> Refresh tok a s = (r, a', s') -> is_ok r = false.
Proof.
  intros [Hrev _]. revert r a' s'. wp_start. eapply wp_mono; [apply Refresh_tokens|].
  intros r a' s' [_ Hok]. destruct r as [x|e]; [|done]. cbn in Hok |- *.
  destruct (Hok eq_refl) as (id & row & _ & Hid & Hh & Hnot & _). rewrite (Hrev id row Hid Hh) in Hnot. done.
Qed.

Lemma spent_serve tok l s : spent tok s -> (CallRefresh tok, true) ∉ (serve l s).1.
Proof.
  revert s. induction l as [|[a c] l IH]; intros s Hs; [apply not_elem_of_nil|]. cbn [serve].
  pose proof (run_auth_tokens c a s) as Hst. unfold wp in Hst.
  destruct (run_auth c a s) as [[r a'] s'] eqn:Er. specialize (IH s' (spent_step _ _ _ Hst Hs)).
  destruct (serve l s') as [rs s2]. cbn in IH |- *. apply not_elem_of_cons. split; [|done].
  intros [= <- Hr]. cbn in Er. unfold mbind, prog_bind in Er.
  destruct (Refresh tok a s) as [[r0 a0] s0] eqn:E0. pose proof (spent_refuses _ _ _ _ _ _ Hs E0) as Hno.
  destruct r0; [done|]. injection Er as <- _ _. done.
Qed.

(** Every stored hash is the hash of a token drawn before, and of one row only. *)
Record wf_auth s : Prop := {
  wa_drawn : forall id r, tb_tokens (au_db s) !! id = Some r ->
    exists n, n < au_next s /\ tk_hash r = nth_hash s n;
  wa_unique : forall id id' r r', tb_tokens (au_db s) !! id = Some r -> tb_tokens (au_db s) !! id' = Some r' ->
    tk_hash r = tk_hash r' -> id = id';
}.

(** SHA-256 does not collide on the random tokens of this service. *)
Definition no_collisions s : Prop := forall n m, nth_hash s n = nth_hash s m -> n = m.

Lemma wf_auth_step s s' : no_collisions s -> token_step s s' -> wf_auth s -> wf_auth s' /\ no_collisions s'.
Proof.
  intros Hnc (Hr & Hn & P & Ht) [Hd Hu].
  assert (Hnth : forall n, nth_hash s' n = nth_hash s n) by (intros n; unfold nth_hash; by rewrite Hr).
  assert (Hold : forall id r, sql_update P revoke (tb_tokens (au_db s)) !! id = Some r ->
    exists r0, tb_tokens (au_db s) !! id = Some r0 /\ tk_hash r = tk_hash r0).
  { intros id r. rewrite lookup_sql_update. intros (r0 & Hr0 & ->)%fmap_Some. exists r0.
    split; [done|]. by destruct (P id r0). }
  split; [|intros n m; rewrite !Hnth; apply Hnc]. destruct Ht as [Ht|(new & row & n & Hnew & Hle & Hrow & Ht)].
  - split.
    + intros id r. rewrite Ht. intros (r0 & H0 & ->)%Hold. destruct (Hd id r0 H0) as (n & ? & ?).
      exists n. rewrite Hnth. split; [lia|done].
    + intros id id' r r'. rewrite Ht. intros (r0 & H0 & ->)%Hold (r1 & H1 & ->)%Hold. by apply Hu.
  - assert (Hfresh : forall id r, tb_tokens (au_db s) !! id = Some r -> tk_hash r <> tk_hash row).
    { intros id r Hid. destruct (Hd id r Hid) as (m & Hm & ->). rewrite Hrow. intros E%Hnc. lia. }
    split.
    + intros id r. rewrite Ht. intros [[_ <-]|[_ (r0 & H0 & ->)%Hold]]%lookup_insert_Some.
      * exists n. rewrite Hnth. split; [lia|done].
      * destruct (Hd id r0 H0) as (m & ? & ?). exists m. rewrite Hnth. split; [lia|done].
    + intros id id' r r'. rewrite Ht.
      intros [[<- <-]|[_ (r0 & H0 & E0)%Hold]]%lookup_insert_Some
             [[<- <-]|[_ (r1 & H1 & E1)%Hold]]%lookup_insert_Some E; [done| | |].
      * exfalso. apply (Hfresh _ _ H1). congruence.
      * exfalso. apply (Hfresh _ _ H0). congruence.
      * apply (Hu id id' r0 r1); [done|done|congruence].
Qed.

(** After a successful refresh the token is spent. *)
Lemma refresh_spends tok a s r a' s' :
  no_collisions s -> wf_auth s -> Refresh tok a s = (r, a', s') -> is_ok r = true -> spent tok s'.
Proof.
  intros Hnc Hwf Hrun Hok.
  destruct (wp_run _ _ _ _ _ _ _ Hrun (Refresh_tokens tok a s)) as [Hst Hsucc].
  destruct (Hsucc Hok) as (id & row & row' & Hid & Hh & _ & Hid' & Hrev).
  destruct (wf_auth_step _ _ Hnc Hst Hwf) as [[_ Hu'] _].
  destruct (wa_drawn _ Hwf id row Hid) as (n & Hn & Hhn).
  assert (Hh' : tk_hash row' = hashToken tok).
  { destruct Hst as (_ & _ & P & [Ht|(new & nrow & m & Hnew & _ & _ & Ht)]); rewrite Ht in Hid'.
    - rewrite lookup_sql_update, Hid in Hid'. injection Hid' as <-. by destruct (P id row).
    - rewrite lookup_insert_ne in Hid' by congruence. rewrite lookup_sql_update, Hid in Hid'.
      injection Hid' as <-. by destruct (P id row). }
  destruct Hst as (Hr & Hn' & _). split.
  - intros id2 r2 Hid2 Hh2. assert (id2 = id) as -> by (apply (Hu' _ _ r2 row'); congruence). congruence.
  - intros m Hm E. unfold nth_hash in E. rewrite Hr in E. assert (m = n); [|lia].
    apply Hnc. unfold nth_hash. rewrite E, <- Hh. exact Hhn.
Qed.

(** Refresh tokens rotate.  In any sequence of calls, with calls failing and answers lost
    at any point, no refresh token is exchanged for a session more than once. *)
Lemma refresh_token_single_use tok l s :
  no_collisions s -> wf_auth s ->
  length (filter (fun x => x = (CallRefresh tok, true)) (serve l s).1) <= 1.
Proof.
  revert s. induction l as [|[a c] l IH]; intros s Hnc Hwf; [cbn; lia|]. cbn [serve].
  pose proof (run_auth_tokens c a s) as Hst. unfold wp in Hst.
  destruct (run_auth c a s) as [[r a'] s'] eqn:Er. destruct (wf_auth_step _ _ Hnc Hst Hwf) as [Hwf' Hnc'].
  specialize (IH s' Hnc' Hwf'). pose proof (spent_serve tok l s') as Hspent.
  destruct (serve l s') as [rs s2]. cbn [fst] in *. rewrite filter_cons. case_decide as E; [|done].
  injection E as -> Hok. cbn in Er. unfold mbind, prog_bind in Er.
  destruct (Refresh tok a s) as [[r0 a0] s0] eqn:E0.
  assert (is_ok r0 = true /\ s0 = s') as [Hok0 ->] by (destruct r0; injection Er as <- _ <-; done).
  rewrite filter_none; [cbn; lia|]. intros x Hx ->.
  by apply (Hspent (refresh_spends _ _ _ _ _ _ Hnc Hwf E0 Hok0)).
Qed.

(** C30: reported reuse ends the user's sessions.  Presenting a refresh token that was already
    used (or logged out) never succeeds, whatever fails; without faults it is answered as an
    invalid refresh token; and once it was answered so, no refresh token that the same user held
    at that time is accepted in any sequence of calls after it.  Calls run one after another
    here; a concurrent refresh can keep a session ([AuthRace.reuse_race_leaves_a_session]). *)
Theorem reuse_revokes_every_session tok id row a s r a' s' :
  no_collisions s -> wf_auth s ->
  tb_tokens (au_db s) !! id = Some row -> tk_hash row = hashToken tok -> tk_revoked row = true ->
  Refresh tok a s = (r, a', s') ->
  is_ok r = false /\ (no_faults a -> r = Err errInvalidRefresh) /\
  (r = Err errInvalidRefresh ->
   forall id' row' tok', tb_tokens (au_db s) !! id' = Some row' -> tk_user_id row' = tk_user_id row ->
     tk_hash row' = hashToken tok' -> forall l, (CallRefresh tok', true) ∉ (serve l s').1).
Proof.
  intros Hnc Hwf Hid Hh Hrev Hrun.
  assert (Hsel : sql_select (fun _ r => bool_decide (tk_hash r = hashToken tok)) (tb_tokens (au_db s)) = [(id, row)]).
  { apply sql_select_one; [done|by apply bool_decide_eq_true_2|]. intros k v Hk Hv. reflect_bools.
    apply (wa_unique _ Hwf k id v row); congruence. }
  assert (Hw : wp (Refresh tok) (fun r _ s' => is_ok r = false /\ (no_faults a -> r = Err errInvalidRefresh) /\
    (r = Err errInvalidRefresh ->
       s' = db_set (revoke_where (fun _ r => bool_decide (tk_user_id r = tk_user_id row)) (au_db s)) s)) a s).
  { unfold Refresh. cbv zeta. wp_step. wp_step; [|split; [done|split; [intros; no_fault|done]]].
    wp_step. wp_step; [|split; [done|split; [intros; no_fault|done]]]. cbn [db_get auth_has_db].
    rewrite Hsel, Hrev. wp_steps; cbn; (split; [done|]); (split; [|done]); intros Hnf; try done; no_fault. }
  destruct (wp_run _ _ _ _ _ _ _ Hrun Hw) as (Hbad & Hans & Hs). split_and!; [done|done|].
  intros ->. rewrite (Hs eq_refl). intros id' row' tok' Hid' Hu Hh' l. apply spent_serve. split.
  - intros k v. cbn. rewrite lookup_sql_update. intros (v0 & Hv0 & ->)%fmap_Some.
    case_bool_decide as E; [done|]. intros Hhv. exfalso.
    assert (k = id') as -> by (apply (wa_unique _ Hwf k id' v0 row'); congruence).
    congruence.
  - intros n Hn E. destruct (wa_drawn _ Hwf id' row' Hid') as (m & Hm & Hhm).
    assert (n = m); [|cbn in Hn; lia]. apply Hnc. unfold nth_hash in *. cbn in E. congruence.
Qed.

(** *** Runs without faults *)

Lemma Register_run `{!AuthLibLaws L} raw email pw a s :
  no_faults a -> normalizeEmail raw = Ok email -> validatePassword pw = Ok tt ->
  tb_users (au_db s) !! amb_uuid a (amb_next a) = None ->
  (forall k r, tb_users (au_db s) !! k = Some r -> us_email r <> email) ->
  exists h, bcrypt_generate (au_next s) pw = Ok h /\
    Register organizers {| cd_Email := raw; cd_Password := pw |} a s =
      (Ok (uuid_string (amb_uuid a (amb_next a))), drop_uuid a,
       {| au_db := {| tb_users := <[amb_uuid a (amb_next a) := {| us_email := email; us_password_hash := h;
                        us_role := roleFor organizers email |}]> (tb_users (au_db s));
                      tb_tokens := tb_tokens (au_db s) |};
          au_random := au_random s; au_next := S (au_next s) |}).
Proof.
  intros Hnf Hn Hpw Huser Hunused.
  assert (Hlen : (Z.of_nat (String.length pw) <= 72)%Z).
  { unfold validatePassword, minPasswordLen, maxPasswordLen in Hpw. case_match; [done|]. reflect_bools. lia. }
  destruct (bcrypt_generate (au_next s) pw) as [h|] eqn:Hh;
    [|by pose proof (bcrypt_accepts (au_next s) pw Hlen) as Hb; rewrite Hh in Hb].
  exists h. split; [done|].
  assert (Hvalid : Valid (roleFor organizers email) = true) by (unfold roleFor; by case_bool_decide).
  assert (Hcount : sql_count (fun _ r' => bool_decide (us_email r' = email)) (tb_users (au_db s)) = 0).
  { apply (sql_count_keys _ _ []); [constructor|]. intros k. rewrite elem_of_nil. split; [done|].
    intros (v & Hv & E). reflect_bools. by apply (Hunused k v). }
  unfold Register, mbind, prog_bind, lift_res. cbn. rewrite Hn, Hpw. cbn. unfold next_random, attempt. cbn.
  rewrite Hh. cbn. unfold uuid_new, pool_exec, mbind, prog_bind, next_fate, pop_fate, get_state, modify. cbn.
  rewrite Hnf. cbn. unfold insert_user.
  rewrite (bool_decide_eq_false_2 (is_Some _)) by (rewrite Huser; by intros [? ?]).
  cbn [us_role us_email]. rewrite Hvalid. cbn [negb]. by rewrite (bool_decide_eq_true_2 _ Hcount).
Qed.

Lemma findUser_run raw u a s :
  no_faults a -> normalizeEmail raw = Ok (u_email u) ->
  tb_users (au_db s) !! u_id u = Some {| us_email := u_email u; us_password_hash := u_passwordHash u; us_role := u_role u |} ->
  (forall k r, tb_users (au_db s) !! k = Some r -> us_email r = u_email u -> k = u_id u) ->
  findUser raw a s = (Ok (Some u), a, s).
Proof.
  intros Hnf Hn Hrow Hone. unfold findUser. rewrite Hn. erewrite bind_run by (by apply pg_call_run).
  erewrite bind_run by reflexivity.
  rewrite (sql_select_one _ _ (u_id u) {| us_email := u_email u; us_password_hash := u_passwordHash u;
    us_role := u_role u |}); [by destruct u|done|by apply bool_decide_eq_true_2|].
  intros k v Hk E. reflect_bools. by apply (Hone k v).
Qed.

Lemma findUser_none raw a s :
  no_faults a -> (forall k row, tb_users (au_db s) !! k = Some row -> normalizeEmail raw <> Ok (us_email row)) ->
  findUser raw a s = (Ok None, a, s).
Proof.
  intros Hnf Hno. unfold findUser. destruct (normalizeEmail raw) as [email|e]; [|done].
  erewrite bind_run by (by apply pg_call_run). erewrite bind_run by reflexivity.
  destruct (sql_select _ _) as [|[k row] l] eqn:Hsel; [done|]. exfalso.
  assert (Hin : (k, row) ∈ sql_select (fun _ r => bool_decide (us_email r = email)) (tb_users (au_db s)))
    by (rewrite Hsel; by left).
  apply elem_of_sql_select in Hin as [Hk E]. reflect_bools. cbn in E. apply (Hno k row Hk). by rewrite E.
Qed.

Lemma issueTokens_run u a s :
  no_faults a -> (forall c, is_ok (jwt_sign c) = true) ->
  tb_tokens (au_db s) !! amb_uuid a (amb_next a) = None -> tb_users (au_db s) !! u_id u <> None ->
  exists t, jwt_sign {| cl_UserID := uuid_string (u_id u); cl_Email := u_email u; cl_Role := u_role u;
              cl_IssuedAt := amb_now a / 10 ^ 9; cl_ExpiresAt := (amb_now a + accessTokenTTL) / 10 ^ 9 |} = Ok t /\
    issueTokens (pool_exec (fun e => e)) u a s = (Ok (t, au_random s (au_next s), tt), drop_uuid a,
      {| au_db := {| tb_users := tb_users (au_db s);
           tb_tokens := <[amb_uuid a (amb_next a) := {| tk_user_id := u_id u;
             tk_hash := hashToken (au_random s (au_next s)); tk_revoked := false;
             tk_expires_at := pg_time (amb_now a + refreshTokenTTL) |}]> (tb_tokens (au_db s)) |};
         au_random := au_random s; au_next := S (au_next s) |}).
Proof.
  intros Hnf Hsign Htok Huser. match goal with |- exists t, jwt_sign ?c = _ /\ _ => set (c0 := c) end.
  destruct (jwt_sign c0) as [t|e] eqn:Ht; [|by specialize (Hsign c0); rewrite Ht in Hsign].
  exists t. split; [done|]. unfold issueTokens. erewrite bind_run by reflexivity. unfold Sign. fold c0. rewrite Ht.
  erewrite bind_run by (by apply pg_call_run). do 3 (erewrite bind_run by reflexivity). erewrite bind_run; cycle 1.
  { apply attempt_run, pool_exec_run; [done|].
    unfold insert_token. cbn [tb_tokens tb_users tk_user_id au_db db_get auth_has_db].
    rewrite (bool_decide_eq_false_2 (is_Some _)) by (rewrite Htok; by intros [? ?]).
    rewrite (bool_decide_eq_true_2 (is_Some _)) by (by apply not_eq_None_Some). reflexivity. }
  reflexivity.
Qed.

(** What an account is good for: with [organizers] configured, registering [raw] succeeds; then
    a login with the password and the spelling [raw'] succeeds, names the account, and gives an
    access token with the role that verifies until it expires; a wrong password and an address
    that no account has, malformed or not, get the same answer. *)
Definition account_works (role : Role) (raw raw' email pw : string) (a : ambient) (s : auth_state) (a2 : ambient)
    (id tid : UUID) : Prop :=
  exists s1, Register organizers {| cd_Email := raw; cd_Password := pw |} a s
               = (Ok (uuid_string id), drop_uuid a, s1) /\
    (exists sn s2, Login {| cd_Email := raw'; cd_Password := pw |} a2 s1 = (Ok sn, drop_uuid a2, s2) /\
       sn_UserId sn = uuid_string id /\ sn_Email sn = email /\ sn_Role sn = role /\
       (exists row, tb_tokens (au_db s2) !! tid = Some row /\ tk_hash row = hashToken (sn_RefreshToken sn) /\
          tk_revoked row = false /\ tk_user_id row = id) /\
       forall now, (now < (amb_now a2 + accessTokenTTL) / 10 ^ 9 * 10 ^ 9)%Z ->
         exists c, Verify now (sn_AccessToken sn) = Ok c /\ cl_UserID c = uuid_string id /\ cl_Role c = role) /\
    (forall row pw', tb_users (au_db s1) !! id = Some row -> bcrypt_compare (us_password_hash row) pw' = false ->
       Login {| cd_Email := raw'; cd_Password := pw' |} a2 s1 = (Err errBadCredentials, a2, s1)) /\
    (forall other pw', (forall k row, tb_users (au_db s1) !! k = Some row -> normalizeEmail other <> Ok (us_email row)) ->
       Login {| cd_Email := other; cd_Password := pw' |} a2 s1 = (Err errBadCredentials, a2, s1)).

Lemma account_logs_in `{!JwtLaws T} `{!AuthLibLaws L} raw raw' email pw a s a2 id tid :
  id = amb_uuid a (amb_next a) -> tid = amb_uuid a2 (amb_next a2) ->
  no_faults a -> no_faults a2 -> (forall c, is_ok (jwt_sign c) = true) ->
  normalizeEmail raw = Ok email -> normalizeEmail raw' = Ok email -> validatePassword pw = Ok tt ->
  tb_users (au_db s) !! id = None -> tb_tokens (au_db s) !! tid = None ->
  (forall k r, tb_users (au_db s) !! k = Some r -> us_email r <> email) ->
  account_works (roleFor organizers email) raw raw' email pw a s a2 id tid.
Proof.
  intros Hid Htid Hnf Hnf2 Hsign Hn Hn' Hpw Huser Htok Hunused.
  destruct (Register_run raw email pw a s Hnf Hn Hpw) as (h & Hh & Hreg); [by rewrite <- Hid|done|].
  rewrite <- Hid in Hreg. match type of Hreg with _ = (_, _, ?x) => set (s1 := x) in * end.
  set (u := {| u_id := id; u_email := email; u_passwordHash := h; u_role := roleFor organizers email |}).
  assert (Hfind : findUser raw' a2 s1 = (Ok (Some u), a2, s1)).
  { apply findUser_run; [done..| |].
    - cbn. by rewrite lookup_insert_eq.
    - intros k v Hk E. cbn in Hk. apply lookup_insert_Some in Hk as [[<- _]|[_ Hv]]; [done|].
      by destruct (Hunused k v). }
  assert (Hids : tb_users (au_db s1) !! u_id u <> None) by (cbn; by rewrite lookup_insert_eq).
  destruct (issueTokens_run u a2 s1 Hnf2 Hsign) as (t & Ht & Hissue); [by rewrite <- Htid|done|].
  rewrite <- Htid in Hissue. exists s1. split; [exact Hreg|]. split; [|split].
  - eexists (session (t, _) u), _. split.
    { unfold Login. erewrite bind_run by exact Hfind. cbn [u_passwordHash u cd_Password].
      rewrite (bcrypt_matches _ _ _ Hh). erewrite bind_run by exact Hissue. reflexivity. }
    cbn. split_and!; try done.
    + eexists. rewrite lookup_insert_eq. done.
    + intros now Hnow. eexists. unfold Verify. by rewrite (jwt_parse_sign _ _ now Ht Hnow).
  - intros r pw' Hr Hbad. cbn in Hr. rewrite lookup_insert_eq in Hr. injection Hr as <-.
    unfold Login, mbind, prog_bind. cbn [cd_Email cd_Password]. rewrite Hfind. cbn in Hbad |- *. by rewrite Hbad.
  - intros other pw' Hno. unfold Login. by erewrite bind_run by (by apply findUser_none).
Qed.
End Calls.

(** *** Organizers *)

Lemma elem_of_New {L : AuthLib} (configured : list string) email :
  email ∈ New configured <-> email <> "" /\ exists e, e ∈ configured /\ to_lower (trim_space e) = email.
Proof.
  enough (Hg : forall m, email ∈ foldl (fun (m : gset string) e => let e := to_lower (trim_space e) in
      if bool_decide (e = "") then m else {[e]} ∪ m) m configured <->
    email ∈ m \/ (email <> "" /\ exists e, e ∈ configured /\ to_lower (trim_space e) = email)) by (unfold New; rewrite Hg; set_solver).
  induction configured as [|e l IH]; intros m; cbn; [set_solver|]. rewrite IH.
  case_bool_decide as He; set_solver.
Qed.

(** C31: an account works.  Without faults, registering an unused, valid address with a valid
    password succeeds; then logging in with the password and any spelling of the address
    succeeds, names the account, and gives an access token that verifies until it expires
    and carries the organizer role exactly when the address is on the configured list in some
    spelling (blanks around it and the case of its letters do not matter), and otherwise the
    user's.  A wrong password and an address that no account has, malformed or not, get the same
    answer. *)
Theorem registered_account_logs_in `{U : UuidLib} {L : AuthLib} {T : JwtLib} `{!JwtLaws T} `{!AuthLibLaws L}
    configured raw raw' email pw a s a2 id tid :
  id = amb_uuid a (amb_next a) -> tid = amb_uuid a2 (amb_next a2) ->
  no_faults a -> no_faults a2 -> (forall c, is_ok (jwt_sign c) = true) ->
  normalizeEmail raw = Ok email -> normalizeEmail raw' = Ok email -> validatePassword pw = Ok tt ->
  tb_users (au_db s) !! id = None -> tb_tokens (au_db s) !! tid = None ->
  (forall k r, tb_users (au_db s) !! k = Some r -> us_email r <> email) ->
  exists role, account_works (New configured) role raw raw' email pw a s a2 id tid /\
    ((role = RoleOrganizer /\ exists e, e ∈ configured /\ to_lower (trim_space e) = email) \/
     (role = RoleUser /\ forall e, e ∈ configured -> to_lower (trim_space e) <> email)).
Proof.
  intros Hid Htid Hnf Hnf2 Hsign Hn. intros. exists (roleFor (New configured) email). split; [by apply account_logs_in|].
  assert (He : email <> "") by (unfold normalizeEmail in Hn; repeat case_match; simplify_eq; by reflect_bools).
  unfold roleFor. case_bool_decide as Hin; rewrite elem_of_New in Hin; [left|right]; split; try done; [by apply Hin|].
  intros e Hc Hl. apply Hin. split; [done|]. by exists e.
Qed.


(** ** Witnesses *)

#[global] Instance plain_auth : AuthLib := {|
  to_lower := id;
  parse_address := Some;
  bcrypt_generate := fun _ pw => Ok ("$2a$" +:+ pw);
  bcrypt_compare := fun h pw => bool_decide (h = "$2a$" +:+ pw);
  sha256_hex := id;
|}.

#[global] Instance plain_auth_laws : AuthLibLaws plain_auth.
Proof. split; cbn; [|done]. intros n pw h [= <-]. by apply bool_decide_eq_true_2. Qed.

#[global] Instance Claims_countable : Countable Claims.
Proof.
  refine (inj_countable'
    (fun c => (cl_UserID c, cl_Email c, cl_Role c, cl_IssuedAt c, cl_ExpiresAt c))
    (fun '(i, e, r, t, x) => Build_Claims i e r t x) _).
  by intros [].
Defined.

#[global] Instance plain_jwt : JwtLib := {|
  jwt_sign := fun c => Ok (pos_bits (encode c));
  jwt_parse := fun now t => match bits_pos t ≫= decode with
    | Some c => if (now <? cl_ExpiresAt c * 10 ^ 9)%Z then Ok c else Err (EText "token has expired")
    | None => Err (EText "token is malformed")
    end;
|}.

#[global] Instance plain_jwt_laws : JwtLaws plain_jwt.
Proof.
  assert (Hdec : forall c : Claims, bits_pos (pos_bits (encode c)) ≫= decode = Some c)
    by (intros c; rewrite bits_pos_bits; apply decode_encode).
  split; cbn [jwt_sign jwt_parse plain_jwt]; intros c t now [= <-] Hnow; rewrite Hdec;
    case_match; try done; reflect_bools; lia.
Qed.

Definition ada : Credentials := {| cd_Email := "ada@x.io"; cd_Password := "password" |}.
Definition no_users : auth_state := {| au_db := {| tb_users := ∅; tb_tokens := ∅ |}; au_random := names "t"; au_next := 0 |}.
Definition call_amb (p : string) : ambient := amb0 [] (names p) 0 0.

Lemma no_users_wf : no_collisions no_users /\ wf_auth no_users.
Proof.
  split; [intros n m; apply names_inj|]. split; [intros id r|intros id id' r r']; cbn; by rewrite lookup_empty.
Qed.

(** The first token works once, and its reuse also ends the session of the second. *)
Definition ada_day : list (ambient * auth_call) :=
  [(call_amb "u", CallRegister ada); (call_amb "a", CallLogin ada); (call_amb "b", CallRefresh "t1");
   (call_amb "c", CallRefresh "t1"); (call_amb "d", CallRefresh "t2")].

Lemma refresh_token_single_use_witness :
  (serve ∅ ada_day no_users).1 =
    [(CallRegister ada, true); (CallLogin ada, true); (CallRefresh "t1", true); (CallRefresh "t1", false);
     (CallRefresh "t2", false)] /\
  length (filter (fun x => x = (CallRefresh "t1", true)) (serve ∅ ada_day no_users).1) <= 1.
Proof.
  split; [vm_compute; reflexivity|].
  exact (refresh_token_single_use ∅ "t1" ada_day no_users (proj1 no_users_wf) (proj2 no_users_wf)).
Defined.

Lemma serve_wf `{U : UuidLib} {L : AuthLib} {T : JwtLib} organizers l s :
  no_collisions s -> wf_auth s -> no_collisions (serve organizers l s).2 /\ wf_auth (serve organizers l s).2.
Proof.
  revert s. induction l as [|[a c] l IH]; intros s Hnc Hwf; [done|]. cbn [serve].
  pose proof (run_auth_tokens organizers c a s) as Hst. unfold wp in Hst.
  destruct (run_auth organizers c a s) as [[r a'] s']. destruct (wf_auth_step _ _ Hnc Hst Hwf) as [Hwf' Hnc'].
  specialize (IH s' Hnc' Hwf'). by destruct (serve organizers l s').
Qed.

Abbreviation ada_refreshed := (serve ∅ (take 3 ada_day) no_users).2.
Abbreviation ada_reused := (Refresh "t1" (call_amb "c") ada_refreshed).

Lemma reuse_revokes_every_session_witness :
  ada_reused.1.1 = Err errInvalidRefresh /\
  forall l, (CallRefresh "t2", true) ∉ (serve ∅ l ada_reused.2).1.
Proof.
  destruct (serve_wf ∅ (take 3 ada_day) no_users (proj1 no_users_wf) (proj2 no_users_wf)) as [Hnc Hwf].
  pose proof (reuse_revokes_every_session (U := ref_uuid) ∅ "t1" "a0"
    {| tk_user_id := "u0" : @UUID ref_uuid; tk_hash := "t1"; tk_revoked := true; tk_expires_at := refreshTokenTTL |}
    (call_amb "c") ada_refreshed _ _ _ Hnc Hwf ltac:(vm_compute; reflexivity) eq_refl eq_refl
    (run_eta ada_reused)) as (_ & Hans & Hlater). specialize (Hans eq_refl). split; [exact Hans|].
  apply (Hlater Hans "b0" {| tk_user_id := "u0" : @UUID ref_uuid; tk_hash := "t2"; tk_revoked := false;
                        tk_expires_at := refreshTokenTTL |} "t2"); vm_compute; reflexivity.
Defined.

Lemma registered_account_logs_in_witness :
  exists s1, Register (New [" ada@x.io "; ""]) ada (call_amb "u") no_users
      = (Ok (uuid_string (UuidLib := ref_uuid) "u0"), drop_uuid (call_amb "u"), s1) /\
    exists sn s2, Login {| cd_Email := " ada@x.io"; cd_Password := "password" |} (call_amb "a") s1
      = (Ok sn, drop_uuid (call_amb "a"), s2) /\ sn_Role sn = RoleOrganizer.
Proof.
  destruct (registered_account_logs_in (U := ref_uuid) [" ada@x.io "; ""] "ada@x.io" " ada@x.io" "ada@x.io"
    "password" (call_amb "u") no_users (call_amb "a") "u0" "a0")
    as (role & (s1 & Hreg & (sn & s2 & Hlog & _ & _ & Hrole & _) & _) & Hwhich); try done.
  exists s1. split; [exact Hreg|]. exists sn, s2. split; [exact Hlog|]. rewrite Hrole.
  destruct Hwhich as [[? _]|[_ Hno]]; [done|]. destruct (Hno " ada@x.io "); [by left|vm_compute; reflexivity].
Defined.
