(* ===== verification/AuthRace.v ===== *)
(** * auth-svc: concurrent refreshes

    The transactions of [Refresh] statement by statement, as Postgres runs them at READ
    COMMITTED: a statement sees what was committed when it began, [SELECT .. FOR UPDATE] and
    [UPDATE] wait for the locks of the rows they touch, and a transaction's writes appear when
    it commits.  Logins and logouts are transactions of one statement. *)

From Stdlib Require Import String.
From stdpp Require Import base gmap strings numbers list sorting.
From S2P Require Import Prelude Platform GoStrings Instances Authz Auth AuthProps.

Section Race.
Context `{U : UuidLib} {L : AuthLib} {T : JwtLib}.

(** How far a transaction of [Refresh] is.  [id] and [row] are the presented token's. *)
Inductive stage :=
  | Looking                                              (* after BEGIN *)
  | Found (id : UUID) (row : token_row)                  (* SELECT .. FOR UPDATE returned *)
  | Revoking (id : UUID) (row : token_row) (todo got : gset UUID) (* UPDATE .. WHERE user_id runs *)
  | Revoked (id : UUID) (row : token_row) (ids : gset UUID)       (* .. and has returned *)
  | Rotated (id : UUID) (row : token_row)                (* UPDATE .. WHERE id returned *)
  | Issued (id : UUID) (row : token_row) (nid : UUID) (new : token_row). (* INSERT returned *)

Record refresh_tx := { rx_hash : string; rx_now : Z; rx_stage : stage }.

Inductive outcome_event :=
  | Exchanged (old new : string)      (* a token was exchanged for another, by their hashes *)
  | ReuseDetected (user : UUID).      (* every session of the user was to be revoked *)

(** The committed database, the open transactions, the supply of tokens, and what was
    committed. *)
Record race := {
  rc_db : auth_db;
  rc_txs : gmap nat refresh_tx;
  rc_random : nat -> string;
  rc_next : nat;
  rc_log : list outcome_event;
}.

(** The rows a transaction has locked; its own inserted row too. *)
Definition locks (st : stage) : gset UUID :=
  match st with
  | Looking => ∅
  | Found id _ | Rotated id _ => {[id]}
  | Revoking id _ _ got => {[id]} ∪ got
  | Revoked id _ ids => {[id]} ∪ ids
  | Issued id _ nid _ => {[id; nid]}
  end.

(** No transaction but [i] has locked the row. *)
Definition free (i : option nat) (id : UUID) (c : race) : bool :=
  bool_decide (map_Forall (fun j tx => i = Some j \/ id ∉ locks (rx_stage tx)) (rc_txs c)).

Definition set_tx (i : nat) (tx : refresh_tx) (st : stage) (c : race) : race :=
  {| rc_db := rc_db c; rc_txs := <[i := {| rx_hash := rx_hash tx; rx_now := rx_now tx; rx_stage := st |}]> (rc_txs c);
     rc_random := rc_random c; rc_next := rc_next c; rc_log := rc_log c |}.

Definition end_tx (i : nat) (d : auth_db) (log : list outcome_event) (c : race) : race :=
  {| rc_db := d; rc_txs := delete i (rc_txs c); rc_random := rc_random c; rc_next := rc_next c;
     rc_log := rc_log c ++ log |}.

Definition tokens_of (d : auth_db) (user : UUID) : gset UUID :=
  dom (filter (fun kr => tk_user_id kr.2 = user) (tb_tokens d)).

Inductive action :=
  | ABegin (i : nat) (refreshToken : string) (now : Z)
  | AFind (i : nat)
  | AExpired (i : nat)
  | ARevokeAll (i : nat)
  | ALock (i : nat) (id : UUID)
  | AUpdated (i : nat)
  | ARotate (i : nat)
  | AIssue (i : nat) (nid : UUID)
  | ACommit (i : nat)
  | AAbort (i : nat)
  | ALogin (user nid : UUID) (expires : Z)
  | ALogout (refreshToken : string).

Definition by_hash (h : string) (_ : UUID) (r : token_row) : bool := bool_decide (tk_hash r = h).

(** The row [INSERT INTO refresh_tokens] adds for the next random token. *)
Definition fresh_row (user : UUID) (expires : Z) (c : race) : token_row :=
  {| tk_user_id := user; tk_hash := hashToken (rc_random c (rc_next c)); tk_revoked := false; tk_expires_at := expires |}.

Definition draw (c : race) : race :=
  {| rc_db := rc_db c; rc_txs := rc_txs c; rc_random := rc_random c; rc_next := S (rc_next c); rc_log := rc_log c |}.

(** One step; [None] when it cannot happen now: the statement before has not returned, or
    waits for a lock. *)
Definition step (act : action) (c : race) : option race :=
  match act with
  | ABegin i tok now =>
      match rc_txs c !! i with
      | Some _ => None
      | None => Some (set_tx i {| rx_hash := hashToken tok; rx_now := now; rx_stage := Looking |} Looking c)
      end
  | AFind i =>
      tx ← rc_txs c !! i;
      match rx_stage tx with
      | Looking =>
          match sql_select (by_hash (rx_hash tx)) (tb_tokens (rc_db c)) with
          | [] => Some (end_tx i (rc_db c) [] c)                            (* errInvalidRefresh *)
          | (id, row) :: _ => if free (Some i) id c then Some (set_tx i tx (Found id row) c) else None
          end
      | _ => None
      end
  | AExpired i =>
      tx ← rc_txs c !! i;
      match rx_stage tx with
      | Found id row => if tk_revoked row then None else
                        if (tk_expires_at row <? rx_now tx)%Z then Some (end_tx i (rc_db c) [] c) else None
      | _ => None
      end
  | ARevokeAll i =>
      tx ← rc_txs c !! i;
      match rx_stage tx with
      | Found id row => if tk_revoked row
                        then Some (set_tx i tx (Revoking id row (tokens_of (rc_db c) (tk_user_id row)) ∅) c)
                        else None
      | _ => None
      end
  | ALock i id' =>
      tx ← rc_txs c !! i;
      match rx_stage tx with
      | Revoking id row todo got =>
          if bool_decide (id' ∈ todo) && free (Some i) id' c
          then Some (set_tx i tx (Revoking id row (todo ∖ {[id']}) ({[id']} ∪ got)) c) else None
      | _ => None
      end
  | AUpdated i =>
      tx ← rc_txs c !! i;
      match rx_stage tx with
      | Revoking id row todo got => if bool_decide (todo = ∅) then Some (set_tx i tx (Revoked id row got) c) else None
      | _ => None
      end
  | ARotate i =>
      tx ← rc_txs c !! i;
      match rx_stage tx with
      | Found id row => if tk_revoked row || (tk_expires_at row <? rx_now tx)%Z then None
                        else Some (set_tx i tx (Rotated id row) c)
      | _ => None
      end
  | AIssue i nid =>
      tx ← rc_txs c !! i;
      match rx_stage tx with
      | Rotated id row =>
          if bool_decide (tb_tokens (rc_db c) !! nid = None) && bool_decide (is_Some (tb_users (rc_db c) !! tk_user_id row))
             && free None nid c
          then Some (draw (set_tx i tx (Issued id row nid (fresh_row (tk_user_id row) (pg_time (rx_now tx + refreshTokenTTL)) c)) c))
          else None
      | _ => None
      end
  | ACommit i =>
      tx ← rc_txs c !! i;
      match rx_stage tx with
      | Revoked id row ids =>
          Some (end_tx i (revoke_where (fun k _ => bool_decide (k ∈ ids)) (rc_db c)) [ReuseDetected (tk_user_id row)] c)
      | Issued id row nid new =>
          let d := revoke_where (fun k _ => bool_decide (k = id)) (rc_db c) in
          Some (end_tx i {| tb_users := tb_users d; tb_tokens := <[nid := new]> (tb_tokens d) |}
                  [Exchanged (tk_hash row) (tk_hash new)] c)
      | _ => None
      end
  | AAbort i => tx ← rc_txs c !! i; Some (end_tx i (rc_db c) [] c)
  | ALogin user nid expires =>
      if bool_decide (tb_tokens (rc_db c) !! nid = None) && bool_decide (is_Some (tb_users (rc_db c) !! user))
         && free None nid c
      then Some (draw {| rc_db := {| tb_users := tb_users (rc_db c);
                           tb_tokens := <[nid := fresh_row user expires c]> (tb_tokens (rc_db c)) |};
                         rc_txs := rc_txs c; rc_random := rc_random c; rc_next := rc_next c; rc_log := rc_log c |})
      else None
  | ALogout tok =>
      if forallb (fun kr => free None kr.1 c) (sql_select (by_hash (hashToken tok)) (tb_tokens (rc_db c)))
      then Some {| rc_db := revoke_where (by_hash (hashToken tok)) (rc_db c); rc_txs := rc_txs c;
                   rc_random := rc_random c; rc_next := rc_next c; rc_log := rc_log c |}
      else None
  end.

Fixpoint run (acts : list action) (c : race) : option race :=
  match acts with
  | [] => Some c
  | act :: acts' => c' ← step act c; run acts' c'
  end.

(** The service between calls. *)
Definition idle (s : auth_state) : race :=
  {| rc_db := au_db s; rc_txs := ∅; rc_random := au_random s; rc_next := au_next s; rc_log := [] |}.

(** ** The invariant of the concurrent service *)

Definition has_hash (d : auth_db) (h : string) : Prop :=
  exists k r, tb_tokens d !! k = Some r /\ tk_hash r = h.

(** The hash a transaction is about to add. *)
Definition pending (tx : refresh_tx) : option string :=
  match rx_stage tx with Issued _ _ _ new => Some (tk_hash new) | _ => None end.

(** What a transaction knows of its rows stays true while it holds their locks. *)
Definition tx_ok (d : auth_db) (draws : string -> Prop) (tx : refresh_tx) : Prop :=
  match rx_stage tx with
  | Looking => True
  | Found id row | Revoking id row _ _ | Revoked id row _ => tb_tokens d !! id = Some row
  | Rotated id row => tb_tokens d !! id = Some row /\ tk_revoked row = false
  | Issued id row nid new => tb_tokens d !! id = Some row /\ tk_revoked row = false /\
      tb_tokens d !! nid = None /\ draws (tk_hash new) /\ ~ has_hash d (tk_hash new)
  end.

Definition compatible (tx tx' : refresh_tx) : Prop :=
  locks (rx_stage tx) ## locks (rx_stage tx') /\ (forall h, pending tx = Some h -> pending tx' <> Some h).

(** Hashes of the tokens drawn so far. *)
Definition drawn_hash (c : race) (h : string) : Prop :=
  exists n, n < rc_next c /\ h = hashToken (rc_random c n).

Definition exchanged (log : list outcome_event) : list string :=
  omap (fun e => match e with Exchanged old _ => Some old | ReuseDetected _ => None end) log.

Record race_ok (c : race) : Prop := {
  ro_draws : forall n m, hashToken (rc_random c n) = hashToken (rc_random c m) -> n = m;
  ro_rows : forall h, has_hash (rc_db c) h -> drawn_hash c h;
  ro_unique : forall k k' r r', tb_tokens (rc_db c) !! k = Some r -> tb_tokens (rc_db c) !! k' = Some r' ->
    tk_hash r = tk_hash r' -> k = k';
  ro_txs : forall i tx, rc_txs c !! i = Some tx -> tx_ok (rc_db c) (drawn_hash c) tx;
  ro_apart : forall i j tx tx', rc_txs c !! i = Some tx -> rc_txs c !! j = Some tx' -> i <> j -> compatible tx tx';
  ro_once : NoDup (exchanged (rc_log c));
  ro_spent : forall h, h ∈ exchanged (rc_log c) ->
    exists k r, tb_tokens (rc_db c) !! k = Some r /\ tk_hash r = h /\ tk_revoked r = true;
}.

Lemma free_spec i id c j tx :
  free i id c = true -> rc_txs c !! j = Some tx -> i <> Some j -> id ∉ locks (rx_stage tx).
Proof. intros Hf%bool_decide_eq_true Hj Hne. by destruct (Hf j tx Hj). Qed.

(** Other rows may change, and no pending hash may appear. *)
Lemma tx_ok_db d d' draws draws' tx :
  (forall k, k ∈ locks (rx_stage tx) -> tb_tokens d' !! k = tb_tokens d !! k) ->
  (forall h, pending tx = Some h -> has_hash d' h -> has_hash d h) ->
  (forall h, draws h -> draws' h) -> tx_ok d draws tx -> tx_ok d' draws' tx.
Proof.
  unfold tx_ok, pending. intros Hk Hh Hd. destruct (rx_stage tx); cbn in *; try done;
    try (intros ?; rewrite Hk by set_solver; done).
  intros (? & ? & ? & ? & Hn). rewrite !Hk by set_solver. split_and!; auto.
Qed.

(** *** Steps that change one transaction *)

Lemma set_tx_ok i tx st c :
  race_ok c ->
  tx_ok (rc_db c) (drawn_hash c) {| rx_hash := rx_hash tx; rx_now := rx_now tx; rx_stage := st |} ->
  (forall j tx', rc_txs c !! j = Some tx' -> i <> j ->
     compatible {| rx_hash := rx_hash tx; rx_now := rx_now tx; rx_stage := st |} tx') ->
  race_ok (set_tx i tx st c).
Proof.
  intros [Hd Hr Hu Ht Ha Ho Hs] Hok Hcomp. split; try done; cbn.
  - intros j tx' [[<- <-]|[_ Hj]]%lookup_insert_Some; [done|by apply (Ht j)].
  - intros j k tx1 tx2 [[<- <-]|[Hj1 Hj]]%lookup_insert_Some [[<- <-]|[Hk1 Hk]]%lookup_insert_Some Hne.
    + done.
    + by apply (Hcomp k).
    + destruct (Hcomp j tx1 Hj) as [Hl Hp]; [done|]. split; [done|].
      intros h Hh Hh'. by apply (Hp h).
    + by apply (Ha j k).
Qed.

(** Locking one more row, or none, keeps the transactions apart. *)
Lemma compatible_more i tx st c id :
  race_ok c -> rc_txs c !! i = Some tx -> free (Some i) id c = true ->
  locks st ⊆ {[id]} ∪ locks (rx_stage tx) ->
  pending {| rx_hash := rx_hash tx; rx_now := rx_now tx; rx_stage := st |} = None ->
  forall j tx', rc_txs c !! j = Some tx' -> i <> j ->
    compatible {| rx_hash := rx_hash tx; rx_now := rx_now tx; rx_stage := st |} tx'.
Proof.
  intros Hok Hi Hf Hl Hp j tx' Hj Hne. destruct (ro_apart _ Hok i j tx tx' Hi Hj Hne) as [Hd _].
  pose proof (free_spec _ _ _ _ _ Hf Hj) as Hn. split; [|by rewrite Hp].
  cbn. assert (id ∉ locks (rx_stage tx')) by (apply Hn; congruence). set_solver.
Qed.

Lemma compatible_same i tx st c :
  race_ok c -> rc_txs c !! i = Some tx -> locks st ⊆ locks (rx_stage tx) ->
  pending {| rx_hash := rx_hash tx; rx_now := rx_now tx; rx_stage := st |} = None ->
  forall j tx', rc_txs c !! j = Some tx' -> i <> j ->
    compatible {| rx_hash := rx_hash tx; rx_now := rx_now tx; rx_stage := st |} tx'.
Proof.
  intros Hok Hi Hl Hp j tx' Hj Hne. destruct (ro_apart _ Hok i j tx tx' Hi Hj Hne) as [Hd _].
  split; [|by rewrite Hp]. cbn. set_solver.
Qed.

(** *** Steps that change the database *)

(** Transactions may end; the rows that change are not locked by those that go on. *)
Lemma db_change_ok d txs n log c :
  race_ok c -> rc_next c <= n ->
  (forall j tx, txs !! j = Some tx -> rc_txs c !! j = Some tx /\
     (forall k, k ∈ locks (rx_stage tx) -> tb_tokens d !! k = tb_tokens (rc_db c) !! k) /\
     (forall h, pending tx = Some h -> has_hash d h -> has_hash (rc_db c) h)) ->
  (forall h, has_hash d h -> exists m, m < n /\ h = hashToken (rc_random c m)) ->
  (forall k k' r r', tb_tokens d !! k = Some r -> tb_tokens d !! k' = Some r' -> tk_hash r = tk_hash r' -> k = k') ->
  (forall k r, tb_tokens (rc_db c) !! k = Some r -> exists r', tb_tokens d !! k = Some r' /\ tk_hash r' = tk_hash r /\
     (tk_revoked r = true -> tk_revoked r' = true)) ->
  NoDup (exchanged (rc_log c ++ log)) ->
  (forall h, h ∈ exchanged log -> exists k r, tb_tokens d !! k = Some r /\ tk_hash r = h /\ tk_revoked r = true) ->
  race_ok {| rc_db := d; rc_txs := txs; rc_random := rc_random c; rc_next := n; rc_log := rc_log c ++ log |}.
Proof.
  intros [Hd Hr Hu Ht Ha Ho Hs] Hn Hkeep Hdrawn Huniq Hgrow Hnd Hlog. split; try done; cbn.
  - intros j tx Hj. destruct (Hkeep j tx Hj) as (Hj' & Hk & Hp).
    apply (tx_ok_db (rc_db c) _ (drawn_hash c)); [done..| |by eapply Ht].
    intros h (m & Hm & ->). exists m. cbn. split; [lia|done].
  - intros j k tx tx' Hj Hk. apply Ha; [by apply Hkeep|by apply Hkeep].
  - intros h. unfold exchanged. rewrite omap_app. intros [Hin|Hin]%elem_of_app; [|by apply Hlog].
    destruct (Hs h Hin) as (k & r & Hk & Hh & Hrev). destruct (Hgrow k r Hk) as (r' & ? & ? & ?).
    exists k, r'. split_and!; auto. congruence.
Qed.

(** What [UPDATE .. SET revoked = true] leaves. *)
Lemma revoke_where_lookup P d k :
  tb_tokens (revoke_where P d) !! k = (fun r => if P k r then revoke r else r) <$> tb_tokens d !! k.
Proof. apply lookup_sql_update. Qed.

Lemma revoke_where_grow P d k r :
  tb_tokens d !! k = Some r -> exists r', tb_tokens (revoke_where P d) !! k = Some r' /\ tk_hash r' = tk_hash r /\
     (tk_revoked r = true -> tk_revoked r' = true).
Proof. intros Hk. rewrite revoke_where_lookup, Hk. cbn. eexists. split; [done|]. by destruct (P k r). Qed.

Lemma revoke_where_row P d k r' :
  tb_tokens (revoke_where P d) !! k = Some r' -> exists r, tb_tokens d !! k = Some r /\ tk_hash r' = tk_hash r.
Proof.
  rewrite revoke_where_lookup. intros (r & Hk & ->)%fmap_Some. exists r. split; [done|]. by destruct (P k r).
Qed.

Lemma revoke_where_hash P d h : has_hash (revoke_where P d) h -> has_hash d h.
Proof. intros (k & r & (r0 & Hk & E)%revoke_where_row & <-). exists k, r0. by rewrite E. Qed.

(** Revoking rows that no continuing transaction has locked. *)
Lemma revoke_ok P txs log c :
  race_ok c ->
  (forall j tx, txs !! j = Some tx -> rc_txs c !! j = Some tx /\
     forall k r, k ∈ locks (rx_stage tx) -> tb_tokens (rc_db c) !! k = Some r -> P k r = false) ->
  exchanged log = [] ->
  race_ok {| rc_db := revoke_where P (rc_db c); rc_txs := txs; rc_random := rc_random c; rc_next := rc_next c;
             rc_log := rc_log c ++ log |}.
Proof.
  intros Hok Hkeep Hlog. pose proof Hok as [Hd Hr Hu Ht Ha Ho Hs]. apply db_change_ok; try done.
  - intros j tx Hj. destruct (Hkeep j tx Hj) as [Hj' Hk]. split; [done|]. split; [|by intros h _ ?%revoke_where_hash].
    intros k Hin. rewrite revoke_where_lookup. destruct (tb_tokens (rc_db c) !! k) as [r|] eqn:E; [|done].
    cbn. by rewrite (Hk k r).
  - intros h Hh%revoke_where_hash. by apply Hr.
  - intros k k' r r' (r0 & Hk & E)%revoke_where_row (r0' & Hk' & E')%revoke_where_row Heq.
    apply (Hu k k' r0 r0'); congruence.
  - apply revoke_where_grow.
  - unfold exchanged in *. by rewrite omap_app, Hlog, app_nil_r.
  - rewrite Hlog. intros h Hh. by apply elem_of_nil in Hh.
Qed.

(** Adding a row with a token nobody had. *)
Lemma insert_ok nid new n log c :
  race_ok c -> rc_next c <= n -> tb_tokens (rc_db c) !! nid = None ->
  (exists m, m < n /\ tk_hash new = hashToken (rc_random c m)) -> ~ has_hash (rc_db c) (tk_hash new) ->
  (forall j tx, rc_txs c !! j = Some tx -> nid ∉ locks (rx_stage tx) /\ pending tx <> Some (tk_hash new)) ->
  NoDup (exchanged (rc_log c ++ log)) ->
  (forall h, h ∈ exchanged log -> exists k r, tb_tokens (rc_db c) !! k = Some r /\ tk_hash r = h /\ tk_revoked r = true) ->
  race_ok {| rc_db := {| tb_users := tb_users (rc_db c); tb_tokens := <[nid := new]> (tb_tokens (rc_db c)) |};
             rc_txs := rc_txs c; rc_random := rc_random c; rc_next := n; rc_log := rc_log c ++ log |}.
Proof.
  intros Hok Hn Hnid Hnew Hfresh Hothers Hnd Hlog. pose proof Hok as [Hd Hr Hu Ht Ha Ho Hs].
  assert (Hhash : forall h, has_hash {| tb_users := tb_users (rc_db c); tb_tokens := <[nid := new]> (tb_tokens (rc_db c)) |} h ->
    h = tk_hash new \/ has_hash (rc_db c) h).
  { intros h (k & r & Hk & <-). cbn in Hk.
    apply lookup_insert_Some in Hk as [[_ <-]|[_ Hk]]; [by left|right; by exists k, r]. }
  apply db_change_ok; try done; cbn.
  - intros j tx Hj. destruct (Hothers j tx Hj) as [Hni Hp]. split; [done|]. split.
    + intros k Hk. apply lookup_insert_ne. by intros ->.
    + intros h Hh [->|?]%Hhash; [by destruct Hp|done].
  - intros h [->|Hh]%Hhash; [done|]. destruct (Hr h Hh) as (m & Hm & ->). exists m. split; [lia|done].
  - intros k k' r r' [[<- <-]|[Hne Hk]]%lookup_insert_Some [[<- <-]|[Hne' Hk']]%lookup_insert_Some E; try done.
    + exfalso. apply Hfresh. by exists k', r'.
    + exfalso. apply Hfresh. by exists k, r.
    + by apply (Hu k k' r r').
  - intros k r Hk. exists r. rewrite lookup_insert_ne by congruence. done.
  - intros h Hh. destruct (Hlog h Hh) as (k & r & Hk & ? & ?). exists k, r. rewrite lookup_insert_ne by congruence. done.
Qed.

Lemma draw_ok c : race_ok c -> race_ok (draw c).
Proof.
  intros [Hd Hr Hu Ht Ha Ho Hs]. assert (Hdr : forall h, drawn_hash c h -> drawn_hash (draw c) h).
  { intros h (n & Hn & ->). exists n. cbn. split; [lia|done]. }
  split; try done; cbn; [by auto|]. intros i tx Hi. by apply (tx_ok_db (rc_db c) _ (drawn_hash c)); [..|by apply (Ht i)].
Qed.

(** The next token is new. *)
Lemma next_is_fresh c h : race_ok c -> drawn_hash c h -> h <> hashToken (rc_random c (rc_next c)).
Proof. intros Hok (n & Hn & ->) E%(ro_draws _ Hok). lia. Qed.

Lemma pending_drawn c i tx h : race_ok c -> rc_txs c !! i = Some tx -> pending tx = Some h -> drawn_hash c h.
Proof.
  intros Hok Hi Hp. pose proof (ro_txs _ Hok i tx Hi) as Ht. unfold tx_ok, pending in *.
  destruct (rx_stage tx); try done. injection Hp as <-. by destruct Ht as (_ & _ & _ & ? & _).
Qed.

(** *** Every step *)

Lemma commit_exchange_ok i tx id row nid new c :
  race_ok c -> rc_txs c !! i = Some tx -> rx_stage tx = Issued id row nid new ->
  race_ok (end_tx i {| tb_users := tb_users (rc_db c);
      tb_tokens := <[nid := new]> (tb_tokens (revoke_where (fun k _ => bool_decide (k = id)) (rc_db c))) |}
    [Exchanged (tk_hash row) (tk_hash new)] c).
Proof.
  intros Hok Hi Hst. pose proof (ro_txs _ Hok i tx Hi) as Ht. unfold tx_ok in Ht. rewrite Hst in Ht.
  destruct Ht as (Hid & Hrev & Hnid & Hdrawn & Hfresh).
  assert (Hother : forall j tx', delete i (rc_txs c) !! j = Some tx' -> rc_txs c !! j = Some tx' /\ compatible tx tx').
  { intros j tx' [Hne Hj]%lookup_delete_Some. split; [done|]. by apply (ro_apart _ Hok i j). }
  assert (Hc1 := revoke_ok (fun k _ => bool_decide (k = id)) (delete i (rc_txs c)) [] c Hok). cbn in Hc1.
  rewrite app_nil_r in Hc1.
  assert (Hc1' := Hc1 ltac:(intros j tx' Hj; destruct (Hother j tx' Hj) as [? [Hl _]]; split; [done|];
    intros k r Hk _; apply bool_decide_eq_false_2; intros ->; rewrite Hst in Hl; set_solver) eq_refl). clear Hc1.
  refine (insert_ok nid new (rc_next c) [Exchanged (tk_hash row) (tk_hash new)] _ Hc1' _ _ _ _ _ _ _); cbn.
  - lia.
  - rewrite lookup_sql_update, Hnid. done.
  - exact Hdrawn.
  - intros Hh%revoke_where_hash. done.
  - intros j tx' Hj. destruct (Hother j tx' Hj) as [_ [Hl Hp]]. split; [rewrite Hst in Hl; set_solver|].
    apply Hp. unfold pending. by rewrite Hst.
  - unfold exchanged. rewrite omap_app. cbn. apply NoDup_app. split; [apply (ro_once _ Hok)|]. split; [|apply NoDup_singleton].
    intros h Hin ->%list_elem_of_singleton. destruct (ro_spent _ Hok _ Hin) as (k & r & Hk & Hh & Hr).
    assert (k = id) as -> by (by apply (ro_unique _ Hok k id r row)). congruence.
  - intros h ->%list_elem_of_singleton. exists id, (revoke row). rewrite lookup_sql_update, Hid. cbn.
    by rewrite bool_decide_eq_true_2.
Qed.

Lemma end_tx_ok i c : race_ok c -> race_ok (end_tx i (rc_db c) [] c).
Proof.
  intros Hok. pose proof Hok as [Hd Hr Hu Ht Ha Ho Hs]. apply db_change_ok; try done.
  - intros j tx [Hne Hj]%lookup_delete_Some. done.
  - intros k r Hk. by exists r.
  - by rewrite app_nil_r.
  - intros h Hh. by apply elem_of_nil in Hh.
Qed.

Lemma commit_revocation_ok i tx id row ids c :
  race_ok c -> rc_txs c !! i = Some tx -> rx_stage tx = Revoked id row ids ->
  race_ok (end_tx i (revoke_where (fun k _ => bool_decide (k ∈ ids)) (rc_db c)) [ReuseDetected (tk_user_id row)] c).
Proof.
  intros Hok Hi Hst. apply revoke_ok; [done| |done]. intros j tx' [Hne Hj]%lookup_delete_Some. split; [done|].
  destruct (ro_apart _ Hok i j tx tx' Hi Hj Hne) as [Hl _]. rewrite Hst in Hl. cbn in Hl.
  intros k r Hk _. apply bool_decide_eq_false_2. set_solver.
Qed.

Lemma issue_ok i tx id row nid exp c :
  race_ok c -> rc_txs c !! i = Some tx -> rx_stage tx = Rotated id row ->
  tb_tokens (rc_db c) !! nid = None -> free None nid c = true ->
  race_ok (draw (set_tx i tx (Issued id row nid (fresh_row (tk_user_id row) exp c)) c)).
Proof.
  intros Hok Hi Hst Hnid Hf.
  pose proof (ro_txs _ Hok i tx Hi) as Ht. unfold tx_ok in Ht. rewrite Hst in Ht. destruct Ht as [Hid Hrev].
  change (race_ok (set_tx i tx (Issued id row nid (fresh_row (tk_user_id row) exp c)) (draw c))).
  apply set_tx_ok; [by apply draw_ok|..]; cbn.
  - split_and!; try done; [exists (rc_next c); cbn; split; [lia|done]|].
    intros Hh. by apply (next_is_fresh c _ Hok (ro_rows _ Hok _ Hh)).
  - intros j tx' Hj Hne. destruct (ro_apart _ Hok i j tx tx' Hi Hj Hne) as [Hl _]. rewrite Hst in Hl. cbn in Hl.
    pose proof (free_spec _ _ _ _ _ Hf Hj) as Hn. split; cbn.
    + assert (nid ∉ locks (rx_stage tx')) by (by apply Hn). set_solver.
    + intros h [= <-] Hp. by apply (next_is_fresh c _ Hok (pending_drawn c j tx' _ Hok Hj Hp)).
Qed.

Lemma step_ok act c c' : race_ok c -> step act c = Some c' -> race_ok c'.
Proof.
  intros Hok. destruct act as [i tok now|i|i|i|i id'|i|i|i nid|i|i|user nid exp|tok]; cbn;
    try (destruct (rc_txs c !! i) as [tx|] eqn:Hi; cbn; [|done]);
    try (pose proof (ro_txs _ Hok i tx Hi) as Ht; unfold tx_ok in Ht); intros Hs.
  - destruct (rc_txs c !! i); [done|]. injection Hs as <-. apply set_tx_ok; [done..|].
    intros j tx' Hj Hne. split; cbn; [set_solver|done].
  - destruct (rx_stage tx) eqn:Hst; try done. destruct (sql_select _ _) as [|[id row] l] eqn:Hsel.
    + injection Hs as <-. by apply end_tx_ok.
    + destruct (free _ _ _) eqn:Hf; [|done]. injection Hs as <-.
      pose proof (elem_of_sql_select (by_hash (rx_hash tx)) (tb_tokens (rc_db c)) id row) as [Hin _].
      rewrite Hsel in Hin. destruct Hin as [Hrow _]; [by left|].
      apply set_tx_ok; [done|done|]. apply (compatible_more i tx _ c id); try done. cbn. set_solver.
  - destruct (rx_stage tx); try done. repeat case_match; try done. injection Hs as <-. by apply end_tx_ok.
  - destruct (rx_stage tx) eqn:Hst; try done. case_match; [|done]. injection Hs as <-.
    apply set_tx_ok; [done|done|]. apply (compatible_same i tx _ c); try done. rewrite Hst. cbn. set_solver.
  - destruct (rx_stage tx) as [| |id row todo got| | |] eqn:Hst; try done. case_match eqn:Hc; [|done]. injection Hs as <-.
    apply andb_true_iff in Hc as [_ Hf].
    apply set_tx_ok; [done|done|]. apply (compatible_more i tx _ c id'); try done. rewrite Hst. cbn. set_solver.
  - destruct (rx_stage tx) eqn:Hst; try done. case_match; [|done]. injection Hs as <-.
    apply set_tx_ok; [done|done|]. apply (compatible_same i tx _ c); try done. rewrite Hst. cbn. set_solver.
  - destruct (rx_stage tx) eqn:Hst; try done. case_match eqn:Hc; [done|]. injection Hs as <-. reflect_bools.
    apply set_tx_ok; [done|done|]. apply (compatible_same i tx _ c); try done. by rewrite Hst.
  - destruct (rx_stage tx) eqn:Hst; try done. case_match eqn:Hc; [|done]. injection Hs as <-. reflect_bools.
    by apply issue_ok.
  - destruct (rx_stage tx) eqn:Hst; try done; injection Hs as <-.
    + by eapply commit_revocation_ok.
    + by eapply commit_exchange_ok.
  - injection Hs as <-. by apply end_tx_ok.
  - case_match eqn:Hc; [|done]. injection Hs as <-. reflect_bools.
    pose proof (insert_ok nid (fresh_row user exp c) (S (rc_next c)) [] c Hok) as Hins. rewrite app_nil_r in Hins.
    apply Hins; cbn; try done; [lia|exists (rc_next c); split; [lia|done]|..].
    + intros Hh. by apply (next_is_fresh c _ Hok (ro_rows _ Hok _ Hh)).
    + intros j tx Hj. split; [by apply (free_spec None nid c j tx)|].
      intros Hp. by apply (next_is_fresh c _ Hok (pending_drawn c j tx _ Hok Hj Hp)).
    + apply (ro_once _ Hok).
    + intros h Hh. by apply elem_of_nil in Hh.
  - case_match eqn:Hc; [|done]. injection Hs as <-.
    pose proof (revoke_ok (by_hash (hashToken tok)) (rc_txs c) [] c Hok) as Hrev. rewrite app_nil_r in Hrev.
    apply Hrev; [|done]. intros j tx Hj. split; [done|]. intros k r Hk Hr.
    destruct (by_hash (hashToken tok) k r) eqn:Hb; [|done]. exfalso.
    rewrite forallb_forall in Hc. assert (Hin : (k, r) ∈ sql_select (by_hash (hashToken tok)) (tb_tokens (rc_db c)))
      by (by apply elem_of_sql_select). apply list_elem_of_In in Hin. specialize (Hc _ Hin). cbn in Hc.
    by apply (free_spec None k c j tx).
Qed.

Lemma run_ok acts c c' : race_ok c -> run acts c = Some c' -> race_ok c'.
Proof.
  revert c. induction acts as [|act acts IH]; intros c Hok; cbn; [by intros [= <-]|].
  destruct (step act c) as [c1|] eqn:E; cbn; [|done]. apply IH. by eapply step_ok.
Qed.

Lemma idle_ok s : no_collisions s -> wf_auth s -> race_ok (idle s).
Proof.
  intros Hnc [Hd Hu]. split; cbn; try done.
  - intros h (k & r & Hk & <-). by apply Hd in Hk.
  - constructor.
  - intros h Hh. by apply elem_of_nil in Hh.
Qed.

(** ** [Refresh] is such a transaction *)

(** One transaction and no other. *)
Definition alone (tx : refresh_tx) (n : nat) (s : auth_state) : race :=
  {| rc_db := au_db s; rc_txs := {[0 := tx]}; rc_random := au_random s; rc_next := n; rc_log := [] |}.

Lemma run_app acts acts' c : run (acts ++ acts') c = (c' ← run acts c; run acts' c').
Proof. revert c. induction acts as [|act acts IH]; intros c; cbn; [done|]. destruct (step act c); cbn; [apply IH|done]. Qed.

Lemma set_tx_alone tx st n s :
  set_tx 0 tx st (alone tx n s) = alone {| rx_hash := rx_hash tx; rx_now := rx_now tx; rx_stage := st |} n s.
Proof. unfold set_tx, alone. cbn. by rewrite insert_singleton_eq. Qed.

Lemma free_alone tx n s id : free (Some 0) id (alone tx n s) = true.
Proof. apply bool_decide_eq_true_2. cbn. intros j tx' [<- <-]%lookup_singleton_Some. by left. Qed.

Lemma begin_alone tok now s :
  step (ABegin 0 tok now) (idle s) =
  Some (alone {| rx_hash := hashToken tok; rx_now := now; rx_stage := Looking |} (au_next s) s).
Proof. done. Qed.

(** [UPDATE] locks its rows one after the other. *)
Lemma lock_alone h now id row l got n s :
  NoDup l ->
  run (ALock 0 <$> l) (alone {| rx_hash := h; rx_now := now; rx_stage := Revoking id row (list_to_set l) got |} n s) =
  Some (alone {| rx_hash := h; rx_now := now; rx_stage := Revoking id row ∅ (list_to_set l ∪ got) |} n s).
Proof.
  revert got. induction l as [|x l IH]; intros got Hnd; [by cbn; rewrite (left_id_L ∅ (∪))|].
  apply NoDup_cons in Hnd as [Hx Hnd]. cbn [fmap list_fmap run step].
  cbn [rc_txs alone]. rewrite lookup_singleton_eq. cbn [mbind option_bind rx_stage].
  rewrite bool_decide_eq_true_2 by set_solver. rewrite free_alone. cbn [andb].
  rewrite set_tx_alone. cbn [rx_hash rx_now mbind option_bind].
  replace ((list_to_set (x :: l) : gset UUID) ∖ {[x]}) with (list_to_set l : gset UUID) by set_solver.
  rewrite IH by done. do 4 f_equal. set_solver.
Qed.

(** What revoking the rows found at the start does, when nobody else is there. *)
Lemma revoke_tokens_of d user :
  revoke_where (fun k _ => bool_decide (k ∈ tokens_of d user)) d =
  revoke_where (fun _ r => bool_decide (tk_user_id r = user)) d.
Proof.
  unfold revoke_where. f_equal. apply sql_update_ext. intros k r Hk. apply bool_decide_ext.
  unfold tokens_of. rewrite elem_of_dom. split.
  - intros [r' [Hr' Hu]%map_lookup_filter_Some]. cbn in Hu. congruence.
  - intros Hu. exists r. by apply map_lookup_filter_Some.
Qed.
(** The transaction runs until it has found the row. *)
Lemma run_found tok now s id row l acts :
  sql_select (by_hash (hashToken tok)) (tb_tokens (au_db s)) = (id, row) :: l ->
  run (ABegin 0 tok now :: AFind 0 :: acts) (idle s) =
  run acts (alone {| rx_hash := hashToken tok; rx_now := now; rx_stage := Found id row |} (au_next s) s).
Proof.
  intros Hsel. cbn [run]. rewrite begin_alone. cbn [mbind option_bind run step]. cbn [rc_txs alone].
  rewrite lookup_singleton_eq. cbn [mbind option_bind rx_stage rx_hash]. cbn [rc_db alone]. rewrite Hsel.
  rewrite free_alone, set_tx_alone. done.
Qed.

Lemma run_revocation tok now s id row l :
  sql_select (by_hash (hashToken tok)) (tb_tokens (au_db s)) = (id, row) :: l -> tk_revoked row = true ->
  exists acts, run (ABegin 0 tok now :: AFind 0 :: acts) (idle s) =
    Some {| rc_db := revoke_where (fun _ r => bool_decide (tk_user_id r = tk_user_id row)) (au_db s); rc_txs := ∅;
            rc_random := au_random s; rc_next := au_next s; rc_log := [ReuseDetected (tk_user_id row)] |}.
Proof.
  intros Hsel Hrev. set (ids := tokens_of (au_db s) (tk_user_id row)).
  exists (ARevokeAll 0 :: (ALock 0 <$> elements ids) ++ [AUpdated 0; ACommit 0]).
  rewrite (run_found _ _ _ _ _ _ _ Hsel). cbn [run step]. cbn [rc_txs alone]. rewrite lookup_singleton_eq.
  cbn [mbind option_bind rx_stage]. rewrite Hrev, set_tx_alone. cbn [mbind option_bind rx_hash rx_now rc_db alone]. fold ids.
  pose proof (lock_alone (hashToken tok) now id row (elements ids) ∅ (au_next s) s (NoDup_elements ids)) as Hl.
  rewrite list_to_set_elements_L, (right_id_L ∅ (∪)) in Hl. rewrite run_app, Hl. cbn [mbind option_bind run step]. cbn [rc_txs alone].
  rewrite lookup_singleton_eq. cbn [mbind option_bind rx_stage]. rewrite bool_decide_eq_true_2 by done.
  rewrite set_tx_alone. cbn [mbind option_bind rx_hash rx_now rc_txs alone]. rewrite lookup_singleton_eq.
  cbn [mbind option_bind rx_stage]. unfold end_tx. cbn. rewrite delete_singleton_eq. unfold ids. by rewrite revoke_tokens_of.
Qed.

Lemma run_exchange tok now s id row l nid d :
  sql_select (by_hash (hashToken tok)) (tb_tokens (au_db s)) = (id, row) :: l -> tk_revoked row = false ->
  (tk_expires_at row <? now)%Z = false ->
  insert_token nid (fresh_row (tk_user_id row) (pg_time (now + refreshTokenTTL)) (idle s))
    (revoke_where (fun k _ => bool_decide (k = id)) (au_db s)) = Ok (tt, d) ->
  exists acts, run (ABegin 0 tok now :: AFind 0 :: acts) (idle s) =
    Some {| rc_db := d; rc_txs := ∅; rc_random := au_random s; rc_next := S (au_next s);
            rc_log := [Exchanged (tk_hash row) (nth_hash s (au_next s))] |}.
Proof.
  intros Hsel Hrev Hexp Hins. exists [ARotate 0; AIssue 0 nid; ACommit 0].
  unfold insert_token in Hins. case_bool_decide as Hn; [done|]. case_bool_decide as Hu; [|done].
  injection Hins as <-. cbn in Hn, Hu.
  assert (Hnone : tb_tokens (au_db s) !! nid = None).
  { apply eq_None_not_Some. intros [r Hr]. apply Hn. rewrite lookup_sql_update, Hr. by eexists. }
  assert (Hne : id <> nid).
  { intros <-. pose proof (elem_of_sql_select (by_hash (hashToken tok)) (tb_tokens (au_db s)) id row) as [Hin _].
    rewrite Hsel in Hin. destruct Hin as [Hrow _]; [by left|]. congruence. }
  rewrite (run_found _ _ _ _ _ _ _ Hsel). cbn [run step]. cbn [rc_txs alone]. rewrite lookup_singleton_eq.
  cbn [mbind option_bind rx_stage]. rewrite Hrev. cbn [rx_now orb]. rewrite Hexp, set_tx_alone.
  cbn [mbind option_bind rx_hash rx_now rc_txs alone]. rewrite lookup_singleton_eq. cbn [mbind option_bind rx_stage rc_db].
  rewrite (bool_decide_eq_true_2 _ Hnone), (bool_decide_eq_true_2 _ Hu). cbn [andb].
  assert (Hf : free None nid (alone {| rx_hash := hashToken tok; rx_now := now; rx_stage := Rotated id row |} (au_next s) s) = true).
  { apply bool_decide_eq_true_2. cbn. intros j tx' [<- <-]%lookup_singleton_Some. right. cbn. set_solver. }
  rewrite Hf. cbn [mbind option_bind]. unfold draw, set_tx, step, end_tx. cbn. 
  rewrite insert_singleton_eq. cbn. rewrite lookup_singleton_eq. cbn. rewrite delete_singleton_eq. done.
Qed.
(** The effect and the answer of [Refresh] are those of a run of its transaction that
    nobody disturbs. *)
Definition as_transaction (tok : string) (s : auth_state) (r : res Session) (s' : auth_state) : Prop :=
  exists acts c, run acts (idle s) = Some c /\ rc_txs c = ∅ /\ rc_db c = au_db s' /\
    match r with
    | Ok sn => rc_log c = [Exchanged (hashToken tok) (hashToken (sn_RefreshToken sn))]
    | Err e => exchanged (rc_log c) = [] \/ e = EWrap "commit" EConn
    end.

Lemma as_nothing tok s e s' : au_db s' = au_db s -> as_transaction tok s (Err e) s'.
Proof. intros E. exists [], (idle s). cbn. split_and!; auto. Qed.

Lemma Refresh_runs tok a s : wp (Refresh tok) (fun r _ s' => as_transaction tok s r s') a s.
Proof.
  unfold Refresh. wp_steps; try (by apply as_nothing); cbn in *.
  1,2: edestruct (run_revocation tok (amb_now a) s) as (acts & E); [exact Heql|done|];
    (eexists _, _; split; [exact E|]; split_and!; [done..|by left]).
  assert (Hh : tk_hash t = hashToken tok).
  { pose proof (elem_of_sql_select (by_hash (hashToken tok)) (tb_tokens (au_db s)) u t) as [Hin _].
    unfold by_hash in Hin. rewrite Heql in Hin. destruct Hin as [_ Hb]; [by left|]. by reflect_bools. }
  unfold issueTokens. wp_steps; try (by apply as_nothing).
  unfold wp at 1, next_random. wp_steps; unfold tx_exec; wp_steps; cbn in *; try (by apply as_nothing).
  all: rewrite !drop_fate_now in *; destruct u1;
    edestruct (run_exchange tok (amb_now a) s u t l) as (acts & E); [exact Heql|done|exact Heqb0|exact Heqr0|];
    (eexists _, _; split; [exact E|]; split_and!; [done..|]).
  - cbn. by rewrite Hh.
  - by right.
Qed.

(** C29: the code's [Refresh] is one of these transactions.  Whatever fails in a call of
    [Refresh] that runs undisturbed, its effect on the database is that of a run of the
    statements below, ended by a commit or an abort; when it answers with a session, the
    presented token was exchanged for exactly that session's refresh token, and when it
    answers with an error it exchanged nothing, unless the answer to its commit was lost. *)
Theorem refresh_is_a_transaction tok a s r a' s' :
  Refresh tok a s = (r, a', s') -> as_transaction tok s r s'.
Proof. intros Hrun. exact (wp_run _ _ _ _ _ _ _ Hrun (Refresh_runs tok a s)). Qed.

(** C28: refresh tokens rotate, also under concurrency.  However any number of refreshes,
    logins and logouts interleave statement by statement, wait for each other's locks, abort
    or commit, no refresh token is exchanged twice, and a token that was exchanged is revoked
    from then on. *)
Theorem concurrent_refresh_single_use acts s c :
  no_collisions s -> wf_auth s -> run acts (idle s) = Some c ->
  NoDup (exchanged (rc_log c)) /\
  forall h k r, h ∈ exchanged (rc_log c) -> tb_tokens (rc_db c) !! k = Some r -> tk_hash r = h -> tk_revoked r = true.
Proof.
  intros Hnc Hwf Hrun. pose proof (run_ok acts _ _ (idle_ok s Hnc Hwf) Hrun) as Hok. split; [apply (ro_once _ Hok)|].
  intros h k r Hin Hk <-. destruct (ro_spent _ Hok _ Hin) as (k' & r' & Hk' & Hh & Hrev).
  assert (k = k') as -> by (by apply (ro_unique _ Hok k k' r r')). congruence.
Qed.
End Race.

(** ** Witnesses, and a race *)

(** Ada has two sessions, with the tokens t1 and t2; t1 was exchanged for t3. *)
Definition ada_two : auth_state :=
  (serve ∅ [(call_amb "u", CallRegister ada); (call_amb "a", CallLogin ada); (call_amb "b", CallLogin ada);
            (call_amb "c", CallRefresh "t1")] no_users).2.

Lemma ada_two_wf : no_collisions ada_two /\ wf_auth ada_two.
Proof. apply serve_wf; apply no_users_wf. Qed.

(** A thief presents t1 while Ada's browser refreshes t2: the revocation takes its snapshot
    before the new token is committed, waits for the lock of t2, and misses the new token. *)
Definition thief_and_ada : list (action (U := ref_uuid)) :=
  [ABegin 2 "t2" 0; AFind 2; ARotate 2; AIssue 2 "n0"; ABegin 1 "t1" 0; AFind 1; ARevokeAll 1; ALock 1 "a0";
   ALock 1 "c0"; ACommit 2; ALock 1 "b0"; AUpdated 1; ACommit 1].

Definition raced : option race := run thief_and_ada (idle ada_two).

(** Afterwards the token of Ada's new session is presented. *)
Definition presents_t4 : list (action (U := ref_uuid)) := [ARotate 3; AIssue 3 ("m0" : @UUID ref_uuid); ACommit 3].

Lemma raced_last : (fun c => last (rc_log c)) <$> raced = Some (Some (ReuseDetected ("u0" : @UUID ref_uuid))).
Proof. vm_compute. reflexivity. Qed.

Lemma raced_token : (fun c => (fun r => (tk_user_id r, tk_hash r, tk_revoked r)) <$>
    tb_tokens (rc_db c) !! ("n0" : @UUID ref_uuid)) <$> raced = Some (Some (("u0" : @UUID ref_uuid), hashToken "t4", false)).
Proof. vm_compute. reflexivity. Qed.

Lemma raced_again : (fun c => exchanged (rc_log c)) <$> (raced ≫= run (ABegin 3 "t4" 0 :: AFind 3 :: presents_t4)) =
  Some [hashToken "t2"; hashToken "t4"].
Proof. vm_compute. reflexivity. Qed.

(** Reuse detection can miss a session.  There is an interleaving of two refreshes in
    which the reuse of a token is detected, and afterwards a refresh token of the same user is
    still valid and is accepted: the one a refresh was issuing while the revocation ran. *)
Lemma reuse_race_leaves_a_session :
  exists s acts c tok, no_collisions (U := ref_uuid) s /\ wf_auth s /\ run acts (idle s) = Some c /\
    last (rc_log c) = Some (ReuseDetected ("u0" : @UUID ref_uuid)) /\
    (exists k r, tb_tokens (rc_db c) !! k = Some r /\ tk_user_id r = ("u0" : @UUID ref_uuid) /\
       tk_hash r = hashToken tok /\ tk_revoked r = false) /\
    exists acts' c', run (ABegin 3 tok 0 :: AFind 3 :: acts') c = Some c' /\ hashToken tok ∈ exchanged (rc_log c').
Proof.
  pose proof raced_last as Hlast. pose proof raced_token as Htok. pose proof raced_again as Hrun.
  destruct raced as [c|] eqn:Hc; [|discriminate Hlast].
  cbn [fmap option_fmap option_map] in Hlast, Htok. injection Hlast as Hlast.
  destruct (tb_tokens (rc_db c) !! _) as [r|] eqn:Hr in Htok; [|discriminate Htok].
  cbn [fmap option_fmap option_map] in Htok. injection Htok as Hu Hh Hrev.
  apply fmap_Some in Hrun as (c' & Hc' & Hex).
  exists ada_two, thief_and_ada, c, "t4". split; [apply ada_two_wf|]. split; [apply ada_two_wf|].
  split; [exact Hc|]. split; [exact Hlast|]. split; [exists ("n0" : @UUID ref_uuid), r; auto|].
  exists presents_t4, c'. split; [exact Hc'|]. rewrite <- Hex. right. by left.
Qed.

Lemma concurrent_refresh_single_use_witness :
  exists c, raced = Some c /\ NoDup (exchanged (rc_log c)).
Proof.
  pose proof raced_last as E. destruct raced as [c|] eqn:Hc; [|discriminate E]. exists c. split; [reflexivity|].
  exact (proj1 (concurrent_refresh_single_use thief_and_ada ada_two c (proj1 ada_two_wf) (proj2 ada_two_wf) Hc)).
Defined.

Abbreviation ada_third := (Refresh "t3" (call_amb "d") ada_two).

Lemma refresh_is_a_transaction_witness :
  is_ok ada_third.1.1 = true /\ as_transaction "t3" ada_two ada_third.1.1 ada_third.2.
Proof.
  split; [vm_compute; reflexivity|].
  exact (refresh_is_a_transaction "t3" (call_amb "d") ada_two _ _ _ (run_eta ada_third)).
Defined.
