(* ===== verification/Http.v ===== *)
(** * HTTP requests, response writers and JSON bodies

    What the gateway uses of [net/http], [encoding/json], [strconv] and [strings], and the
    helpers of [services/gateway/internal/httpapi/respond.go] that decode a body. *)

From Stdlib Require Import Ascii String DecimalString.
From stdpp Require Import base gmap list strings numbers.
From S2P Require Import Prelude Platform GoStrings Authz.

(** ** Text *)

(** [strings.Cut(s, sep)] for a one-byte separator: [None] when it is not found. *)
Fixpoint cut (sep : ascii) (s : string) : option (string * string) :=
  match s with
  | "" => None
  | String c r => if bool_decide (c = sep) then Some ("", r)
                  else match cut sep r with
                       | Some (before, after) => Some (String c before, after)
                       | None => None
                       end
  end%string.

(** Upper case of an ASCII letter, other bytes unchanged. *)
Definition ascii_upper (c : ascii) : ascii :=
  if is_lower (byte_z c) then ascii_of_N (N_of_ascii c - 32) else c.

(** [foldName] of [encoding/json] and [strings.EqualFold] on names without other cased
    letters: ASCII letters are folded, and so are the two non-ASCII letters whose fold is
    an ASCII letter, U+017F (to S) and U+212A (to K). *)
Fixpoint fold_name (s : string) : string :=
  match s with
  | "" => ""
  | String c r =>
      match r with
      | String d t =>
          if bool_decide (byte_z c = 197 /\ byte_z d = 191)%Z then String "S" (fold_name t)
          else match t with
          | String e u =>
              if bool_decide (byte_z c = 226 /\ byte_z d = 132 /\ byte_z e = 170)%Z
              then String "K" (fold_name u) else String (ascii_upper c) (fold_name r)
          | _ => String (ascii_upper c) (fold_name r)
          end
      | _ => String (ascii_upper c) (fold_name r)
      end
  end%string.

Definition equal_fold (s t : string) : bool := bool_decide (fold_name s = fold_name t).

(** [strconv.ParseInt(s, 10, 32)]: an optional sign and digits, in range. *)
Definition parse_int32 (s : string) : option Z :=
  n ← match s with
      | String "+" r => Z.of_uint <$> NilZero.uint_of_string r
      | _ => atoi s
      end;
  if between (- 2 ^ 31) (2 ^ 31 - 1) n then Some n else None.

(** ** JSON *)

(** A number keeps its literal, an object its members in order with repetitions. *)
Inductive json :=
  | JNull
  | JBool (b : bool)
  | JNumber (literal : string)
  | JString (s : string)
  | JArray (l : list json)
  | JObject (members : list (string * json)).

(** What the scanner makes of a text: a first value and the text after it; nothing but
    white space; the beginning of a value; or something that is no JSON. *)
Inductive json_read_result :=
  | ReadValue (v : json) (rest : string)
  | ReadEnd
  | ReadPartial
  | ReadBad.

(** What is used of [encoding/json] (scanning a text), [strconv] ([%q]), [mime], and [net]. *)
Class HttpLib : Type := {
  json_read : string -> json_read_result;
  quote : string -> string;
  parse_media_type : string -> option string;
  parse_ip : string -> bool;
  split_host : string -> option string;
}.

(** Why a value does not fit its destination. *)
Inductive decode_error := UnknownField (name : string) | BadValue.

(** [null] leaves a string or a number as it was. *)
Definition decode_string (v : json) (old : string) : option string :=
  match v with JString s => Some s | JNull => Some old | _ => None end.

Definition decode_int32 (v : json) (old : Z) : option Z :=
  match v with JNumber lit => parse_int32 lit | JNull => Some old | _ => None end.

(** The elements of an array are decoded over those the slice had. *)
Fixpoint decode_elements (l : list json) (old : list string) : option (list string) :=
  match l with
  | [] => Some []
  | v :: l' => s ← decode_string v (default "" (head old));
               ss ← decode_elements l' (tail old); Some (s :: ss)
  end.

Definition decode_strings (v : json) (old : list string) : option (list string) :=
  match v with JArray l => decode_elements l old | JNull => Some [] | _ => None end.

(** The fields of a struct: the JSON name, and how a value is stored into it. *)
Abbreviation field A := (string * (json -> A -> option A))%type.

(** The field a member goes to: the one of that name, else the one whose name is the same
    up to case. *)
Definition find_field {A} (fs : list (field A)) (name : string) : option (json -> A -> option A) :=
  match list_find (fun f : field A => f.1 = name) fs with
  | Some (_, f) => Some f.2
  | None => match list_find (fun f : field A => fold_name f.1 = fold_name name) fs with
            | Some (_, f) => Some f.2
            | None => None
            end
  end.

(** Members in order; the first that does not fit decides the error. *)
Fixpoint decode_members {A} (fs : list (field A)) (l : list (string * json)) (x : A) : A + decode_error :=
  match l with
  | [] => inl x
  | (name, v) :: l' =>
      match find_field fs name with
      | None => inr (UnknownField name)
      | Some store => match store v x with
                      | Some x' => decode_members fs l' x'
                      | None => inr BadValue
                      end
      end
  end.

Definition decode_struct {A} (fs : list (field A)) (v : json) (x : A) : A + decode_error :=
  match v with
  | JNull => inl x
  | JObject l => decode_members fs l x
  | _ => inr BadValue
  end.

(** White space of JSON. *)
Definition json_space (c : ascii) : bool :=
  let z := byte_z c in (z =? 32)%Z || (z =? 9)%Z || (z =? 10)%Z || (z =? 13)%Z.

(** ** Requests *)

(** A request whose path is clean ([net/http] redirects others), as its segments; a trailing
    slash is a last segment "/".  [rq_RequestID] and [rq_Claims] are the context's values. *)
Record Request := {
  rq_Method : string;
  rq_Path : list string;
  rq_Header : gmap string string;
  rq_Cookies : list (string * string);
  rq_Query : gmap string string;
  rq_Body : string;
  rq_RemoteAddr : string;
  rq_PathValue : string;
  rq_RequestID : string;
  rq_Claims : option Claims;
}.

Definition with_claims (c : Claims) (r : Request) : Request :=
  {| rq_Method := rq_Method r; rq_Path := rq_Path r; rq_Header := rq_Header r; rq_Cookies := rq_Cookies r;
     rq_Query := rq_Query r; rq_Body := rq_Body r; rq_RemoteAddr := rq_RemoteAddr r;
     rq_PathValue := rq_PathValue r; rq_RequestID := rq_RequestID r; rq_Claims := Some c |}.

Definition with_request_id (id : string) (r : Request) : Request :=
  {| rq_Method := rq_Method r; rq_Path := rq_Path r; rq_Header := rq_Header r; rq_Cookies := rq_Cookies r;
     rq_Query := rq_Query r; rq_Body := rq_Body r; rq_RemoteAddr := rq_RemoteAddr r;
     rq_PathValue := rq_PathValue r; rq_RequestID := id; rq_Claims := rq_Claims r |}.

Definition with_path_value (v : string) (r : Request) : Request :=
  {| rq_Method := rq_Method r; rq_Path := rq_Path r; rq_Header := rq_Header r; rq_Cookies := rq_Cookies r;
     rq_Query := rq_Query r; rq_Body := rq_Body r; rq_RemoteAddr := rq_RemoteAddr r;
     rq_PathValue := v; rq_RequestID := rq_RequestID r; rq_Claims := rq_Claims r |}.

(** [r.Header.Get] and [r.Cookie]. *)
Definition header_get (name : string) (r : Request) : string := default "" (rq_Header r !! name).
Definition cookie_get (name : string) (r : Request) : option string :=
  snd <$> (snd <$> list_find (fun c : string * string => c.1 = name) (rq_Cookies r)).

(** ** Response writers *)

Record Cookie := {
  ck_Name : string;
  ck_Value : string;
  ck_Path : string;
  ck_MaxAge : Z;
  ck_HttpOnly : bool;
  ck_Secure : bool;
  ck_SameSiteStrict : bool;
}.

(** What went over the wire: the status line with the headers as they were then, and what
    was written after it. *)
Record Response (P : Type) := {
  rs_Status : Z;
  rs_Header : gmap string string;
  rs_Cookies : list Cookie;
  rs_Body : list P;
}.
Arguments rs_Status {P}.
Arguments rs_Header {P}.
Arguments rs_Cookies {P}.
Arguments rs_Body {P}.
Arguments Build_Response {P}.

(** The writer a handler holds: the header map, the response once it has begun, and the
    status remembered by each [statusRecorder] around it, innermost first. *)
Record Writer (P : Type) := {
  wr_Header : gmap string string;
  wr_Cookies : list Cookie;
  wr_Sent : option (Response P);
  wr_Recorders : list Z;
}.
Arguments wr_Header {P}.
Arguments wr_Cookies {P}.
Arguments wr_Sent {P}.
Arguments wr_Recorders {P}.
Arguments Build_Writer {P}.

Section Writer.
Context {P : Type}.
Implicit Types w : Writer P.

Definition new_writer : Writer P := Build_Writer ∅ [] None [].

Definition set_header (k v : string) w : Writer P :=
  Build_Writer (<[k := v]> (wr_Header w)) (wr_Cookies w) (wr_Sent w) (wr_Recorders w).

Definition SetCookie (c : Cookie) w : Writer P :=
  Build_Writer (wr_Header w) (wr_Cookies w ++ [c]) (wr_Sent w) (wr_Recorders w).

(** The status line goes out once; a second one is ignored by [net/http]. *)
Definition send_status (code : Z) w : Writer P :=
  match wr_Sent w with
  | Some _ => w
  | None => Build_Writer (wr_Header w) (wr_Cookies w)
              (Some (Build_Response code (wr_Header w) (wr_Cookies w) [])) (wr_Recorders w)
  end.

(** [statusRecorder.WriteHeader], through all recorders around the writer. *)
Definition WriteHeader (code : Z) w : Writer P :=
  send_status code (Build_Writer (wr_Header w) (wr_Cookies w) (wr_Sent w) ((fun _ => code) <$> wr_Recorders w)).

(** Writing a body sends the status 200 when none was sent. *)
Definition write_body (p : P) w : Writer P :=
  let w' := send_status 200 w in
  Build_Writer (wr_Header w') (wr_Cookies w')
    ((fun r => Build_Response (rs_Status r) (rs_Header r) (rs_Cookies r) (rs_Body r ++ [p])) <$> wr_Sent w')
    (wr_Recorders w').

(** A [statusRecorder] put around the writer, with the status 200, and taken off again. *)
Definition push_recorder w : Writer P :=
  Build_Writer (wr_Header w) (wr_Cookies w) (wr_Sent w) (200%Z :: wr_Recorders w).
Definition pop_recorder w : Writer P :=
  Build_Writer (wr_Header w) (wr_Cookies w) (wr_Sent w) (tail (wr_Recorders w)).
Definition recorded w : Z := default 200%Z (head (wr_Recorders w)).
End Writer.
