(* ===== verification/Gateway.v ===== *)
(** * gateway: the HTTP API ([services/gateway/internal/httpapi])

    Requests from the browser become calls to the services.  A handler takes a request and
    acts on the gateway's state, in which its response writer lies; the error of a handler's
    run is a Go panic.  The services are an interface ([Services]); every call made to
    them is recorded together with its answer. *)

From Stdlib Require Import Ascii String.
From stdpp Require Import base gmap list strings numbers.
From S2P Require Import Prelude Platform GoStrings Authz Http.
From S2P Require Import Events Apierr Inventory Payment Order Analytics Auth RateLimit.

(** ** Views ([handlers_*.go]) *)

Record userView := { uv_ID : string; uv_Email : string; uv_Role : string }.

Record sessionResponse := { sv_AccessToken : string; sv_ExpiresIn : Z; sv_User : userView }.

Record eventView := {
  ev_ID : string;
  ev_Name : string;
  ev_TotalSeats : Z;
  ev_AvailableSeats : Z;
  ev_SeatPriceCents : Z;
  ev_CreatedAt : Z;
}.

Record seatView := { sv_ID : string; sv_Label : string; sv_Status : string }.

Record orderView := {
  ov_OrderID : string;
  ov_EventID : string;
  ov_SeatIDs : list string;
  ov_AmountCents : Z;
  ov_Status : string;
}.

Record statsView := {
  tv_EventID : string;
  tv_EventName : string;
  tv_TicketsSold : Z;
  tv_RevenueCents : Z;
  tv_OrdersConfirmed : Z;
  tv_OrdersFailed : Z;
  tv_UpdatedAt : Z;
}.

(** What is encoded as the body of a response. *)
Inductive payload :=
  | PError (code message : string)                (* errorBody *)
  | PStatus (status : string)                     (* {"status": ..} *)
  | PUserID (user_id : string)                    (* {"user_id": ..} *)
  | PSession (s : sessionResponse)
  | PEvents (events : list eventView)             (* {"events": ..} *)
  | PEvent (event : eventView)                    (* {"event": ..} *)
  | PSeats (seats : list seatView)                (* {"seats": ..} *)
  | PEventID (event_id : string)                  (* {"event_id": ..} *)
  | POrder (o : orderView)
  | PStats (events : list statsView).             (* {"events": ..} *)

(** ** The services behind the gateway ([api.go]) *)

Section Interface.
Context `{U : UuidLib}.

(** The clients of [Deps], as the handlers they reach in a world [W], and the limiter. *)
Class Services (W : Type) := {
  svc_Register : Credentials -> prog W string;
  svc_Login : Credentials -> prog W Session;
  svc_Refresh : string -> prog W Session;
  svc_Logout : string -> prog W unit;
  svc_CreateEvent : CreateEventRequest -> prog W string;
  svc_GetEvent : GetEventRequest -> prog W Event;
  svc_ListEvents : ListEventsRequest -> prog W (list Event);
  svc_ListSeats : ListSeatsRequest -> prog W (list Seat);
  svc_CreateOrder : CreateOrderRequest -> prog W CreateOrderResponse;
  svc_GetOrder : GetOrderRequest -> prog W GetOrderResponse;
  svc_ListEventStats : Z -> prog W (list EventStats);
  lim_Allow : string -> Z -> Z -> prog W Result;
}.
End Interface.

(** A call the gateway made and how it was answered. *)
Inductive service_call :=
  | SRegister (req : Credentials) (r : res string)
  | SLogin (req : Credentials) (r : res Session)
  | SRefresh (refreshToken : string) (r : res Session)
  | SLogout (refreshToken : string) (r : res unit)
  | SCreateEvent (req : CreateEventRequest) (r : res string)
  | SGetEvent (req : GetEventRequest) (r : res Event)
  | SListEvents (req : ListEventsRequest) (r : res (list Event))
  | SListSeats (req : ListSeatsRequest) (r : res (list Seat))
  | SCreateOrder (req : CreateOrderRequest) (r : res CreateOrderResponse)
  | SGetOrder (req : GetOrderRequest) (r : res GetOrderResponse)
  | SListEventStats (limit : Z) (r : res (list EventStats)).

(** A line of the access log. *)
Record log_line := { lg_request_id : string; lg_method : string; lg_path : list string;
                     lg_status : Z; lg_user_id : string }.

(** The state of the gateway while it serves a request: the world, the response writer, the
    [caller] of the request's context, the name of its span, the calls made, and the
    counters and the log. *)
Record gateway (W : Type) := {
  gw_world : W;
  gw_writer : Writer payload;
  gw_caller : string;
  gw_span : string;
  gw_calls : list service_call;
  gw_inflight : Z;
  gw_requests : list (string * string * Z);
  gw_limited : list string;
  gw_log : list log_line;
}.
Arguments gw_world {W}.
Arguments gw_writer {W}.
Arguments gw_caller {W}.
Arguments gw_span {W}.
Arguments gw_calls {W}.
Arguments gw_inflight {W}.
Arguments gw_requests {W}.
Arguments gw_limited {W}.
Arguments gw_log {W}.
Arguments Build_gateway {W}.

(** The settings of [Deps]. *)
Record API := { ap_seatPriceCents : Z; ap_cookieSecure : bool; ap_trustProxy : bool }.

Section State.
Context {W : Type}.
Implicit Types g : gateway W.

Definition set_writer (f : Writer payload -> Writer payload) g : gateway W :=
  Build_gateway (gw_world g) (f (gw_writer g)) (gw_caller g) (gw_span g) (gw_calls g) (gw_inflight g)
    (gw_requests g) (gw_limited g) (gw_log g).
Definition set_caller (c : string) g : gateway W :=
  Build_gateway (gw_world g) (gw_writer g) c (gw_span g) (gw_calls g) (gw_inflight g)
    (gw_requests g) (gw_limited g) (gw_log g).
Definition set_span (n : string) g : gateway W :=
  Build_gateway (gw_world g) (gw_writer g) (gw_caller g) n (gw_calls g) (gw_inflight g)
    (gw_requests g) (gw_limited g) (gw_log g).
Definition add_inflight (n : Z) g : gateway W :=
  Build_gateway (gw_world g) (gw_writer g) (gw_caller g) (gw_span g) (gw_calls g) (gw_inflight g + n)
    (gw_requests g) (gw_limited g) (gw_log g).
Definition count_request (x : string * string * Z) g : gateway W :=
  Build_gateway (gw_world g) (gw_writer g) (gw_caller g) (gw_span g) (gw_calls g) (gw_inflight g)
    (gw_requests g ++ [x]) (gw_limited g) (gw_log g).
Definition count_limited (x : string) g : gateway W :=
  Build_gateway (gw_world g) (gw_writer g) (gw_caller g) (gw_span g) (gw_calls g) (gw_inflight g)
    (gw_requests g) (gw_limited g ++ [x]) (gw_log g).
Definition log_request (x : log_line) g : gateway W :=
  Build_gateway (gw_world g) (gw_writer g) (gw_caller g) (gw_span g) (gw_calls g) (gw_inflight g)
    (gw_requests g) (gw_limited g) (gw_log g ++ [x]).
End State.

(** ** Errors for the browser ([respond.go]) *)

Definition retry_message : string := "the service is temporarily unavailable, please try again".

Definition httpError (e : error) : Z * string * string :=
  let reason := Reason (Some e) in
  if bool_decide (reason = ReasonSeatsUnavailable)
  then (409, "seats_unavailable", "one or more of those seats are no longer available")%Z
  else if bool_decide (reason = ReasonPaymentDeclined)
  then (402, "payment_declined", "your payment was declined")%Z
  else if bool_decide (reason = ReasonServiceUnavailable)
  then (503, "service_unavailable", retry_message)%Z
  else if bool_decide (reason = ReasonRequestInProgress)
  then (409, "request_in_progress", "a request with this Idempotency-Key is still being processed; wait a moment and retry it")%Z
  else if bool_decide (reason = ReasonIdempotencyKeyReused)
  then (422, "idempotency_key_reused", "this Idempotency-Key was already used for a different request")%Z
  else match from_error e with
  | None => (500, "internal", "internal error")%Z
  | Some (c, msg, _) =>
      match c with
      | InvalidArgument => (400, "invalid_argument", msg)%Z
      | Unauthenticated => (401, "unauthenticated", msg)%Z
      | PermissionDenied => (403, "permission_denied", msg)%Z
      | NotFound => (404, "not_found", msg)%Z
      | AlreadyExists => (409, "already_exists", msg)%Z
      | FailedPrecondition => (409, "conflict", msg)%Z
      | ResourceExhausted => (429, "rate_limited", msg)%Z
      | Unavailable => (503, "service_unavailable", retry_message)%Z
      | DeadlineExceeded => (504, "timeout", "the request took too long, please try again")%Z
      | Canceled => (499, "canceled", "request canceled")%Z
      | _ => (500, "internal", "internal error")%Z
      end
  end.

Definition seatStatusName (s : SeatStatus) : string :=
  match s with
  | SEAT_STATUS_AVAILABLE => "available"
  | SEAT_STATUS_HELD => "held"
  | SEAT_STATUS_SOLD => "sold"
  | _ => "unknown"
  end.

Definition orderStatusName (s : OrderStatus) : string :=
  match s with
  | ORDER_STATUS_PENDING => "pending"
  | ORDER_STATUS_CONFIRMED => "confirmed"
  | ORDER_STATUS_FAILED => "failed"
  | _ => "unknown"
  end.

Definition maxBodyBytes : Z := 64 * 2 ^ 10.
Definition maxSeatsPerOrder : Z := 10.
Definition refreshCookieName : string := "refresh_token".
Definition refreshCookieMaxAge : Z := 7 * 24 * 3600 * 10 ^ 9.
Definition refreshCookiePath : string := "/api/auth".
Definition csrfHeader : string := "X-Requested-With".
Definition csrfValue : string := "ticketwave-web".
Definition unmatched : string := "unmatched".
(** The quotation mark. *)
Definition dquote : string := String (ascii_of_nat 34) EmptyString.
Definition minute : Z := 60 * 10 ^ 9.

Record createEventBody := { cb_Name : string; cb_SeatCount : Z }.
Record createOrderBody := { ob_EventID : string; ob_SeatIDs : list string }.

(** The JSON fields of the bodies. *)
Definition credentials_fields : list (field Credentials) :=
  [("email", fun v x => e ← decode_string v (cd_Email x);
      Some {| cd_Email := e; cd_Password := cd_Password x |});
   ("password", fun v x => p ← decode_string v (cd_Password x);
      Some {| cd_Email := cd_Email x; cd_Password := p |})].

Definition createEvent_fields : list (field createEventBody) :=
  [("name", fun v x => n ← decode_string v (cb_Name x);
      Some {| cb_Name := n; cb_SeatCount := cb_SeatCount x |});
   ("seat_count", fun v x => n ← decode_int32 v (cb_SeatCount x);
      Some {| cb_Name := cb_Name x; cb_SeatCount := n |})].

Definition createOrder_fields : list (field createOrderBody) :=
  [("event_id", fun v x => e ← decode_string v (ob_EventID x);
      Some {| ob_EventID := e; ob_SeatIDs := ob_SeatIDs x |});
   ("seat_ids", fun v x => l ← decode_strings v (ob_SeatIDs x);
      Some {| ob_EventID := ob_EventID x; ob_SeatIDs := l |})].

(** [limitName]: everything before the first colon. *)
Definition limitName (key : string) : string :=
  match cut ":" key with Some (name, _) => name | None => key end.

Section Handlers.
Context `{U : UuidLib} {L : AuthLib} {T : JwtLib} {H : HttpLib} {W : Type} `{!Services W}.
Variable api : API.

Definition handler : Type := Request -> prog (gateway W) unit.
Definition middleware : Type := handler -> handler.

Definition on_writer (f : Writer payload -> Writer payload) : prog (gateway W) unit := modify (set_writer f).

(** *** Writing responses ([respond.go]) *)

Definition writeJSON (status : Z) (v : payload) : prog (gateway W) unit :=
  _ ← on_writer (set_header "Content-Type" "application/json; charset=utf-8");
  _ ← on_writer (set_header "Cache-Control" "no-store");
  _ ← on_writer (WriteHeader status);
  on_writer (write_body v).

Definition writeError (status : Z) (code message : string) : prog (gateway W) unit :=
  writeJSON status (PError code message).

(** [fail]; the error itself only goes to the log. *)
Definition fail (e : error) : prog (gateway W) unit :=
  let '(httpStatus, code, message) := httpError e in writeError httpStatus code message.

(** [decodeJSON]: the body through [MaxBytesReader]; a text longer than the limit ends in
    an error of its own where a shorter one ends. *)
Definition decodeJSON {A} (fs : list (field A)) (zero : A) (r : Request) : prog (gateway W) (option A) :=
  let refuse status code message := _ ← writeError status code message; mret None in
  let n := Z.to_nat maxBodyBytes in
  let text := String.substring 0 n (rq_Body r) in
  let tooLarge := bool_decide (n < String.length (rq_Body r)) in
  if bool_decide (parse_media_type (header_get "Content-Type" r) = Some "application/json") then
    match json_read text with
    | ReadValue v rest =>
        match decode_struct fs v zero with
        | inr (UnknownField name) => refuse 400%Z "invalid_json" ("json: unknown field " +:+ quote name)
        | inr BadValue => refuse 400%Z "invalid_json" "request body is not valid JSON for this endpoint"
        | inl x =>
            if forallb json_space (list_ascii_of_string rest) && negb tooLarge then mret (Some x)
            else refuse 400%Z "invalid_json" "request body must contain a single JSON object"
        end
    | ReadEnd => if tooLarge then refuse 413%Z "body_too_large" "request body is too large"
                 else refuse 400%Z "invalid_json" "request body is empty"
    | ReadPartial => if tooLarge then refuse 413%Z "body_too_large" "request body is too large"
                     else refuse 400%Z "invalid_json" "request body is not valid JSON for this endpoint"
    | ReadBad => refuse 400%Z "invalid_json" "request body is not valid JSON for this endpoint"
    end
  else refuse 415%Z "unsupported_media_type" "Content-Type must be application/json".

(** *** Calls *)

Definition in_world {A} (m : prog W A) : prog (gateway W) A := fun a g =>
  let '(r, a', w') := m a (gw_world g) in
  (r, a', Build_gateway w' (gw_writer g) (gw_caller g) (gw_span g) (gw_calls g) (gw_inflight g)
            (gw_requests g) (gw_limited g) (gw_log g)).

Definition note_call (c : service_call) (g : gateway W) : gateway W :=
  Build_gateway (gw_world g) (gw_writer g) (gw_caller g) (gw_span g) (gw_calls g ++ [c]) (gw_inflight g)
    (gw_requests g) (gw_limited g) (gw_log g).

(** A unary call bounded by [callContext]: running out of time is one of its fates. *)
Definition call {A} (h : prog W A) (note : res A -> service_call) : prog (gateway W) (res A) :=
  r ← attempt (in_world (rpc h));
  _ ← modify (note_call (note r));
  mret r.

(** *** Middleware ([middleware.go], [metrics.go]) *)

(** [chain]: the first middleware is the outermost. *)
Definition chain (h : handler) (mws : list middleware) : handler := foldr (fun mw k => mw k) h mws.

Definition requestID : middleware := fun next r =>
  let given := header_get "X-Request-ID" r in
  id ← (if match_token given then mret given else u ← uuid_new; mret (uuid_string u));
  _ ← on_writer (set_header "X-Request-ID" id);
  _ ← modify (set_caller "");
  next (with_request_id id r).

Definition spanName (name : string) : middleware := fun next r =>
  _ ← modify (set_span name); next r.

Definition recoverer : middleware := fun next r =>
  out ← attempt (next r);
  match out with
  | Ok _ => mret tt
  | Err _ => writeError 500 "internal" "internal error"
  end.

Definition securityHeaders : middleware := fun next r =>
  _ ← on_writer (set_header "X-Content-Type-Options" "nosniff");
  _ ← on_writer (set_header "Referrer-Policy" "no-referrer");
  next r.

(** A panic unwinds through [logging] and leaves no line. *)
Definition logging : middleware := fun next r =>
  _ ← on_writer push_recorder;
  out ← attempt (next r);
  g ← get_state;
  _ ← on_writer pop_recorder;
  match out with
  | Err e => throw e
  | Ok _ => modify (log_request {| lg_request_id := rq_RequestID r; lg_method := rq_Method r;
              lg_path := rq_Path r; lg_status := recorded (gw_writer g); lg_user_id := gw_caller g |})
  end.

(** The gauge is decremented by a deferred call, the request is counted only on return. *)
Definition instrument (route : string) : middleware := fun next r =>
  _ ← modify (add_inflight 1);
  _ ← on_writer push_recorder;
  out ← attempt (next r);
  g ← get_state;
  _ ← on_writer pop_recorder;
  _ ← match out with
      | Ok _ => modify (count_request (route, rq_Method r, recorded (gw_writer g)))
      | Err _ => mret tt
      end;
  _ ← modify (add_inflight (-1));
  lift_res out.

Definition bearerToken (r : Request) : option string :=
  match cut " " (header_get "Authorization" r) with
  | None => None
  | Some (scheme, token) =>
      if equal_fold scheme "Bearer" then
        let token := trim_space token in if bool_decide (token = "") then None else Some token
      else None
  end.

Definition authenticate : middleware := fun next r =>
  match bearerToken r with
  | None =>
      _ ← on_writer (set_header "WWW-Authenticate" "Bearer");
      writeError 401 "unauthenticated" "sign in to continue"
  | Some token =>
      now ← time_now;
      match Verify now token with
      | Err _ =>
          _ ← on_writer (set_header "WWW-Authenticate" ("Bearer error=" +:+ dquote +:+ "invalid_token" +:+ dquote));
          writeError 401 "unauthenticated" "your session is not valid, sign in again"
      | Ok claims =>
          _ ← modify (set_caller (cl_UserID claims));
          next (with_claims claims r)
      end
  end.

Definition requireRole (min : Role) : middleware := fun next r =>
  match rq_Claims r with
  | None => writeError 401 "unauthenticated" "sign in to continue"
  | Some claims =>
      if AtLeast (cl_Role claims) min then next r
      else writeError 403 "permission_denied" "you do not have permission to do that"
  end.

Definition csrf : middleware := fun next r =>
  if bool_decide (header_get csrfHeader r = csrfValue) then next r
  else writeError 403 "csrf_check_failed" ("missing or wrong " +:+ csrfHeader +:+ " header").

Definition clientIP (r : Request) : string :=
  let ip := trim_space (header_get "X-Real-IP" r) in
  if ap_trustProxy api && parse_ip ip then ip
  else match split_host (rq_RemoteAddr r) with Some host => host | None => rq_RemoteAddr r end.

Definition byIP (r : Request) : string := clientIP r.

Definition byUser (r : Request) : string :=
  match rq_Claims r with
  | Some claims => "user:" +:+ cl_UserID claims
  | None => byIP r
  end.

(** [hashKey]: the first 8 bytes of the hash, 16 hexadecimal digits. *)
Definition hashKey (s : string) : string := String.substring 0 16 (sha256_hex (to_lower (trim_space s))).

(** [allow]: an unreachable limiter lets the request through. *)
Definition allow (key : string) (limit window : Z) : prog (gateway W) bool :=
  r ← attempt (in_world (lim_Allow key limit window));
  match r with
  | Err _ => mret true
  | Ok r =>
      _ ← on_writer (set_header "X-RateLimit-Limit" (itoa limit));
      _ ← on_writer (set_header "X-RateLimit-Remaining" (itoa (rl_Remaining r)));
      if rl_Allowed r then mret true else
      _ ← modify (count_limited (limitName key));
      let retry := Z.quot (rl_ResetIn r + 10 ^ 9 - 1) (10 ^ 9) in
      let retry := if (retry <? 1)%Z then 1%Z else retry in
      _ ← on_writer (set_header "Retry-After" (itoa retry));
      _ ← writeError 429 "rate_limited" "too many requests, try again shortly";
      mret false
  end.

Definition limit (name : string) (n window : Z) (key : Request -> string) : middleware := fun next r =>
  ok ← allow (name +:+ ":" +:+ key r) n window;
  if (ok : bool) then next r else mret tt.

(** *** Accounts ([handlers_auth.go]) *)

Definition refresh_cookie (value : string) (maxAge : Z) : Cookie :=
  {| ck_Name := refreshCookieName; ck_Value := value; ck_Path := refreshCookiePath; ck_MaxAge := maxAge;
     ck_HttpOnly := true; ck_Secure := ap_cookieSecure api; ck_SameSiteStrict := true |}.

Definition setRefreshCookie (token : string) : prog (gateway W) unit :=
  on_writer (SetCookie (refresh_cookie token (refreshCookieMaxAge / 10 ^ 9))).
Definition clearRefreshCookie : prog (gateway W) unit := on_writer (SetCookie (refresh_cookie "" (-1))).

Definition register : handler := fun r =>
  body ← decodeJSON credentials_fields {| cd_Email := ""; cd_Password := "" |} r;
  match body with
  | None => mret tt
  | Some req =>
      resp ← call (svc_Register req) (SRegister req);
      match resp with
      | Err e => fail e
      | Ok id => writeJSON 201 (PUserID id)
      end
  end.

Definition session_view (s : Session) : sessionResponse :=
  {| sv_AccessToken := sn_AccessToken s; sv_ExpiresIn := sn_ExpiresIn s;
     sv_User := {| uv_ID := sn_UserId s; uv_Email := sn_Email s; uv_Role := sn_Role s |} |}.

Definition login : handler := fun r =>
  body ← decodeJSON credentials_fields {| cd_Email := ""; cd_Password := "" |} r;
  match body with
  | None => mret tt
  | Some req =>
      ok ← allow ("login-email:" +:+ hashKey (cd_Email req)) 5 minute;
      if negb ok then mret tt else
      resp ← call (svc_Login req) (SLogin req);
      match resp with
      | Err e => fail e
      | Ok s => _ ← setRefreshCookie (sn_RefreshToken s); writeJSON 200 (PSession (session_view s))
      end
  end.

Definition refresh : handler := fun r =>
  match cookie_get refreshCookieName r with
  | None | Some "" => writeError 401 "unauthenticated" "no session, sign in"
  | Some token =>
      resp ← call (svc_Refresh token) (SRefresh token);
      match resp with
      | Err e =>
          _ ← (if bool_decide (status_code e = Unauthenticated) then clearRefreshCookie else mret tt);
          fail e
      | Ok s => _ ← setRefreshCookie (sn_RefreshToken s); writeJSON 200 (PSession (session_view s))
      end
  end.

Definition logout : handler := fun r =>
  _ ← match cookie_get refreshCookieName r with
      | None | Some "" => mret tt
      | Some token => _ ← call (svc_Logout token) (SLogout token); mret tt
      end;
  _ ← clearRefreshCookie;
  _ ← on_writer (set_header "Cache-Control" "no-store");
  on_writer (WriteHeader 204).

(** *** Events ([handlers_events.go]) *)

Definition eventFrom (e : Event) : eventView :=
  {| ev_ID := event_Id e; ev_Name := event_Name e; ev_TotalSeats := event_TotalSeats e;
     ev_AvailableSeats := event_AvailableSeats e; ev_SeatPriceCents := ap_seatPriceCents api;
     ev_CreatedAt := event_CreatedAt e |}.

(** [queryLimit]: 0 when the parameter is not given. *)
Definition queryLimit (r : Request) : prog (gateway W) (option Z) :=
  let raw := default "" (rq_Query r !! "limit") in
  if bool_decide (raw = "") then mret (Some 0%Z) else
  match parse_int32 raw with
  | Some n => if (n <? 1)%Z
              then _ ← writeError 400 "invalid_argument" "limit must be a positive whole number"; mret None
              else mret (Some n)
  | None => _ ← writeError 400 "invalid_argument" "limit must be a positive whole number"; mret None
  end.

Definition listEvents : handler := fun r =>
  limit ← queryLimit r;
  match limit with
  | None => mret tt
  | Some n =>
      let req := {| le_Limit := n |} in
      resp ← call (svc_ListEvents req) (SListEvents req);
      match resp with
      | Err e => fail e
      | Ok events => writeJSON 200 (PEvents (eventFrom <$> events))
      end
  end.

Definition getEvent : handler := fun r =>
  let req := {| ge_EventId := rq_PathValue r |} in
  resp ← call (svc_GetEvent req) (SGetEvent req);
  match resp with
  | Err e => fail e
  | Ok event => writeJSON 200 (PEvent (eventFrom event))
  end.

Definition listSeats : handler := fun r =>
  let req := {| ls_EventId := rq_PathValue r |} in
  resp ← call (svc_ListSeats req) (SListSeats req);
  match resp with
  | Err e => fail e
  | Ok seats => writeJSON 200 (PSeats ((fun s => {| sv_ID := seat_Id s; sv_Label := seat_Label s;
                                                   sv_Status := seatStatusName (seat_Status s) |}) <$> seats))
  end.

Definition createEvent : handler := fun r =>
  body ← decodeJSON createEvent_fields {| cb_Name := ""; cb_SeatCount := 0 |} r;
  match body with
  | None => mret tt
  | Some b =>
      let req := {| ce_Name := cb_Name b; ce_SeatCount := cb_SeatCount b |} in
      resp ← call (svc_CreateEvent req) (SCreateEvent req);
      match resp with
      | Err e => fail e
      | Ok id => writeJSON 201 (PEventID id)
      end
  end.

(** *** Orders ([handlers_orders.go]) *)

Definition createOrder : handler := fun r =>
  match rq_Claims r with
  | None => writeError 401 "unauthenticated" "sign in to continue"
  | Some claims =>
      body ← decodeJSON createOrder_fields {| ob_EventID := ""; ob_SeatIDs := [] |} r;
      match body with
      | None => mret tt
      | Some b =>
          let n := Z.of_nat (length (ob_SeatIDs b)) in
          if (n <? 1)%Z || (maxSeatsPerOrder <? n)%Z
          then writeError 400 "invalid_argument" "an order must contain 1 to 10 seats" else
          let key := header_get "Idempotency-Key" r in
          if negb (validIdempotencyKey key)
          then writeError 400 "invalid_argument"
                 "Idempotency-Key must be 1 to 64 letters, digits, dashes or underscores" else
          let req := {| co_UserId := cl_UserID claims; co_EventId := ob_EventID b; co_SeatIds := ob_SeatIDs b;
                        co_AmountCents := to_int64 (n * ap_seatPriceCents api); co_IdempotencyKey := key |} in
          resp ← call (svc_CreateOrder req) (SCreateOrder req);
          match resp with
          | Err e => fail e
          | Ok o => writeJSON 201 (POrder {| ov_OrderID := cr_OrderId o; ov_EventID := ""; ov_SeatIDs := [];
                                             ov_AmountCents := 0; ov_Status := orderStatusName (cr_Status o) |})
          end
      end
  end.

Definition getOrder : handler := fun r =>
  match rq_Claims r with
  | None => writeError 401 "unauthenticated" "sign in to continue"
  | Some claims =>
      let req := {| go_OrderId := rq_PathValue r |} in
      resp ← call (svc_GetOrder req) (SGetOrder req);
      match resp with
      | Err e => fail e
      | Ok o =>
          if bool_decide (gr_UserId o <> cl_UserID claims) && negb (AtLeast (cl_Role claims) RoleAdmin)
          then writeError 404 "not_found" "order not found"
          else writeJSON 200 (POrder {| ov_OrderID := gr_OrderId o; ov_EventID := gr_EventId o;
                 ov_SeatIDs := gr_SeatIds o; ov_AmountCents := gr_AmountCents o;
                 ov_Status := orderStatusName (gr_Status o) |})
      end
  end.

(** *** Statistics ([handlers_analytics.go]) *)

Definition listAnalytics : handler := fun r =>
  limit ← queryLimit r;
  match limit with
  | None => mret tt
  | Some n =>
      stats ← call (svc_ListEventStats n) (SListEventStats n);
      match stats with
      | Err e => fail e
      | Ok stats =>
          let req := {| le_Limit := 200 |} in
          events ← call (svc_ListEvents req) (SListEvents req);
          let names : gmap string string := match events with
            | Err _ => ∅
            | Ok l => foldl (fun m e => <[event_Id e := event_Name e]> m) ∅ l
            end in
          writeJSON 200 (PStats ((fun s => {| tv_EventID := es_EventId s;
            tv_EventName := default "" (names !! es_EventId s); tv_TicketsSold := es_TicketsSold s;
            tv_RevenueCents := es_RevenueCents s; tv_OrdersConfirmed := es_OrdersConfirmed s;
            tv_OrdersFailed := es_OrdersFailed s; tv_UpdatedAt := es_UpdatedAt s |}) <$> stats))
      end
  end.

(** *** Routes ([api.go]) *)

Definition healthz : handler := fun _ => writeJSON 200 (PStatus "ok").
Definition notFound : handler := fun _ => writeError 404 "not_found" "no such endpoint".

(** A pattern is a method and segments, of which [None] is the wildcard [{id}]. *)
Record route := {
  rt_pattern : string;
  rt_method : string;
  rt_segments : list (option string);
  rt_handler : handler;
  rt_middlewares : list middleware;
}.

Definition perIP (name : string) (n : Z) : middleware := limit name n minute byIP.
Definition perUser (name : string) (n : Z) : middleware := limit name n minute byUser.
Definition organizer : middleware := requireRole RoleOrganizer.

Definition routes : list route :=
  [Build_route "GET /healthz" "GET" [Some "healthz"] healthz [];
   Build_route "POST /api/auth/register" "POST" [Some "api"; Some "auth"; Some "register"] register [perIP "register" 5];
   Build_route "POST /api/auth/login" "POST" [Some "api"; Some "auth"; Some "login"] login [perIP "login" 10];
   Build_route "POST /api/auth/refresh" "POST" [Some "api"; Some "auth"; Some "refresh"] refresh [csrf; perIP "refresh" 30];
   Build_route "POST /api/auth/logout" "POST" [Some "api"; Some "auth"; Some "logout"] logout [csrf; perIP "logout" 30];
   Build_route "GET /api/events" "GET" [Some "api"; Some "events"] listEvents [perIP "browse" 120];
   Build_route "GET /api/events/{id}" "GET" [Some "api"; Some "events"; None] getEvent [perIP "browse" 120];
   Build_route "GET /api/events/{id}/seats" "GET" [Some "api"; Some "events"; None; Some "seats"] listSeats [perIP "browse" 120];
   Build_route "POST /api/orders" "POST" [Some "api"; Some "orders"] createOrder [authenticate; perUser "orders" 20];
   Build_route "GET /api/orders/{id}" "GET" [Some "api"; Some "orders"; None] getOrder [authenticate; perUser "read" 120];
   Build_route "POST /api/events" "POST" [Some "api"; Some "events"] createEvent
     [authenticate; organizer; perUser "write" 30];
   Build_route "GET /api/analytics/events" "GET" [Some "api"; Some "analytics"; Some "events"] listAnalytics
     [authenticate; organizer; perUser "read" 120]].

(** The value of the wildcard, "" without one, when the segments match; a wildcard does not
    match a trailing slash. *)
Fixpoint match_segments (ps : list (option string)) (path : list string) (v : string) : option string :=
  match ps, path with
  | [], [] => Some v
  | Some p :: ps, s :: path => if bool_decide (p = s) then match_segments ps path v else None
  | None :: ps, s :: path => if bool_decide (s = "/") then None else match_segments ps path s
  | _, _ => None
  end.

(** A pattern for GET also serves HEAD. *)
Definition match_method (pattern method : string) : bool :=
  bool_decide (method = pattern) || (bool_decide (pattern = "GET") && bool_decide (method = "HEAD")).

(** No two of the patterns match the same request, so their order does not matter. *)
Fixpoint find_route (l : list route) (r : Request) : option (route * string) :=
  match l with
  | [] => None
  | rt :: l =>
      if match_method (rt_method rt) (rq_Method r) then
        match match_segments (rt_segments rt) (rq_Path r) "" with
        | Some v => Some (rt, v)
        | None => find_route l r
        end
      else find_route l r
  end.

Definition mux : handler := fun r =>
  match find_route routes r with
  | Some (rt, v) =>
      instrument (rt_pattern rt) (spanName (rt_pattern rt) (chain (rt_handler rt) (rt_middlewares rt)))
        (with_path_value v r)
  | None => instrument unmatched (spanName unmatched notFound) r
  end.

(** What [New] wraps around the routes. *)
Definition wrap (h : handler) : handler := chain h [requestID; logging; recoverer; securityHeaders].
Definition NewAPI : handler := wrap mux.
End Handlers.
