(* ===== verification/GatewayProps.v ===== *)
(** * gateway: the properties

    What every answer of the gateway satisfies, whatever the request is and however the
    services and the limiter behave. *)

From Stdlib Require Import Ascii String.
From stdpp Require Import base gmap strings numbers list.
From S2P Require Import Prelude Platform GoStrings Authz Http.
From S2P Require Import Events Apierr Inventory Payment Order Analytics Auth RateLimit Gateway Instances AuthProps.

(** The sentences a client gets to see when something failed inside. *)
Definition fixed_messages : list string :=
  ["internal error"; retry_message; "the request took too long, please try again"].

(** Headers that are set for every response. *)
Definition kept_headers : list string := ["X-Request-ID"; "X-Content-Type-Options"; "Referrer-Policy"].

(** What a script in a page or another site must not get at. *)
Definition cookie_ok (api : API) (c : Cookie) : Prop :=
  ck_Name c = refreshCookieName /\ ck_HttpOnly c = true /\ ck_SameSiteStrict c = true /\
  ck_Path c = refreshCookiePath /\ ck_Secure c = ap_cookieSecure api.

Definition created_view (o : CreateOrderResponse) : orderView :=
  {| ov_OrderID := cr_OrderId o; ov_EventID := ""; ov_SeatIDs := []; ov_AmountCents := 0;
     ov_Status := orderStatusName (cr_Status o) |}.

Definition order_view (o : GetOrderResponse) : orderView :=
  {| ov_OrderID := gr_OrderId o; ov_EventID := gr_EventId o; ov_SeatIDs := gr_SeatIds o;
     ov_AmountCents := gr_AmountCents o; ov_Status := orderStatusName (gr_Status o) |}.

Section Spec.
Context `{U : UuidLib} {L : AuthLib} {T : JwtLib} {H : HttpLib} {W : Type} `{!Services W}.
Variable api : API.

(** Whose token the request carries at time [now]. *)
Definition authentic (now : Z) (r : Request) (c : Claims) : Prop :=
  exists token, bearerToken r = Some token /\ Verify now token = Ok c.

(** Which calls may be made for a request of [who]. *)
Definition permitted (who : Claims -> Prop) (r : Request) (s : service_call) : Prop :=
  match s with
  | SCreateOrder q _ => exists c, who c /\ co_UserId q = cl_UserID c /\
      let n := Z.of_nat (length (co_SeatIds q)) in
      (1 <= n <= 10)%Z /\ co_AmountCents q = to_int64 (n * ap_seatPriceCents api) /\
      co_IdempotencyKey q = header_get "Idempotency-Key" r /\ validIdempotencyKey (co_IdempotencyKey q) = true
  | SGetOrder _ _ => exists c, who c
  | SCreateEvent _ _ | SListEventStats _ _ => exists c, who c /\ AtLeast (cl_Role c) RoleOrganizer = true
  | SRefresh t _ | SLogout t _ =>
      header_get csrfHeader r = csrfValue /\ cookie_get refreshCookieName r = Some t
  | _ => True
  end.

(** What a status and a body may tell after the calls [cs]. *)
Definition telling (who : Claims -> Prop) (cs : list service_call) (status : Z) (body : list payload) : Prop :=
  match body with
  | [] => status = 204%Z
  | [PError _ msg] => (400 <= status)%Z /\ ((500 <= status)%Z -> msg ∈ fixed_messages)
  | [POrder v] => (exists q o, SCreateOrder q (Ok o) ∈ cs /\ v = created_view o) \/
      (exists q o c, SGetOrder q (Ok o) ∈ cs /\ v = order_view o /\ who c /\
         (gr_UserId o = cl_UserID c \/ AtLeast (cl_Role c) RoleAdmin = true))
  | [_] => (200 <= status < 300)%Z
  | _ => False
  end.

(** From [g0] on, the calls [cs] were made and the cookies [cks] set, and no response has
    begun. *)
Record pending (g0 : gateway W) (cs : list service_call) (cks : list Cookie) (g : gateway W) : Prop := {
  pd_calls : gw_calls g = gw_calls g0 ++ cs;
  pd_sent : wr_Sent (gw_writer g) = None;
  pd_recorders : wr_Recorders (gw_writer g) = wr_Recorders (gw_writer g0);
  pd_headers : forall k, k ∈ kept_headers -> wr_Header (gw_writer g) !! k = wr_Header (gw_writer g0) !! k;
  pd_cookies : wr_Cookies (gw_writer g) = wr_Cookies (gw_writer g0) ++ cks;
  pd_inflight : gw_inflight g = gw_inflight g0;
  pd_requests : gw_requests g = gw_requests g0;
  pd_log : gw_log g = gw_log g0;
}.

(** The response [rs] was sent, once, after the calls [cs], and the requests [rqs] were counted. *)
Record responded (g0 : gateway W) (cs : list service_call) (cks : list Cookie) (rs : Response payload)
    (rqs : list (string * string * Z)) (g : gateway W) : Prop := {
  rd_calls : gw_calls g = gw_calls g0 ++ cs;
  rd_sent : wr_Sent (gw_writer g) = Some rs;
  rd_recorders : wr_Recorders (gw_writer g) = (fun _ => rs_Status rs) <$> wr_Recorders (gw_writer g0);
  rd_headers : forall k, k ∈ kept_headers -> rs_Header rs !! k = wr_Header (gw_writer g0) !! k;
  rd_cookies : rs_Cookies rs = wr_Cookies (gw_writer g0) ++ cks;
  rd_inflight : gw_inflight g = gw_inflight g0;
  rd_requests : gw_requests g = gw_requests g0 ++ rqs;
  rd_log : gw_log g = gw_log g0;
}.

Section Who.
Variable who : Claims -> Prop.
Variable r0 : Request.

Record answered (g0 : gateway W) (out : res unit) (g : gateway W) : Prop := {
  an_returns : out = Ok tt;
  an_response : exists cs cks rs, responded g0 cs cks rs [] g /\ Forall (permitted who r0) cs /\
    Forall (cookie_ok api) cks /\ telling who cs (rs_Status rs) (rs_Body rs);
}.

(** The handler answers every request like [r]. *)
Definition answers (h : handler) (r : Request) : Prop :=
  forall a g0 g, pending g0 [] [] g -> wp (h r) (fun out _ g' => answered g0 out g') a g.

(** *** Pending responses *)

Lemma pending_start g : wr_Sent (gw_writer g) = None -> pending g [] [] g.
Proof. intros Hs. by split; rewrite ?app_nil_r. Qed.

Lemma pending_header g0 cs cks g k v :
  bool_decide (k ∈ kept_headers) = false ->
  pending g0 cs cks g -> pending g0 cs cks (set_writer (set_header k v) g).
Proof.
  intros Hk%bool_decide_eq_false [Hc Hs Hr Hh Hck Hi Hq Hl]. split; try done. intros k' Hk'. cbn.
  rewrite lookup_insert_ne by (intros ->; done). by apply Hh.
Qed.

Lemma pending_caller g0 cs cks g c : pending g0 cs cks g -> pending g0 cs cks (set_caller c g).
Proof. by intros []. Qed.
Lemma pending_span g0 cs cks g n : pending g0 cs cks g -> pending g0 cs cks (set_span n g).
Proof. by intros []. Qed.
Lemma pending_limited g0 cs cks g n : pending g0 cs cks g -> pending g0 cs cks (count_limited n g).
Proof. by intros []. Qed.

Lemma pending_cookie g0 cs cks g c :
  pending g0 cs cks g -> pending g0 cs (cks ++ [c]) (set_writer (SetCookie c) g).
Proof. intros []. split; try done. cbn. by rewrite app_assoc, pd_cookies0. Qed.

Lemma pending_call g0 cs cks g c : pending g0 cs cks g -> pending g0 (cs ++ [c]) cks (note_call c g).
Proof. intros []. split; try done. cbn. by rewrite app_assoc, pd_calls0. Qed.

Lemma pending_world {A} g0 cs cks (m : prog W A) (Q : res A -> ambient -> gateway W -> Prop) a g :
  pending g0 cs cks g -> (forall x a' g', pending g0 cs cks g' -> Q x a' g') ->
  wp (in_world m) Q a g.
Proof.
  intros [] HQ. unfold wp, in_world. destruct (m a (gw_world g)) as [[x a'] w']. apply HQ. by split.
Qed.

(** *** Responding *)

Lemma answered_by g0 cs cks g st v :
  pending g0 cs cks g -> Forall (permitted who r0) cs -> Forall (cookie_ok api) cks ->
  telling who cs st [v] ->
  answered g0 (Ok tt) (set_writer (fun w => write_body v (WriteHeader st w)) g).
Proof.
  intros [] Hcs Hcks Ht. split; [done|].
  eexists cs, cks, (Build_Response st (wr_Header (gw_writer g)) (wr_Cookies (gw_writer g)) [v]).
  split_and!; try done. cbn. unfold write_body, WriteHeader, send_status.
  split; cbn; rewrite ?pd_sent0, ?app_nil_r; cbn; rewrite ?pd_recorders0; done.
Qed.

Lemma wp_writeJSON g0 cs cks st v a g :
  pending g0 cs cks g -> Forall (permitted who r0) cs -> Forall (cookie_ok api) cks ->
  telling who cs st [v] ->
  wp (writeJSON st v) (fun out _ g' => answered g0 out g') a g.
Proof.
  intros Hp Hcs Hcks Ht. unfold writeJSON, on_writer. wp_steps.
  apply (answered_by g0 cs cks (set_writer (set_header "Cache-Control" "no-store")
    (set_writer (set_header "Content-Type" "application/json; charset=utf-8") g))); try done.
  by repeat (apply pending_header; [reflexivity|]).
Qed.

Lemma httpError_telling cs e st c m : httpError e = (st, c, m) -> telling who cs st [PError c m].
Proof.
  assert (Hin : "internal error" ∈ fixed_messages /\ retry_message ∈ fixed_messages /\
    "the request took too long, please try again" ∈ fixed_messages)
    by (unfold fixed_messages; split_and!; set_solver).
  unfold httpError. destruct Hin as (? & ? & ?).
  repeat case_match; intros [= <- <- <-]; (split; [lia|]); intros ?; try done; lia.
Qed.

Lemma wp_fail g0 cs cks e a g :
  pending g0 cs cks g -> Forall (permitted who r0) cs -> Forall (cookie_ok api) cks ->
  wp (fail e) (fun out _ g' => answered g0 out g') a g.
Proof.
  intros Hp Hcs Hcks. unfold fail. destruct (httpError e) as [[st c] m] eqn:E.
  apply (wp_writeJSON g0 cs cks); try done. by apply (httpError_telling cs e).
Qed.

(** An error below 500 may say anything. *)
Lemma wp_writeError g0 cs cks st c m a g :
  pending g0 cs cks g -> Forall (permitted who r0) cs -> Forall (cookie_ok api) cks ->
  (400 <= st < 500)%Z ->
  wp (writeError st c m) (fun out _ g' => answered g0 out g') a g.
Proof. intros Hp Hcs Hcks Hst. apply (wp_writeJSON g0 cs cks); try done. split; [lia|]. intros; lia. Qed.

(** *** Steps that may end a request *)

Lemma wp_call {A B} g0 cs cks (h : prog W A) note (k : res A -> prog (gateway W) B) Q a g :
  pending g0 cs cks g ->
  (forall x a' g', pending g0 (cs ++ [note x]) cks g' -> wp (k x) Q a' g') ->
  wp (x ← call h note; k x) Q a g.
Proof.
  intros Hp Hk. unfold call. wp_steps. apply (pending_world g0 cs cks); [done|].
  intros x a' g' Hp'. wp_steps. apply Hk. by apply pending_call.
Qed.

Lemma wp_decodeJSON {A} g0 (fs : list (field A)) zero r (k : option A -> prog (gateway W) unit) a g :
  pending g0 [] [] g -> k None = mret tt ->
  (forall x, wp (k (Some x)) (fun out _ g' => answered g0 out g') a g) ->
  wp (b ← decodeJSON fs zero r; k b) (fun out _ g' => answered g0 out g') a g.
Proof.
  intros Hp Hnone Hsome.
  assert (Href : forall st c m, (400 <= st < 500)%Z ->
    wp (b ← (_ ← writeError st c m; mret None); k b) (fun out _ g' => answered g0 out g') a g).
  { intros st c m Hst. wp_steps. eapply wp_mono; [by apply (wp_writeError g0 [] [])|].
    intros [[]|e] a' g' Ha; [|by destruct Ha]. wp_steps. by rewrite Hnone. }
  unfold decodeJSON. cbv beta zeta.
  repeat match goal with
  | |- wp (mbind _ (match ?x with _ => _ end)) _ _ _ => destruct x
  | |- wp (mbind _ (mret (Some ?x))) _ _ _ => apply wp_bind, wp_ret, Hsome
  | |- _ => apply Href; lia
  end.
Qed.

Lemma wp_queryLimit g0 r (k : option Z -> prog (gateway W) unit) a g :
  pending g0 [] [] g -> k None = mret tt ->
  (forall x, wp (k (Some x)) (fun out _ g' => answered g0 out g') a g) ->
  wp (b ← queryLimit r; k b) (fun out _ g' => answered g0 out g') a g.
Proof.
  intros Hp Hnone Hsome.
  assert (Href : forall c m,
    wp (b ← (_ ← writeError 400 c m; mret None); k b) (fun out _ g' => answered g0 out g') a g).
  { intros c m. wp_steps. eapply wp_mono; [by apply (wp_writeError g0 [] [])|].
    intros [[]|e] a' g' Ha; [|by destruct Ha]. wp_steps. by rewrite Hnone. }
  unfold queryLimit. cbv zeta.
  repeat match goal with
  | |- wp (mbind _ (if ?x then _ else _)) _ _ _ => destruct x
  | |- wp (mbind _ (match ?x with _ => _ end)) _ _ _ => destruct x
  | |- wp (mbind _ (mret (Some ?x))) _ _ _ => apply wp_bind, wp_ret, Hsome
  | |- _ => apply Href
  end.
Qed.

Lemma wp_allow g0 key n window (k : bool -> prog (gateway W) unit) a g :
  pending g0 [] [] g -> k false = mret tt ->
  (forall a' g', pending g0 [] [] g' -> wp (k true) (fun out _ g' => answered g0 out g') a' g') ->
  wp (ok ← allow key n window; k ok) (fun out _ g' => answered g0 out g') a g.
Proof.
  intros Hp Hno Hyes. unfold allow, on_writer. wp_steps.
  apply (pending_world g0 [] []); [done|]. intros x a' g' Hp'. wp_steps; cbn beta iota.
  - apply Hyes. by repeat (apply pending_header; [reflexivity|]).
  - eapply wp_mono; [apply (wp_writeError g0 [] [])|]; try done.
    + apply pending_header; [reflexivity|]. apply pending_limited.
      by repeat (apply pending_header; [reflexivity|]).
    + intros [[]|e'] a2 g2 Ha; [|by destruct Ha]. wp_steps. by rewrite Hno.
  - by apply Hyes.
Qed.

(** *** Handlers *)

(** The request a handler sees has the headers and cookies of the one that came in. *)
Definition from_client (r : Request) : Prop := rq_Header r = rq_Header r0 /\ rq_Cookies r = rq_Cookies r0.

Lemma header_client k r : from_client r -> header_get k r = header_get k r0.
Proof. intros [E _]. unfold header_get. by rewrite E. Qed.
Lemma cookie_client k r : from_client r -> cookie_get k r = cookie_get k r0.
Proof. intros [_ E]. unfold cookie_get. by rewrite E. Qed.

(** Close a branch of a handler that responds. *)
Ltac respond :=
  lazymatch goal with
  | |- wp (fail _) _ _ _ => eapply wp_fail; [eassumption| |]
  | |- wp (writeError _ _ _) _ _ _ => eapply wp_writeError; [eassumption| | |lia]
  | |- wp (writeJSON _ _) _ _ _ => eapply wp_writeJSON; [eassumption| | |]
  | |- wp (healthz _) _ _ _ => eapply wp_writeJSON; [eassumption| | |]
  | |- wp (notFound _) _ _ _ => eapply wp_writeError; [eassumption| | |lia]
  end;
  cbn; try lazymatch goal with
       | |- Forall _ [] => by apply Forall_nil
       | |- Forall _ [_] => apply Forall_singleton
       end; try done; try lia.

Lemma register_answers r : answers register r.
Proof.
  intros a g0 g Hp. unfold register. apply wp_decodeJSON; [done..|]. intros x.
  eapply wp_call; [done|]. intros [id|e] a' g' Hp'; respond.
Qed.

Lemma cookie_ok_set v n : cookie_ok api (refresh_cookie api v n).
Proof. done. Qed.

Lemma wp_session g0 cs s a g :
  pending g0 cs [] g -> Forall (permitted who r0) cs ->
  wp (_ ← setRefreshCookie api (sn_RefreshToken s); writeJSON 200 (PSession (session_view s)))
     (fun out _ g' => answered g0 out g') a g.
Proof.
  intros Hp Hcs. unfold setRefreshCookie, on_writer. wp_steps.
  eapply wp_writeJSON; [by apply pending_cookie|done| |done]. apply Forall_singleton, cookie_ok_set.
Qed.

Lemma login_answers r : answers (login api) r.
Proof.
  intros a g0 g Hp. unfold login. apply wp_decodeJSON; [done..|]. intros x.
  apply wp_allow; [done..|]. intros a1 g1 Hp1. cbn [negb].
  eapply wp_call; [done|]. intros [s|e] a' g' Hp'; [|respond].
  apply (wp_session g0 _ s a' g' Hp'). by apply Forall_singleton.
Qed.

Lemma refresh_answers r :
  from_client r -> header_get csrfHeader r = csrfValue -> answers (refresh api) r.
Proof.
  intros Hc Hcsrf a g0 g Hp. unfold refresh. destruct (cookie_get refreshCookieName r) as [tok|] eqn:Hck; [|respond].
  assert (Hperm : forall x, Forall (permitted who r0) ([] ++ [SRefresh tok x])).
  { intros x. apply Forall_singleton. cbn. by rewrite <- (header_client _ r), <- (cookie_client _ r). }
  destruct tok as [|ch tok]; [respond|].
  eapply wp_call; [done|]. intros [s|e] a' g' Hp'; [by apply (wp_session g0 _ s a' g' Hp')|].
  wp_steps; [|by eapply wp_fail]. unfold clearRefreshCookie, on_writer. wp_steps.
  eapply wp_fail; [by apply pending_cookie|done|]. apply Forall_singleton, cookie_ok_set.
Qed.

Lemma wp_no_content g0 cs a g :
  pending g0 cs [] g -> Forall (permitted who r0) cs ->
  wp (_ ← clearRefreshCookie api; _ ← on_writer (set_header "Cache-Control" "no-store"); on_writer (WriteHeader 204))
     (fun out _ g' => answered g0 out g') a g.
Proof.
  intros Hp Hcs. unfold clearRefreshCookie, on_writer. wp_steps.
  assert (Hp' : pending g0 cs [refresh_cookie api "" (-1)] (set_writer (set_header "Cache-Control" "no-store")
    (set_writer (SetCookie (refresh_cookie api "" (-1))) g)))
    by (apply pending_header; [reflexivity|]; by apply (pending_cookie g0 cs [])).
  destruct Hp'. split; [done|].
  eexists cs, [_], (Build_Response 204 _ _ []). split_and!; [|done|apply Forall_singleton, cookie_ok_set|done].
  unfold WriteHeader, send_status. split; cbn in *; rewrite ?pd_sent0, ?app_nil_r; cbn; rewrite ?pd_recorders0; done.
Qed.

Lemma logout_answers r :
  from_client r -> header_get csrfHeader r = csrfValue -> answers (logout api) r.
Proof.
  intros Hc Hcsrf a g0 g Hp. unfold logout. destruct (cookie_get refreshCookieName r) as [tok|] eqn:Hck.
  2:{ apply wp_bind, wp_ret. by apply (wp_no_content g0 []). }
  assert (Hperm : forall x, Forall (permitted who r0) ([] ++ [SLogout tok x])).
  { intros x. apply Forall_singleton. cbn. by rewrite <- (header_client _ r), <- (cookie_client _ r). }
  destruct tok as [|ch tok]; [apply wp_bind, wp_ret; by apply (wp_no_content g0 [])|].
  apply wp_bind. eapply wp_call; [done|]. intros x a' g' Hp'. apply wp_ret.
  by apply (wp_no_content g0 _ a' g' Hp').
Qed.

Lemma listEvents_answers r : answers (listEvents api) r.
Proof.
  intros a g0 g Hp. unfold listEvents. apply wp_queryLimit; [done..|]. intros n.
  eapply wp_call; [done|]. intros [l|e] a' g' Hp'; respond.
Qed.

Lemma getEvent_answers r : answers (getEvent api) r.
Proof.
  intros a g0 g Hp. unfold getEvent. eapply wp_call; [done|]. intros [l|e] a' g' Hp'; respond.
Qed.

Lemma listSeats_answers r : answers listSeats r.
Proof.
  intros a g0 g Hp. unfold listSeats. eapply wp_call; [done|]. intros [l|e] a' g' Hp'; respond.
Qed.

Lemma createEvent_answers r :
  (exists c, who c /\ AtLeast (cl_Role c) RoleOrganizer = true) -> answers createEvent r.
Proof.
  intros Hwho a g0 g Hp. unfold createEvent. apply wp_decodeJSON; [done..|]. intros x.
  eapply wp_call; [done|]. intros [l|e] a' g' Hp'; respond.
Qed.

Lemma listAnalytics_answers r :
  (exists c, who c /\ AtLeast (cl_Role c) RoleOrganizer = true) -> answers listAnalytics r.
Proof.
  intros Hwho a g0 g Hp. unfold listAnalytics. apply wp_queryLimit; [done..|]. intros n.
  eapply wp_call; [done|]. intros [l|e] a' g' Hp'; [|respond].
  eapply wp_call; [done|]. intros x a2 g2 Hp2. respond. by apply Forall_cons, conj; [|apply Forall_singleton].
Qed.

Lemma createOrder_answers r :
  from_client r -> (forall c, rq_Claims r = Some c -> who c) -> answers (createOrder api) r.
Proof.
  intros Hc Hwho a g0 g Hp. unfold createOrder. destruct (rq_Claims r) as [c|]; [|respond].
  apply wp_decodeJSON; [done..|]. intros x. cbv zeta.
  destruct ((_ <? 1)%Z || _) eqn:Hn; [respond|]. destruct (validIdempotencyKey _) eqn:Hk; cbn [negb]; [|respond].
  reflect_bools. unfold maxSeatsPerOrder in *.
  eapply wp_call; [done|]. intros y a' g' Hp'.
  assert (Hperm : Forall (permitted who r0) ([] ++ [SCreateOrder {| co_UserId := cl_UserID c;
     co_EventId := ob_EventID x; co_SeatIds := ob_SeatIDs x;
     co_AmountCents := to_int64 (Z.of_nat (length (ob_SeatIDs x)) * ap_seatPriceCents api);
     co_IdempotencyKey := header_get "Idempotency-Key" r |} y])).
  { apply Forall_singleton. exists c. cbn. rewrite <- (header_client _ r) by done. split_and!; auto; lia. }
  destruct y as [o|e]; [|by eapply wp_fail].
  eapply wp_writeJSON; [done..|]. left. eexists _, o. split; [|done]. by left.
Qed.

Lemma getOrder_answers r : (forall c, rq_Claims r = Some c -> who c) -> answers getOrder r.
Proof.
  intros Hwho a g0 g Hp. unfold getOrder. destruct (rq_Claims r) as [c|]; [|respond].
  specialize (Hwho c eq_refl).
  eapply wp_call; [done|]. intros y a' g' Hp'.
  assert (Hperm : forall q, Forall (permitted who r0) ([] ++ [SGetOrder q y])) by (intros q; apply Forall_singleton; by exists c).
  destruct y as [o|e]; [|by eapply wp_fail].
  destruct (_ && _) eqn:E; [by eapply wp_writeError|].
  eapply wp_writeJSON; [done..|]. right. eexists _, o, c. split; [by left|]. split; [done|]. split; [done|].
  apply andb_false_iff in E as [E|E]; reflect_bools; [left|by right].
  by destruct (decide (gr_UserId o = cl_UserID c)).
Qed.

Lemma healthz_answers r : answers healthz r.
Proof. intros a g0 g Hp. respond. Qed.
Lemma notFound_answers r : answers notFound r.
Proof. intros a g0 g Hp. respond. Qed.

(** *** Middleware *)

Lemma limit_answers name n window key next r : answers next r -> answers (limit name n window key next) r.
Proof.
  intros Hn a g0 g Hp. unfold limit. apply wp_allow; [done..|]. intros a' g' Hp'. by apply Hn.
Qed.

Lemma csrf_answers next r :
  (header_get csrfHeader r = csrfValue -> answers next r) -> answers (csrf next) r.
Proof. intros Hn a g0 g Hp. unfold csrf. case_bool_decide as E; [by apply Hn|respond]. Qed.

Lemma requireRole_answers min next r :
  (forall c, rq_Claims r = Some c -> AtLeast (cl_Role c) min = true -> answers next r) ->
  answers (requireRole min next) r.
Proof.
  intros Hn a g0 g Hp. unfold requireRole. destruct (rq_Claims r) as [c|]; [|respond].
  destruct (AtLeast _ _) eqn:E; [|respond]. by eapply Hn.
Qed.

(** The handler answers requests like [r] at time [now]. *)
Definition answers_at (now : Z) (h : handler) (r : Request) : Prop :=
  forall a g0 g, amb_now a = now -> pending g0 [] [] g -> wp (h r) (fun out _ g' => answered g0 out g') a g.

Lemma answers_now now h r : answers h r -> answers_at now h r.
Proof. intros Ha a g0 g _. apply Ha. Qed.

Lemma authenticate_answers now next r :
  (forall c, authentic now r c -> answers next (with_claims c r)) -> answers_at now (authenticate next) r.
Proof.
  intros Hn a g0 g Hnow Hp. unfold authenticate, on_writer. destruct (bearerToken r) as [tok|] eqn:Hb; wp_steps.
  - apply Hn; [|by apply pending_caller]. exists tok. by rewrite <- Hnow.
  - eapply wp_writeError; [by apply pending_header; [reflexivity|done]|done|done|lia].
  - eapply wp_writeError; [by apply pending_header; [reflexivity|done]|done|done|lia].
Qed.

(** *** Routes *)

Lemma authentic_client now r c : from_client r -> authentic now r c -> authentic now r0 c.
Proof.
  intros Hc (tok & Hb & Hv). exists tok. split; [|done]. unfold bearerToken in *. by rewrite <- (header_client _ r).
Qed.

Lemma routes_answer now :
  (forall c, authentic now r0 c -> who c) ->
  Forall (fun rt => forall r, from_client r ->
    answers_at now (chain (rt_handler rt) (rt_middlewares rt)) r) (routes api).
Proof.
  intros Hwho. unfold routes.
  assert (Hauth : forall r c, from_client r -> authentic now r c -> who c)
    by (intros r c Hc Ha; by apply Hwho, (authentic_client now r)).
  assert (Horg : forall r name n next, from_client r ->
    (forall r', (exists c, who c /\ AtLeast (cl_Role c) RoleOrganizer = true) -> answers next r') ->
    answers_at now (authenticate (organizer (perUser api name n next))) r).
  { intros r name n next Hc Hn. apply authenticate_answers. intros c Hw.
    apply requireRole_answers. intros c' [= <-] Hrole. apply limit_answers, Hn. exists c. split; [by eapply Hauth|done]. }
  repeat (apply Forall_cons; split); [..|by apply Forall_nil]; intros r Hc; cbn.
  - apply answers_now, healthz_answers.
  - apply answers_now, limit_answers, register_answers.
  - apply answers_now, limit_answers, login_answers.
  - apply answers_now, csrf_answers. intros Hcsrf. by apply limit_answers, refresh_answers.
  - apply answers_now, csrf_answers. intros Hcsrf. by apply limit_answers, logout_answers.
  - apply answers_now, limit_answers, listEvents_answers.
  - apply answers_now, limit_answers, getEvent_answers.
  - apply answers_now, limit_answers, listSeats_answers.
  - apply authenticate_answers. intros c Hw. apply limit_answers, createOrder_answers; [by destruct Hc|].
    intros c' [= <-]. by eapply Hauth.
  - apply authenticate_answers. intros c Hw. apply limit_answers, getOrder_answers.
    intros c' [= <-]. by eapply Hauth.
  - apply Horg; [done|]. apply createEvent_answers.
  - apply Horg; [done|]. apply listAnalytics_answers.
Qed.

Lemma find_route_in l r (rt : @route U W) v : find_route l r = Some (rt, v) -> rt ∈ l.
Proof.
  induction l as [|x l IH]; cbn; [done|]. repeat case_match; intros E; simplify_eq; try (right; by apply IH).
  by left.
Qed.

(** The request is counted with the status it was answered with. *)
Definition counted (g0 : gateway W) (r : Request) (out : res unit) (g : gateway W) : Prop :=
  out = Ok tt /\ exists cs cks rs name, responded g0 cs cks rs [(name, rq_Method r, rs_Status rs)] g /\
    Forall (permitted who r0) cs /\ Forall (cookie_ok api) cks /\ telling who cs (rs_Status rs) (rs_Body rs).

Lemma instrument_counts now name next r a g :
  answers_at now next r -> amb_now a = now -> wr_Sent (gw_writer g) = None ->
  wp (instrument name (spanName name next) r) (fun out _ g' => counted g r out g') a g.
Proof.
  intros Hn Hnow Hs. unfold instrument, spanName, on_writer. wp_steps.
  eapply wp_mono; [apply Hn; [done|]; by apply pending_span, pending_start|].
  intros out a' g' [-> (cs & cks & rs & [] & Hcs & Hcks & Ht)]. wp_steps. split; [done|].
  exists cs, cks, rs, name. split_and!; try done. unfold recorded. cbn in *.
  split; cbn; rewrite ?rd_recorders0, ?rd_requests0, ?rd_inflight0, ?app_nil_r; cbn; try done; lia.
Qed.

Lemma mux_counts now r a g :
  (forall c, authentic now r0 c -> who c) -> from_client r -> amb_now a = now ->
  wr_Sent (gw_writer g) = None -> wp (mux api r) (fun out _ g' => counted g r out g') a g.
Proof.
  intros Hwho Hc Hnow Hs. unfold mux. destruct (find_route (routes api) r) as [[rt v]|] eqn:E.
  - pose proof (find_route_in _ _ _ _ E) as Hin. pose proof (routes_answer now Hwho) as Hall.
    rewrite Forall_forall in Hall. by apply (instrument_counts now _ _ (with_path_value v r)); [apply Hall|..].
  - apply (instrument_counts now); [|done..]. apply answers_now, notFound_answers.
Qed.
End Who.

(** No panic gets out of [wrap], whatever it is wrapped around. *)
Lemma wrap_never_panics h r a (g : gateway W) : (wrap h r a g).1.1 = Ok tt.
Proof.
  enough (Hw : wp (wrap h r) (fun out _ _ => out = Ok tt) a g)
    by (unfold wp in Hw; by destruct (wrap h r a g) as [[? ?] ?]).
  unfold wrap, chain. cbn. unfold requestID, logging, recoverer, securityHeaders, on_writer. wp_steps;
    unfold wp; destruct (h _ _ _) as [[[]?]?]; reflexivity.
Qed.

(** The id under which a request is logged and answered. *)
Definition request_id (r : Request) (a : ambient) : string :=
  let given := header_get "X-Request-ID" r in
  if match_token given then given else uuid_string (amb_uuid a (amb_next a)).

(** A request served from a fresh writer. *)
Record served (r : Request) (a : ambient) (g : gateway W) (cs : list service_call) (rs : Response payload)
    (g' : gateway W) : Prop := {
  sd_calls : gw_calls g' = gw_calls g ++ cs;
  sd_permitted : Forall (permitted (authentic (amb_now a) r) r) cs;
  sd_sent : wr_Sent (gw_writer g') = Some rs;
  sd_telling : telling (authentic (amb_now a) r) cs (rs_Status rs) (rs_Body rs);
  sd_cookies : Forall (cookie_ok api) (rs_Cookies rs);
  sd_id : rs_Header rs !! "X-Request-ID" = Some (request_id r a);
  sd_sniff : rs_Header rs !! "X-Content-Type-Options" = Some "nosniff";
  sd_referrer : rs_Header rs !! "Referrer-Policy" = Some "no-referrer";
  sd_inflight : gw_inflight g' = gw_inflight g;
  sd_requests : exists name, gw_requests g' = gw_requests g ++ [(name, rq_Method r, rs_Status rs)];
  sd_log : exists who, gw_log g' = gw_log g ++ [{| lg_request_id := request_id r a; lg_method := rq_Method r;
    lg_path := rq_Path r; lg_status := rs_Status rs; lg_user_id := who |}];
}.

(** What [wrap] adds around the routes. *)
Lemma wrap_serves id (a a' : ambient) r (g : gateway W) :
  id = request_id r a -> amb_now a' = amb_now a -> gw_writer g = new_writer ->
  wp (logging (recoverer (securityHeaders (mux api))) (with_request_id id r))
     (fun out _ g' => out = Ok tt /\ exists cs rs, served r a g cs rs g') a'
     (set_caller "" (set_writer (set_header "X-Request-ID" id) g)).
Proof.
  intros -> Hnow Hw. unfold logging, recoverer, securityHeaders, on_writer. wp_steps.
  eapply wp_mono; [apply (mux_counts (authentic (amb_now a) r) r (amb_now a)); try done; cbn; by rewrite Hw|].
  intros out a2 g2 (-> & cs & cks & rs & name & [] & Hcs & Hcks & Ht). wp_steps. split; [done|].
  exists cs, rs. cbn in *. rewrite Hw in *. cbn in *.
  split; cbn; try done.
  - by rewrite rd_cookies0.
  - rewrite rd_headers0; [done|]. unfold kept_headers. set_solver.
  - rewrite rd_headers0; [done|]. unfold kept_headers. set_solver.
  - rewrite rd_headers0; [done|]. unfold kept_headers. set_solver.
  - by exists name.
  - exists (gw_caller g2). rewrite rd_log0. unfold recorded. by rewrite rd_recorders0.
Qed.

Lemma NewAPI_serves r a (g : gateway W) :
  gw_writer g = new_writer ->
  wp (NewAPI api r) (fun out _ g' => out = Ok tt /\ exists cs rs, served r a g cs rs g') a g.
Proof.
  intros Hw. change (NewAPI api r) with (requestID (logging (recoverer (securityHeaders (mux api)))) r).
  unfold requestID, on_writer. wp_steps; apply wrap_serves; try done; unfold request_id; by rewrite Heqb.
Qed.

(** C32: the gateway guards the services.  Whatever request comes in and however the services
    and the limiter behave, an order is placed only for the user of a token that verifies, at
    the gateway's own price, for one to ten seats; events are created and statistics read only
    with an organizer's token; a refresh token is used only with the header no other site can
    send; and an order is shown only to the one who bought it, or to an admin. *)
Theorem gateway_guards_calls r a (g : gateway W) :
  gw_writer g = new_writer ->
  exists cs rs, gw_calls (NewAPI api r a g).2 = gw_calls g ++ cs /\
    wr_Sent (gw_writer (NewAPI api r a g).2) = Some rs /\
    Forall (permitted (authentic (amb_now a) r) r) cs /\
    forall v, POrder v ∈ rs_Body rs -> (exists q o, SCreateOrder q (Ok o) ∈ cs /\ v = created_view o) \/
      (exists q o c, SGetOrder q (Ok o) ∈ cs /\ v = order_view o /\ authentic (amb_now a) r c /\
         (gr_UserId o = cl_UserID c \/ AtLeast (cl_Role c) RoleAdmin = true)).
Proof.
  intros Hw. pose proof (NewAPI_serves r a g Hw) as Hs. unfold wp in Hs.
  destruct (NewAPI api r a g) as [[out a'] g']. destruct Hs as (_ & cs & rs & []). cbn.
  exists cs, rs. split_and!; try done. intros v Hv. destruct (rs_Body rs) as [|p [|]];
    [by apply elem_of_nil in Hv| |by destruct p].
  apply list_elem_of_singleton in Hv as <-. exact sd_telling0.
Qed.

(** C33: every request gets one answer that tells nothing internal.  No panic of whatever
    handler gets out of the outer middleware; and every request is answered exactly once,
    with one body or with 204, with the security headers and a request id that is the
    client's only if it is plain, is counted and logged with the status that was sent, and
    an answer of 500 or more carries one of three fixed sentences.  Every cookie is out of
    reach of scripts and of other sites. *)
Theorem gateway_answers_once r a (g : gateway W) :
  gw_writer g = new_writer ->
  (forall h, (wrap h r a g).1.1 = Ok tt) /\
  exists cs rs, served r a g cs rs (NewAPI api r a g).2 /\
    ((rs_Body rs = [] /\ rs_Status rs = 204%Z) \/ exists p, rs_Body rs = [p]) /\
    (forall c m, rs_Body rs = [PError c m] -> (500 <= rs_Status rs)%Z -> m ∈ fixed_messages).
Proof.
  intros Hw. split; [intros h; apply wrap_never_panics|].
  pose proof (NewAPI_serves r a g Hw) as Hs. unfold wp in Hs.
  destruct (NewAPI api r a g) as [[out a'] g']. destruct Hs as (_ & cs & rs & Hs). cbn.
  exists cs, rs. split; [done|]. pose proof (sd_telling _ _ _ _ _ _ Hs) as Ht. split.
  - destruct (rs_Body rs) as [|p [|q l]]; [by left|right; by eexists|]. cbn in Ht. by destruct p.
  - intros c m Hb. rewrite Hb in Ht. apply Ht.
Qed.
End Spec.

(** ** Witnesses *)

(** A scanner that knows one body. *)
#[global] Instance demo_http : HttpLib := {|
  json_read := fun t => if bool_decide (t = "<order>")
    then ReadValue (JObject [("event_id", JString "e"); ("SEAT_IDS", JArray [JString "s1"; JString "s2"])]) ""
    else ReadBad;
  quote := id;
  parse_media_type := Some;
  parse_ip := fun _ => false;
  split_host := Some;
|}.

(** A world in which orders are placed and everything else is down. *)
#[global] Instance demo_services : Services (U := ref_uuid) unit := {|
  svc_Register := fun _ => throw EConn;
  svc_Login := fun _ => throw EConn;
  svc_Refresh := fun _ => throw EConn;
  svc_Logout := fun _ => throw EConn;
  svc_CreateEvent := fun _ => throw EConn;
  svc_GetEvent := fun _ => throw EConn;
  svc_ListEvents := fun _ => throw EConn;
  svc_ListSeats := fun _ => throw EConn;
  svc_CreateOrder := fun _ => mret {| cr_OrderId := "o"; cr_Status := ORDER_STATUS_CONFIRMED |};
  svc_GetOrder := fun _ => throw EConn;
  svc_ListEventStats := fun _ => throw EConn;
  lim_Allow := fun _ _ _ => throw EConn;
|}.

Definition demo_api : API := {| ap_seatPriceCents := 5000; ap_cookieSecure := true; ap_trustProxy := false |}.
Definition demo_token : string :=
  match Sign 0 "ada" "ada@x.io" RoleUser accessTokenTTL with Ok t => t | Err _ => "" end.

Definition demo_request (method : string) (path : list string) : Request := {|
  rq_Method := method; rq_Path := path;
  rq_Header := list_to_map [("Authorization", "bearer " +:+ demo_token); ("Content-Type", "application/json");
                            ("Idempotency-Key", "k1"); ("X-Request-ID", "a b")];
  rq_Cookies := []; rq_Query := ∅; rq_Body := "<order>"; rq_RemoteAddr := "10.0.0.1"; rq_PathValue := "";
  rq_RequestID := ""; rq_Claims := None |}.

Definition demo_gateway : gateway unit := Build_gateway tt new_writer "" "" [] 0 [] [] [].

Definition demo_order : CreateOrderRequest := {| co_UserId := "ada"; co_EventId := "e"; co_SeatIds := ["s1"; "s2"];
  co_AmountCents := 10000; co_IdempotencyKey := "k1" |}.

Abbreviation demo_bought := (NewAPI demo_api (demo_request "POST" ["api"; "orders"]) (amb0 [] (names "x") 1 1) demo_gateway).
Abbreviation demo_refused := (NewAPI demo_api (demo_request "GET" ["api"; "events"]) (amb0 [] (names "x") 1 1) demo_gateway).

Lemma gateway_guards_calls_witness :
  gw_calls demo_bought.2 = [SCreateOrder demo_order (Ok {| cr_OrderId := "o"; cr_Status := ORDER_STATUS_CONFIRMED |})] /\
  exists c, authentic 1 (demo_request "POST" ["api"; "orders"]) c /\ cl_UserID c = "ada".
Proof.
  assert (E : gw_calls demo_bought.2 =
    [SCreateOrder demo_order (Ok {| cr_OrderId := "o"; cr_Status := ORDER_STATUS_CONFIRMED |})])
    by (vm_compute; reflexivity).
  split; [exact E|].
  destruct (gateway_guards_calls demo_api (demo_request "POST" ["api"; "orders"]) (amb0 [] (names "x") 1 1)
    demo_gateway eq_refl) as (cs & rs & Hcs & _ & Hp & _).
  rewrite E in Hcs. cbn [gw_calls demo_gateway] in Hcs. rewrite app_nil_l in Hcs. subst cs.
  apply Forall_singleton in Hp as (c & Hc & Hu & _). exists c. split; [exact Hc|symmetry; exact Hu].
Defined.

Lemma gateway_answers_once_witness :
  exists rs, wr_Sent (gw_writer demo_refused.2) = Some rs /\ rs_Status rs = 500%Z /\
    rs_Body rs = [PError "internal" "internal error"] /\ "internal error" ∈ fixed_messages.
Proof.
  destruct (gateway_answers_once demo_api (demo_request "GET" ["api"; "events"]) (amb0 [] (names "x") 1 1)
    demo_gateway eq_refl) as (_ & cs & rs & Hs & _ & Hfix).
  assert (E : (fun rs : Response payload => (rs_Status rs, rs_Body rs)) <$> wr_Sent (gw_writer demo_refused.2)
    = Some (500%Z, [PError "internal" "internal error"])) by (vm_compute; reflexivity).
  pose proof (sd_sent _ _ _ _ _ _ _ Hs) as Hsent. exists rs. split; [exact Hsent|]. rewrite Hsent in E. injection E as E1 E2.
  split; [exact E1|]. split; [exact E2|]. apply (Hfix _ _ E2). rewrite E1. lia.
Defined.
