(* ===== verification/Stream.v ===== *)
(** * The live seat map over Server-Sent Events ([services/realtime/internal/stream])

    One connection: [ServeHTTP] subscribes to the hub, and then writes what it is handed
    until the browser leaves, the hub cuts it off, or a write fails.  What the rest of the
    process does to the hub meanwhile is part of the schedule. *)

From Stdlib Require Import String.
From stdpp Require Import base gmap strings numbers list.
From S2P Require Import Prelude Platform GoStrings Events Kafka Hub HubProps Instances.

(** What the handler put on the wire. *)
Inductive frame :=
  | FHead (status : Z)                 (* the status line with the stream's headers *)
  | FError (status : Z) (msg : string) (* http.Error *)
  | FConnected                         (* retry: 3000 / : connected *)
  | FUpdate (u : Update)               (* event: seats / data: .. *)
  | FPing.                             (* : ping *)

(** What happens next to a connection: another goroutine acts on the hub, or the [select]
    of the handler picks a ready case; [written] says whether the write and the flush
    that follow succeed. *)
Inductive turn :=
  | Others (o : op)
  | BrowserGone
  | Updated (written : bool)
  | Tick (written : bool).

(** A connection: what the hub is, the subscription, whether the handler is still running,
    and the frames written so far. *)
Record conn := {
  cn_hub : Hub;
  cn_sub : ptr;
  cn_open : bool;
  cn_frames : list frame;
}.

Definition heartbeat (configured : Z) : Z := if (configured <=? 0)%Z then 15 * 10 ^ 9 else configured.

(** The handler returns; [sub.Close()] is deferred.  [None]: a panic. *)
Definition leave (c : conn) : option conn :=
  h ← CloseSub (cn_sub c) (cn_hub c);
  Some {| cn_hub := h; cn_sub := cn_sub c; cn_open := false; cn_frames := cn_frames c |}.

(** A frame is written; when that fails the handler returns. *)
Definition emit (f : frame) (written : bool) (c : conn) : option conn :=
  if written then Some {| cn_hub := cn_hub c; cn_sub := cn_sub c; cn_open := cn_open c;
                          cn_frames := cn_frames c ++ [f] |}
  else leave c.

Definition with_hub (h : Hub) (c : conn) : conn :=
  {| cn_hub := h; cn_sub := cn_sub c; cn_open := cn_open c; cn_frames := cn_frames c |}.

(** The others act on subscriptions that exist, and not on this one. *)
Definition foreign (o : op) (c : conn) : bool :=
  valid o (cn_hub c) &&
  match o with
  | OpReceive q | OpCloseSub q => bool_decide (q <> cn_sub c)
  | _ => true
  end.

(** One turn.  A case of the [select] that is not ready is not picked: a receive with
    nothing to receive changes nothing. *)
Definition take_turn (t : turn) (c : conn) : option conn :=
  match t with
  | Others o => if foreign o c then h ← perform o (cn_hub c); Some (with_hub h c) else Some c
  | BrowserGone => if cn_open c then leave c else Some c
  | Tick written => if cn_open c then emit FPing written c else Some c
  | Updated written =>
      if cn_open c then
        match Receive (cn_sub c) (cn_hub c) with
        | None => Some c
        | Some (None, h) => leave (with_hub h c)
        | Some (Some u, h) => emit (FUpdate u) written (with_hub h c)
        end
      else Some c
  end.

Fixpoint turns (l : list turn) (c : conn) : option conn :=
  match l with
  | [] => Some c
  | t :: l' => c' ← take_turn t c; turns l' c'
  end.

(** [ServeHTTP]: the frames written, whether the handler is still running, and the hub;
    lifting the write deadline is not modelled.  [greeted]: whether the greeting could be
    written. *)
Definition ServeHTTP `{U : UuidLib} (eventID : string) (greeted : bool) (schedule : list turn) (h : Hub)
    : option (list frame * bool * Hub) :=
  match uuid_parse eventID with
  | None => Some ([FError 400 "invalid event id"], false, h)
  | Some _ =>
      match Subscribe eventID h with
      | (None, h') => Some ([FError 503 "too many viewers, try again shortly"], false, h')
      | (Some p, h') =>
          c ← emit FConnected greeted {| cn_hub := h'; cn_sub := p; cn_open := true; cn_frames := [FHead 200] |};
          c ← turns schedule c;
          Some (cn_frames c, cn_open c, cn_hub c)
      end
  end.

(** ** The stream shows what the hub hands out *)

Definition updates (l : list frame) : list Update :=
  omap (fun f => match f with FUpdate u => Some u | _ => None end) l.

(** What the others do to the subscription: it may be handed updates or be cut off. *)
Lemma foreign_step max o c h' s g :
  reach max (cn_hub c) g -> foreign o c = true -> perform o (cn_hub c) = Some h' ->
  h_heap (cn_hub c) !! cn_sub c = Some s ->
  (exists s', h_heap h' !! cn_sub c = Some s' /\ sub_eventID s' = sub_eventID s /\
     (sub_closed s = true -> s' = s)) /\
  snd <$> noted o (cn_hub c) g !! cn_sub c = snd <$> g !! cn_sub c.
Proof.
  intros Hr Hf Hp Hs. destruct (reach_wf max _ g Hr) as (Hwf & _). destruct c as [h p b fr]. cbn in *.
  unfold foreign in Hf. cbn in Hf. destruct o as [ev|q|ev u| |q]; cbn in *.
  - pose proof (wf_subscribe ev h Hwf) as Hsub. destruct (Subscribe ev h) as [r h1]. cbn in *.
    injection Hp as ->. destruct Hsub as (_ & _ & _ & Hr'). destruct r as [q|].
    + destruct Hr' as (Hfresh & _ & ->). rewrite !lookup_insert_ne by congruence. eauto.
    + destruct Hr' as [-> _]. eauto.
  - reflect_bools. destruct H as [t Ht]. destruct (remove_spec q t h Hwf Ht) as (h1 & E & _ & Hh & _).
    unfold CloseSub in Hp. rewrite E in Hp. injection Hp as <-. rewrite Hh, lookup_insert_ne by done. eauto.
  - destruct (publish_spec ev u h Hwf) as (h1 & E & _ & Hh & _). rewrite E in Hp. injection Hp as <-.
    rewrite Hh, lookup_sql_update, Hs, map_lookup_imap. cbn. split.
    + eexists. split; [done|]. unfold pushed, shut. repeat case_match; cbn; try done;
      reflect_bools; (split; [done|]); congruence.
    + destruct (g !! p) as [[owed got]|]; [|done]. cbn. by case_match.
  - destruct (close_spec h Hwf) as (h1 & E & _ & Hh & _). rewrite E in Hp. injection Hp as <-.
    rewrite Hh, lookup_fmap, Hs. cbn. split; [|done]. eexists. split; [done|]. split; [done|].
    intros Hc. by destruct s; cbn in *; subst.
  - reflect_bools. injection Hp as <-. destruct (Receive q h) as [[r h1]|] eqn:E; [|cbn; eauto].
    destruct (receive_spec q h r h1 Hwf E) as (_ & _ & _ & t & Ht & Hr'). cbn. destruct r as [u|].
    + destruct Hr' as (rest & _ & ->). rewrite lookup_insert_ne, lookup_alter_ne by done. eauto.
    + destruct Hr' as (-> & _). eauto.
Qed.

(** The connection, with the ledger of the hub: the frames are what the reader received,
    short of one update at most when the write of it failed; a handler that has returned
    has given its slot back. *)
Record streaming (max : Z) (ev : string) (c : conn) (g : ledger) : Prop := {
  sg_reach : reach max (cn_hub c) g;
  sg_told : exists s owed got, h_heap (cn_hub c) !! cn_sub c = Some s /\ sub_eventID s = ev /\
    g !! cn_sub c = Some (owed, got) /\ updates (cn_frames c) `prefix_of` got /\
    (cn_open c = true -> updates (cn_frames c) = got) /\ (cn_open c = false -> sub_closed s = true);
}.

Lemma leave_streaming max ev c g s owed got :
  reach max (cn_hub c) g -> h_heap (cn_hub c) !! cn_sub c = Some s -> sub_eventID s = ev ->
  g !! cn_sub c = Some (owed, got) -> updates (cn_frames c) `prefix_of` got ->
  exists c', leave c = Some c' /\ streaming max ev c' g /\ cn_sub c' = cn_sub c /\ cn_open c' = false /\
    cn_frames c' = cn_frames c.
Proof.
  intros Hr Hs Hev Hg Hpre. destruct (reach_wf max _ g Hr) as (Hwf & _).
  destruct (remove_spec _ s _ Hwf Hs) as (h' & E & _ & Hh & _). unfold leave, CloseSub. rewrite E. cbn.
  eexists. split; [done|]. split; [|done]. split; cbn.
  - change g with (noted (OpCloseSub (cn_sub c)) (cn_hub c) g). eapply reach_step; [exact Hr| |exact E].
    cbn. rewrite Hs. by apply bool_decide_eq_true_2.
  - exists (shut s), owed, got. rewrite Hh, lookup_insert_eq. done.
Qed.

Lemma emit_streaming max ev f written c g :
  streaming max ev c g -> cn_open c = true -> updates [f] = [] ->
  exists c', emit f written c = Some c' /\ streaming max ev c' g /\ cn_sub c' = cn_sub c /\
    cn_frames c `prefix_of` cn_frames c'.
Proof.
  intros [Hr (s & owed & got & Hs & Hev & Hg & Hpre & Heq & Hc)] Ho Hf. unfold emit. destruct written.
  - eexists. split; [done|]. split; [|by eauto using prefix_app_r]. split; [done|]. exists s, owed, got. cbn.
    unfold updates in *. rewrite omap_app, Hf, app_nil_r. done.
  - destruct (leave_streaming max ev c g s owed got) as (c' & E & Hst & Hsub & _ & Hfr); [done..|].
    exists c'. rewrite Hfr. done.
Qed.

(** Close the bookkeeping of a turn. *)
Ltac stay := split_and!; cbn; try done; try (by apply prefix_app_r);
  try (by intros [?|?]; congruence).

Lemma take_turn_streaming max ev t c g :
  streaming max ev c g ->
  exists c' g', take_turn t c = Some c' /\ streaming max ev c' g' /\ cn_sub c' = cn_sub c /\
    cn_frames c `prefix_of` cn_frames c' /\ (cn_open c = false \/ t = BrowserGone -> cn_open c' = false).
Proof.
  intros Hst. pose proof Hst as [Hr (s & owed & got & Hs & Hev & Hg & Hpre & Heq & Hc)].
  destruct (reach_wf max _ g Hr) as (Hwf & _ & Hcl). destruct t as [o| |w|w]; cbn.
  - destruct (foreign o c) eqn:Hf; [|exists c, g; stay].
    assert (Hv : valid o (cn_hub c) = true) by (by apply andb_true_iff in Hf as [? _]).
    destruct (perform_wf o _ Hwf Hcl Hv) as (h' & E & _). rewrite E. cbn.
    destruct (foreign_step max o c h' s g Hr Hf E Hs) as [(s' & Hs' & Hev' & Hcl') Hgot].
    exists (with_hub h' c), (noted o (cn_hub c) g). split; [done|]. split; [|stay]. split; cbn.
    + by eapply reach_step.
    + rewrite Hg in Hgot. cbn in Hgot. apply fmap_Some in Hgot as ([owed' got'] & Hg' & [= <-]).
      exists s', owed', got. split_and!; auto; [congruence|]. intros Ho. rewrite Hcl' by auto. auto.
  - destruct (cn_open c) eqn:Ho; [|exists c, g; stay].
    destruct (leave_streaming max ev c g s owed got) as (c' & E & ? & ? & ? & Hfr); [done..|].
    exists c', g. rewrite Hfr. stay.
  - destruct (cn_open c) eqn:Ho; [|exists c, g; stay].
    destruct (Receive (cn_sub c) (cn_hub c)) as [[r h']|] eqn:E; [|exists c, g; stay].
    destruct (receive_spec _ _ r h' Hwf E) as (_ & _ & _ & s0 & Hs0 & Hr'). rewrite Hs in Hs0. injection Hs0 as <-.
    destruct r as [u|].
    + destruct Hr' as (rest & Hc' & Hh).
      assert (Hr2 : reach max h' (noted (OpReceive (cn_sub c)) (cn_hub c) g)).
      { eapply reach_step; [exact Hr| |cbn; by rewrite E]. cbn. rewrite Hs. by apply bool_decide_eq_true_2. }
      assert (Hg2 : noted (OpReceive (cn_sub c)) (cn_hub c) g !! cn_sub c = Some (owed, got ++ [u])).
      { cbn. rewrite E, lookup_alter_eq, Hg. done. }
      assert (Hs2 : h_heap h' !! cn_sub c = Some {| sub_c := rest; sub_closed := sub_closed s;
        sub_eventID := sub_eventID s |}) by (by rewrite Hh, lookup_insert_eq).
      unfold emit. destruct w.
      * eexists _, _. split; [done|]. split; [|stay].
        split; [exact Hr2|]. cbn. eexists _, _, _. split; [exact Hs2|]. split; [done|]. split; [exact Hg2|].
        unfold updates in *. rewrite omap_app, Heq by done. cbn. by rewrite Ho.
      * destruct (leave_streaming max ev (with_hub h' c) _ _ _ _ Hr2 Hs2 Hev Hg2) as (c' & E' & ? & ? & ? & Hfr).
        { cbn. by apply prefix_app_r. }
        exists c', (noted (OpReceive (cn_sub c)) (cn_hub c) g). rewrite Hfr. stay.
    + destruct Hr' as (-> & _).
      destruct (leave_streaming max ev (with_hub (cn_hub c) c) g s owed got) as (c' & E' & ? & ? & ? & Hfr); [done..|].
      exists c', g. rewrite Hfr. stay.
  - destruct (cn_open c) eqn:Ho; [|exists c, g; stay].
    destruct (emit_streaming max ev FPing w c g) as (c' & E & ? & ? & ?); [done..|].
    exists c', g. split_and!; try done. by intros [?|?].
Qed.

Lemma turns_streaming max ev l c g :
  streaming max ev c g ->
  exists c' g', turns l c = Some c' /\ streaming max ev c' g' /\ cn_sub c' = cn_sub c /\
    cn_frames c `prefix_of` cn_frames c' /\ (cn_open c = false \/ BrowserGone ∈ l -> cn_open c' = false).
Proof.
  revert c g. induction l as [|t l IH]; intros c g Hst; cbn [turns].
  - exists c, g. split_and!; try done. intros [?|Hin]; [done|]. by apply elem_of_nil in Hin.
  - destruct (take_turn_streaming max ev t c g Hst) as (c1 & g1 & E1 & Hst1 & Hsub1 & Hfr1 & Hop1).
    rewrite E1. cbn. destruct (IH c1 g1 Hst1) as (c2 & g2 & E2 & Hst2 & Hsub2 & Hfr2 & Hop2).
    exists c2, g2. split_and!; try done; [congruence|by etrans|].
    intros [Ho|Hin]; apply Hop2; [left; by apply Hop1; left|].
    apply elem_of_cons in Hin as [E|Hin]; [left; apply Hop1; right; congruence|by right].
Qed.

(** *** A channel that was closed *)

(** How many turns of a schedule receive. *)
Definition is_receive (t : turn) : bool := match t with Updated _ => true | _ => false end.
Definition receives (l : list turn) : nat := length (List.filter is_receive l).

(** The updates still in the buffer of a closed channel bound the receives the handler
    makes before it returns. *)
Lemma closed_turn max ev t c g s :
  streaming max ev c g -> h_heap (cn_hub c) !! cn_sub c = Some s -> sub_closed s = true ->
  exists c' g' s', take_turn t c = Some c' /\ streaming max ev c' g' /\
    h_heap (cn_hub c') !! cn_sub c' = Some s' /\ sub_closed s' = true /\
    (cn_open c' = false \/ length (sub_c s') + receives [t] <= length (sub_c s)).
Proof.
  intros Hst Hs Hcs. destruct (take_turn_streaming max ev t c g Hst) as (c' & g' & E & Hst' & Hsub & _ & Hop).
  exists c', g'. pose proof Hst as [Hr _]. destruct (reach_wf max _ g Hr) as (Hwf & _).
  destruct (cn_open c') eqn:Ho'; cycle 1.
  { destruct (sg_told _ _ _ _ Hst') as (s' & owed & got & Hs' & _ & _ & _ & _ & Hc').
    exists s'. split_and!; auto. }
  assert (Ho : cn_open c = true) by (destruct (cn_open c); [done|]; by specialize (Hop (or_introl eq_refl))).
  pose proof E as Eturn. destruct t as [o| |w|w]; cbn in E; rewrite ?Ho in E.
  - exists s. destruct (foreign o c) eqn:Hf; [|injection E as <-; split_and!; try done; try exact Eturn; right; cbn; lia].
    destruct (perform o (cn_hub c)) as [h'|] eqn:Hp; [|done]. injection E as <-.
    destruct (foreign_step max o c h' s g Hr Hf Hp Hs) as [(s' & Hs' & _ & Hsame) _].
    rewrite (Hsame Hcs) in Hs'. split_and!; try done; try exact Eturn; right; cbn; lia.
  - by specialize (Hop (or_intror eq_refl)).
  - destruct (Receive (cn_sub c) (cn_hub c)) as [[r h']|] eqn:Erec; cycle 1.
    { unfold Receive in Erec. rewrite Hs in Erec. cbn in Erec. rewrite Hcs in Erec. by destruct (sub_c s). }
    destruct (receive_spec _ _ r h' Hwf Erec) as (_ & _ & _ & s0 & Hs0 & Hr'). rewrite Hs in Hs0. injection Hs0 as <-.
    destruct r as [u|]; cycle 1.
    { unfold leave in E. destruct (CloseSub _ _); [|done]. injection E as <-. done. }
    destruct Hr' as (rest & Hc' & Hh). unfold emit in E. destruct w; cycle 1.
    { unfold leave in E. destruct (CloseSub _ _); [|done]. injection E as <-. done. }
    injection E as <-. cbn. rewrite Hh, lookup_insert_eq. eexists. split_and!; try done; try exact Eturn.
    right. rewrite Hc'. cbn. lia.
  - exists s. unfold emit in E. destruct w; cycle 1.
    { unfold leave in E. destruct (CloseSub _ _); [|done]. injection E as <-. done. }
    injection E as <-. split_and!; try done; try exact Eturn; right; cbn; lia.
Qed.

Lemma closed_turns max ev l c g s :
  streaming max ev c g -> h_heap (cn_hub c) !! cn_sub c = Some s -> sub_closed s = true ->
  length (sub_c s) < receives l -> exists c', turns l c = Some c' /\ cn_open c' = false.
Proof.
  revert c g s. induction l as [|t l IH]; intros c g s Hst Hs Hcs Hlen; [by cbn in Hlen; lia|].
  destruct (closed_turn max ev t c g s Hst Hs Hcs) as (c1 & g1 & s1 & E1 & Hst1 & Hs1 & Hcs1 & Hle).
  cbn [turns]. rewrite E1. cbn. destruct Hle as [Ho|Hle].
  - destruct (turns_streaming max ev l c1 g1 Hst1) as (c2 & _ & E2 & _ & _ & _ & Hgone).
    exists c2. split; [done|]. apply Hgone. by left.
  - apply (IH c1 g1 s1); try done. unfold receives in *. cbn in Hle, Hlen. destruct (is_receive t); cbn in *; lia.
Qed.

(** The viewer is turned away, or its connection starts. *)
Lemma start_streaming max h g ev greeted :
  reach max h g ->
  (exists h', Subscribe ev h = (None, h') /\ h_heap h' = h_heap h) \/
  exists p h' c g', Subscribe ev h = (Some p, h') /\
    emit FConnected greeted {| cn_hub := h'; cn_sub := p; cn_open := true; cn_frames := [FHead 200] |} = Some c /\
    streaming max ev c g' /\ cn_sub c = p.
Proof.
  intros Hr. destruct (reach_wf max h g Hr) as (Hwf & _).
  pose proof (wf_subscribe ev h Hwf) as Hsub. pose proof (reach_step max (OpSubscribe ev) h _ g Hr eq_refl eq_refl) as Hr1.
  cbn in Hr1. destruct (Subscribe ev h) as [[p|] h1]; cbn in *; [right|left; exists h1; by destruct Hsub as (_ & _ & _ & ? & _)].
  destruct Hsub as (_ & _ & _ & _ & _ & Hh).
  set (c0 := {| cn_hub := h1; cn_sub := p; cn_open := true; cn_frames := [FHead 200] |}).
  assert (Hst : streaming max ev c0 (<[p := ([], [])]> g)).
  { split; [exact Hr1|]. cbn. eexists _, [], []. rewrite Hh, !lookup_insert_eq. done. }
  destruct (emit_streaming max ev FConnected greeted c0 _ Hst eq_refl eq_refl) as (c1 & E1 & Hst1 & Hs1 & _).
  exists p, h1, c1, (<[p := ([], [])]> g). done.
Qed.

(** C34: a stream shows the seat map as it changes.  However publishers, other viewers and a
    shutdown interleave with it, and whichever writes fail, serving a viewer never panics; a
    full hub turns the viewer away; otherwise the updates it sent are, in order and without
    gaps, the beginning of those published for its event since it subscribed; while it is
    served and has not been cut off, all others wait in its buffer; and once it has ended, as
    it does when the browser leaves, its slot in the hub is free again. *)
Theorem stream_is_faithful `{U : UuidLib} max h g ev u greeted schedule :
  reach max h g -> uuid_parse ev = Some u ->
  exists frames running h', ServeHTTP ev greeted schedule h = Some (frames, running, h') /\
  match (Subscribe ev h).1 with
  | None => frames = [FError 503 "too many viewers, try again shortly"] /\ h_heap h' = h_heap h
  | Some p => exists g' s owed got, reach max h' g' /\ h_heap h' !! p = Some s /\ g' !! p = Some (owed, got) /\
      updates frames `prefix_of` owed /\
      (running = true -> sub_closed s = false -> updates frames ++ sub_c s = owed) /\
      (running = false -> sub_closed s = true) /\ (BrowserGone ∈ schedule -> running = false)
  end.
Proof.
  intros Hr Hu. unfold ServeHTTP. rewrite Hu.
  destruct (start_streaming max h g ev greeted Hr) as [(h1 & Hsub & Hh)|(p & h1 & c1 & g1 & Hsub & E1 & Hst1 & Hs1)];
    rewrite Hsub; cbn; [by eexists _, _, _|].
  destruct (turns_streaming max ev schedule c1 _ Hst1) as (c2 & g2 & E2 & Hst2 & Hs2 & _ & Hgone).
  rewrite E1. cbn. rewrite E2. cbn. do 3 eexists. split; [reflexivity|].
  destruct Hst2 as [Hr2 (s & owed & got & Hs & Hev & Hg & Hpre & Heq & Hcl)].
  rewrite Hs2, Hs1 in Hs, Hg.
  destruct (reach_in_order max _ _ Hr2 _ _ Hs) as (owed' & got' & Hg' & Hord & Hall). rewrite Hg in Hg'.
  injection Hg' as <- <-. exists g2, s, owed, got. split_and!; try done.
  - etrans; [exact Hpre|]. etrans; [|exact Hord]. by apply prefix_app_r.
  - intros Ho Hns. rewrite (Heq Ho). by apply Hall.
  - intros Hb. apply Hgone. by right.
Qed.

Lemma turns_app l1 l2 c : turns (l1 ++ l2) c = (c' ← turns l1 c; turns l2 c').
Proof. revert c. induction l1 as [|t l1 IH]; intros c; cbn; [done|]. destruct (take_turn t c); cbn; [apply IH|done]. Qed.

(** A shutdown closes the channel of every connection. *)
Lemma shutdown_turn max ev c g :
  streaming max ev c g ->
  exists c' g' s', take_turn (Others OpClose) c = Some c' /\ streaming max ev c' g' /\
    h_heap (cn_hub c') !! cn_sub c' = Some s' /\ sub_closed s' = true /\ length (sub_c s') <= 64.
Proof.
  intros Hst. destruct (take_turn_streaming max ev (Others OpClose) c g Hst) as (c' & g' & E & Hst' & _).
  pose proof Hst as [Hr (s & owed & got & Hs & _)]. destruct (reach_wf max _ g Hr) as (Hwf & _).
  destruct (close_spec _ Hwf) as (h1 & E1 & _ & Hh & _). pose proof E as E0. cbn in E0. rewrite E1 in E0. cbn in E0.
  injection E0 as <-. exists (with_hub h1 c), g', (shut s). cbn. rewrite Hh, lookup_fmap, Hs.
  split_and!; try done. exact (wh_buffers _ Hwf _ _ Hs).
Qed.

(** C35: a shutdown ends every stream.  After the hub was closed a handler makes at most 65
    more receives before it returns, whatever else happens and whatever was waiting in its
    buffer: closing the hub is enough for an HTTP server that waits for its requests to
    finish. *)
Theorem shutdown_ends_streams `{U : UuidLib} max h g ev u greeted before after :
  reach max h g -> uuid_parse ev = Some u -> 64 < receives after ->
  exists frames h', ServeHTTP ev greeted (before ++ Others OpClose :: after) h = Some (frames, false, h').
Proof.
  intros Hr Hu Hafter. unfold ServeHTTP. rewrite Hu.
  destruct (start_streaming max h g ev greeted Hr) as [(h1 & -> & _)|(p & h1 & c1 & g1 & -> & E1 & Hst1 & _)];
    [by eauto|].
  rewrite E1. cbn. rewrite turns_app.
  destruct (turns_streaming max ev before c1 g1 Hst1) as (c2 & g2 & E2 & Hst2 & _). rewrite E2. cbn [mbind option_bind turns].
  destruct (shutdown_turn max ev c2 g2 Hst2) as (c3 & g3 & s3 & E3 & Hst3 & Hs3 & Hc3 & Hb3). rewrite E3. cbn [mbind option_bind].
  destruct (closed_turns max ev after c3 g3 s3 Hst3 Hs3 Hc3) as (c4 & E4 & Ho4); [lia|]. rewrite E4. cbn.
  rewrite Ho4. by eauto.
Qed.

(** ** Witness *)

Definition ex_schedule : list turn :=
  [Others (OpPublish "ue" ex_update); Tick true; Updated true; Others (OpPublish "ux" ex_update);
   Others (OpPublish "ue" ex_update); BrowserGone].

Lemma stream_is_faithful_witness :
  exists h', ServeHTTP (U := ref_uuid) "ue" true ex_schedule (NewHub 1) =
    Some ([FHead 200; FConnected; FPing; FUpdate ex_update], false, h') /\ (h_count h' = 0)%Z /\
  exists p s, (Subscribe "ue" (NewHub 1)).1 = Some p /\ h_heap h' !! p = Some s /\ sub_closed s = true.
Proof.
  destruct (stream_is_faithful (U := ref_uuid) 1 (NewHub 1) ∅ "ue" "e" true ex_schedule (reach_new 1) eq_refl)
    as (fr & b & h' & E & (g' & s & owed & got & _ & Hs & _ & _ & _ & Hcl & Hgone)).
  assert (E' : (fun x => (x.1, h_count x.2)) <$> ServeHTTP (U := ref_uuid) "ue" true ex_schedule (NewHub 1) =
    Some ([FHead 200; FConnected; FPing; FUpdate ex_update], false, 0%Z)) by (vm_compute; reflexivity).
  rewrite E in E'. cbn in E'. injection E' as -> -> Hcount.
  exists h'. split; [exact E|]. split; [exact Hcount|]. eexists _, s. split; [reflexivity|].
  split; [exact Hs|]. by apply Hcl.
Defined.

Lemma shutdown_ends_streams_witness :
  exists frames h', ServeHTTP (U := ref_uuid) "ue" true
    ([Others (OpPublish "ue" ex_update)] ++ Others OpClose :: replicate 65 (Updated true)) (NewHub 1) =
    Some (frames, false, h').
Proof.
  apply (shutdown_ends_streams (U := ref_uuid) 1 (NewHub 1) ∅ "ue" "e" true [Others (OpPublish "ue" ex_update)]
    (replicate 65 (Updated true)) (reach_new 1) eq_refl). vm_compute. lia.
Defined.
