(* ===== verification/Grpc.v ===== *)
(** * What every gRPC server and client is built with ([pkg/observability])

    The interceptor chain of [NewGRPCServer], the request ID that travels from service to
    service, the levels of the log and the IDs of the trace.  A handler is a function on the
    state of its server that returns or panics; the metrics interceptor and the transport are
    libraries, given by the behaviour they document. *)

From Stdlib Require Import Ascii String.
From stdpp Require Import base list sets strings numbers.
From S2P Require Import Prelude Platform GoStrings.

(** ** Levels ([log/slog], [logging.go]) *)

Definition LevelDebug : Z := -4.
Definition LevelInfo : Z := 0.
Definition LevelWarn : Z := 4.
Definition LevelError : Z := 8.

(** [unicode.ToLower], as far as a lower-case ASCII letter can come of it: from an ASCII
    letter, from U+0130 and from U+212A.  The other runes stay outside ASCII. *)
Definition to_lower (r : Z) : Z :=
  if is_upper r then (r + 32)%Z else if (r =? 304)%Z then 105%Z else if (r =? 8490)%Z then 107%Z else r.

(** [strings.ToLower(s) = w], for a lower-case ASCII word [w]. *)
Definition lower_is (w s : string) : bool :=
  bool_decide (map (fun x => to_lower x.1) (runes s) = map fst (runes w)).

Definition levelFromEnv (LOG_LEVEL : string) : Z :=
  let s := trim_space LOG_LEVEL in
  if lower_is "debug" s then LevelDebug
  else if lower_is "warn" s || lower_is "warning" s then LevelWarn
  else if lower_is "error" s then LevelError
  else LevelInfo.

Definition levelFor (c : code) : Z :=
  match c with
  | OK => LevelDebug
  | Internal | Unknown | DataLoss | Unimplemented => LevelError
  | Unavailable | DeadlineExceeded | ResourceExhausted => LevelWarn
  | _ => LevelInfo
  end.

(** ** Contexts ([requestid.go], [tracing.go]) *)

(** [metadata.MD], as the list of its entries; keys are lower case. *)
Abbreviation metadata := (list (string * string)).

(** [md.Get]: the values of a key, in order. *)
Definition md_Get (k : string) (md : metadata) : list string :=
  snd <$> filter (fun kv => kv.1 = k) md.

(** A span context: a trace ID of 16 bytes and a span ID of 8, zero when absent. *)
Record SpanContext := { sc_TraceID : N; sc_SpanID : N }.

(** What the code reads of a [context.Context]. *)
Record context := {
  cx_request_id : option string;     (* the value under requestIDKey *)
  cx_incoming : option metadata;
  cx_outgoing : metadata;
  cx_span : SpanContext;
}.

Definition RequestIDMetadata : string := "x-request-id".

Definition WithRequestID (ctx : context) (id : string) : context :=
  {| cx_request_id := Some id; cx_incoming := cx_incoming ctx; cx_outgoing := cx_outgoing ctx;
     cx_span := cx_span ctx |}.

Definition RequestID (ctx : context) : string := default "" (cx_request_id ctx).

(** [metadata.AppendToOutgoingContext] with one pair. *)
Definition AppendToOutgoingContext (ctx : context) (k v : string) : context :=
  {| cx_request_id := cx_request_id ctx; cx_incoming := cx_incoming ctx;
     cx_outgoing := cx_outgoing ctx ++ [(k, v)]; cx_span := cx_span ctx |}.

(** [n] bytes in hexadecimal, most significant first. *)
Definition hex_digit (d : N) : ascii :=
  if (d <? 10)%N then ascii_of_N (48 + d) else ascii_of_N (87 + d).

Fixpoint hex_string (digits : nat) (x : N) : string :=
  match digits with
  | O => ""
  | S n => String (hex_digit (N.land (N.shiftr x (4 * N.of_nat n)) 15)) (hex_string n x)
  end.

Definition TraceID (ctx : context) : string :=
  let sc := cx_span ctx in
  if (sc_TraceID sc =? 0)%N then "" else hex_string 32 (sc_TraceID sc).

Definition SpanID (ctx : context) : string :=
  let sc := cx_span ctx in
  if (sc_SpanID sc =? 0)%N then "" else hex_string 16 (sc_SpanID sc).

(** ** The log *)

Inductive attr := AString (v : string) | ADuration (d : Z) | AAny (v : string).

(** A record of the log; the stack trace of a panic is left out. *)
Record log_record := { lr_level : Z; lr_msg : string; lr_attrs : list (string * attr) }.

(** ** Handlers and interceptors ([grpc.go]) *)

(** A function returns or panics. *)
Inductive outcome (A : Type) := Returned (a : A) | Panicked (v : string).
Arguments Returned {A} a.
Arguments Panicked {A} v.

(** [status.Code(err)] of a result. *)
Definition code_of {A} (r : res A) : code := match r with Ok _ => OK | Err e => status_code e end.

(** The context [requestIDServer] passes on: the caller's ID is adopted when there is one. *)
Definition adopt (ctx : context) : context :=
  match cx_incoming ctx with
  | Some md => match md_Get RequestIDMetadata md with
               | id :: _ => if bool_decide (id = "") then ctx else WithRequestID ctx id
               | [] => ctx
               end
  | None => ctx
  end.

Section Server.
Context {W Req Resp : Type}.

(** A server: the world of its handlers, the clock, the level of its logger, its log, and
    the calls its metrics have counted, by method and code. *)
Record server := {
  sv_world : W;
  sv_now : Z;
  sv_level : Z;
  sv_log : list log_record;
  sv_handled : list (string * code);
}.

Definition unary_handler := context -> Req -> server -> outcome (res Resp) * server.

(** The method's name is [info.FullMethod]. *)
Definition interceptor := string -> unary_handler -> unary_handler.

(** [log.Log]: a record below the logger's level is dropped. *)
Definition write_line (l : log_record) (s : server) : server :=
  if (sv_level s <=? lr_level l)%Z
  then {| sv_world := sv_world s; sv_now := sv_now s; sv_level := sv_level s;
          sv_log := sv_log s ++ [l]; sv_handled := sv_handled s |}
  else s.

Definition count_handled (method : string) (c : code) (s : server) : server :=
  {| sv_world := sv_world s; sv_now := sv_now s; sv_level := sv_level s; sv_log := sv_log s;
     sv_handled := sv_handled s ++ [(method, c)] |}.

(** The attributes both lines of a call share. *)
Definition ids (ctx : context) : list (string * attr) :=
  [("request_id", AString (RequestID ctx)); ("trace_id", AString (TraceID ctx)); ("span_id", AString (SpanID ctx))].

Definition panic_line (method : string) (ctx : context) (v : string) : log_record :=
  {| lr_level := LevelError; lr_msg := "panic in rpc handler";
     lr_attrs := ("method", AString method) :: ids ctx ++ [("panic", AAny v)] |}.

Definition recoveryUnary : interceptor := fun method h ctx req s =>
  let (out, s1) := h ctx req s in
  match out with
  | Returned r => (Returned r, s1)
  | Panicked v => (Returned (Err (EStatus Internal "internal error" [])), write_line (panic_line method ctx v) s1)
  end.

Definition requestIDServer : interceptor := fun _ h ctx => h (adopt ctx).

Definition rpc_line (method : string) (ctx : context) (c : code) (duration : Z) : log_record :=
  {| lr_level := levelFor c; lr_msg := "rpc";
     lr_attrs := ("method", AString method) :: ("code", AString (code_string c)) :: ("duration", ADuration duration)
                 :: ids ctx |}.

(** A panic unwinds through it and leaves no line. *)
Definition loggingUnary : interceptor := fun method h ctx req s =>
  let start := sv_now s in
  let (out, s1) := h ctx req s in
  match out with
  | Returned r => (Returned r, write_line (rpc_line method ctx (code_of r) (sv_now s1 - start)) s1)
  | Panicked v => (Panicked v, s1)
  end.

(** [grpc.ChainUnaryInterceptor]: the first is the outermost. *)
Definition ChainUnaryInterceptor (l : list interceptor) (method : string) (h : unary_handler) : unary_handler :=
  foldr (fun i k => i method k) h l.

(** What a server built by [NewGRPCServer] does with a call of [method], whose registered
    handler is [h]; [metrics] is the interceptor of the metrics library. *)
Definition NewGRPCServer (metrics : interceptor) : string -> unary_handler -> unary_handler :=
  ChainUnaryInterceptor [requestIDServer; metrics; loggingUnary; recoveryUnary].

(** The documented behaviour of the metrics interceptor: it passes the call on, counts it by
    its code when it returned, and lets a panic through. *)
Definition counts_calls (metrics : interceptor) : Prop := forall method h ctx req s,
  metrics method h ctx req s =
    let (out, s1) := h ctx req s in
    match out with
    | Returned r => (Returned r, count_handled method (code_of r) s1)
    | Panicked v => (Panicked v, s1)
    end.
End Server.
Arguments server : clear implicits.
Arguments unary_handler : clear implicits.
Arguments interceptor : clear implicits.

(** ** Clients *)

(** [PropagateRequestID]: the interceptor of every connection to a service. *)
Definition PropagateRequestID {A} (ctx : context) (invoker : context -> A) : A :=
  let id := RequestID ctx in
  invoker (if bool_decide (id = "") then ctx else AppendToOutgoingContext ctx RequestIDMetadata id).

(** A text gRPC carries unchanged as the value of metadata: printable ASCII without blanks. *)
Definition wire_safe (s : string) : bool :=
  forallb (fun b => between 33 126 (byte_z b)) (list_ascii_of_string s).

(** The transport: the metadata a server receives for the metadata a client sends. *)
Class GrpcWire : Type := { deliver : metadata -> metadata }.

(** Documented: the values of an application's key arrive in order and unchanged, when they
    are printable. *)
Class GrpcWireLaws (G : GrpcWire) : Prop := {
  deliver_Get : forall md, Forall (fun v => wire_safe v = true) (md_Get RequestIDMetadata md) ->
    md_Get RequestIDMetadata (deliver md) = md_Get RequestIDMetadata md;
}.

Section Call.
Context `{G : GrpcWire}.

(** The context a server starts a call with: nothing of its own, the metadata that arrived,
    the span its stats handler opened. *)
Definition accept (span : SpanContext) (md : metadata) : context :=
  {| cx_request_id := None; cx_incoming := Some md; cx_outgoing := []; cx_span := span |}.

(** A call made in [ctx], served by [serve], a server of [NewGRPCServer]. *)
Definition client_call {A} (ctx : context) (span : SpanContext) (serve : context -> A) : A :=
  PropagateRequestID ctx (fun ctx => serve (accept span (deliver (cx_outgoing ctx)))).

(** The context in which the handler of the called service runs, and the last of a row of
    services that call each other. *)
Definition hop (ctx : context) (span : SpanContext) : context := client_call ctx span adopt.
Definition hops : list SpanContext -> context -> context := flip (foldl hop).
End Call.

(** ** One call *)

Section OneCall.
Context {W Req Resp : Type} (metrics : interceptor W Req Resp).
Context (Hmetrics : counts_calls metrics).
Implicit Types (s : server W) (h : unary_handler W Req Resp).

(** What the caller gets of what the handler did. *)
Definition answer {A} (out : outcome (res A)) : res A :=
  match out with Returned r => r | Panicked _ => Err (EStatus Internal "internal error" []) end.

(** The line of a panic, if there was one. *)
Definition note_panic {A} method ctx (out : outcome A) s : server W :=
  match out with Returned _ => s | Panicked v => write_line (panic_line method ctx v) s end.

Lemma write_line_now l s : sv_now (write_line l s) = sv_now s.
Proof. unfold write_line. by case_match. Qed.

Lemma write_line_level l s : sv_level (write_line l s) = sv_level s.
Proof. unfold write_line. by case_match. Qed.

Lemma write_line_log l s : sv_log (write_line l s) = sv_log s ++ (if (sv_level s <=? lr_level l)%Z then [l] else []).
Proof. unfold write_line. case_match; cbn; by rewrite ?app_nil_r. Qed.

Lemma note_panic_now {A} method ctx (out : outcome A) s : sv_now (note_panic method ctx out s) = sv_now s.
Proof. destruct out; [done|apply write_line_now]. Qed.

(** The whole chain, on every handler. *)
Lemma NewGRPCServer_run method h ctx req s :
  NewGRPCServer metrics method h ctx req s =
    let '(out, s1) := h (adopt ctx) req s in
    let c := code_of (answer out) in
    (Returned (answer out),
     count_handled method c
       (write_line (rpc_line method (adopt ctx) c (sv_now s1 - sv_now s)) (note_panic method (adopt ctx) out s1))).
Proof.
  unfold NewGRPCServer, ChainUnaryInterceptor. cbn. unfold requestIDServer. rewrite Hmetrics.
  unfold loggingUnary, recoveryUnary.
  destruct (h (adopt ctx) req s) as [[r|v] s1]; cbn; by rewrite ?write_line_now.
Qed.

(** No level of the environment silences a line of level error. *)
Lemma levelFromEnv_le LOG_LEVEL : (levelFromEnv LOG_LEVEL <= LevelError)%Z.
Proof. unfold levelFromEnv, LevelDebug, LevelInfo, LevelWarn, LevelError. repeat case_match; lia. Qed.

(** C36: a panic in a handler costs one call and is seen.  Whatever a handler does, a server
    built by [NewGRPCServer] answers the call: with the handler's own result, or with an
    Internal error that tells nothing of the panic.  The handler's effects stay; the call is
    counted once, under the code of its answer, and logged at the level of that code.
    Whatever LOG_LEVEL says, a panic leaves two lines at the error level, the panic's and the
    call's, with the call's request ID. *)
Theorem panic_costs_one_call LOG_LEVEL method h ctx req s out s1 o' s' :
  sv_level s1 = levelFromEnv LOG_LEVEL ->
  h (adopt ctx) req s = (out, s1) ->
  NewGRPCServer metrics method h ctx req s = (o', s') ->
  o' = Returned (answer out) /\ sv_world s' = sv_world s1 /\
  sv_handled s' = sv_handled s1 ++ [(method, code_of (answer out))] /\
  let line := rpc_line method (adopt ctx) (code_of (answer out)) (sv_now s1 - sv_now s) in
  match out with
  | Returned r => o' = Returned r /\
      sv_log s' = sv_log s1 ++ (if (sv_level s1 <=? levelFor (code_of r))%Z then [line] else [])
  | Panicked v => code_of (answer out) = Internal /\ lr_level line = LevelError /\
      sv_log s' = sv_log s1 ++ [panic_line method (adopt ctx) v; line]
  end.
Proof.
  intros Hlevel Hh Hrun. rewrite NewGRPCServer_run, Hh in Hrun. injection Hrun as <- <-.
  pose proof (levelFromEnv_le LOG_LEVEL) as Hle. rewrite <- Hlevel in Hle. apply Z.leb_le in Hle.
  destruct out as [r|v]; cbn.
  - split_and!; [done| |unfold write_line; by case_match|done|by rewrite write_line_log]. unfold write_line; by case_match.
  - unfold write_line; cbn. rewrite Hle. cbn. rewrite Hle. cbn. split_and!; try done. by rewrite <- app_assoc.
Qed.
End OneCall.

(** The order of the chain matters: with the recovery outermost, a panicking handler is
    neither counted nor logged as a call. *)
Lemma recovery_outermost_is_blind {W Req Resp} (metrics : interceptor W Req Resp) method h ctx req s v s1 :
  counts_calls metrics -> h (adopt ctx) req s = (Panicked v, s1) ->
  exists s', ChainUnaryInterceptor [recoveryUnary; requestIDServer; metrics; loggingUnary] method h ctx req s =
      (Returned (Err (EStatus Internal "internal error" [])), s') /\
    sv_handled s' = sv_handled s1 /\
    forall l, l ∈ sv_log s' -> l ∈ sv_log s1 \/ lr_msg l = "panic in rpc handler".
Proof.
  intros Hm Hh. unfold ChainUnaryInterceptor. cbn. unfold recoveryUnary, requestIDServer. rewrite Hm.
  unfold loggingUnary. rewrite Hh. cbn. eexists. split; [done|]. split; [unfold write_line; by case_match|].
  intros l. rewrite write_line_log, elem_of_app. intros [?|Hl]; [by left|]. case_match; [|set_solver].
  apply list_elem_of_singleton in Hl as ->. by right.
Qed.

(** ** The request ID *)

Lemma token_byte_wire b : token_byte b = true -> between 33 126 (byte_z b) = true.
Proof.
  unfold token_byte, is_upper, is_lower, is_digit, between. cbv zeta. generalize (byte_z b). intros z H.
  rewrite !orb_true_iff, !andb_true_iff, !Z.leb_le, !Z.eqb_eq in H. rewrite andb_true_iff, !Z.leb_le. lia.
Qed.

(** The IDs the gateway accepts from a browser survive the transport. *)
Lemma match_token_wire_safe s : match_token s = true -> wire_safe s = true.
Proof.
  unfold match_token, wire_safe. rewrite andb_true_iff, !forallb_forall. intros [_ H] b Hb.
  by apply token_byte_wire, H.
Qed.

Section Travel.
Context `{G : GrpcWire} `{!GrpcWireLaws G}.

Lemma md_Get_app k md md' : md_Get k (md ++ md') = md_Get k md ++ md_Get k md'.
Proof. unfold md_Get. by rewrite list.filter_app, fmap_app. Qed.

(** A context that carries its request ID only as its value. *)
Definition clean (ctx : context) : Prop := md_Get RequestIDMetadata (cx_outgoing ctx) = [].

Lemma hop_id ctx span : clean ctx -> wire_safe (RequestID ctx) = true ->
  clean (hop ctx span) /\ RequestID (hop ctx span) = RequestID ctx.
Proof.
  intros Hclean Hsafe. unfold hop, client_call, PropagateRequestID. case_bool_decide as Hid.
  - unfold adopt. cbn. rewrite deliver_Get; rewrite Hclean; [|done]. done.
  - unfold adopt. cbn. assert (E : md_Get RequestIDMetadata (deliver (cx_outgoing ctx ++ [(RequestIDMetadata, RequestID ctx)]))
      = [RequestID ctx]).
    { assert (E : md_Get RequestIDMetadata (cx_outgoing ctx ++ [(RequestIDMetadata, RequestID ctx)]) = [RequestID ctx])
        by (by rewrite md_Get_app, Hclean).
      rewrite deliver_Get; rewrite E; [done|]. by constructor. }
    rewrite E. rewrite bool_decide_false by done. done.
Qed.

Lemma hops_id spans ctx : clean ctx -> wire_safe (RequestID ctx) = true ->
  clean (hops spans ctx) /\ RequestID (hops spans ctx) = RequestID ctx.
Proof.
  unfold hops, flip. revert ctx. induction spans as [|sp l IH]; intros ctx Hc Hw; [done|].
  destruct (hop_id ctx sp Hc Hw) as [Hc' E].
  rewrite <- E. apply (IH (hop ctx sp)); [done|by rewrite E].
Qed.

(** The lines of a call. *)
Definition carries (id : string) (l : log_record) : Prop := ("request_id", AString id) ∈ lr_attrs l.

Lemma rpc_line_carries method ctx c d : carries (RequestID ctx) (rpc_line method ctx c d).
Proof. unfold carries, rpc_line, ids. cbn. set_solver. Qed.

Lemma panic_line_carries method ctx v : carries (RequestID ctx) (panic_line method ctx v).
Proof. unfold carries, panic_line, ids. cbn. set_solver. Qed.

(** C37: one request has one ID in every service.  However many services call each other on
    behalf of a request, each handler runs with the ID the first caller had, and every line
    the last server writes about its call, be it the call's or a panic's, carries that ID. *)
Theorem request_id_travels {W Req Resp} (metrics : interceptor W Req Resp) spans span ctx method h req s :
  counts_calls metrics -> clean ctx -> wire_safe (RequestID ctx) = true ->
  RequestID (hops spans ctx) = RequestID ctx /\
  exists out s1 lines,
    h (hop (hops spans ctx) span) req s = (out, s1) /\ RequestID (hop (hops spans ctx) span) = RequestID ctx /\
    sv_log (client_call (hops spans ctx) span (fun c => NewGRPCServer metrics method h c req s)).2 = sv_log s1 ++ lines /\
    Forall (carries (RequestID ctx)) lines.
Proof.
  intros Hm Hc Hw. destruct (hops_id spans ctx Hc Hw) as [Hc' E]. split; [exact E|].
  destruct (hop_id (hops spans ctx) span) as [_ E']; [done|by rewrite E|]. rewrite E in E'.
  unfold client_call, PropagateRequestID in *. rewrite NewGRPCServer_run by done.
  unfold hop, client_call, PropagateRequestID in *.
  set (ctx' := adopt _) in *. clearbody ctx'. destruct (h ctx' req s) as [out s1] eqn:Hh.
  destruct out as [r|v]; eexists _, s1, _; (split; [done|]); (split; [done|]); cbn;
    rewrite !write_line_log, <- ?app_assoc; (split; [reflexivity|]).
  all: rewrite <- E'; repeat case_match; cbn [app]; repeat apply Forall_cons_2; try apply Forall_nil_2;
    auto using rpc_line_carries, panic_line_carries.
Qed.
End Travel.

(** ** Witnesses *)

(** A metrics interceptor and a transport that do no more than they must. *)
Definition plain_metrics {W Req Resp} : interceptor W Req Resp := fun method h ctx req s =>
  let (out, s1) := h ctx req s in
  match out with
  | Returned r => (Returned r, count_handled method (code_of r) s1)
  | Panicked v => (Panicked v, s1)
  end.

Lemma plain_metrics_count {W Req Resp} : counts_calls (@plain_metrics W Req Resp).
Proof. by intros method h ctx req s. Qed.

#[global] Instance plain_wire : GrpcWire := {| deliver := fun md => ("user-agent", "grpc-go") :: md |}.

#[global] Instance plain_wire_laws : GrpcWireLaws plain_wire.
Proof. constructor. reflexivity. Qed.

(** A handler that books and then crashes. *)
Definition crash : unary_handler nat unit unit := fun _ _ s =>
  (Panicked "index out of range",
   {| sv_world := S (sv_world s); sv_now := sv_now s + 5; sv_level := sv_level s; sv_log := sv_log s;
      sv_handled := sv_handled s |}).

Definition quiet_server : server nat :=
  {| sv_world := 0; sv_now := 100; sv_level := levelFromEnv " Error "; sv_log := []; sv_handled := [] |}.

Definition browser_ctx : context :=
  {| cx_request_id := Some "req-1"; cx_incoming := None; cx_outgoing := []; cx_span := {| sc_TraceID := 10; sc_SpanID := 0 |} |}.

Definition method_hold : string := "/ticketwave.inventory.v1.InventoryService/HoldSeats".

Lemma panic_costs_one_call_witness :
  levelFromEnv " Error " = LevelError /\
  exists s', NewGRPCServer plain_metrics method_hold crash browser_ctx tt quiet_server =
      (Returned (Err (EStatus Internal "internal error" [])), s') /\ sv_world s' = 1 /\
    sv_handled s' = [(method_hold, Internal)].
Proof.
  split; [vm_compute; reflexivity|].
  destruct (NewGRPCServer plain_metrics method_hold crash browser_ctx tt quiet_server) as [o' s'] eqn:E.
  destruct (panic_costs_one_call plain_metrics plain_metrics_count " Error " method_hold crash browser_ctx tt
    quiet_server _ (crash browser_ctx tt quiet_server).2 o' s' eq_refl eq_refl E) as (-> & Hw & Hh & _).
  exists s'. split; [reflexivity|]. split; [exact Hw|exact Hh].
Defined.

(** The gateway calls the order service, which calls the inventory. *)
Definition span_order : SpanContext := {| sc_TraceID := 10; sc_SpanID := 171 |}.
Definition span_inventory : SpanContext := {| sc_TraceID := 10; sc_SpanID := 172 |}.

Lemma request_id_travels_witness :
  RequestID (hops [span_order; span_inventory] browser_ctx) = "req-1" /\
  hex_string 16 171 = "00000000000000ab" /\
  length (sv_log (client_call (hops [span_order] browser_ctx) span_inventory
    (fun c => NewGRPCServer plain_metrics method_hold crash c tt quiet_server)).2) = 2.
Proof.
  split; [exact (proj1 (request_id_travels plain_metrics [span_order; span_inventory] span_inventory browser_ctx
    method_hold crash tt quiet_server plain_metrics_count eq_refl eq_refl))|].
  split; vm_compute; reflexivity.
Defined.
