(* ===== verification/Process.v ===== *)
(** * Processes: start, shutdown and what they hold open

    The vocabulary of the services' [main] functions: resources that are opened and closed,
    deferred calls, goroutines and what they use, and the constructors the mains call
    ([pkg/config], [pkg/postgres], [pkg/redis], [pkg/jwt/keys.go], [pkg/kafka],
    [pkg/outbox/metrics.go], [pkg/observability]).

    A process runs against an oracle that answers each call to the outside, and leaves a
    trace.  A goroutine is in the trace with the resources it uses; it counts as alive until
    something that waits for it has returned, which is the most that [main] knows of it.  Log
    lines are left out. *)

From stdpp Require Import base list sets strings numbers.
From S2P Require Import Prelude Platform GoStrings Events Outbox Consumer.

(** ** Traces *)

Inductive resource :=
  | RSignals                        (* signal.NotifyContext's registration *)
  | RTracing                        (* the tracer provider with its buffered spans *)
  | RPool                           (* *pgxpool.Pool *)
  | RRedis                          (* *redis.Client *)
  | RConn (service : string)        (* *grpc.ClientConn *)
  | RProducer (topic : string)      (* *kafka.Producer *)
  | RConsumer                       (* *kafka.Consumer *)
  | RReader                         (* the reader of kafka.Tail *)
  | RListener                       (* net.Listener *)
  | RTimeout.                       (* context.WithTimeout of the shutdown *)

Inductive task :=
  | TMetrics                        (* ServeMetrics *)
  | TPublisher                      (* outbox.Publisher.Run *)
  | TSweeper                        (* the loop of StartHoldSweeper *)
  | TStopper                        (* waits for the context and stops the server *)
  | TListen                         (* ListenAndServe *)
  | TRequests                       (* the handlers of the requests in flight *)
  | TConsume                        (* kafka.Consumer.Run *)
  | TTail.                          (* kafka.Tail *)

#[global] Instance resource_eq_dec : EqDecision resource.
Proof. solve_decision. Defined.
#[global] Instance task_eq_dec : EqDecision task.
Proof. solve_decision. Defined.

Inductive event :=
  | Acquire (r : resource)
  | Release (r : resource)
  | Spawn (t : task) (uses : list resource)
  | Share (t : task) (r : resource)     (* a task that is running starts to use r *)
  | Join (t : task).

(** What is open at the end, the last opened first. *)
Definition hold (held : list resource) (e : event) : list resource :=
  match e with
  | Acquire r => r :: held
  | Release r => filter (.≠ r) held
  | _ => held
  end.
Definition held (tr : list event) : list resource := foldl hold [] tr.

(** Whether every resource but the [lost] ones is closed once, after everything that was
    opened later and before everything that was opened earlier. *)
Fixpoint nested (lost stack : list resource) (tr : list event) : bool :=
  match tr with
  | [] => bool_decide (stack = [])
  | Acquire r :: rest => nested lost (if bool_decide (r ∈ lost) then stack else r :: stack) rest
  | Release r :: rest =>
      match stack with
      | r' :: stack' => bool_decide (r = r') && nested lost stack' rest
      | [] => false
      end
  | _ :: rest => nested lost stack rest
  end.

Definition releases : list event -> list resource :=
  omap (fun e => match e with Release r => Some r | _ => None end).

(** The tasks that may be running, with what they use, and the uses that were cut: a
    resource closed while such a task uses it. *)
Definition watch (st : list (task * resource) * list (task * resource)) (e : event) :=
  let (alive, cut) := st in
  match e with
  | Spawn t uses => (map (pair t) uses ++ alive, cut)
  | Share t r => ((t, r) :: alive, cut)
  | Join t => (filter (fun u => u.1 <> t) alive, cut)
  | Release r => (alive, cut ++ filter (fun u => u.2 = r) alive)
  | Acquire _ => (alive, cut)
  end.
Definition cut_uses (tr : list event) : list (task * resource) := (foldl watch ([], []) tr).2.

(** ** Programs *)

(** What the outside does: a call succeeds or fails; of several things that can happen
    first, one does. *)
Inductive chance := Success | Failure (e : error) | Pick (n : nat).

Record pstate := { ps_calls : nat; ps_defers : list resource; ps_trace : list event }.

(** A function runs on, returns with an error or not, or ends the process ([log.Fatalf]). *)
Inductive flow (A : Type) := Next (a : A) | Return (err : option error) | Fatal.
Arguments Next {A} a.
Arguments Return {A} err.
Arguments Fatal {A}.

Definition proc (A : Type) : Type := (nat -> chance) -> pstate -> flow A * pstate.

#[global] Instance proc_ret : MRet proc := fun A x _ p => (Next x, p).
#[global] Instance proc_bind : MBind proc := fun A B k m ora p =>
  match m ora p with
  | (Next x, p') => k x ora p'
  | (Return err, p') => (Return err, p')
  | (Fatal, p') => (Fatal, p')
  end.

Definition note (e : event) : proc unit := fun _ p =>
  (Next tt, {| ps_calls := ps_calls p; ps_defers := ps_defers p; ps_trace := ps_trace p ++ [e] |}).
Definition acquire (r : resource) : proc unit := note (Acquire r).
Definition release (r : resource) : proc unit := note (Release r).
Definition go (t : task) (uses : list resource) : proc unit := note (Spawn t uses).
Definition join (t : task) : proc unit := note (Join t).

(** [defer]: the last deferred call runs first. *)
Definition defer (r : resource) : proc unit := fun _ p =>
  (Next tt, {| ps_calls := ps_calls p; ps_defers := r :: ps_defers p; ps_trace := ps_trace p |}).

(** The next answer of the outside. *)
Definition next_answer : proc chance := fun ora p =>
  (Next (ora (ps_calls p)), {| ps_calls := S (ps_calls p); ps_defers := ps_defers p; ps_trace := ps_trace p |}).

(** A call that can fail. *)
Definition external : proc (res unit) :=
  c ← next_answer; mret match c with Failure e => Err e | _ => Ok tt end.

Definition choose : proc nat :=
  c ← next_answer; mret match c with Pick n => n | _ => 0 end.

Definition wrap_err {A} (ctx : string) (r : res A) : res A :=
  match r with Ok x => Ok x | Err e => Err (EWrap ctx e) end.

(** [if err != nil { return fmt.Errorf("<ctx>: %w", err) }], and the same without a context. *)
Definition or_return {A} (ctx : string) (m : proc (res A)) : proc A :=
  r ← m; match r with Ok x => mret x | Err e => fun _ p => (Return (Some (EWrap ctx e)), p) end.
Definition or_return_err {A} (m : proc (res A)) : proc A :=
  r ← m; match r with Ok x => mret x | Err e => fun _ p => (Return (Some e), p) end.

(** [if err != nil { log.Fatalf(..) }] *)
Definition or_fatal {A} (m : proc (res A)) : proc A :=
  r ← m; match r with Ok x => mret x | Err _ => fun _ p => (Fatal, p) end.

(** ** Connections and settings *)

(** [config.Load]: a missing file is no error, the environment decides. *)
Definition Load : proc (res unit) := r ← external; mret (wrap_err "parsing config" r).

(** [postgres.New] *)
Definition postgres_New : proc (res unit) :=
  r ← external;
  match r with
  | Err e => mret (Err (EWrap "pgxpool.New" e))
  | Ok _ => _ ← acquire RPool; r ← external; mret (wrap_err "pgxpool.Ping" r)
  end.

(** [redis.New] *)
Definition redis_New : proc (res unit) :=
  _ ← acquire RRedis; r ← external; mret (wrap_err "ping redis" r).

(** [jwt.LoadPrivateKey]: read the file, find a PEM block, parse it. *)
Definition LoadPrivateKey : proc (res unit) :=
  r ← external;
  match r with
  | Err e => mret (Err (EWrap "read private key" e))
  | Ok _ =>
      block ← choose;
      if bool_decide (block ≠ 0) then mret (Err (EText "decode PEM: no block found"))
      else r ← external; mret (wrap_err "parse private key" r)
  end.

(** [jwt.LoadPublicKey]: the same, and the key must be an RSA key. *)
Definition LoadPublicKey : proc (res unit) :=
  r ← external;
  match r with
  | Err e => mret (Err (EWrap "read public key" e))
  | Ok _ =>
      block ← choose;
      if bool_decide (block ≠ 0) then mret (Err (EText "decode PEM: no block found"))
      else
        r ← external;
        match r with
        | Err e => mret (Err (EWrap "parse public key" e))
        | Ok _ =>
            kind ← choose;
            if bool_decide (kind ≠ 0) then mret (Err (EText "not an RSA public key")) else mret (Ok tt)
        end
  end.

(** [grpc.NewClient]: no connection is made yet. *)
Definition NewClient (service : string) : proc (res unit) :=
  r ← external;
  match r with Err e => mret (Err e) | Ok _ => _ ← acquire (RConn service); mret (Ok tt) end.

(** The gateway's [dial]. *)
Definition dial (service addr : string) : proc (res unit) :=
  r ← NewClient service; mret (wrap_err ("dial " ++ addr) r).

(** [net.ListenConfig.Listen] *)
Definition Listen : proc (res unit) :=
  r ← external;
  match r with Err e => mret (Err e) | Ok _ => _ ← acquire RListener; mret (Ok tt) end.

(** ** Kafka *)

Definition NewProducer (topic : string) : proc unit := acquire (RProducer topic).

(** [NewConsumer] with [newConsumer]: the configuration is checked and completed, the
    outcomes' counters are created. *)
Definition NewConsumer (cfg : ConsumerConfig) : proc (res ConsumerConfig) :=
  match validate_config cfg with
  | Err e => mret (Err e)
  | Ok _ => _ ← acquire RConsumer; mret (Ok (applyDefaults cfg))
  end.

(** [Consumer.Run]: it returns when the context is cancelled, or with an error. *)
Definition consumer_Run : proc (res unit) := r ← external; _ ← join TConsume; mret r.

(** [Tail] with the end of [runTail]. *)
Definition Tail (brokers : list string) (topic : string) : proc (res unit) :=
  r ← (if bool_decide (brokers = []) || bool_decide (topic = "")
       then mret (Err (EText "kafka tail: brokers and topic are required"))
       else
         _ ← acquire RReader;
         r ← external;
         match r with
         | Err e => _ ← release RReader; mret (Err (EWrap "kafka tail: seek to newest offset" e))
         | Ok _ => r ← external; _ ← release RReader; mret (wrap_err "kafka tail: read" r)
         end);
  _ ← join TTail;
  mret r.

(** ** The outbox's metrics ([pkg/outbox/metrics.go]) *)

(** [RegisterMetrics]: from now on a scrape of the metrics queries the pool. *)
Definition RegisterMetrics (serving : bool) (t : Table) : proc (res unit) :=
  match validate t with
  | Err e => mret (Err e)
  | Ok _ =>
      r ← external;
      match r with
      | Err e => mret (Err (EWrap ("register outbox metrics for " ++ tbl_Name t) e))
      | Ok _ => _ ← (if serving then note (Share TMetrics RPool) else mret tt); mret (Ok tt)
      end
  end.

(** ** Observability ([pkg/observability]) *)

Definition Disabled : string := "off".
Definition TracingDisabled : string := "off".

(** [StartMetrics]: whether the metrics are served. *)
Definition StartMetrics (addr : string) : proc bool :=
  if bool_decide (addr = "") || bool_decide (addr = Disabled) then mret false
  else _ ← go TMetrics []; mret true.

(** [SetupTracing]: what its shutdown function has to shut down. *)
Definition SetupTracing (endpoint : string) : proc (res (option resource)) :=
  if bool_decide (endpoint = "") || bool_decide (endpoint = TracingDisabled) then mret (Ok None)
  else
    r ← external;
    match r with
    | Err e => mret (Err (EWrap "create OTLP trace exporter" e))
    | Ok _ => _ ← acquire RTracing; mret (Ok (Some RTracing))
    end.

(** [defer func() { _ = shutdownTracing(..) }()] *)
Definition defer_tracing (t : option resource) : proc unit :=
  match t with Some r => defer r | None => mret tt end.

(** [http.ErrServerClosed] *)
Definition ErrServerClosed : error := EText "http: Server closed".
Fixpoint is_server_closed (e : error) : bool :=
  match e with
  | EText m => bool_decide (m = "http: Server closed")
  | EWrap _ e' => is_server_closed e'
  | _ => false
  end.

(** What [ServeMetrics] waits for: its listener to fail, or the context to be done, upon
    which it shuts the server down. *)
Inductive metrics_end := ListenerReturned (e : error) | ContextDone (shutdown : option error).

Definition ServeMetrics (first : metrics_end) : option error :=
  match first with
  | ListenerReturned e => if is_server_closed e then None else Some (EWrap "metrics server" e)
  | ContextDone r => r
  end.

(** ** Servers *)

(** [grpc.Server.Serve], which owns its listener: it returns without an error only after
    [GracefulStop], that is when every request in flight has been answered. *)
Definition grpc_Serve : proc (res unit) :=
  r ← external;
  _ ← release RListener;
  _ ← match r with Ok _ => join TRequests | Err _ => mret tt end;
  mret r.

(** [http.Server.Shutdown] with a deadline: without an error, every request in flight has
    been answered. *)
Definition http_Shutdown : proc (res unit) :=
  r ← external;
  _ ← match r with Ok _ => join TRequests | Err _ => mret tt end;
  mret r.

(** [errgroup.Group.Wait]: when every function has returned, the error of the one that
    failed first. *)
Definition group_Wait (results : list (res unit)) : proc (res unit) :=
  n ← choose;
  let errs := omap (fun r => match r with Err e => Some e | Ok _ => None end) results in
  mret match errs !! (n mod length errs)%nat with Some e => Err e | None => Ok tt end.

(** ** A whole process *)

(** The exit status and the trace: the deferred calls run when the function returns, however
    it does, and not when it ended the process. *)
Definition run_process (m : proc unit) (ora : nat -> chance) : nat * list event :=
  let (out, p) := m ora {| ps_calls := 0; ps_defers := []; ps_trace := [] |} in
  let deferred := map Release (ps_defers p) in
  match out with
  | Next _ | Return None => (0, ps_trace p ++ deferred)
  | Return (Some _) => (1, ps_trace p ++ deferred)
  | Fatal => (1, ps_trace p)
  end.
