(* ===== verification/Lifecycle.v ===== *)
(** * The services' processes ([services/*/cmd/main.go], [services/*/internal/config])

    What each service opens, starts, waits for and closes.  The names of the resources and
    tasks are those of [Process]; the addresses and credentials of the settings are passed
    through to libraries. *)

From stdpp Require Import base list sets strings numbers.
From S2P Require Import Prelude Platform Events Outbox Consumer Process.

(** ** Settings *)

Record AuthConfig := {
  ac_DatabaseURL : string;
  ac_GRPCPort : string;
  ac_OrganizerEmails : list string;
  ac_MetricsAddr : string;
  ac_TracingEndpoint : string;
}.

Record PaymentConfig := {
  pc_DatabaseURL : string;
  pc_GRPCPort : string;
  pc_MetricsAddr : string;
  pc_TracingEndpoint : string;
}.

Record InventoryConfig := {
  ic_DatabaseURL : string;
  ic_GRPCPort : string;
  ic_RedisAddr : string;
  ic_KafkaBrokers : list string;
  ic_MetricsAddr : string;
  ic_TracingEndpoint : string;
}.

Record OrderConfig := {
  oc_DatabaseURL : string;
  oc_GRPCPort : string;
  oc_InventoryAddr : string;
  oc_PaymentAddr : string;
  oc_KafkaBrokers : list string;
  oc_MetricsAddr : string;
  oc_TracingEndpoint : string;
}.

Record NotificationConfig := {
  nc_KafkaBrokers : list string;
  nc_RedisAddr : string;
  nc_ConsumerGroup : string;
  nc_Concurrency : Z;
  nc_MetricsAddr : string;
  nc_TracingEndpoint : string;
}.

Record AnalyticsConfig := {
  yc_DatabaseURL : string;
  yc_GRPCPort : string;
  yc_KafkaBrokers : list string;
  yc_ConsumerGroup : string;
  yc_Concurrency : Z;
  yc_MetricsAddr : string;
  yc_TracingEndpoint : string;
}.

Record GatewayConfig := {
  gc_HTTPAddr : string;
  gc_AuthAddr : string;
  gc_InventoryAddr : string;
  gc_OrderAddr : string;
  gc_AnalyticsAddr : string;
  gc_RedisAddr : string;
  gc_JWTPublicKeyPath : string;
  gc_SeatPriceCents : Z;
  gc_CookieSecure : bool;
  gc_TrustProxyHeaders : bool;
  gc_RequestTimeout : Z;
  gc_MetricsAddr : string;
  gc_TracingEndpoint : string;
}.

Record RealtimeConfig := {
  rc_HTTPAddr : string;
  rc_KafkaBrokers : list string;
  rc_MaxSubscribers : Z;
  rc_MetricsAddr : string;
  rc_TracingEndpoint : string;
}.

(** ** auth-svc *)

Definition auth_run (cfg : AuthConfig) : proc unit :=
  _ ← or_return "load config" Load;
  _ ← acquire RSignals; _ ← defer RSignals;
  _ ← StartMetrics (ac_MetricsAddr cfg);
  tracing ← or_return "setup tracing" (SetupTracing (ac_TracingEndpoint cfg));
  _ ← defer_tracing tracing;
  _ ← or_return "connect to database" postgres_New;
  _ ← defer RPool;
  _ ← or_return "load private key" LoadPrivateKey;
  _ ← or_return "listen" Listen;
  _ ← go TStopper [];
  _ ← go TRequests [RPool; RTracing];
  or_return "serve" grpc_Serve.

(** ** payment-svc *)

Definition payment_run (cfg : PaymentConfig) : proc unit :=
  _ ← or_return "load config" Load;
  _ ← acquire RSignals; _ ← defer RSignals;
  _ ← StartMetrics (pc_MetricsAddr cfg);
  tracing ← or_return "setup tracing" (SetupTracing (pc_TracingEndpoint cfg));
  _ ← defer_tracing tracing;
  _ ← or_return "connect to database" postgres_New;
  _ ← defer RPool;
  _ ← or_return "listen" Listen;
  _ ← go TStopper [];
  _ ← go TRequests [RPool; RTracing];
  or_return "serve" grpc_Serve.

(** ** inventory-svc *)

(** Its [main] ends the process itself on an error. *)
Definition inventory_main (cfg : InventoryConfig) : proc unit :=
  _ ← or_fatal Load;
  _ ← acquire RSignals; _ ← defer RSignals;
  serving ← StartMetrics (ic_MetricsAddr cfg);
  tracing ← or_fatal (SetupTracing (ic_TracingEndpoint cfg));
  _ ← defer_tracing tracing;
  _ ← or_fatal postgres_New;
  _ ← defer RPool;
  _ ← or_fatal redis_New;
  _ ← defer RRedis;
  _ ← NewProducer TopicSeatEvents;
  _ ← defer (RProducer TopicSeatEvents);
  _ ← RegisterMetrics serving {| tbl_Name := "outbox"; tbl_KeyColumn := "event_id" |};   (* an error is logged *)
  _ ← go TPublisher [RPool; RProducer TopicSeatEvents];
  _ ← or_fatal Listen;
  _ ← go TSweeper [RPool; RRedis];
  _ ← go TStopper [];
  _ ← go TRequests [RPool; RRedis; RTracing];
  _ ← or_fatal grpc_Serve;
  join TPublisher.

(** ** order-svc *)

(** Its [main] ends the process itself on an error. *)
Definition order_main (cfg : OrderConfig) : proc unit :=
  _ ← or_fatal Load;
  _ ← acquire RSignals; _ ← defer RSignals;
  serving ← StartMetrics (oc_MetricsAddr cfg);
  tracing ← or_fatal (SetupTracing (oc_TracingEndpoint cfg));
  _ ← defer_tracing tracing;
  _ ← or_fatal postgres_New;
  _ ← defer RPool;
  _ ← or_fatal (NewClient "inventory");
  _ ← defer (RConn "inventory");
  _ ← or_fatal (NewClient "payment");
  _ ← defer (RConn "payment");
  _ ← NewProducer TopicOrderEvents;
  _ ← defer (RProducer TopicOrderEvents);
  _ ← RegisterMetrics serving {| tbl_Name := "outbox"; tbl_KeyColumn := "order_id" |};   (* an error is logged *)
  _ ← go TPublisher [RPool; RProducer TopicOrderEvents];
  _ ← or_fatal Listen;
  _ ← go TStopper [];
  _ ← go TRequests [RPool; RConn "inventory"; RConn "payment"; RTracing];
  _ ← or_fatal grpc_Serve;
  join TPublisher.

(** ** notification-svc *)

Definition notification_run (cfg : NotificationConfig) : proc unit :=
  _ ← or_return "load config" Load;
  _ ← acquire RSignals; _ ← defer RSignals;
  _ ← StartMetrics (nc_MetricsAddr cfg);
  tracing ← or_return "setup tracing" (SetupTracing (nc_TracingEndpoint cfg));
  _ ← defer_tracing tracing;
  _ ← or_return "connect to redis" redis_New;
  _ ← defer RRedis;
  _ ← NewProducer TopicOrderEventsDLQ;
  _ ← defer (RProducer TopicOrderEventsDLQ);
  _ ← or_return "create consumer" (NewConsumer
        {| cc_Brokers := nc_KafkaBrokers cfg; cc_Topic := TopicOrderEvents; cc_GroupID := nc_ConsumerGroup cfg;
           cc_HasDLQ := true; cc_Concurrency := nc_Concurrency cfg; cc_BatchSize := 0; cc_BatchWait := 0;
           cc_MaxAttempts := 0; cc_RetryBackoff := 0 |});
  _ ← defer RConsumer;
  _ ← go TConsume [RConsumer; RRedis; RProducer TopicOrderEventsDLQ];
  or_return "consume" consumer_Run.

(** ** analytics-svc *)

(** The consumer and the server live and die together. *)
Definition analytics_run (cfg : AnalyticsConfig) : proc unit :=
  _ ← or_return "load config" Load;
  _ ← acquire RSignals; _ ← defer RSignals;
  _ ← StartMetrics (yc_MetricsAddr cfg);
  tracing ← or_return "setup tracing" (SetupTracing (yc_TracingEndpoint cfg));
  _ ← defer_tracing tracing;
  _ ← or_return "connect to database" postgres_New;
  _ ← defer RPool;
  _ ← NewProducer TopicOrderEventsDLQ;
  _ ← defer (RProducer TopicOrderEventsDLQ);
  _ ← or_return "create consumer" (NewConsumer
        {| cc_Brokers := yc_KafkaBrokers cfg; cc_Topic := TopicOrderEvents; cc_GroupID := yc_ConsumerGroup cfg;
           cc_HasDLQ := true; cc_Concurrency := yc_Concurrency cfg; cc_BatchSize := 0; cc_BatchWait := 0;
           cc_MaxAttempts := 0; cc_RetryBackoff := 0 |});
  _ ← defer RConsumer;
  _ ← or_return "listen" Listen;
  _ ← go TConsume [RConsumer; RPool; RProducer TopicOrderEventsDLQ];
  _ ← go TStopper [];
  _ ← go TRequests [RPool; RTracing];
  consumed ← consumer_Run;
  served ← grpc_Serve;
  or_return_err (group_Wait [wrap_err "consume" consumed; wrap_err "serve" served]).

(** ** gateway *)

Definition gateway_run (cfg : GatewayConfig) : proc unit :=
  _ ← or_return "load config" Load;
  _ ← acquire RSignals; _ ← defer RSignals;
  _ ← StartMetrics (gc_MetricsAddr cfg);
  tracing ← or_return "setup tracing" (SetupTracing (gc_TracingEndpoint cfg));
  _ ← defer_tracing tracing;
  _ ← or_return "load public key" LoadPublicKey;
  _ ← or_return "connect to redis" redis_New;
  _ ← defer RRedis;
  _ ← or_return_err (dial "auth" (gc_AuthAddr cfg));
  _ ← defer (RConn "auth");
  _ ← or_return_err (dial "inventory" (gc_InventoryAddr cfg));
  _ ← defer (RConn "inventory");
  _ ← or_return_err (dial "order" (gc_OrderAddr cfg));
  _ ← defer (RConn "order");
  _ ← or_return_err (dial "analytics" (gc_AnalyticsAddr cfg));
  _ ← defer (RConn "analytics");
  _ ← go TListen [];
  _ ← go TRequests [RRedis; RConn "auth"; RConn "inventory"; RConn "order"; RConn "analytics"; RTracing];
  c ← next_answer;
  match c with
  | Failure e =>                    (* the listener returned first *)
      if is_server_closed e then mret tt
      else or_return "serve" (mret (Err e))
  | _ =>                            (* the context is done *)
      _ ← acquire RTimeout; _ ← defer RTimeout;
      or_return "shutdown" http_Shutdown
  end.

(** ** realtime-svc *)

(** Shutting the server down closes the hub, which ends the streams. *)
Definition realtime_run (cfg : RealtimeConfig) : proc unit :=
  _ ← or_return "load config" Load;
  _ ← acquire RSignals; _ ← defer RSignals;
  _ ← StartMetrics (rc_MetricsAddr cfg);
  tracing ← or_return "setup tracing" (SetupTracing (rc_TracingEndpoint cfg));
  _ ← defer_tracing tracing;
  _ ← go TTail [];
  _ ← go TListen [];
  _ ← go TRequests [];
  tailed ← Tail (rc_KafkaBrokers cfg) TopicSeatEvents;
  listened ← external;
  _ ← acquire RTimeout;
  shut ← http_Shutdown;
  _ ← release RTimeout;
  or_return_err (group_Wait
    [tailed;
     match listened with
     | Err e => if is_server_closed e then Ok tt else Err (EWrap "serve" e)
     | Ok _ => Ok tt
     end;
     shut]).
