(* ===== verification/LifecycleProps.v ===== *)
(** * The services' processes: theorems *)

From stdpp Require Import base list sets strings numbers.
From S2P Require Import Prelude Platform Events Outbox Consumer Process Lifecycle.

(** ** The eight processes *)

Inductive service :=
  | SAuth (cfg : AuthConfig)
  | SPayment (cfg : PaymentConfig)
  | SInventory (cfg : InventoryConfig)
  | SOrder (cfg : OrderConfig)
  | SNotification (cfg : NotificationConfig)
  | SAnalytics (cfg : AnalyticsConfig)
  | SGateway (cfg : GatewayConfig)
  | SRealtime (cfg : RealtimeConfig).

Definition boot (s : service) : proc unit :=
  match s with
  | SAuth c => auth_run c
  | SPayment c => payment_run c
  | SInventory c => inventory_main c
  | SOrder c => order_main c
  | SNotification c => notification_run c
  | SAnalytics c => analytics_run c
  | SGateway c => gateway_run c
  | SRealtime c => realtime_run c
  end.

(** The processes whose lifecycle is a function that returns its error. *)
Definition returns_errors (s : service) : bool :=
  match s with SInventory _ | SOrder _ => false | _ => true end.

(** ** Running a process against an unknown oracle *)

Definition ends {A} (m : proc A) (ora : nat -> chance) (p : pstate) (Q : flow A -> pstate -> Prop) : Prop :=
  Q (m ora p).1 (m ora p).2.

Section Ends.
Implicit Types (ora : nat -> chance) (p : pstate).

Lemma ends_bind {A B} (m : proc A) (k : A -> proc B) ora p Q :
  ends m ora p (fun o p' => match o with
                            | Next x => ends (k x) ora p' Q
                            | Return e => Q (Return e) p'
                            | Fatal => Q Fatal p'
                            end) ->
  ends (x ← m; k x) ora p Q.
Proof. unfold ends, mbind, proc_bind. by destruct (m ora p) as [[x|e|] p']. Qed.

Lemma ends_ret {A} (x : A) ora p Q : Q (Next x) p -> ends (mret x) ora p Q.
Proof. done. Qed.

Lemma ends_note e ora p Q :
  Q (Next tt) {| ps_calls := ps_calls p; ps_defers := ps_defers p; ps_trace := ps_trace p ++ [e] |} ->
  ends (note e) ora p Q.
Proof. done. Qed.

Lemma ends_defer r ora p Q :
  Q (Next tt) {| ps_calls := ps_calls p; ps_defers := r :: ps_defers p; ps_trace := ps_trace p |} ->
  ends (defer r) ora p Q.
Proof. done. Qed.

(** Whatever the outside answers. *)
Lemma ends_external ora p Q :
  (forall n, let p' := {| ps_calls := n; ps_defers := ps_defers p; ps_trace := ps_trace p |} in
     Q (Next (Ok tt)) p' /\ forall e, Q (Next (Err e)) p') ->
  ends external ora p Q.
Proof. intros H. unfold external. apply ends_bind. unfold ends, next_answer. cbn. case_match; apply H. Qed.

Lemma ends_choose ora p Q :
  (forall n k, Q (Next k) {| ps_calls := n; ps_defers := ps_defers p; ps_trace := ps_trace p |}) ->
  ends choose ora p Q.
Proof. intros H. unfold choose. apply ends_bind. unfold ends, next_answer. cbn. case_match; apply H. Qed.

(** [errgroup.Group.Wait] fails exactly if one of the functions did. *)
Lemma ends_group_Wait results ora p Q :
  (forall n, let p' := {| ps_calls := n; ps_defers := ps_defers p; ps_trace := ps_trace p |} in
     if forallb is_ok results then Q (Next (Ok tt)) p' else forall e, Q (Next (Err e)) p') ->
  ends (group_Wait results) ora p Q.
Proof.
  intros H. unfold group_Wait. apply ends_bind, ends_choose. intros n k. apply ends_ret. specialize (H n). cbn in H.
  set (errs := omap _ results). destruct (forallb is_ok results) eqn:Hok.
  - assert (errs = []) as ->; [|done]. subst errs. clear -Hok. induction results as [|[[]|e] l IH]; cbn in *; auto; done.
  - assert (Hne : errs <> []).
    { subst errs. clear -Hok. induction results as [|[[]|e] l IH]; cbn in *; [done|auto|done]. }
    destruct (errs !! (k mod length errs)%nat) as [e|] eqn:He; [apply H|].
    apply lookup_ge_None in He. destruct errs as [|e l]; [done|]. pose proof (Nat.mod_upper_bound k (length (e :: l))).
    cbn in *. lia.
Qed.
End Ends.

Lemma run_process_ends m ora (P : nat -> list event -> Prop) :
  ends m ora {| ps_calls := 0; ps_defers := []; ps_trace := [] |} (fun o p =>
    match o with
    | Next _ | Return None => P 0 (ps_trace p ++ map Release (ps_defers p))
    | Return (Some _) => P 1 (ps_trace p ++ map Release (ps_defers p))
    | Fatal => P 1 (ps_trace p)
    end) ->
  forall code tr, run_process m ora = (code, tr) -> P code tr.
Proof.
  intros H code tr. unfold run_process. unfold ends in H.
  destruct (m ora _) as [[x|[e|]|] p]; cbn in H; by intros [= <- <-].
Qed.

(** Goes through a program, splitting where the outside or the settings decide. *)
Ltac head_of t := match t with ?f _ => head_of f | _ => t end.

Ltac program_step :=
  match goal with
  | |- ends (_ ≫= _) _ _ _ => apply ends_bind
  | |- ends (mret _) _ _ _ => apply ends_ret
  | |- ends (note _) _ _ _ => apply ends_note
  | |- ends (acquire _) _ _ _ => apply ends_note
  | |- ends (release _) _ _ _ => apply ends_note
  | |- ends (go _ _) _ _ _ => apply ends_note
  | |- ends (join _) _ _ _ => apply ends_note
  | |- ends (defer _) _ _ _ => apply ends_defer
  | |- ends external _ _ _ => apply ends_external; intros ?; split; [|intros ?]
  | |- ends choose _ _ _ => apply ends_choose; intros ? ?
  | |- ends (group_Wait _) _ _ _ => apply ends_group_Wait; intros ?
  | |- ends (if ?b then _ else _) _ _ _ => destruct b eqn:?
  | |- ends (match ?r with Ok _ => _ | Err _ => _ end) _ _ _ => destruct r eqn:?
  | |- ends (match ?c with Success => _ | Failure _ => _ | Pick _ => _ end) _ _ _ => destruct c eqn:?
  | |- ends (fun _ _ => _) _ _ _ => unfold ends at 1
  | |- ends ?m _ _ _ => let h := head_of m in unfold h
  end.

Ltac go_through :=
  repeat (program_step;
          cbn [ps_calls ps_defers ps_trace wrap_err fst snd app defer_tracing forallb is_ok andb]; cbv beta iota zeta).

(** ** What every process does *)

(** The uses of a resource that may outlive it after a clean shutdown: the scrapes of the
    outbox's metrics, which then report no number, and the inventory's sweeper, which nothing
    waits for. *)
Definition tolerated (s : service) : list (task * resource) :=
  match s with
  | SOrder _ => [(TMetrics, RPool)]
  | SInventory _ => [(TMetrics, RPool); (TSweeper, RPool); (TSweeper, RRedis)]
  | _ => []
  end.

(** [ListenAndServe] returns [http.ErrServerClosed] after [Shutdown] only, so it is not what
    the gateway's listener returns first. *)
Definition ora_honest (ora : nat -> chance) : Prop :=
  forall n e, ora n = Failure e -> is_server_closed e = false.
Definition listener_honest (s : service) (ora : nat -> chance) : Prop :=
  match s with
  | SGateway _ => ora_honest ora
  | _ => True
  end.

(** What was opened last. *)
Definition last_opened : list event -> option resource :=
  foldl (fun o e => match e with Acquire r => Some r | _ => o end) None.

(** All that is shown of the end of a process, for one pass through its program. *)
Definition orderly (s : service) (code : nat) (tr : list event) : Prop :=
  if bool_decide (code = 0)
  then held tr = [] /\ nested [] [] tr = true /\
       forallb (fun u => bool_decide (u ∈ tolerated s)) (cut_uses tr) = true
  else if returns_errors s
  then nested (held tr) [] tr = true /\
       existsb (fun l => bool_decide (held tr = l)) [[]; [RPool]; [RRedis]] = true /\
       forallb (fun r => bool_decide (last_opened tr = Some r)) (held tr) = true /\
       forallb (fun u => bool_decide (u.1 = TRequests)) (cut_uses tr) = true
  else forallb (fun r => bool_decide (r = RListener)) (releases tr) = true /\ cut_uses tr = [].

Ltac leaf :=
  try match goal with
      | H : ora_honest _, Hf : _ = Failure ?e, Hc : is_server_closed ?e = true |- _ =>
          exfalso; rewrite (H _ _ Hf) in Hc; discriminate
      end;
  repeat match goal with
         | |- context [is_server_closed ?e] => destruct (is_server_closed e)
         end;
  vm_compute; intros; repeat split; reflexivity.

(** One pass through each program. *)
Lemma boot_orderly s ora code tr :
  listener_honest s ora -> run_process (boot s) ora = (code, tr) -> orderly s code tr.
Proof.
  intros Hl. revert code tr. apply (run_process_ends _ _ (orderly s)). destruct s; cbn [boot listener_honest] in *; go_through.
  all: leaf.
Qed.


(** C38: a shutdown cuts nobody off.  When a process ends without an error, no resource was
    closed while a request, a consumer or a publisher could still be using it; what can
    outlive what it uses is the scraping of the outbox's metrics and the inventory's sweeper.
    When a process ends with an error, that can only happen to requests: consumers are always
    waited for, and publishers are never left without their pool and producer. *)
Theorem shutdown_cuts_nobody_off s ora code tr t r :
  listener_honest s ora -> run_process (boot s) ora = (code, tr) -> (t, r) ∈ cut_uses tr ->
  if bool_decide (code = 0) then (t, r) ∈ tolerated s else t = TRequests /\ returns_errors s = true.
Proof.
  intros Hl Hrun Hin. pose proof (boot_orderly s ora code tr Hl Hrun) as Ho. unfold orderly in Ho.
  apply list_elem_of_In in Hin. case_bool_decide; [|destruct (returns_errors s)].
  - destruct Ho as (_ & _ & Hc). rewrite forallb_forall in Hc. apply Hc in Hin. by case_bool_decide.
  - destruct Ho as (_ & _ & _ & Hc). rewrite forallb_forall in Hc. apply Hc in Hin. by case_bool_decide.
  - destruct Ho as [_ Hc]. by rewrite Hc in Hin.
Qed.

(** ** Witnesses *)

Definition order_settings : OrderConfig :=
  {| oc_DatabaseURL := "postgres://orders"; oc_GRPCPort := ":50054"; oc_InventoryAddr := "inventory:50052";
     oc_PaymentAddr := "payment:50053"; oc_KafkaBrokers := ["kafka:9092"]; oc_MetricsAddr := ":9104";
     oc_TracingEndpoint := "tempo:4317" |}.

Definition inventory_settings : InventoryConfig :=
  {| ic_DatabaseURL := "postgres://inventory"; ic_GRPCPort := ":50052"; ic_RedisAddr := "redis:6379";
     ic_KafkaBrokers := ["kafka:9092"]; ic_MetricsAddr := "off"; ic_TracingEndpoint := "off" |}.

Definition auth_settings : AuthConfig :=
  {| ac_DatabaseURL := "postgres://auth"; ac_GRPCPort := ":50051"; ac_OrganizerEmails := [];
     ac_MetricsAddr := ":9101"; ac_TracingEndpoint := "tempo:4317" |}.

(** Everything works until a signal comes; or the [n]-th call to the outside fails. *)
Definition fine : nat -> chance := fun _ => Success.
Definition fails_at (n : nat) : nat -> chance := fun k => if bool_decide (k = n) then Failure EConn else Success.


(** The inventory's sweeper is not waited for: after a clean shutdown it may still find its
    pool and its Redis client closed. *)
Lemma shutdown_cuts_nobody_off_witness :
  cut_uses (run_process (boot (SInventory inventory_settings)) fine).2 = [(TSweeper, RRedis); (TSweeper, RPool)] /\
  (TSweeper, RRedis) ∈ tolerated (SInventory inventory_settings).
Proof.
  split; [vm_compute; reflexivity|].
  refine (shutdown_cuts_nobody_off (SInventory inventory_settings) fine 0
    (run_process (boot (SInventory inventory_settings)) fine).2 TSweeper RRedis I _ _).
  - vm_compute. reflexivity.
  - vm_compute. left.
Defined.

(** auth-svc, whose database does not answer the first ping: its pool is never closed. *)
Lemma failed_ping_leaves_the_pool_open :
  run_process (boot (SAuth auth_settings)) (fails_at 3) =
    (1, (run_process (boot (SAuth auth_settings)) (fails_at 3)).2) /\
  held (run_process (boot (SAuth auth_settings)) (fails_at 3)).2 = [RPool] /\
  last_opened (run_process (boot (SAuth auth_settings)) (fails_at 3)).2 = Some RPool.
Proof. split_and!; vm_compute; reflexivity. Qed.

(** auth-svc, whose listener fails while requests are in flight: the pool is closed under them. *)
Lemma failing_listener_cuts_requests :
  run_process (boot (SAuth auth_settings)) (fails_at 8) =
    (1, (run_process (boot (SAuth auth_settings)) (fails_at 8)).2) /\
  cut_uses (run_process (boot (SAuth auth_settings)) (fails_at 8)).2 = [(TRequests, RPool); (TRequests, RTracing)].
Proof. split; vm_compute; reflexivity. Qed.

(** When the order service's listener fails, its spans are not flushed, and nothing is closed. *)
Lemma order_fatal_keeps_everything_open :
  run_process (boot (SOrder order_settings)) (fails_at 8) =
    (1, (run_process (boot (SOrder order_settings)) (fails_at 8)).2) /\
  held (run_process (boot (SOrder order_settings)) (fails_at 8)).2 =
    [RProducer TopicOrderEvents; RConn "payment"; RConn "inventory"; RPool; RTracing; RSignals].
Proof. split; vm_compute; reflexivity. Qed.
