(* ===== verification/Site.v ===== *)
(** * The whole site: the gateway over the real services

    The gateway's interface ([Services]) implemented by auth-svc, inventory-svc, order-svc with
    its peers, analytics-svc and the rate limiter, as they are modelled; and what an answer of
    the HTTP API then says about the databases behind it. *)

From Stdlib Require Import Ascii String.
From stdpp Require Import base gmap list strings numbers sorting.
From S2P Require Import Prelude Platform GoStrings Authz Http Events Redis Instances Apierr Inventory InventorySpec.
From S2P Require Import InventoryInv InventoryTrace InventoryLive InventoryProps Payment Order OrderSpec OrderProps System.
From S2P Require Import Analytics Auth RateLimit Gateway AuthProps GatewayProps.

(** ** What a successful order says, replays included *)

Section Bought.
Context `{U : UuidLib} {J : ProtoJson} {W : Type} {B : Backends W} {BL : BackendLaws W}.
Context `{!UuidLaws U} `{!ProtoJsonLaws J}.
Implicit Types (s : ord_state W) (a : ambient).

(** A new order: the seats were reserved for it, its amount charged once, the same seats sold
    to it, and it is stored as confirmed. *)
Definition sold (id : UUID) (req : CreateOrderRequest) s s' : Prop :=
  let o := snapshot id req in
  tb_orders (os_db s) !! id = None /\
  at_status o (co_IdempotencyKey req) "CONFIRMED" None s' /\
  exists i, seats_reserved o (bk_inv (os_world s)) i /\
    charged (charge_of o) "SUCCEEDED" (bk_pay (os_world s)) (bk_pay (os_world s')) /\
    moved LConfirm (o_EventID o) (o_SeatIDs o) (uuid_string id) i (bk_inv (os_world s')).

(** The answer of an earlier request with the same key is repeated, and nothing changes. *)
Definition repeated (id : UUID) (req : CreateOrderRequest) s s' : Prop :=
  s' = s /\
  exists row, tb_orders (os_db s) !! id = Some row /\ od_status row = "CONFIRMED" /\
    od_idempotency_key row = Some (co_IdempotencyKey req) /\ pg_uuid (co_UserId req) = Some (od_user_id row) /\
    od_amount_cents row = co_AmountCents req /\ uuid_string (od_event_id row) = co_EventId req /\
    map uuid_string (od_seat_ids row) ≡ₚ co_SeatIds req.

(** A duplicate key leaves everything as it was. *)
Lemma createOrder_unchanged o key a s :
  os_env s = [] ->
  wp (Order.createOrder o key) (fun r _ s' => match r with Err e => isDuplicateKey e = true -> s' = s | Ok _ => True end) a s.
Proof.
  intros Henv. unfold Order.createOrder. wp_steps. apply wp_interfere_none; [done|]. wp_steps; try done.
  apply wp_pg_arg; [|done]. intros user Huser. wp_steps.
  apply wp_pg_arg; [|done]. intros event Hevent. wp_steps.
  apply wp_pg_args; [|done]. intros seats Hseats. wp_steps; try done.
  eapply wp_mono; [apply insertOutbox_state|]. cbn. intros [tx|e] a' s' ->; [|done]. wp_steps; done.
Qed.

(** A saga that succeeds ends with the order stored as confirmed. *)
Lemma run_saga_ok o key a s :
  steady (o_ID o) s -> at_status o key "PENDING" None s ->
  wp (run_saga o) (fun r _ s' => forall x, r = Ok x ->
    x = {| cr_OrderId := uuid_string (o_ID o); cr_Status := ORDER_STATUS_CONFIRMED |} /\
    at_status o key "CONFIRMED" None s') a s.
Proof.
  intros Hs Hp. unfold run_saga.
  assert (Hfail : forall reason e a s (Q : res CreateOrderResponse -> ambient -> ord_state W -> Prop),
    steady (o_ID o) s -> at_status o key "PENDING" None s -> (forall a' s', Q (Err e) a' s') ->
    wp (_ ← Order.fail o reason; throw e) Q a s).
  { intros reason e a0 s0 Q H1 H2 HQ. apply wp_bind. eapply wp_mono; [by apply fail_spec|]. cbn.
    intros r a' s' (-> & _). wp_steps. apply HQ. }
  wp_steps. eapply wp_mono; [by apply call_peer_spec|]. cbn. intros [x|e] a1 s1 (Hs1 & Hp1 & _).
  2: { wp_step; [by apply Hfail|]. apply wp_bind. eapply wp_mono; [by apply releaseSeats_spec|]. cbn.
    intros r a' s' (-> & H1 & H2 & _). by apply Hfail. }
  wp_steps. eapply wp_mono; [by apply call_peer_spec|]. cbn. intros [y|e] a2 s2 (Hs2 & Hp2 & _).
  2: { apply wp_bind. eapply wp_mono; [by apply releaseSeats_spec|]. cbn.
    intros r a' s' (-> & H1 & H2 & _). wp_step; by apply Hfail. }
  wp_steps. eapply wp_mono; [by apply call_peer_spec|]. cbn. intros [z|e] a3 s3 (Hs3 & Hp3 & _); [|by wp_steps].
  wp_steps. eapply wp_mono; [by eapply transition_spec; [constructor|..]|]. cbn.
  intros [[]|e] a4 s4 (_ & _ & Hat); wp_steps; [|done]. by intros x' [= <-].
Qed.

Lemma replay_ok req a s :
  os_env s = [] ->
  wp (replay req) (fun r _ s' => forall o, r = Ok o -> cr_Status o = ORDER_STATUS_CONFIRMED /\
    exists id, cr_OrderId o = uuid_string id /\ repeated id req s s') a s.
Proof.
  intros Henv. unfold replay, findByKey. wp_steps. apply wp_interfere_none; [done|]. wp_steps; try done.
  apply wp_pg_arg; [|by intros; wp_steps]. intros user Hu. wp_steps; try done.
  intros x [= <-]. split; [done|]. exists u. split; [done|]. split; [done|]. exists o.
  pose proof (elem_of_sql_select (has_key user (co_IdempotencyKey req)) (tb_orders (os_db s)) u o) as [Hin _].
  rewrite Heql in Hin. destruct Hin as [Hrow Hk]; [by left|]. unfold has_key in Hk.
  apply andb_true_iff in Hk as [Hus%bool_decide_eq_true Hkey%bool_decide_eq_true].
  apply bool_decide_eq_true in Heqb0. apply negb_false_iff, sameRequest_iff in Heqb. cbn in Heqb. destruct Heqb as (? & ? & ?).
  split_and!; try done. by rewrite Hus.
Qed.

(** Every success of [CreateOrder] is one or the other. *)
Lemma CreateOrder_ok req a s :
  let id := amb_uuid a (amb_next a) in
  os_env s = [] -> wf_ord (os_db s) -> tb_orders (os_db s) !! id = None ->
  wp (CreateOrder req) (fun r _ s' => forall o, r = Ok o -> cr_Status o = ORDER_STATUS_CONFIRMED /\
    exists id', cr_OrderId o = uuid_string id' /\ (sold id' req s s' \/ repeated id' req s s')) a s.
Proof.
  intros id Henv Hwf Hnone. unfold CreateOrder. wp_steps. destruct (validateCreateOrder req) as [u|e]; [|done].
  wp_steps. set (o := snapshot id req). change (snapshot (amb_uuid a (amb_next a)) req) with o.
  eapply wp_mono; [apply wp_conj; [apply wp_conj;
    [by apply (createOrder_spec o); [split; [by rewrite Henv|done]|]|by apply createOrder_world]
    |by apply createOrder_unchanged]|].
  cbn. intros [[]|e] a1 s1 [[(Hs1 & _ & Hr1) Hw1] Hdup]; wp_steps; try done.
  - eapply wp_mono; [apply wp_conj; [by apply (run_saga_ok o (co_IdempotencyKey req))|by apply run_saga_world]|]. cbn.
    intros r a2 s2 [Hres (w2 & [_ <-] & Hok & _)] x ->. destruct (Hres x eq_refl) as [-> Hat].
    split; [done|]. exists id. split; [done|]. left. destruct (Hok eq_refl) as (i & H1 & H2 & H3). split_and!; [done..|]. by exists i.
  - rewrite (Hdup eq_refl) in *. eapply wp_mono; [by apply replay_ok|]. cbn.
    intros r a2 s2 Hr x Hx. destruct (Hr x Hx) as (? & id' & ? & ?). eauto 6.
Qed.
End Bought.

(** ** The site *)

Section Site.
Context `{U : UuidLib} `{!PgOrder U} {J : ProtoJson} {L : AuthLib} {T : JwtLib} {H : HttpLib}.
Context {R : Type} `{!RedisLib R}.
Variable organizers : gset string.
Variable api : API.

(** The services' states: accounts, orders with the inventory and the payments behind them,
    statistics, and the Redis the limiter counts in. *)
Record site := {
  st_auth : auth_state;
  st_orders : ord_state (world (R := R));
  st_stats : ana_db;
  st_limits : R;
}.

Definition in_auth {A} (m : prog auth_state A) : prog site A := fun a s =>
  let '(r, a', x) := m a (st_auth s) in
  (r, a', {| st_auth := x; st_orders := st_orders s; st_stats := st_stats s; st_limits := st_limits s |}).
Definition in_orders {A} (m : prog (ord_state world) A) : prog site A := fun a s =>
  let '(r, a', x) := m a (st_orders s) in
  (r, a', {| st_auth := st_auth s; st_orders := x; st_stats := st_stats s; st_limits := st_limits s |}).
Definition in_stats {A} (m : prog ana_db A) : prog site A := fun a s =>
  let '(r, a', x) := m a (st_stats s) in
  (r, a', {| st_auth := st_auth s; st_orders := st_orders s; st_stats := x; st_limits := st_limits s |}).
Definition in_limits {A} (m : prog R A) : prog site A := fun a s =>
  let '(r, a', x) := m a (st_limits s) in
  (r, a', {| st_auth := st_auth s; st_orders := st_orders s; st_stats := st_stats s; st_limits := x |}).

(** The inventory the gateway reads is the one the orders are sold from. *)
Definition in_shop {A} (m : prog (inv_state R) A) : prog site A := in_orders (fun a s =>
  let '(r, a', w) := in_inventory m a (os_world s) in
  (r, a', Build_ord_state (os_db s) w (os_outcomes s) (os_calls s) (os_env s))).

#[local] Instance site_services : Services site := {|
  svc_Register req := in_auth (Register organizers req);
  svc_Login req := in_auth (Login req);
  svc_Refresh t := in_auth (Refresh t);
  svc_Logout t := in_auth (Logout t);
  svc_CreateEvent req := in_shop (CreateEvent req);
  svc_GetEvent req := in_shop (GetEvent req);
  svc_ListEvents req := in_shop (ListEvents req);
  svc_ListSeats req := in_shop (ListSeats req);
  svc_CreateOrder req := in_orders (CreateOrder req);
  svc_GetOrder req := in_orders (GetOrder req);
  svc_ListEventStats n := in_stats (ListEventStats n);
  lim_Allow key n window := in_limits (Allow key n window);
|}.

(** *** What a purchase request does to the orders *)

Implicit Types (g : gateway site) (a : ambient).

(** Time passes and ids are drawn; the orders and the record of calls stay. *)
Definition later a a' : Prop := amb_uuid a' = amb_uuid a /\ amb_next a <= amb_next a'.
Definition same g g' : Prop := st_orders (gw_world g') = st_orders (gw_world g) /\ gw_calls g' = gw_calls g.

Definition quiet {A} (m : prog (gateway site) A) : Prop :=
  forall a g, wp m (fun _ a' g' => later a a' /\ same g g') a g.

Lemma later_refl a : later a a.
Proof. done. Qed.
Lemma later_trans a a' a'' : later a a' -> later a' a'' -> later a a''.
Proof. intros [E1 H1] [E2 H2]. split; [by rewrite E2|lia]. Qed.
Lemma later_drop_fate a : later a (drop_fate a).
Proof. split; [apply drop_fate_uuid|by rewrite drop_fate_next]. Qed.
Lemma same_trans g g' g'' : same g g' -> same g' g'' -> same g g''.
Proof. intros [E1 H1] [E2 H2]. split; congruence. Qed.

Lemma quiet_bind {A B} (m : prog (gateway site) A) (k : A -> prog (gateway site) B) :
  quiet m -> (forall x, quiet (k x)) -> quiet (x ← m; k x).
Proof.
  intros Hm Hk a g. apply wp_bind. eapply wp_mono; [apply Hm|]. cbn. intros [x|e] a1 g1 [H1 H2]; [|done].
  eapply wp_mono; [apply Hk|]. cbn. intros _ a2 g2 [H3 H4]. split; [by eapply later_trans|by eapply same_trans].
Qed.

Lemma quiet_ret {A} (x : A) : quiet (mret x).
Proof. intros a g. wp_steps. done. Qed.

Lemma quiet_modify f : (forall g, same g (f g)) -> quiet (modify f).
Proof. intros Hf a g. wp_steps. split; [done|apply Hf]. Qed.

Lemma quiet_get {A} (k : gateway site -> prog (gateway site) A) :
  (forall g, quiet (k g)) -> quiet (g ← get_state; k g).
Proof. intros Hk a g. wp_steps. apply Hk. Qed.

Lemma quiet_throw {A} e : quiet (throw (A := A) e).
Proof. intros a g. by wp_steps. Qed.

Lemma quiet_lift {A} (r : res A) : quiet (lift_res r).
Proof. destruct r; [apply quiet_ret|apply quiet_throw]. Qed.

Lemma quiet_writer f : quiet (on_writer f).
Proof. by apply quiet_modify. Qed.

Lemma quiet_writeJSON st v : quiet (writeJSON st v).
Proof. unfold writeJSON. repeat (apply quiet_bind; [apply quiet_writer|intros _]). apply quiet_writer. Qed.

Lemma quiet_fail e : quiet (Gateway.fail e).
Proof. unfold Gateway.fail. destruct (httpError e) as [[st c] m]. apply quiet_writeJSON. Qed.

Lemma quiet_decodeJSON {A} (fs : list (field A)) zero r : quiet (decodeJSON fs zero r).
Proof.
  unfold decodeJSON. cbv zeta. repeat case_match; try apply quiet_ret;
    (apply quiet_bind; [apply quiet_writeJSON|intros _; apply quiet_ret]).
Qed.

(** The limiter has its own Redis. *)
Lemma quiet_allow key n window : quiet (allow key n window).
Proof.
  unfold allow. apply quiet_bind.
  - intros a g. apply wp_attempt. unfold wp, in_world. cbn. unfold in_limits.
    assert (Hl : wp (Allow key n window) (fun _ a' _ => later a a') a (st_limits (gw_world g))).
    { unfold Allow. wp_steps; apply later_drop_fate. }
    unfold wp in Hl. destruct (Allow _ _ _ a _) as [[r a'] x]. done.
  - intros [x|e]; [|apply quiet_ret]. repeat (apply quiet_bind; [apply quiet_writer|intros _]).
    case_match; [apply quiet_ret|]. apply quiet_bind; [by apply quiet_modify|intros _]. cbv zeta.
    repeat (apply quiet_bind; [first [apply quiet_writer|apply quiet_writeJSON]|intros _]). apply quiet_ret.
Qed.

(** Either nothing was bought, or one order was placed, on the orders as they were. *)
Definition placed a g g' : Prop := same g g' \/
  exists q r a1 a2, later a a1 /\ gw_calls g' = gw_calls g ++ [SCreateOrder q r] /\
    rpc (CreateOrder q) a1 (st_orders (gw_world g)) = (r, a2, st_orders (gw_world g')).

Lemma placed_same a g g' g'' : placed a g g' -> same g' g'' -> placed a g g''.
Proof.
  intros [Hs|(q & r & a1 & a2 & Hl & Hc & Hr)] Hs'; [left; by eapply same_trans|]. destruct Hs' as [E1 E2].
  right. exists q, r, a1, a2. rewrite E1, E2. done.
Qed.

(** [m] places at most one order when it is run after [a0] and [g0]. *)
Definition shops (a0 : ambient) (g0 : gateway site) {A} (m : prog (gateway site) A) : Prop :=
  forall a g, later a0 a -> same g0 g -> wp m (fun _ _ g' => placed a0 g0 g') a g.

Section Shops.
Variables (a0 : ambient) (g0 : gateway site).

Lemma shops_quiet {A} (m : prog (gateway site) A) : quiet m -> shops a0 g0 m.
Proof.
  intros Hm a g Ha Hg. eapply wp_mono; [apply Hm|]. cbn. intros _ a' g' [_ Hs]. left. by eapply same_trans.
Qed.

Lemma shops_after {A B} (m : prog (gateway site) A) (k : A -> prog (gateway site) B) :
  quiet m -> (forall x, shops a0 g0 (k x)) -> shops a0 g0 (x ← m; k x).
Proof.
  intros Hm Hk a g Ha Hg. apply wp_bind. eapply wp_mono; [apply Hm|]. cbn. intros [x|e] a' g' [H1 H2].
  - apply Hk; [by eapply later_trans|by eapply same_trans].
  - left. by eapply same_trans.
Qed.

Lemma shops_before {A B} (m : prog (gateway site) A) (k : res A -> prog (gateway site) B) :
  shops a0 g0 m -> (forall x, quiet (k x)) -> shops a0 g0 (x ← attempt m; k x).
Proof.
  intros Hm Hk a g Ha Hg. apply wp_bind, wp_attempt. eapply wp_mono; [by apply Hm|]. cbn. intros x a' g' Hp.
  eapply wp_mono; [apply Hk|]. cbn. intros _ a2 g2 [_ Hs]. by eapply placed_same.
Qed.

Lemma createOrder_shops r : shops a0 g0 (Gateway.createOrder api r).
Proof.
  unfold Gateway.createOrder. destruct (rq_Claims r) as [c|]; [|apply shops_quiet, quiet_writeJSON].
  apply shops_after; [apply quiet_decodeJSON|]. intros [b|]; [|apply shops_quiet, quiet_ret]. cbv zeta.
  repeat (case_match; [apply shops_quiet, quiet_writeJSON|]).
  intros a g Ha Hg. unfold call. wp_steps. unfold wp at 1, in_world.
  set (q := Build_CreateOrderRequest _ _ _ _ _).
  assert (E : forall a w, rpc (svc_CreateOrder q) a w = in_orders (rpc (CreateOrder q)) a w).
  { intros a' [w1 w2 w3 w4]. unfold rpc, in_orders, mbind, prog_bind, next_fate. destruct (pop_fate a') as [[] a2]; cbn;
      try (unfold attempt, in_orders; cbn; destruct (CreateOrder q a2 w2) as [[[]?]?]); done. }
  rewrite E. unfold in_orders. destruct (rpc (CreateOrder q) a (st_orders (gw_world g))) as [[x a1] s1] eqn:Hr.
  cbn beta iota. apply wp_bind, wp_modify, wp_ret. cbn beta.
  match goal with |- wp _ _ _ ?g1 => assert (Hp : placed a0 g0 g1) end.
  { right. exists q, x, a, a1. destruct Hg as [E1 E2]. cbn. rewrite <- E1, Hr, E2. done. }
  destruct x as [o|e].
  - eapply wp_mono; [apply quiet_writeJSON|]. cbn. intros _ a2 g2 [_ Hs]. by eapply placed_same.
  - eapply wp_mono; [apply quiet_fail|]. cbn. intros _ a2 g2 [_ Hs]. by eapply placed_same.
Qed.

(** The middleware keeps that. *)
Ltac quietly :=
  repeat lazymatch goal with
  | |- quiet (mret _) => apply quiet_ret
  | |- quiet (throw _) => apply quiet_throw
  | |- quiet (lift_res _) => apply quiet_lift
  | |- quiet (on_writer _) => apply quiet_writer
  | |- quiet (writeJSON _ _) => apply quiet_writeJSON
  | |- quiet (writeError _ _ _) => apply quiet_writeJSON
  | |- quiet (modify _) => by apply quiet_modify
  | |- quiet (get_state ≫= _) => apply quiet_get; intros ?
  | |- quiet (_ ≫= _) => apply quiet_bind; [|intros ?]
  | |- quiet (match ?x with _ => _ end) => destruct x
  end.

Lemma recorded_shops (next : prog (gateway site) unit) (k : res unit -> prog (gateway site) unit) :
  shops a0 g0 next -> (forall x, quiet (k x)) ->
  shops a0 g0 (_ ← on_writer push_recorder; out ← attempt next; k out).
Proof. intros Hn Hk. apply shops_after; [apply quiet_writer|intros _]. by apply shops_before. Qed.

Lemma instrument_shops name (next : handler) r :
  shops a0 g0 (next r) -> shops a0 g0 (instrument name (spanName name next) r).
Proof.
  intros Hn. unfold instrument. apply shops_after; [by apply quiet_modify|intros _]. apply recorded_shops.
  - apply shops_after; [by apply quiet_modify|done].
  - intros x. quietly.
Qed.

Lemma limit_shops name n window key (next : handler) r :
  shops a0 g0 (next r) -> shops a0 g0 (limit name n window key next r).
Proof.
  intros Hn. unfold limit. apply shops_after; [apply quiet_allow|]. intros []; [done|apply shops_quiet, quiet_ret].
Qed.

Lemma authenticate_shops (next : handler) r :
  (forall c, shops a0 g0 (next (with_claims c r))) -> shops a0 g0 (authenticate next r).
Proof.
  intros Hn. unfold authenticate. destruct (bearerToken r) as [tok|]; [|apply shops_quiet; quietly].
  apply shops_after; [intros a g; by wp_steps|]. intros now. destruct (Verify now tok); [|apply shops_quiet; quietly].
  apply shops_after; [by apply quiet_modify|done].
Qed.

Lemma wrap_shops (h : handler) r : (forall r', rq_Method r' = rq_Method r -> rq_Path r' = rq_Path r -> shops a0 g0 (h r')) ->
  shops a0 g0 (wrap h r).
Proof.
  intros Hh. unfold wrap, chain. cbn. unfold requestID. apply shops_after.
  { case_match; [apply quiet_ret|]. apply quiet_bind; [|intros; apply quiet_ret]. intros a g. wp_steps.
    split; [split; [done|cbn; lia]|done]. }
  intros id. apply shops_after; [apply quiet_writer|intros _]. apply shops_after; [by apply quiet_modify|intros _].
  unfold logging. apply recorded_shops; [|intros x; quietly]. unfold recoverer. apply shops_before; [|intros x; quietly].
  unfold securityHeaders. repeat (apply shops_after; [apply quiet_writer|intros _]). by apply Hh.
Qed.

(** The route depends on the method and the path only. *)
Lemma find_route_ext (l : list (@route U site)) r r' :
  rq_Method r = rq_Method r' -> rq_Path r = rq_Path r' -> find_route l r = find_route l r'.
Proof. intros Hm Hp. induction l as [|rt l IH]; [done|]. cbn. by rewrite Hm, Hp, IH. Qed.

Definition some_purchase : Request := {|
  rq_Method := "POST"; rq_Path := ["api"; "orders"]; rq_Header := ∅; rq_Cookies := []; rq_Query := ∅; rq_Body := "";
  rq_RemoteAddr := ""; rq_PathValue := ""; rq_RequestID := ""; rq_Claims := None |}.

Lemma NewAPI_shops r : rq_Method r = "POST" -> rq_Path r = ["api"; "orders"] -> shops a0 g0 (NewAPI api r).
Proof.
  intros Hm Hp. apply wrap_shops. intros r' Hm' Hp'. unfold mux.
  assert (exists rt v, find_route (routes api) r' = Some (rt, v) /\
    chain (rt_handler rt) (rt_middlewares rt) = authenticate (perUser api "orders" 20 (Gateway.createOrder api)))
    as (rt & v & Hrt & E).
  { rewrite (find_route_ext _ r' some_purchase) by (cbn; congruence). eexists _, _. split; reflexivity. }
  rewrite Hrt. apply instrument_shops. rewrite E. apply authenticate_shops. intros c. apply limit_shops, createOrder_shops.
Qed.
End Shops.

Context `{!UuidLaws U} `{!ProtoJsonLaws J}.

(** No id still to be drawn is the id of an order. *)
Definition ids_fresh a (s : ord_state (world (R := R))) : Prop :=
  forall k, amb_next a <= k -> tb_orders (os_db s) !! amb_uuid a k = None.

Lemma rpc_CreateOrder_ok q a a1 s :
  later a a1 -> ids_fresh a s -> os_env s = [] -> wf_ord (os_db s) ->
  wp (rpc (CreateOrder q)) (fun r _ s' => forall o, r = Ok o -> cr_Status o = ORDER_STATUS_CONFIRMED /\
    exists id, cr_OrderId o = uuid_string id /\ (sold id q s s' \/ repeated id q s s')) a1 s.
Proof.
  intros [E Hle] Hf Henv Hwf. apply wp_rpc; [done|].
  eapply wp_mono; [apply CreateOrder_ok; [done..|]|].
  - rewrite drop_fate_uuid, drop_fate_next, E. by apply Hf.
  - cbn. intros [o|e] a' s' Ho; by split.
Qed.

(** C2: what the browser is told about a purchase is true in every database.  Whenever a
    purchase request to the site is answered with an order, whatever failed on the way, the
    order is confirmed, and it belongs to the user of the request's token: one to ten seats at
    the gateway's price.  Either it is new, and then exactly its seats went from available
    over reserved to sold to it in the inventory, its amount was charged with one successful
    payment, and it is stored as confirmed; or it is the order of an earlier request with the
    same user, key and content, and nothing has changed.  No other request runs in order-svc
    meanwhile. *)
Theorem purchase_at_the_gateway r a g rs v :
  gw_writer g = new_writer -> rq_Method r = "POST" -> rq_Path r = ["api"; "orders"] ->
  os_env (st_orders (gw_world g)) = [] -> wf_ord (os_db (st_orders (gw_world g))) ->
  ids_fresh a (st_orders (gw_world g)) ->
  wr_Sent (gw_writer (NewAPI api r a g).2) = Some rs -> rs_Body rs = [POrder v] ->
  exists c q id, authentic (amb_now a) r c /\ co_UserId q = cl_UserID c /\
    (1 <= Z.of_nat (length (co_SeatIds q)) <= 10)%Z /\
    co_AmountCents q = to_int64 (Z.of_nat (length (co_SeatIds q)) * ap_seatPriceCents api) /\
    co_IdempotencyKey q = header_get "Idempotency-Key" r /\
    ov_OrderID v = uuid_string id /\ ov_Status v = "confirmed" /\
    let s := st_orders (gw_world g) in let s' := st_orders (gw_world (NewAPI api r a g).2) in
    sold id q s s' \/ repeated id q s s'.
Proof.
  intros Hw Hm Hp Henv Hwf Hfresh.
  pose proof (NewAPI_serves api r a g Hw) as Hs.
  pose proof (NewAPI_shops a g r Hm Hp a g (later_refl a) (conj eq_refl eq_refl)) as Hpl. unfold wp in Hs, Hpl.
  destruct (NewAPI api r a g) as [[out a'] g']. cbn. destruct Hs as (_ & cs & rs' & [Hcs Hperm Hsd Htell _ _ _ _ _ _ _]). intros Hsent Hbody.
  rewrite Hsd in Hsent. injection Hsent as ->. rewrite Hbody in Htell. cbn in Htell.
  destruct Hpl as [[_ Hc]|(q & x & a1 & a2 & Hl & Hc & Hrun)]; rewrite Hcs in Hc.
  { assert (cs = []) as -> by (apply (app_inv_head (gw_calls g)); by rewrite app_nil_r).
    destruct Htell as [(? & ? & Hin & _)|(? & ? & ? & Hin & _)]; by apply elem_of_nil in Hin. }
  apply app_inv_head in Hc as ->. apply Forall_singleton in Hperm as (c & Hau & Hu & Hn & Ham & Hk & _).
  destruct Htell as [(q' & o & Hin & ->)|(? & ? & ? & Hin & _)]; apply list_elem_of_singleton in Hin; [|done].
  injection Hin as -> <-.
  pose proof (rpc_CreateOrder_ok q a a1 _ Hl Hfresh Henv Hwf) as Hok. unfold wp in Hok. rewrite Hrun in Hok.
  destruct (Hok o eq_refl) as (Hst & id & Hid & Hwas). exists c, q, id. split_and!; try (done || lia). cbn. by rewrite Hst.
Qed.
End Site.

(** ** Witness: a visitor registers, logs in and buys *)

Section Visit.
#[local] Instance site_http : HttpLib := {|
  json_read := fun t =>
    if bool_decide (t = "<ada>") then ReadValue (JObject [("email", JString "Ada@x.io"); ("password", JString "password")]) ""
    else if bool_decide (t = "<two seats>")
    then ReadValue (JObject [("event_id", JString "ux0"); ("seat_ids", JArray [JString "ux1"; JString "ux2"])]) ""
    else ReadBad;
  quote := id;
  parse_media_type := Some;
  parse_ip := fun _ => false;
  split_host := Some;
|}.

#[local] Instance demo_site : Services (U := ref_uuid) (site (R := store)) := site_services ∅.

Definition post (path : list string) (token body : string) : Request := {|
  rq_Method := "POST"; rq_Path := path;
  rq_Header := list_to_map [("Authorization", "Bearer " +:+ token); ("Content-Type", "application/json");
                            ("Idempotency-Key", "k1")];
  rq_Cookies := []; rq_Query := ∅; rq_Body := body; rq_RemoteAddr := "10.0.0.1"; rq_PathValue := "";
  rq_RequestID := ""; rq_Claims := None |}.

(** A browser's request: a new response is written on the world as it is. *)
Definition visit (r : Request) (p : string) (w : site (R := store)) : gateway (site (R := store)) :=
  (NewAPI demo_api r (amb0 [] (names p) 1 1) (Build_gateway w new_writer "" "" [] 0 [] [] [])).2.

Definition opening : site (R := store) :=
  {| st_auth := no_users; st_orders := gig_world; st_stats := {| tb_processed := ∅; tb_stats := ∅ |};
     st_limits := (∅ : gmap string entry) |}.

Definition registered := visit (post ["api"; "auth"; "register"] "" "<ada>") "r" opening.
Definition logged_in := visit (post ["api"; "auth"; "login"] "" "<ada>") "l" (gw_world registered).
Definition ada_token : string :=
  match wr_Sent (gw_writer logged_in) with
  | Some rs => match rs_Body rs with [PSession v] => sv_AccessToken v | _ => "" end
  | None => ""
  end.
Definition buying : Request := post ["api"; "orders"] ada_token "<two seats>".
Definition bought := visit buying "o" (gw_world logged_in).
Definition bought_again := visit buying "p" (gw_world bought).

Definition two_seats_view : orderView :=
  {| ov_OrderID := "uo1"; ov_EventID := ""; ov_SeatIDs := []; ov_AmountCents := 0; ov_Status := "confirmed" |}.

(** The answer, and that asking again with the same key repeats it. *)
Lemma bought_answer :
  rs_Body <$> wr_Sent (gw_writer bought) = Some [POrder two_seats_view] /\
  rs_Body <$> wr_Sent (gw_writer bought_again) = Some [POrder two_seats_view].
Proof. split; vm_compute; reflexivity. Qed.

Lemma logged_in_orders : os_db (st_orders (gw_world logged_in)) = os_db no_orders.
Proof. vm_compute. reflexivity. Qed.

Lemma purchase_at_the_gateway_witness :
  exists c q id, authentic 1 buying c /\ co_UserId q = cl_UserID c /\ uuid_string id = "uo1" /\
    (sold id q (st_orders (gw_world logged_in)) (st_orders (gw_world bought)) \/
     repeated id q (st_orders (gw_world logged_in)) (st_orders (gw_world bought))).
Proof.
  pose proof (proj1 bought_answer) as E. destruct (wr_Sent (gw_writer bought)) as [rs|] eqn:Hs; [|discriminate].
  cbn in E. injection E as E.
  destruct (purchase_at_the_gateway ∅ demo_api buying (amb0 [] (names "o") 1 1)
    (Build_gateway (gw_world logged_in) new_writer "" "" [] 0 [] [] []) rs two_seats_view)
    as (c & q & id & Hc & Hu & _ & _ & _ & Hid & _ & Hsold).
  - reflexivity.
  - reflexivity.
  - reflexivity.
  - vm_compute. reflexivity.
  - cbn [gw_world]. rewrite logged_in_orders. exact no_orders_wf.
  - intros k _. cbn [gw_world]. rewrite logged_in_orders. reflexivity.
  - exact Hs.
  - exact E.
  - exists c, q, id. split; [exact Hc|]. split; [exact Hu|]. split; [symmetry; exact Hid|exact Hsold].
Defined.
End Visit.
